(* ===== verification/_CoqProject ===== *)
-Q . S2P
Prelude.v
Keeps.v
Riscv.v
Spinlock.v
Mem.v
CString.v
Kalloc.v
Vm.v
VmProofs.v
VmUser.v
VmCopy.v
Sleeplock.v
Block.v
Bio.v
BufCache.v
BioProofs.v
Log.v
LogProofs.v
TxnDisk.v
LogTxn.v
Ring.v
Pipe.v
Uart.v
Console.v
Ulib.v
Printf.v
Fs.v
FsBlocks.v
FsPath.v
FsInode.v
FsFile.v
FsData.v
FsTrunc.v
FsDir.v
Proc.v
ProcTable.v
ProcSched.v
Grep.v
Virtio.v
VirtioProofs.v
VirtioRefine.v
File.v
Syscall.v
FileSys.v
Exec.v
Sysfile.v
Sysproc.v
Systable.v
FdView.v
FdFile.v
FdRefs.v
Csr.v
Trap.v
Kvm.v
Start.v
Sh.v
ShParse.v
ShCmd.v
ShTotal.v
ShRun.v
Umalloc.v
UmallocHeap.v
UmallocProofs.v
UmallocRefine.v
UserProg.v
UserSeq.v
Primes.v
Pingpong.v
Find.v
