(* ===== verification/Prelude.v ===== *)
(** * xv6 (pgtbl, syscall and utilities labs): verification development

    The program is xv6, a small Unix for RISC-V multiprocessors, with the
    solutions of the labs: [trace], [sysinfo] and [pgaccess] in the kernel,
    and user programs.  The sources are under
    src/pgtbl/system_backup/ (kernel/ and user/), compiled with LAB_PGTBL;
    the files of src/syscall/ and src/utilities/ are earlier copies of some
    of them.  A path kernel/x.c or user/x.c below is relative to that
    directory.

    ** How the code is translated

    A C function that reads and writes state of type [S] is a [K S A], a
    function from the state to an outcome: it returns a value and the new
    state, it calls [panic], it goes to sleep with nobody left to wake it
    ([Asleep]), or the bound of a loop ran out ([OutOfFuel]).  A component has
    a record for its state and one definition per function, with the guards,
    early returns and panics of the code; a component that uses another one
    has the other's state inside its own and runs its operations with [zoom]
    through a [Lens].  Integers are [Z], with the conversions of C written out
    ([u8], [u32], [u64], [i32], ...) where a value is stored.  Physical memory
    is a map from addresses to bytes ([Mem]); a [char] array that is not in
    it is a list of bytes.  Pointers into a table are indices.  Locks are the
    set of locks held by the code that runs ([Spinlock.acquire],
    [Spinlock.release], which panic as the code does); [Spinlock.Hart] has
    the locks themselves, with [push_off] and [pop_off], and all harts.
    Linker addresses are the class [Layout], assembly ([swtch], [userret])
    and devices are parameters.

    ** The parts, and the files that model them

    - [Prelude], [Keeps], [Ring]: integers, the monad and its rules, arrays;
      invariants kept by a computation; ring buffers.
    - [Riscv], [Csr]: kernel/riscv.h, memlayout.h, param.h, fcntl.h: constants
      and paging macros; the registers of a hart.
    - [Spinlock]: kernel/spinlock.c.  The lock protocol interleaved over any
      number of harts excludes two holders; on one hart the code refines the
      abstract operations the other files use.
    - [Mem], [CString]: byte memory, and kernel/string.c on it.
    - [Kalloc]: kernel/kalloc.c, free list in memory.  Allocation partitions
      the pages; [kinit] terminates with all of them free.
    - [Vm], [VmProofs], [VmUser], [VmCopy]: kernel/vm.c.  Three-level page
      tables in memory, their invariant, mapping, growing and unmapping of
      user memory with the error paths, copying across the boundary.
    - [Sleeplock], [Block], [Bio], [BufCache], [BioProofs]: kernel/sleeplock.c
      and kernel/bio.c, with the doubly linked LRU list.  [BufCache] is the
      class of what the cache promises; [BioProofs] shows that bio.c
      implements it.
    - [Virtio], [VirtioProofs], [VirtioRefine]: kernel/virtio_disk.c.  Under
      every interleaving of calls, interrupts and device steps, driver and
      device refine a disk that moves a block in one step, without panics.
    - [Log], [LogProofs], [TxnDisk], [LogTxn]: kernel/log.c over [BufCache].
      A crash at any write of a commit leaves all or nothing of a transaction
      after recovery, also when recovery itself crashes.  [TxnDisk] is the
      class of what the file system uses; [LogTxn] is its instance.
    - [Fs], [FsBlocks], [FsPath], [FsInode], [FsFile], [FsData], [FsTrunc],
      [FsDir]: kernel/fs.c over [TxnDisk].  The block bitmap, path elements,
      inodes on disk and in memory; the addresses of a file as distinct data
      blocks, kept by [bmap]; [readi] and [writei] on a file as a sequence of
      bytes; [itrunc]; [dirlookup] on the entries of a directory.
    - [File], [Pipe]: kernel/file.c and kernel/pipe.c.
    - [Uart], [Console], [Printf]: kernel/uart.c, console.c, printf.c and
      user/printf.c.  Output in order, line editing against an abstract
      editor, the two printf against each other.
    - [Proc], [ProcTable], [ProcSched]: kernel/proc.c.  Unique pids over
      every history, fair scheduling, [exit] and [wait].
    - [Syscall], [FileSys], [Exec], [Sysfile], [Sysproc], [Systable]:
      kernel/syscall.c, exec.c, sysfile.c, sysproc.c.  [FileSys] instantiates
      the class [Proc.FileOps] with the file layer, so that the handlers run
      on the whole state.
    - [FdView], [FdFile], [FdRefs]: over every sequence of system calls of
      all processes the reference count of an open file is the number of
      descriptors that refer to it.
    - [Trap]: kernel/trap.c and kernel/plic.c.  What user mode and the next
      trap rely on holds whenever a trap ends.
    - [Kvm], [Start]: the kernel's page table maps exactly what kernel/vm.c
      says, within the memory [kinit] frees; kernel/start.c.
    - [Sh], [ShParse], [ShCmd], [ShTotal], [ShRun]: user/sh.c.  The parser
      accepts exactly the spellings of a grammar and returns the command; the
      programs of a command start with the descriptors it says.
    - [Umalloc], [UmallocHeap], [UmallocProofs], [UmallocRefine]:
      user/umalloc.c.  The ring of free blocks implements a heap cut into
      blocks, for programs that write to their own blocks.
    - [UserProg], [UserSeq], [Primes], [Pingpong], [Find]: processes that run
      in any order on shared pipes; user/primes.c and user/pingpong.c under every
      schedule; user/find.c against the tree below a directory.
    - [Ulib], [Grep]: user/ulib.c, and the matcher of user/grep.c against the
      language of the pattern.

    ** Bounds

    A loop that is not structural has a bound computed from its input: the
    number of pages for walks of the free list, the size of a buffer for
    loops over it, the number of table entries, the characters left for the
    loops of the shell (and four calls per character for its recursion),
    NUM for chains and rings of the disk.  The theorems say that the
    functions return, so the bounds are enough; where the code may wait for
    ever ([wait], [sleep]) the number of turns is a parameter.  A function
    that sleeps is cut there: the outcome [Asleep] has the state in which it
    sleeps, and the disk driver is split at its two sleeps.

    ** Not modelled

    The assembly files (entry.S, kernelvec.S, swtch.S, trampoline.S,
    initcode.S), main.c apart from the initialisation of memory (it orders
    calls of functions that are modelled), ramdisk.c (not linked), mkfs (a host
    program), the test programs (usertests.c, grind.c and others), the other
    user programs, and src/syscall/, whose kernel files are older
    versions of the ones modelled.  Memory ordering is sequential
    consistency: [__sync_synchronize] is no operation. *)

From Stdlib Require Export ZArith Lia.
From stdpp Require Export prelude numbers strings gmap list.

#[global] Open Scope Z_scope.

(** ** Machine integers

    A w-bit C integer is a [Z]; the functions below are the conversions the
    C standard (and the RISC-V ABI, where [char] is unsigned) applies when a
    value is stored into a variable of that type. *)

Definition u8 (z : Z) : Z := z mod 2 ^ 8.
Definition u16 (z : Z) : Z := z mod 2 ^ 16.
Definition u32 (z : Z) : Z := z mod 2 ^ 32.
Definition u64 (z : Z) : Z := z mod 2 ^ 64.
Definition i16 (z : Z) : Z := (z + 2 ^ 15) mod 2 ^ 16 - 2 ^ 15.
Definition i32 (z : Z) : Z := (z + 2 ^ 31) mod 2 ^ 32 - 2 ^ 31.

#[global] Arguments u8 : simpl never.
#[global] Arguments u16 : simpl never.
#[global] Arguments u32 : simpl never.
#[global] Arguments u64 : simpl never.
#[global] Arguments i16 : simpl never.
#[global] Arguments i32 : simpl never.

(** Linear arithmetic extended with the equations of [/] and [mod]. *)
Ltac zlia := Z.div_mod_to_equations; nia.
Ltac dlia := Z.div_mod_to_equations; lia.

Lemma u8_range z : 0 <= u8 z < 256.
Proof. apply Z.mod_pos_bound; lia. Qed.

Lemma u16_range z : 0 <= u16 z < 2 ^ 16.
Proof. apply Z.mod_pos_bound; lia. Qed.

Lemma u32_range z : 0 <= u32 z < 2 ^ 32.
Proof. apply Z.mod_pos_bound; lia. Qed.

Lemma u64_range z : 0 <= u64 z < 2 ^ 64.
Proof. apply Z.mod_pos_bound; lia. Qed.

Lemma i32_range z : - 2 ^ 31 <= i32 z < 2 ^ 31.
Proof.
  unfold i32. pose proof (Z.mod_pos_bound (z + 2 ^ 31) (2 ^ 32) ltac:(lia)). lia.
Qed.

Lemma u8_small z : 0 <= z < 256 -> u8 z = z.
Proof. apply Z.mod_small. Qed.

Lemma u16_small z : 0 <= z < 2 ^ 16 -> u16 z = z.
Proof. apply Z.mod_small. Qed.

Lemma u32_small z : 0 <= z < 2 ^ 32 -> u32 z = z.
Proof. apply Z.mod_small. Qed.

Lemma u64_small z : 0 <= z < 2 ^ 64 -> u64 z = z.
Proof. apply Z.mod_small. Qed.

Lemma i32_small z : - 2 ^ 31 <= z < 2 ^ 31 -> i32 z = z.
Proof. intros. unfold i32. rewrite Z.mod_small; lia. Qed.

Lemma i16_small z : - 2 ^ 15 <= z < 2 ^ 15 -> i16 z = z.
Proof. intros. unfold i16. rewrite Z.mod_small; lia. Qed.

(** Conversion to [int] changes a value by a multiple of [2 ^ 32]. *)
Lemma i32_wrap z : exists k, i32 z = z + k * 2 ^ 32.
Proof. exists (- ((z + 2 ^ 31) / 2 ^ 32)). unfold i32. rewrite Z.mod_eq by lia. ring. Qed.

Lemma i32_cong a b k : a = b + k * 2 ^ 32 -> i32 a = i32 b.
Proof.
  intros ->. unfold i32. f_equal. replace (b + k * 2 ^ 32 + 2 ^ 31) with (b + 2 ^ 31 + k * 2 ^ 32) by ring.
  apply Z_mod_plus_full.
Qed.

(** Truncating a sum to 32 bits may be done on the operands first. *)
Lemma u32_add_l a b : u32 (u32 a + b) = u32 (a + b).
Proof. unfold u32. apply Zplus_mod_idemp_l. Qed.

Lemma u32_add_r a b : u32 (a + u32 b) = u32 (a + b).
Proof. unfold u32. apply Zplus_mod_idemp_r. Qed.

Lemma u32_sub_l a b : u32 (u32 a - b) = u32 (a - b).
Proof. unfold u32. apply Zminus_mod_idemp_l. Qed.

Lemma u32_sub_r a b : u32 (a - u32 b) = u32 (a - b).
Proof. unfold u32. apply Zminus_mod_idemp_r. Qed.

Create HintDb word discriminated.
#[export] Hint Resolve u8_range u16_range u32_range u64_range i32_range : word.
Create Rewrite HintDb word.
#[export] Hint Rewrite u32_add_l u32_add_r u32_sub_l u32_sub_r : word.

(** ** C strings

    A [char] array is a list of byte values; [cstr] is the byte list of a
    string literal, without its terminating NUL. *)

Definition bytes := list Z.

Fixpoint cstr (s : string) : bytes :=
  match s with
  | EmptyString => []
  | String c s => Z.of_nat (Ascii.nat_of_ascii c) :: cstr s
  end.

Definition byte_ok (b : Z) : Prop := 0 <= b < 256.
Definition bytes_ok (l : bytes) : Prop := Forall byte_ok l.

(** ** The kernel monad

    A C function that reads and writes the global state [S] is a function
    from the state to an [outcome]: it returns a value and the new state, it
    calls [panic] (which never returns), it goes to sleep with nobody left to
    wake it, or the fuel of a bounded loop ran out. *)

Inductive outcome (S A : Type) : Type :=
| Ret (a : A) (s : S)
| Panic (msg : string)
| Asleep (chan : Z) (s : S)
| OutOfFuel.
Arguments Ret {S A} a s.
Arguments Panic {S A} msg.
Arguments Asleep {S A} chan s.
Arguments OutOfFuel {S A}.

Definition K (S A : Type) : Type := S -> outcome S A.

Definition kret {S A} (a : A) : K S A := fun s => Ret a s.

Definition kbind {S A B} (m : K S A) (f : A -> K S B) : K S B :=
  fun s =>
    match m s with
    | Ret a s' => f a s'
    | Panic e => Panic e
    | Asleep c s' => Asleep c s'
    | OutOfFuel => OutOfFuel
    end.

Definition kpanic {S A} (msg : string) : K S A := fun _ => Panic msg.
Definition kget {S} : K S S := fun s => Ret s s.
Definition kgets {S A} (f : S -> A) : K S A := fun s => Ret (f s) s.
Definition kmod {S} (f : S -> S) : K S unit := fun s => Ret tt (f s).
Definition kfuel {S A} : K S A := fun _ => OutOfFuel.
(** Give up the CPU on channel [c]; nothing is left to run in this process. *)
Definition ksleep {S A} (c : Z) : K S A := fun s => Asleep c s.
(** [if(c) m;] *)
Definition kwhen {S} (c : bool) (m : K S unit) : K S unit :=
  if c then m else kret tt.

Declare Scope k_scope.
Delimit Scope k_scope with k.
Notation "x <- c ;; d" := (kbind c (fun x => d))
  (at level 20, c at level 99, d at level 200, only parsing) : k_scope.
Notation "' p <- c ;; d" := (kbind c (fun p => d))
  (at level 20, p pattern, c at level 99, d at level 200, only parsing) : k_scope.
Notation "c >> d" := (kbind c (fun _ => d))
  (at level 100, d at level 200, right associativity) : k_scope.
Open Scope k_scope.

(** Total correctness: the computation returns, and [Q] holds. *)
Definition wp {S A} (m : K S A) (s : S) (Q : A -> S -> Prop) : Prop :=
  match m s with
  | Ret a s' => Q a s'
  | _ => False
  end.

(** Partial correctness with respect to [panic] and blocking: if the
    computation returns, [Q] holds. *)
Definition wlp {S A} (m : K S A) (s : S) (Q : A -> S -> Prop) : Prop :=
  match m s with
  | Ret a s' => Q a s'
  | _ => True
  end.

Section wp.
Context {S : Type}.

Lemma wp_ret {A} (a : A) (s : S) Q : wp (kret a) s Q <-> Q a s.
Proof. done. Qed.

Lemma wp_mod (f : S -> S) s Q : Q tt (f s) -> wp (kmod f) s Q.
Proof. done. Qed.

Lemma wp_bind {A B} (m : K S A) (f : A -> K S B) s Q :
  wp (kbind m f) s Q <-> wp m s (fun a s' => wp (f a) s' Q).
Proof. unfold wp, kbind. by destruct (m s). Qed.

Lemma wp_mono {A} (m : K S A) s (Q Q' : A -> S -> Prop) :
  wp m s Q -> (forall a s', Q a s' -> Q' a s') -> wp m s Q'.
Proof. unfold wp. destruct (m s); eauto. Qed.

Lemma wp_inv {A} (m : K S A) s Q :
  wp m s Q -> exists a s', m s = Ret a s' /\ Q a s'.
Proof. unfold wp. destruct (m s); naive_solver. Qed.

Lemma wp_of {A} (m : K S A) s a s' (Q : A -> S -> Prop) :
  m s = Ret a s' -> Q a s' -> wp m s Q.
Proof. unfold wp. by intros ->. Qed.

Lemma wlp_bind {A B} (m : K S A) (f : A -> K S B) s Q :
  wlp (kbind m f) s Q <-> wlp m s (fun a s' => wlp (f a) s' Q).
Proof. unfold wlp, kbind. by destruct (m s). Qed.

Lemma wlp_mono {A} (m : K S A) s (Q Q' : A -> S -> Prop) :
  wlp m s Q -> (forall a s', Q a s' -> Q' a s') -> wlp m s Q'.
Proof. unfold wlp. destruct (m s); eauto. Qed.

Lemma wlp_elim {A} (m : K S A) s a s' (Q : A -> S -> Prop) :
  wlp m s Q -> m s = Ret a s' -> Q a s'.
Proof. unfold wlp. intros H E. by rewrite E in H. Qed.

Lemma wp_wlp {A} (m : K S A) s Q : wp m s Q -> wlp m s Q.
Proof. unfold wp, wlp. by destruct (m s). Qed.

(** Inversion of a sequence that returned. *)
Lemma kbind_ret_inv {A B} (m : K S A) (f : A -> K S B) s b s' :
  kbind m f s = Ret b s' ->
  exists a s1, m s = Ret a s1 /\ f a s1 = Ret b s'.
Proof. unfold kbind. destruct (m s); naive_solver. Qed.

Lemma kbind_of {A B} (m : K S A) (f : A -> K S B) s a s1 :
  m s = Ret a s1 -> kbind m f s = f a s1.
Proof. unfold kbind. by intros ->. Qed.

Lemma kbind_assoc {A B C} (m : K S A) (f : A -> K S B) (g : B -> K S C) s :
  kbind (kbind m f) g s = kbind m (fun a => kbind (f a) g) s.
Proof. unfold kbind. by destruct (m s). Qed.

(** Congruence of [kbind], pointwise in the state. *)
Lemma kbind_ext {A B} (m m' : K S A) (f f' : A -> K S B) s :
  m s = m' s -> (forall a s', f a s' = f' a s') ->
  kbind m f s = kbind m' f' s.
Proof. unfold kbind. intros -> Hf. destruct (m' s); auto. Qed.
End wp.

(** ** Lenses: a component's state inside a larger one

    [zoom] runs an operation of a component on the part of the state that
    belongs to it. *)

Class Lens (S T : Type) := {
  lget : S -> T;
  lset : T -> S -> S;
  lget_lset : forall t s, lget (lset t s) = t;
  lset_lget : forall s, lset (lget s) s = s;
  lset_lset : forall t t' s, lset t (lset t' s) = lset t s;
}.

Definition zoom {S T A} `{Lens S T} (m : K T A) : K S A :=
  fun s =>
    match m (lget s) with
    | Ret a t => Ret a (lset t s)
    | Panic e => Panic e
    | Asleep c t => Asleep c (lset t s)
    | OutOfFuel => OutOfFuel
    end.

Section zoom.
Context {S T : Type} `{Lens S T}.

Lemma zoom_ret {A} (m : K T A) s a t :
  m (lget s) = Ret a t -> zoom m s = Ret a (lset t s).
Proof. unfold zoom. by intros ->. Qed.

Lemma wp_zoom {A} (m : K T A) s Q :
  wp (zoom m) s Q <-> wp m (lget s) (fun a t => Q a (lset t s)).
Proof. unfold wp, zoom. by destruct (m (lget s)). Qed.

Lemma wlp_zoom {A} (m : K T A) s Q :
  wlp (zoom m) s Q <-> wlp m (lget s) (fun a t => Q a (lset t s)).
Proof. unfold wlp, zoom. by destruct (m (lget s)). Qed.

Lemma zoom_kbind {A B} (m : K T A) (f : A -> K T B) s :
  zoom (kbind m f) s = kbind (zoom m) (fun a => zoom (f a)) s.
Proof.
  unfold zoom, kbind. destruct (m (lget s)) as [a t|?|? t|]; try done.
  rewrite lget_lset. destruct (f a t); by rewrite ?lset_lset.
Qed.
End zoom.

(** ** Tactics of the development *)

(** Split the conditions of a C [if] in the goal or in a hypothesis. *)
Ltac case_if :=
  match goal with
  | |- context [if ?c then _ else _] => let E := fresh "E" in destruct c eqn:E
  | H : context [if ?c then _ else _] |- _ =>
      let E := fresh "E" in destruct c eqn:E
  end.

(** Turn boolean comparisons of [Z] in the context into propositions. *)
Ltac zbool :=
  repeat match goal with
  | H : (_ && _)%bool = true |- _ => apply andb_true_iff in H; destruct H
  | H : (_ || _)%bool = false |- _ => apply orb_false_iff in H; destruct H
  | H : (_ || _)%bool = true |- _ => apply orb_true_iff in H
  | H : (_ && _)%bool = false |- _ => apply andb_false_iff in H
  | H : negb _ = true |- _ => apply negb_true_iff in H
  | H : negb _ = false |- _ => apply negb_false_iff in H
  | H : (_ =? _) = true |- _ => apply Z.eqb_eq in H
  | H : (_ =? _) = false |- _ => apply Z.eqb_neq in H
  | H : (_ <? _) = true |- _ => apply Z.ltb_lt in H
  | H : (_ <? _) = false |- _ => apply Z.ltb_ge in H
  | H : (_ <=? _) = true |- _ => apply Z.leb_le in H
  | H : (_ <=? _) = false |- _ => apply Z.leb_gt in H
  | H : bool_decide _ = true |- _ => apply bool_decide_eq_true in H
  | H : bool_decide _ = false |- _ => apply bool_decide_eq_false in H
  end.

(** Unfold the combinators of the monad, and nothing else. *)
Ltac kred := cbv beta iota zeta delta [kbind kret kgets kget kmod kwhen kpanic kfuel ksleep].
Tactic Notation "kred" "in" hyp(H) :=
  cbv beta iota zeta delta [kbind kret kgets kget kmod kwhen kpanic kfuel ksleep] in H.

(** Invert a returned sequence of computations step by step. *)
Ltac kinv H :=
  let a := fresh "a" in let s1 := fresh "s" in let E := fresh "E" in
  apply kbind_ret_inv in H; destruct H as (a & s1 & E & H).

(** ** Lists indexed by [Z], as C arrays are *)

Definition nthZ {A} (d : A) (l : list A) (i : Z) : A :=
  if i <? 0 then d else nth (Z.to_nat i) l d.

Definition updZ {A} (l : list A) (i : Z) (x : A) : list A :=
  if i <? 0 then l else <[Z.to_nat i := x]> l.

Section arrays.
Context {A : Type}.
Implicit Types (l : list A) (d x : A).

Lemma length_updZ l i x : length (updZ l i x) = length l.
Proof. unfold updZ. case_if; [done | apply length_insert]. Qed.

Lemma nthZ_updZ_eq d l i x :
  0 <= i < Z.of_nat (length l) -> nthZ d (updZ l i x) i = x.
Proof.
  intros. unfold nthZ, updZ. case_if; zbool; [lia |].
  apply nth_lookup_Some, list_lookup_insert_eq. lia.
Qed.

Lemma nthZ_updZ_ne d l i j x : i <> j -> nthZ d (updZ l i x) j = nthZ d l j.
Proof.
  intros. unfold nthZ, updZ. destruct (j <? 0) eqn:?, (i <? 0) eqn:?; try done.
  zbool. rewrite !nth_lookup, list_lookup_insert_ne by lia. done.
Qed.

Lemma nthZ_updZ d l i j x :
  0 <= i < Z.of_nat (length l) ->
  nthZ d (updZ l i x) j = if j =? i then x else nthZ d l j.
Proof.
  intros. case_if; zbool; subst; [by apply nthZ_updZ_eq |].
  by apply nthZ_updZ_ne.
Qed.

Lemma nthZ_ge d l i : Z.of_nat (length l) <= i -> nthZ d l i = d.
Proof. intros. unfold nthZ. case_if; [done |]. apply nth_overflow. lia. Qed.

Lemma nthZ_ext d l l' :
  length l = length l' ->
  (forall i, 0 <= i < Z.of_nat (length l) -> nthZ d l i = nthZ d l' i) ->
  l = l'.
Proof.
  intros Hlen Hn. apply nth_ext with (d := d) (d' := d); [done |].
  intros n Hlt. specialize (Hn (Z.of_nat n) ltac:(lia)).
  unfold nthZ in Hn. case_if; zbool; [lia |]. by rewrite !Nat2Z.id in Hn.
Qed.

Lemma nthZ_hd d x l : nthZ d (x :: l) 0 = x.
Proof. done. Qed.

Lemma nthZ_cons d x l k : 0 < k -> nthZ d (x :: l) k = nthZ d l (k - 1).
Proof.
  intros. unfold nthZ. do 2 case_if; zbool; try lia.
  replace (Z.to_nat k) with (S (Z.to_nat (k - 1))) by lia. done.
Qed.

Lemma updZ_updZ l i x y : updZ (updZ l i x) i y = updZ l i y.
Proof. unfold updZ. case_if; [done |]. apply list_insert_insert_eq. Qed.

Lemma updZ_comm l i j x y :
  i <> j -> 0 <= i -> 0 <= j -> updZ (updZ l i x) j y = updZ (updZ l j y) i x.
Proof.
  intros. unfold updZ. do 2 case_if; zbool; try lia.
  apply list_insert_insert_ne. lia.
Qed.
End arrays.

Lemma updZ_cons_0 {A} (x y : A) l : updZ (x :: l) 0 y = y :: l.
Proof. done. Qed.

Lemma updZ_cons_S {A} (x y : A) l i : 0 < i -> updZ (x :: l) i y = x :: updZ l (i - 1) y.
Proof.
  intros. unfold updZ. do 2 case_if; zbool; try lia. by replace (Z.to_nat i) with (S (Z.to_nat (i - 1))) by lia.
Qed.

Lemma updZ_out {A} (l : list A) i x : ~ 0 <= i < Z.of_nat (length l) -> updZ l i x = l.
Proof. intros. unfold updZ. case_if; [done |]. zbool. apply list_insert_ge. lia. Qed.

Lemma updZ_nthZ {A} (d : A) l p : updZ l p (nthZ d l p) = l.
Proof.
  unfold updZ, nthZ. case_if; [done |]. apply list_eq. intros i.
  destruct (decide (i = Z.to_nat p)) as [-> |]; [| by rewrite list_lookup_insert_ne].
  destruct (decide (Z.to_nat p < length l)%nat).
  - rewrite list_lookup_insert_eq by done. rewrite nth_lookup.
    destruct (lookup_lt_is_Some_2 l (Z.to_nat p)) as [x ->]; done.
  - rewrite list_insert_ge by lia. done.
Qed.

Lemma nthZ_map {A B} (g : A -> B) d l i : nthZ (g d) (map g l) i = g (nthZ d l i).
Proof. unfold nthZ. case_if; [done | apply map_nth]. Qed.

Lemma map_updZ {A B} (g : A -> B) l i x : map g (updZ l i x) = updZ (map g l) i (g x).
Proof. unfold updZ. case_if; [done | apply list_fmap_insert]. Qed.

Lemma nth_replicate {A} (d : A) n i : nth i (replicate n d) d = d.
Proof. revert i. induction n; intros [| i]; cbn; auto. Qed.

(** ** Reachability *)

Lemma rtc_preserves {A} (R : relation A) (I : A -> Prop) s s' :
  (forall x y, R x y -> I x -> I y) -> rtc R s s' -> I s -> I s'.
Proof. intros HR Hr. induction Hr; eauto. Qed.
