(* ===== verification/Keeps.v ===== *)
(** * Invariants kept by a computation

    [keeps I m]: when [m] is run in a state that satisfies [I], the state in
    which it returns, or goes to sleep, satisfies [I] again.  [leads I J m]
    has a different condition at the end.  The hints build such proofs from
    the structure of the code. *)

From S2P Require Import Prelude.

Definition keeps {S A} (I : S -> Prop) (m : K S A) : Prop :=
  forall s, I s -> match m s with Ret _ s' => I s' | Asleep _ s' => I s' | _ => True end.

(** From [I] to [J], likewise. *)
Definition leads {S A} (I J : S -> Prop) (m : K S A) : Prop :=
  forall s, I s -> match m s with Ret _ s' => J s' | Asleep _ s' => J s' | _ => True end.

Lemma leads_bind {S A B} (I M J : S -> Prop) (m : K S A) (f : A -> K S B) :
  leads I M m -> (forall a, leads M J (f a)) -> (forall s, M s -> J s) -> leads I J (kbind m f).
Proof.
  intros Hm Hf Hw s Hs. specialize (Hm s Hs). unfold kbind. destruct (m s) as [a s' | | c s' |]; [| done | auto | done].
  by apply Hf.
Qed.

Lemma leads_keeps {S A} (M J : S -> Prop) (m : K S A) : keeps M m -> (forall s, M s -> J s) -> leads M J m.
Proof. intros Hk Hw s Hs. specialize (Hk s Hs). destruct (m s); auto. Qed.

Create HintDb keeps discriminated.

Section keeps.
Context {S : Type} (I : S -> Prop).

Lemma keeps_ret {A} (a : A) : keeps I (kret a).
Proof. by intros s. Qed.
Lemma keeps_panic {A} m : keeps I (kpanic (A := A) m).
Proof. by intros s. Qed.
Lemma keeps_fuel {A} : keeps I (kfuel (A := A)).
Proof. by intros s. Qed.
Lemma keeps_sleep {A} c : keeps I (ksleep (A := A) c).
Proof. by intros s. Qed.
Lemma keeps_get : keeps I kget.
Proof. by intros s. Qed.
Lemma keeps_gets {A} (f : S -> A) : keeps I (kgets f).
Proof. by intros s. Qed.
Lemma keeps_mod f : (forall s, I s -> I (f s)) -> keeps I (kmod f).
Proof. intros H s Hs. by apply H. Qed.
Lemma keeps_bind {A B} (m : K S A) (f : A -> K S B) : keeps I m -> (forall a, keeps I (f a)) -> keeps I (kbind m f).
Proof.
  intros Hm Hf s Hs. specialize (Hm s Hs). unfold kbind. destruct (m s) as [a s' | | |]; [| done..].
  by apply Hf.
Qed.
Lemma keeps_when c m : keeps I m -> keeps I (kwhen c m).
Proof. intros. unfold kwhen. case_if; [done | apply keeps_ret]. Qed.
Lemma keeps_if {A} (c : bool) (m m' : K S A) : keeps I m -> keeps I m' -> keeps I (if c then m else m').
Proof. by destruct c. Qed.

(** A component the invariant does not look at. *)
Lemma keeps_zoom {T A} `{Lens S T} (m : K T A) : (forall t s, I s -> I (lset t s)) -> keeps I (zoom m).
Proof. intros Hl s Hs. unfold zoom. destruct (m (lget s)); auto. Qed.
End keeps.

#[export] Hint Resolve keeps_ret keeps_panic keeps_fuel keeps_sleep keeps_get keeps_gets keeps_when keeps_if : keeps.
#[export] Hint Extern 4 (keeps _ (kbind _ _)) => apply keeps_bind; [| intros ?] : keeps.


(** ** Weakest preconditions that look at sleeping states too

    [spec m s Q Z]: when [m], run in [s], returns, [Q] holds of the result and
    the state; when it goes to sleep, [Z] holds of the state.  Nothing is
    said of a panic. *)

Definition spec {S A} (m : K S A) (s : S) (Q : A -> S -> Prop) (Z : S -> Prop) : Prop :=
  match m s with Ret a s' => Q a s' | Asleep _ s' => Z s' | _ => True end.

Section spec.
Context {S : Type}.
Implicit Types (s : S) (Z : S -> Prop).

Lemma spec_ret {A} (a : A) s (Q : A -> S -> Prop) Z : Q a s -> spec (kret a) s Q Z.
Proof. done. Qed.
Lemma spec_bind {A B} (m : K S A) (f : A -> K S B) s Q Z :
  spec m s (fun a s' => spec (f a) s' Q Z) Z -> spec (kbind m f) s Q Z.
Proof. unfold spec, kbind. by destruct (m s). Qed.
Lemma spec_gets {A B} (g : S -> A) (f : A -> K S B) s Q Z : spec (f (g s)) s Q Z -> spec (kbind (kgets g) f) s Q Z.
Proof. done. Qed.
Lemma spec_panic {A} e s (Q : A -> S -> Prop) Z : spec (kpanic e) s Q Z.
Proof. done. Qed.
Lemma spec_fuel {A} s (Q : A -> S -> Prop) Z : spec kfuel s Q Z.
Proof. done. Qed.
Lemma spec_mono {A} (m : K S A) s (Q Q' : A -> S -> Prop) Z Z' :
  spec m s Q Z -> (forall a s', Q a s' -> Q' a s') -> (forall s', Z s' -> Z' s') -> spec m s Q' Z'.
Proof. unfold spec. destruct (m s); auto. Qed.
Lemma spec_zoom {T A} `{Lens S T} (m : K T A) s Q Z :
  spec m (lget s) (fun a t => Q a (lset t s)) (fun t => Z (lset t s)) -> spec (zoom m) s Q Z.
Proof. unfold spec, zoom. by destruct (m (lget s)). Qed.
Lemma spec_keeps {A} (I : S -> Prop) (m : K S A) s Q Z :
  keeps I m -> I s -> (forall a s', I s' -> Q a s') -> (forall s', I s' -> Z s') -> spec m s Q Z.
Proof. intros Hk Hs HQ HZ. specialize (Hk s Hs). unfold spec. destruct (m s); auto. Qed.
Lemma spec_if {A} (c : bool) (m m' : K S A) s Q Z :
  (c = true -> spec m s Q Z) -> (c = false -> spec m' s Q Z) -> spec (if c then m else m') s Q Z.
Proof. destruct c; auto. Qed.
End spec.

(** ** Computations that never sleep *)

Definition awake {S A} (m : K S A) : Prop := forall s c s', m s <> Asleep c s'.

Create HintDb awake discriminated.

Section awake.
Context {S : Type}.

Lemma awake_ret {A} (a : A) : awake (S := S) (kret a).
Proof. by intros s. Qed.
Lemma awake_panic {A} e : awake (S := S) (A := A) (kpanic e).
Proof. by intros s. Qed.
Lemma awake_gets {A} (g : S -> A) : awake (kgets g).
Proof. by intros s. Qed.
Lemma awake_mod (g : S -> S) : awake (kmod g).
Proof. by intros s. Qed.
Lemma awake_bind {A B} (m : K S A) (f : A -> K S B) : awake m -> (forall a, awake (f a)) -> awake (kbind m f).
Proof. intros Hm Hf s c s'. unfold kbind. specialize (Hm s). destruct (m s) as [| | c0 s0 |]; [apply Hf | done | by destruct (Hm c0 s0) | done]. Qed.
Lemma awake_when c (m : K S unit) : awake m -> awake (kwhen c m).
Proof. by destruct c. Qed.
Lemma awake_if {A} (c : bool) (m m' : K S A) : awake m -> awake m' -> awake (if c then m else m').
Proof. by destruct c. Qed.
Lemma awake_zoom {T A} `{Lens S T} (m : K T A) : awake m -> awake (zoom m).
Proof. intros Hm s c s'. unfold zoom. specialize (Hm (lget s)). destruct (m (lget s)) as [| | c0 s0 |]; try done. by destruct (Hm c0 s0). Qed.

(** For them only the states in which they return matter. *)
Lemma spec_awake {A} (I : S -> Prop) (m : K S A) s Q Z :
  awake m -> keeps I m -> I s -> (forall a s', I s' -> Q a s') -> spec m s Q Z.
Proof.
  intros Ha Hk Hs HQ. specialize (Hk s Hs). specialize (Ha s). unfold spec. destruct (m s); auto. by destruct (Ha chan s0).
Qed.
End awake.

#[export] Hint Resolve awake_ret awake_panic awake_gets awake_mod awake_bind awake_when awake_if awake_zoom : awake.
