(* ===== verification/Riscv.v ===== *)
(** * Constants and macros of the kernel headers

    kernel/riscv.h (Sv39 paging macros, status bits), kernel/memlayout.h
    (physical and virtual layout) and kernel/param.h (table sizes), with the
    bit-level facts the rest of the development uses: rounding to a page is
    arithmetic, a PTE stores a page number and ten flag bits that can be read
    back, and the three 9-bit indices determine a page below MAXVA. *)

From S2P Require Import Prelude.

(** ** kernel/param.h *)
Definition NPROC : Z := 64.
Definition NCPU : Z := 8.
Definition NOFILE : Z := 16.
Definition NFILE : Z := 100.
Definition NINODE : Z := 50.
Definition NDEV : Z := 10.
Definition ROOTDEV : Z := 1.
Definition MAXARG : Z := 32.
Definition MAXOPBLOCKS : Z := 10.
Definition LOGSIZE : Z := MAXOPBLOCKS * 3.
Definition NBUF : Z := MAXOPBLOCKS * 3.
Definition FSSIZE : Z := 2000.
Definition MAXPATH : Z := 128.

(** kernel/fcntl.h *)
Definition O_RDONLY : Z := 0.
Definition O_WRONLY : Z := 1.
Definition O_RDWR : Z := 2.
Definition O_CREATE : Z := 0x200.
Definition O_TRUNC : Z := 0x400.

(** ** kernel/riscv.h *)
Definition PGSIZE : Z := 4096.
Definition PGSHIFT : Z := 12.

(** [~(PGSIZE-1)] as a uint64 mask. *)
Definition PGMASK : Z := u64 (Z.lnot (PGSIZE - 1)).
Definition PGROUNDUP (sz : Z) : Z := Z.land (u64 (sz + PGSIZE - 1)) PGMASK.
Definition PGROUNDDOWN (a : Z) : Z := Z.land a PGMASK.

Definition PTE_V : Z := Z.shiftl 1 0.
Definition PTE_R : Z := Z.shiftl 1 1.
Definition PTE_W : Z := Z.shiftl 1 2.
Definition PTE_X : Z := Z.shiftl 1 3.
Definition PTE_U : Z := Z.shiftl 1 4.

Definition PA2PTE (pa : Z) : Z := u64 (Z.shiftl (Z.shiftr pa 12) 10).
Definition PTE2PA (pte : Z) : Z := u64 (Z.shiftl (Z.shiftr pte 10) 12).
Definition PTE_FLAGS (pte : Z) : Z := Z.land pte 0x3FF.

Definition PXMASK : Z := 0x1FF.
Definition PXSHIFT (level : Z) : Z := PGSHIFT + 9 * level.
Definition PX (level va : Z) : Z := Z.land (Z.shiftr va (PXSHIFT level)) PXMASK.

Definition MAXVA : Z := Z.shiftl 1 (9 + 9 + 9 + 12 - 1).

Definition SSTATUS_SPP : Z := Z.shiftl 1 8.
Definition SSTATUS_SPIE : Z := Z.shiftl 1 5.
Definition SSTATUS_SIE : Z := Z.shiftl 1 1.
Definition SATP_SV39 : Z := Z.shiftl 8 60.
Definition MAKE_SATP (pagetable : Z) : Z := Z.lor SATP_SV39 (Z.shiftr pagetable 12).

#[global] Arguments PGSIZE : simpl never.
#[global] Arguments PGMASK : simpl never.
#[global] Arguments PGROUNDUP : simpl never.
#[global] Arguments PGROUNDDOWN : simpl never.
#[global] Arguments PA2PTE : simpl never.
#[global] Arguments PTE2PA : simpl never.
#[global] Arguments PTE_FLAGS : simpl never.
#[global] Arguments PX : simpl never.
#[global] Arguments MAXVA : simpl never.
#[global] Arguments PTE_V : simpl never.
#[global] Arguments PTE_R : simpl never.
#[global] Arguments PTE_W : simpl never.
#[global] Arguments PTE_X : simpl never.
#[global] Arguments PTE_U : simpl never.

(** ** kernel/memlayout.h *)
Definition UART0 : Z := 0x10000000.
Definition UART0_IRQ : Z := 10.
Definition VIRTIO0 : Z := 0x10001000.
Definition VIRTIO0_IRQ : Z := 1.
Definition PLIC : Z := 0x0c000000.
Definition KERNBASE : Z := 0x80000000.
Definition PHYSTOP : Z := KERNBASE + 128 * 1024 * 1024.
Definition TRAMPOLINE : Z := MAXVA - PGSIZE.
Definition KSTACK (p : Z) : Z := TRAMPOLINE - p * 2 * PGSIZE - 3 * PGSIZE.
Definition TRAPFRAME : Z := TRAMPOLINE - PGSIZE.

(** ** Bits and arithmetic *)

(** A disjunction of numbers with no common bit is their sum. *)
Lemma lor_add a b : Z.land a b = 0 -> Z.lor a b = a + b.
Proof. intros H. rewrite <- Z.lxor_lor by done. symmetry. by apply Z.add_nocarry_lxor. Qed.

Lemma land_pgmask a : 0 <= a < 2 ^ 64 -> Z.land a PGMASK = a - a mod PGSIZE.
Proof.
  intros Ha. change PGSIZE with (2 ^ 12).
  rewrite <- Z.land_ones by lia.
  assert (a = Z.lor (Z.land a PGMASK) (Z.land a (Z.ones 12))) as E.
  { apply Z.bits_inj'. intros n Hn.
    rewrite Z.lor_spec, !Z.land_spec, Z.testbit_ones_nonneg by lia.
    unfold PGMASK, u64. rewrite <- Z.land_ones, Z.land_spec, Z.lnot_spec by lia.
    rewrite Z.testbit_ones_nonneg by lia.
    change (PGSIZE - 1) with (Z.ones 12). rewrite Z.testbit_ones_nonneg by lia.
    destruct (n <? 12) eqn:E1, (n <? 64) eqn:E2, (Z.testbit a n) eqn:E3;
      try reflexivity; zbool; try lia.
    rewrite Z.bits_above_log2 in E3; [done | lia |].
    destruct (decide (a = 0)) as [-> | ]; [simpl; lia |].
    apply Z.log2_lt_pow2; [lia |].
    apply Z.lt_le_trans with (2 ^ 64); [lia |]. apply Z.pow_le_mono_r; lia. }
  rewrite lor_add in E; [lia |]. apply Z.bits_inj'. intros n Hn.
  rewrite Z.bits_0, !Z.land_spec, Z.testbit_ones_nonneg by lia.
  unfold PGMASK, u64. rewrite <- Z.land_ones, Z.land_spec, Z.lnot_spec by lia.
  change (PGSIZE - 1) with (Z.ones 12). rewrite !Z.testbit_ones_nonneg by lia.
  destruct (n <? 12); simpl; rewrite ?andb_false_r; done.
Qed.

Lemma PGROUNDDOWN_eq a : 0 <= a < 2 ^ 64 -> PGROUNDDOWN a = a - a mod PGSIZE.
Proof. apply land_pgmask. Qed.

Lemma PGROUNDUP_eq sz :
  0 <= sz <= 2 ^ 64 - PGSIZE ->
  PGROUNDUP sz = (sz + PGSIZE - 1) / PGSIZE * PGSIZE.
Proof.
  unfold PGSIZE. intros. unfold PGROUNDUP, PGSIZE.
  rewrite u64_small by lia. rewrite land_pgmask by lia. unfold PGSIZE. dlia.
Qed.

Lemma PGROUNDUP_bounds sz :
  0 <= sz <= 2 ^ 64 - PGSIZE ->
  sz <= PGROUNDUP sz < sz + PGSIZE /\ PGROUNDUP sz mod PGSIZE = 0.
Proof.
  intros H. rewrite PGROUNDUP_eq by done. unfold PGSIZE in *.
  split; [dlia | apply Z_mod_mult].
Qed.

Lemma PGROUNDDOWN_bounds a :
  0 <= a < 2 ^ 64 ->
  PGROUNDDOWN a <= a < PGROUNDDOWN a + PGSIZE /\ PGROUNDDOWN a mod PGSIZE = 0
  /\ 0 <= PGROUNDDOWN a.
Proof. intros. rewrite PGROUNDDOWN_eq by done. unfold PGSIZE. dlia. Qed.

Lemma PGROUNDDOWN_aligned a :
  0 <= a < 2 ^ 64 -> a mod PGSIZE = 0 -> PGROUNDDOWN a = a.
Proof. intros. rewrite PGROUNDDOWN_eq by done. lia. Qed.

(** Physical page numbers have at most 44 bits; [PA2PTE] keeps them and
    leaves the ten flag bits clear. *)
Lemma PA2PTE_eq pa : 0 <= pa < 2 ^ 56 -> PA2PTE pa = pa / PGSIZE * 1024.
Proof.
  intros. unfold PA2PTE, PGSIZE.
  rewrite Z.shiftr_div_pow2, Z.shiftl_mul_pow2 by lia.
  change (2 ^ 12) with 4096. change (2 ^ 10) with 1024.
  rewrite u64_small; [done |]. dlia.
Qed.

Lemma PTE2PA_eq pte : 0 <= pte < 2 ^ 54 -> PTE2PA pte = pte / 1024 * PGSIZE.
Proof.
  intros. unfold PTE2PA, PGSIZE.
  rewrite Z.shiftr_div_pow2, Z.shiftl_mul_pow2 by lia.
  change (2 ^ 12) with 4096. change (2 ^ 10) with 1024.
  rewrite u64_small; [done |]. dlia.
Qed.

Lemma PTE_FLAGS_eq pte : PTE_FLAGS pte = pte mod 1024.
Proof. unfold PTE_FLAGS. change 0x3FF with (Z.ones 10). by rewrite Z.land_ones by lia. Qed.

(** A page-table entry built from an aligned physical address and ten flag
    bits. *)
Lemma pte_lor pa fl :
  0 <= pa < 2 ^ 56 -> 0 <= fl < 1024 ->
  Z.lor (PA2PTE pa) fl = pa / PGSIZE * 1024 + fl.
Proof.
  intros Hpa Hfl. rewrite PA2PTE_eq by done.
  apply lor_add, Z.bits_inj'. intros n Hn. rewrite Z.bits_0, Z.land_spec.
  change 1024 with (2 ^ 10) in *.
  destruct (Z.lt_ge_cases n 10); [by rewrite Z.mul_pow2_bits_low by lia |].
  destruct (decide (fl = 0)) as [-> | ]; [by rewrite Z.bits_0, andb_false_r |].
  rewrite (Z.bits_above_log2 fl n), andb_false_r; [done | lia |].
  apply Z.lt_le_trans with 10; [apply Z.log2_lt_pow2; lia | lia].
Qed.

Lemma PTE2PA_lor pa fl :
  0 <= pa < 2 ^ 56 -> pa mod PGSIZE = 0 -> 0 <= fl < 1024 ->
  PTE2PA (Z.lor (PA2PTE pa) fl) = pa.
Proof.
  intros. rewrite pte_lor by done. unfold PGSIZE in *.
  rewrite PTE2PA_eq by dlia. unfold PGSIZE. dlia.
Qed.

Lemma PTE_FLAGS_lor pa fl :
  0 <= pa < 2 ^ 56 -> 0 <= fl < 1024 ->
  PTE_FLAGS (Z.lor (PA2PTE pa) fl) = fl.
Proof. intros. rewrite pte_lor, PTE_FLAGS_eq by done. unfold PGSIZE. dlia. Qed.

(** Single-bit tests, as the code writes them: [pte & PTE_x]. *)
Lemma land_bit x k : 0 <= k -> Z.land x (Z.shiftl 1 k) = if Z.testbit x k then 2 ^ k else 0.
Proof.
  intros. apply Z.bits_inj'. intros n Hn.
  rewrite Z.land_spec, Z.shiftl_spec by lia.
  destruct (decide (n = k)) as [-> | ].
  - rewrite Z.sub_diag. destruct (Z.testbit x k); simpl;
      [by rewrite Z.pow2_bits_true by lia | by rewrite Z.bits_0].
  - replace (Z.testbit 1 (n - k)) with false.
    + rewrite andb_false_r. destruct (Z.testbit x k); [| by rewrite Z.bits_0].
      by rewrite Z.pow2_bits_false by lia.
    + destruct (Z.lt_ge_cases n k); [by rewrite Z.testbit_neg_r by lia |].
      symmetry. apply Z.bits_above_log2; simpl; lia.
Qed.

Lemma land_bit_eq0 x k : 0 <= k -> (Z.land x (Z.shiftl 1 k) =? 0) = negb (Z.testbit x k).
Proof.
  intros. rewrite land_bit by done. destruct (Z.testbit x k); [| done].
  apply Z.eqb_neq. pose proof (Z.pow_pos_nonneg 2 k). lia.
Qed.

(** The low ten bits of a PTE are its flags. *)
Lemma testbit_pte_low pa fl k :
  0 <= pa < 2 ^ 56 -> 0 <= fl < 1024 -> 0 <= k < 10 ->
  Z.testbit (Z.lor (PA2PTE pa) fl) k = Z.testbit fl k.
Proof.
  intros. rewrite Z.lor_spec, PA2PTE_eq by done. change 1024 with (2 ^ 10).
  by rewrite Z.mul_pow2_bits_low by lia.
Qed.

Lemma PX_eq level va :
  0 <= level -> PX level va = va / 2 ^ (12 + 9 * level) mod 512.
Proof.
  intros. unfold PX, PXSHIFT, PXMASK, PGSHIFT. change 0x1FF with (Z.ones 9).
  rewrite Z.land_ones by lia. by rewrite Z.shiftr_div_pow2 by lia.
Qed.

Lemma PX_range level va : 0 <= level -> 0 <= PX level va < 512.
Proof. intros. rewrite PX_eq by done. apply Z.mod_pos_bound. lia. Qed.

(** The three indices determine the page of an address below MAXVA. *)
Lemma PX_inj va va' :
  0 <= va < MAXVA -> 0 <= va' < MAXVA ->
  PX 2 va = PX 2 va' -> PX 1 va = PX 1 va' -> PX 0 va = PX 0 va' ->
  va / PGSIZE = va' / PGSIZE.
Proof.
  unfold MAXVA. change (Z.shiftl 1 (9 + 9 + 9 + 12 - 1)) with (2 ^ 38).
  intros H H'. rewrite !PX_eq by lia. unfold PGSIZE.
  change (12 + 9 * 2) with 30. change (12 + 9 * 1) with 21. change (12 + 9 * 0) with 12.
  change (2 ^ 30) with 1073741824. change (2 ^ 21) with 2097152.
  change (2 ^ 12) with 4096. dlia.
Qed.

Lemma PX_same_page va va' j : 0 <= j -> va / PGSIZE = va' / PGSIZE -> PX j va = PX j va'.
Proof.
  intros Hj Hpg. rewrite !PX_eq by done. unfold PGSIZE in Hpg.
  replace (2 ^ (12 + 9 * j)) with (4096 * 2 ^ (9 * j)) by (rewrite Z.pow_add_r by lia; done).
  rewrite <- !Z.div_div by lia. by rewrite Hpg.
Qed.

(** Kernel stacks of distinct processes are distinct pages below the
    trampoline, each with an unmapped guard page under it. *)
Lemma KSTACK_disjoint i j :
  0 <= i < NPROC -> 0 <= j < NPROC -> i <> j ->
  2 * PGSIZE <= Z.abs (KSTACK i - KSTACK j).
Proof. unfold KSTACK, NPROC, PGSIZE. lia. Qed.
