(* ===== verification/Spinlock.v ===== *)
(** * Spin locks (kernel/spinlock.c, and cpuid/mycpu of kernel/proc.c)

    Two views of the same code.

    - [Hart]: the code as it is, one hart at a time, on the fields [locked]
      and [cpu] of the locks and [noff], [intena] and the SIE bit of
      [sstatus] of the harts.  The atomic steps of [acquire] and [release]
      (the swap, the store to [lk->cpu], ...) are then interleaved across
      harts by the relation [Hart.step], and mutual exclusion is an
      invariant of it.
    - [acquire]/[release] on the set of locks the running hart holds: what
      the rest of the kernel sees when no other hart contends.  The theorem
      [Hart.acquire_refines] relates the two. *)

From S2P Require Import Prelude Riscv.

(** A lock is identified by the name it is initialised with and an index
    (which process, pipe, buffer...). *)
Abbreviation lockid := (string * Z)%type.

(** ** The abstract view: the set of locks held *)

Definition locks := gset lockid.

Definition acquire (l : lockid) : K locks unit :=
  fun h => if bool_decide (l ∈ h) then Panic "acquire" else Ret tt ({[l]} ∪ h).

Definition release (l : lockid) : K locks unit :=
  fun h => if bool_decide (l ∈ h) then Ret tt (h ∖ {[l]}) else Panic "release".

Definition holding (l : lockid) : K locks bool :=
  fun h => Ret (bool_decide (l ∈ h)) h.

Definition initlock (l : lockid) : K locks unit := kmod (fun h => h ∖ {[l]}).

Lemma acquire_ok l h : l ∉ h -> acquire l h = Ret tt ({[l]} ∪ h).
Proof. intros. unfold acquire. by rewrite bool_decide_false. Qed.

Lemma release_ok l h : l ∈ h -> release l h = Ret tt (h ∖ {[l]}).
Proof. intros. unfold release. by rewrite bool_decide_true. Qed.

(** Releasing what was just acquired gives back the same set of locks. *)
Lemma release_acquired l h :
  l ∉ h -> release l ({[l]} ∪ h) = Ret tt h.
Proof.
  intros. rewrite release_ok by set_solver. f_equal. apply set_eq. set_solver.
Qed.

(** The same inside a larger state. *)
Lemma zoom_acquire {S} `{Lens S locks} l (s : S) :
  l ∉ lget s -> zoom (acquire l) s = Ret tt (lset ({[l]} ∪ lget s) s).
Proof. intros. by apply zoom_ret, acquire_ok. Qed.

Lemma zoom_release {S} `{Lens S locks} l h (s : S) :
  l ∉ h -> lget s = {[l]} ∪ h -> zoom (release l) s = Ret tt (lset h s).
Proof. intros Hl E. apply zoom_ret. rewrite E. by apply release_acquired. Qed.

(** ** The code *)

Module Hart.

Record cpu := Cpu { noff : Z; intena : Z; sstatus : Z }.
Record spinlock := Lock { locked : Z; lname : string; lkcpu : option nat }.
Record hw := Hw { cpus : gmap nat cpu; lks : gmap lockid spinlock }.

Definition cpu0 : cpu := Cpu 0 0 0.
Definition lock0 : spinlock := Lock 0 "" None.

Section code.
(** [mycpu()]: the hart this code runs on ([r_tp()]). *)
Variable me : nat.

Definition mycpu (st : hw) : cpu := default cpu0 (cpus st !! me).
Definition lk_at (st : hw) (l : lockid) : spinlock := default lock0 (lks st !! l).
Definition set_cpu (c : cpu) : K hw unit := kmod (fun st => Hw (<[me := c]> (cpus st)) (lks st)).
Definition set_lk (l : lockid) (k : spinlock) : K hw unit :=
  kmod (fun st => Hw (cpus st) (<[l := k]> (lks st))).

Definition intr_get : K hw bool :=
  kgets (fun st => negb (Z.land (sstatus (mycpu st)) SSTATUS_SIE =? 0)).

Definition intr_off : K hw unit :=
  c <- kgets mycpu ;;
  set_cpu (Cpu (noff c) (intena c) (Z.land (sstatus c) (u64 (Z.lnot SSTATUS_SIE)))).

Definition intr_on : K hw unit :=
  c <- kgets mycpu ;;
  set_cpu (Cpu (noff c) (intena c) (Z.lor (sstatus c) SSTATUS_SIE)).

Definition initlock (l : lockid) : K hw unit := set_lk l (Lock 0 (fst l) None).

Definition push_off : K hw unit :=
  old <- intr_get ;;
  intr_off >>
  c <- kgets mycpu ;;
  kwhen (noff c =? 0) (set_cpu (Cpu (noff c) (if old then 1 else 0) (sstatus c))) >>
  c <- kgets mycpu ;;
  set_cpu (Cpu (i32 (noff c + 1)) (intena c) (sstatus c)).

Definition pop_off : K hw unit :=
  i <- intr_get ;;
  if (i : bool) then kpanic "pop_off - interruptible" else
  c <- kgets mycpu ;;
  if noff c <? 1 then kpanic "pop_off" else
  set_cpu (Cpu (noff c - 1) (intena c) (sstatus c)) >>
  c <- kgets mycpu ;;
  kwhen ((noff c =? 0) && negb (intena c =? 0))%bool intr_on.

Definition holding (l : lockid) : K hw bool :=
  kgets (fun st => (negb (locked (lk_at st l) =? 0)
                    && bool_decide (lkcpu (lk_at st l) = Some me))%bool).

(** [__sync_lock_test_and_set(&lk->locked, 1)] *)
Definition lock_test_and_set (l : lockid) : K hw Z :=
  k <- kgets (fun st => lk_at st l) ;;
  set_lk l (Lock 1 (lname k) (lkcpu k)) >>
  kret (locked k).

(** [acquire] up to the loop. *)
Definition acquire_enter (l : lockid) : K hw unit :=
  push_off >>
  h <- holding l ;;
  if (h : bool) then kpanic "acquire" else kret tt.

(** [lk->cpu = mycpu()] after the loop. *)
Definition acquire_exit (l : lockid) : K hw unit :=
  k <- kgets (fun st => lk_at st l) ;;
  set_lk l (Lock (locked k) (lname k) (Some me)).

(** [while(__sync_lock_test_and_set(&lk->locked, 1) != 0);] alone on its
    hart: every turn of the loop reads the same value. *)
Fixpoint spin (fuel : nat) (l : lockid) : K hw unit :=
  match fuel with
  | O => kfuel
  | S fuel =>
      old <- lock_test_and_set l ;;
      if old =? 0 then kret tt else spin fuel l
  end.

Definition acquire (fuel : nat) (l : lockid) : K hw unit :=
  acquire_enter l >> spin fuel l >> acquire_exit l.

(** [release] up to the store to [lk->cpu], and the rest. *)
Definition release_enter (l : lockid) : K hw unit :=
  h <- holding l ;;
  if negb h then kpanic "release" else
  k <- kgets (fun st => lk_at st l) ;;
  set_lk l (Lock (locked k) (lname k) None).

(** [__sync_lock_release(&lk->locked)] *)
Definition lock_release (l : lockid) : K hw unit :=
  k <- kgets (fun st => lk_at st l) ;;
  set_lk l (Lock 0 (lname k) (lkcpu k)).

Definition release_exit (l : lockid) : K hw unit := lock_release l >> pop_off.

Definition release (l : lockid) : K hw unit := release_enter l >> release_exit l.
End code.

(** *** Interrupt nesting *)

Lemma sie_off x : Z.land (Z.land x (u64 (Z.lnot SSTATUS_SIE))) SSTATUS_SIE = 0.
Proof.
  rewrite <- Z.land_assoc. change (Z.land (u64 (Z.lnot SSTATUS_SIE)) SSTATUS_SIE) with 0.
  apply Z.land_0_r.
Qed.

Lemma mycpu_set me c cs ls : mycpu me (Hw (<[me := c]> cs) ls) = c.
Proof. unfold mycpu; cbn. by rewrite lookup_insert_eq. Qed.

(** [push_off] disables interrupts, counts one more nesting level, and
    remembers the previous state at the outermost level. *)
Lemma push_off_spec me st c :
  mycpu me st = c ->
  push_off me st =
    Ret tt (Hw (<[me := Cpu (i32 (noff c + 1))
                     (if noff c =? 0
                      then (if negb (Z.land (sstatus c) SSTATUS_SIE =? 0) then 1 else 0)
                      else intena c)
                     (Z.land (sstatus c) (u64 (Z.lnot SSTATUS_SIE)))]> (cpus st)) (lks st)).
Proof.
  intros Ec. unfold push_off, intr_get, intr_off, set_cpu. kred. rewrite Ec.
  rewrite mycpu_set. cbn [noff intena sstatus].
  destruct (noff c =? 0); kred; rewrite mycpu_set; cbn [noff intena sstatus cpus lks];
    by rewrite !insert_insert_eq.
Qed.

Lemma pop_off_spec me st c :
  mycpu me st = c ->
  Z.land (sstatus c) SSTATUS_SIE = 0 -> 1 <= noff c ->
  pop_off me st =
    Ret tt (Hw (<[me := Cpu (noff c - 1) (intena c)
                     (if ((noff c - 1 =? 0) && negb (intena c =? 0))%bool
                      then Z.lor (sstatus c) SSTATUS_SIE else sstatus c)]> (cpus st)) (lks st)).
Proof.
  intros Ec Hs Hn. unfold pop_off, intr_get, intr_on, set_cpu. kred. rewrite Ec, Hs.
  change (negb (0 =? 0)) with false. kred. rewrite Ec.
  destruct (noff c <? 1) eqn:E; [zbool; lia |].
  kred. rewrite mycpu_set. cbn [noff intena sstatus].
  case_if; kred; [| done]. rewrite mycpu_set. cbn [noff intena sstatus cpus lks].
  by rewrite !insert_insert_eq.
Qed.

(** *** One hart refines the abstract view

    [view me st base h]: the locks with [cpu = me] are exactly [h], no lock is
    held by another hart, and [noff] counts them above the level [base] of
    explicit [push_off]s, with interrupts off whenever it is positive. *)
Definition view (me : nat) (st : hw) (base : Z) (h : locks) : Prop :=
  (forall l, (l ∈ h -> locked (lk_at st l) = 1 /\ lkcpu (lk_at st l) = Some me) /\
             (l ∉ h -> locked (lk_at st l) = 0 /\ lkcpu (lk_at st l) = None)) /\
  0 <= base /\ noff (mycpu me st) = base + Z.of_nat (size h) /\
  (0 < noff (mycpu me st) -> Z.land (sstatus (mycpu me st)) SSTATUS_SIE = 0).

Lemma lk_at_insert st cs l k l' :
  lk_at (Hw cs (<[l := k]> (lks st))) l' = if decide (l = l') then k else lk_at st l'.
Proof. unfold lk_at; cbn. rewrite lookup_insert. by case_decide. Qed.

Lemma holding_view me st base h l :
  view me st base h -> holding me l st = Ret (bool_decide (l ∈ h)) st.
Proof.
  intros [Hl _]. unfold holding, kgets. f_equal. specialize (Hl l).
  destruct (decide (l ∈ h)) as [Hin | Hin];
    [rewrite (bool_decide_true (l ∈ h)) by done | rewrite (bool_decide_false (l ∈ h)) by done].
  - destruct (proj1 Hl Hin) as [-> ->]. by rewrite bool_decide_true.
  - by destruct (proj2 Hl Hin) as [-> ->].
Qed.


Lemma size_add (l : lockid) (h : locks) : l ∉ h -> size ({[l]} ∪ h) = S (size h).
Proof. intros. rewrite size_union, size_singleton by set_solver. lia. Qed.

Lemma size_remove (l : lockid) (h : locks) : l ∈ h -> size h = S (size (h ∖ {[l]})).
Proof.
  intros. replace h with ({[l]} ∪ (h ∖ {[l]})) at 1; [apply size_add; set_solver |].
  apply set_eq. intros x. destruct (decide (x = l)); set_solver.
Qed.

(** With no other hart contending, the code of [acquire] does what the
    abstract [acquire] does: same panic, and the same set of held locks. *)
Lemma acquire_view me st base h l fuel :
  view me st base h -> (0 < fuel)%nat -> base + Z.of_nat (size h) < 2 ^ 31 - 1 ->
  match Spinlock.acquire l h with
  | Ret _ h' => exists st', acquire me fuel l st = Ret tt st' /\ view me st' base h'
  | _ => acquire me fuel l st = Panic "acquire"
  end.
Proof.
  intros V Hf Hm. pose proof V as (Hl & Hb & Hn & Hs).
  remember (mycpu me st) as c eqn:Ec. symmetry in Ec.
  assert (i32 (noff c + 1) = noff c + 1) as Ei by (apply i32_small; lia).
  unfold acquire, acquire_enter. rewrite !kbind_assoc.
  erewrite kbind_of by (by apply push_off_spec). rewrite Ei.
  set (st1 := Hw _ _).
  assert (holding me l st1 = Ret (bool_decide (l ∈ h)) st1) as Eh.
  { pose proof (holding_view me st base h l V) as E. unfold holding, kgets in *.
    injection E as E. f_equal. exact E. }
  rewrite kbind_assoc, (kbind_of _ _ _ _ _ Eh). unfold Spinlock.acquire.
  case_bool_decide as Hin; [done |].
  destruct fuel as [| fuel]; [lia |]. destruct (proj2 (Hl l) Hin) as [Hl0 Hc0].
  unfold acquire_exit, spin, lock_test_and_set, set_lk. kred.
  change (lk_at st1 l) with (lk_at st l). rewrite Hl0. cbv iota. cbn [Z.eqb].
  eexists. split; [reflexivity |]. split_and!; cbn [cpus lks].
  - intros l'. unfold lk_at. cbn [lks]. rewrite lookup_insert_eq, !lookup_insert.
    destruct (decide (l = l')) as [<- | Hne]; cbn [default from_option id locked lkcpu].
    + split; [done | set_solver].
    + split; intros Hin'; apply Hl; set_solver.
  - done.
  - unfold st1. cbn [cpus]. rewrite mycpu_set. cbn [noff]. rewrite size_add by done. lia.
  - unfold st1. cbn [cpus]. rewrite mycpu_set. cbn [sstatus]. intros _. apply sie_off.
Qed.

(** Same for [release]; [pop_off] re-enables interrupts only when the last
    level is left. *)
Lemma release_view me st base h l :
  view me st base h ->
  match Spinlock.release l h with
  | Ret _ h' => exists st', release me l st = Ret tt st' /\ view me st' base h'
  | _ => release me l st = Panic "release"
  end.
Proof.
  intros V. pose proof V as (Hl & Hb & Hn & Hs).
  remember (mycpu me st) as c eqn:Ec. symmetry in Ec.
  unfold release, release_enter. rewrite !kbind_assoc.
  rewrite (kbind_of _ _ _ _ _ (holding_view me st base h l V)).
  unfold Spinlock.release. case_bool_decide as Hin; [| done].
  pose proof (size_remove l h Hin) as Hsz. cbn [negb].
  unfold release_exit, lock_release, set_lk. kred.
  erewrite (pop_off_spec me _ c); [| exact Ec | apply Hs; lia | lia].
  cbn [cpus lks]. eexists. split; [reflexivity |]. split_and!; cbn [cpus lks].
  - intros l'. unfold lk_at. cbn [lks]. rewrite lookup_insert_eq, !lookup_insert.
    destruct (decide (l = l')) as [<- | Hne]; cbn [default from_option id locked lkcpu].
    + split; [set_solver | done].
    + split; intros Hin'; apply Hl; set_solver.
  - done.
  - rewrite mycpu_set. cbn [noff]. lia.
  - rewrite mycpu_set. cbn [sstatus noff]. intros Hpos.
    destruct (noff c - 1 =? 0) eqn:E; zbool; [lia |]. cbn [andb]. apply Hs. lia.
Qed.

(** *** Interleaved harts and mutual exclusion

    [pc] is where a hart is inside [acquire] or [release]; between them it
    runs other kernel code and [Run] records the locks it has acquired and
    not yet begun to release.  Each rule is one atomic action of the code. *)

Inductive pc := Run | Spin (l : lockid) | Won (l : lockid) | Rel (l : lockid).

Record sys := Sys { mach : hw; pcs : gmap nat pc; owned : gmap nat locks }.

Definition pc_of (s : sys) (i : nat) : pc := default Run (pcs s !! i).
Definition own_of (s : sys) (i : nat) : locks := default ∅ (owned s !! i).

Inductive step : sys -> sys -> Prop :=
| step_enter s i l m' :
    pc_of s i = Run -> acquire_enter i l (mach s) = Ret tt m' ->
    step s (Sys m' (<[i := Spin l]> (pcs s)) (owned s))
| step_spin s i l old m' :
    pc_of s i = Spin l -> lock_test_and_set l (mach s) = Ret old m' ->
    step s (Sys m' (<[i := if old =? 0 then Won l else Spin l]> (pcs s)) (owned s))
| step_exit s i l m' :
    pc_of s i = Won l -> acquire_exit i l (mach s) = Ret tt m' ->
    step s (Sys m' (<[i := Run]> (pcs s)) (<[i := {[l]} ∪ own_of s i]> (owned s)))
| step_rel s i l m' :
    pc_of s i = Run -> release_enter i l (mach s) = Ret tt m' ->
    step s (Sys m' (<[i := Rel l]> (pcs s)) (<[i := own_of s i ∖ {[l]}]> (owned s)))
| step_free s i l m' :
    pc_of s i = Rel l -> release_exit i l (mach s) = Ret tt m' ->
    step s (Sys m' (<[i := Run]> (pcs s)) (owned s)).

(** A hart has a lock from the moment its swap returned 0 until the swap of
    [release] stores 0. *)
Definition has (s : sys) (i : nat) (l : lockid) : Prop :=
  l ∈ own_of s i \/ pc_of s i = Won l \/ pc_of s i = Rel l.

Record mutex_inv (s : sys) : Prop := {
  inv_lock : forall l, locked (lk_at (mach s) l) = 0 \/ locked (lk_at (mach s) l) = 1;
  inv_has : forall i l, has s i l -> locked (lk_at (mach s) l) = 1;
  inv_excl : forall i j l, has s i l -> has s j l -> i = j;
  inv_cpu : forall i l, lkcpu (lk_at (mach s) l) = Some i -> l ∈ own_of s i;
  inv_own : forall i l, l ∈ own_of s i -> lkcpu (lk_at (mach s) l) = Some i;
  inv_pc : forall i l, pc_of s i = Won l \/ pc_of s i = Rel l ->
             lkcpu (lk_at (mach s) l) = None;
}.

Lemma pc_of_set m p o i c j :
  pc_of (Sys m (<[i := c]> p) o) j = if decide (i = j) then c else default Run (p !! j).
Proof. unfold pc_of; cbn. rewrite lookup_insert. by case_decide. Qed.

Lemma own_of_set m p o i h j :
  own_of (Sys m p (<[i := h]> o)) j = if decide (i = j) then h else default ∅ (o !! j).
Proof. unfold own_of; cbn. rewrite lookup_insert. by case_decide. Qed.

(** Entering [acquire] touches no lock. *)
Lemma acquire_enter_lks i l m m' : acquire_enter i l m = Ret tt m' -> lks m' = lks m.
Proof.
  unfold acquire_enter. rewrite (kbind_of _ _ _ _ _ (push_off_spec i m _ eq_refl)).
  unfold holding. kred. repeat (case_if; kred); try done; by intros [= <-].
Qed.

Lemma pop_off_lks i m m' : pop_off i m = Ret tt m' -> lks m' = lks m.
Proof.
  unfold pop_off, intr_get, intr_on, set_cpu. kred. repeat (case_if; kred); try done;
    intros [= <-]; done.
Qed.

(** What each atomic action does to the locks. *)
Lemma test_and_set_lk l m old m' l' :
  lock_test_and_set l m = Ret old m' ->
  old = locked (lk_at m l) /\
  locked (lk_at m' l') = (if decide (l = l') then 1 else locked (lk_at m l')) /\
  lkcpu (lk_at m' l') = lkcpu (lk_at m l').
Proof.
  unfold lock_test_and_set, set_lk. kred. intros [= <- <-].
  rewrite lk_at_insert. by case_decide; subst.
Qed.

Lemma acquire_exit_lk i l m m' l' :
  acquire_exit i l m = Ret tt m' ->
  locked (lk_at m' l') = locked (lk_at m l') /\
  lkcpu (lk_at m' l') = (if decide (l = l') then Some i else lkcpu (lk_at m l')).
Proof.
  unfold acquire_exit, set_lk. kred. intros [= <-].
  rewrite lk_at_insert. by case_decide; subst.
Qed.

Lemma release_enter_lk i l m m' :
  release_enter i l m = Ret tt m' ->
  lkcpu (lk_at m l) = Some i /\
  forall l', locked (lk_at m' l') = locked (lk_at m l') /\
             lkcpu (lk_at m' l') = (if decide (l = l') then None else lkcpu (lk_at m l')).
Proof.
  unfold release_enter, holding, set_lk. kred. case_if; kred; [done |].
  intros [= <-]. zbool. split; [done |]. intros l'.
  rewrite lk_at_insert. by case_decide; subst.
Qed.

Lemma release_exit_lk i l m m' l' :
  release_exit i l m = Ret tt m' ->
  locked (lk_at m' l') = (if decide (l = l') then 0 else locked (lk_at m l')) /\
  lkcpu (lk_at m' l') = lkcpu (lk_at m l').
Proof.
  unfold release_exit, lock_release, set_lk. intros H. kred in H.
  apply pop_off_lks in H. cbn [lks] in H.
  replace (lk_at m' l') with (lk_at (Hw (cpus m) (lks m')) l') by done.
  rewrite H, lk_at_insert. by case_decide; subst.
Qed.

(** Case analysis on which hart moved: [pc_of] and [own_of] of the new
    state, and the pointwise lock facts, are rewritten. *)
Ltac hart_cases :=
  repeat match goal with
  | H : context [pc_of (Sys _ _ _) _] |- _ => rewrite pc_of_set in H
  | H : context [own_of (Sys _ _ (<[_ := _]> _)) _] |- _ => rewrite own_of_set in H
  | |- context [own_of (Sys _ _ (<[_ := _]> _)) _] => rewrite own_of_set
  | H : context [own_of (Sys _ _ (owned ?s)) ?i] |- _ =>
      change (own_of (Sys _ _ (owned s)) i) with (own_of s i) in H
  | |- context [own_of (Sys _ _ (owned ?s)) ?i] =>
      change (own_of (Sys _ _ (owned s)) i) with (own_of s i)
  | H : context [default Run (pcs ?s !! ?i)] |- _ =>
      change (default Run (pcs s !! i)) with (pc_of s i) in H
  | H : context [default ∅ (owned ?s !! ?i)] |- _ =>
      change (default ∅ (owned s !! i)) with (own_of s i) in H
  | |- context [default ∅ (owned ?s !! ?i)] =>
      change (default ∅ (owned s !! i)) with (own_of s i)
  | H : context [decide (?a = ?b)] |- _ => destruct (decide (a = b)); subst
  | |- context [decide (?a = ?b)] => destruct (decide (a = b)); subst
  end.

Lemma unlocked_nobody s l i :
  mutex_inv s -> locked (lk_at (mach s) l) = 0 -> ~ has s i l.
Proof. intros I H0 Hh. pose proof (inv_has s I i l Hh). congruence. Qed.

Lemma unlocked_nocpu s l :
  mutex_inv s -> locked (lk_at (mach s) l) = 0 -> lkcpu (lk_at (mach s) l) = None.
Proof.
  intros I H0. destruct (lkcpu _) as [i |] eqn:E; [| done].
  destruct (unlocked_nobody s l i I H0). left. by apply (inv_cpu s I).
Qed.

Lemma enter_inv s i l m' :
  mutex_inv s -> pc_of s i = Run -> acquire_enter i l (mach s) = Ret tt m' ->
  mutex_inv (Sys m' (<[i := Spin l]> (pcs s)) (owned s)).
Proof.
  intros I Hp E. apply acquire_enter_lks in E.
  assert (forall l', lk_at m' l' = lk_at (mach s) l') as El by (intros; unfold lk_at; by rewrite E).
  assert (forall j l', has (Sys m' (<[i := Spin l]> (pcs s)) (owned s)) j l' -> has s j l') as Hh.
  { unfold has. intros j l' H. hart_cases; naive_solver. }
  destruct I as [I1 I2 I3 I4 I5 I6].
  split; cbn [mach]; intros; rewrite ?El in *; eauto.
  apply (I6 i0). hart_cases; naive_solver.
Qed.

Lemma spin_inv s i l old m' :
  mutex_inv s -> pc_of s i = Spin l -> lock_test_and_set l (mach s) = Ret old m' ->
  mutex_inv (Sys m' (<[i := if old =? 0 then Won l else Spin l]> (pcs s)) (owned s)).
Proof.
  intros I Hp E. pose proof (fun l' => test_and_set_lk l (mach s) old m' l' E) as El.
  destruct (El l) as [-> _].
  assert (forall j l', has (Sys m' (<[i := if locked (lk_at (mach s) l) =? 0 then Won l else Spin l]>
             (pcs s)) (owned s)) j l' ->
          has s j l' \/ (j = i /\ l' = l /\ locked (lk_at (mach s) l) = 0)) as Hh.
  { unfold has. intros j l' H. hart_cases; [| tauto].
    destruct (locked _ =? 0) eqn:?; zbool; naive_solver. }
  split; cbn [mach].
  - intros l'. destruct (El l') as (_ & -> & _). case_decide; [by right | apply (inv_lock s I)].
  - intros j l' H. destruct (El l') as (_ & -> & _). case_decide; [done |].
    apply Hh in H as [H | (-> & -> & ?)]; [| done]. by apply (inv_has s I j).
  - intros j k l' H1 H2. apply Hh in H1 as [H1 | (-> & -> & H1)], H2 as [H2 | (-> & ? & H2)]; subst.
    + by apply (inv_excl s I j k l').
    + by destruct (unlocked_nobody s l j I).
    + by destruct (unlocked_nobody s l k I).
    + done.
  - intros j l'. destruct (El l') as (_ & _ & ->). apply (inv_cpu s I).
  - intros j l'. destruct (El l') as (_ & _ & ->). apply (inv_own s I).
  - intros j l' H. destruct (El l') as (_ & _ & ->). hart_cases; [| by apply (inv_pc s I j)].
    destruct (locked _ =? 0) eqn:?; zbool; [| naive_solver].
    destruct H as [[= <-] | ?]; [by apply unlocked_nocpu | done].
Qed.

Lemma exit_inv s i l m' :
  mutex_inv s -> pc_of s i = Won l -> acquire_exit i l (mach s) = Ret tt m' ->
  mutex_inv (Sys m' (<[i := Run]> (pcs s)) (<[i := {[l]} ∪ own_of s i]> (owned s))).
Proof.
  intros I Hp E. pose proof (fun l' => acquire_exit_lk i l (mach s) m' l' E) as El.
  assert (forall j l', has (Sys m' (<[i := Run]> (pcs s)) (<[i := {[l]} ∪ own_of s i]> (owned s))) j l' ->
          has s j l') as Hh.
  { unfold has. intros j l' H. hart_cases; set_solver. }
  assert (forall j, has s j l -> j = i) as Hi.
  { intros j Hj. apply (inv_excl s I j i l Hj). right. by left. }
  split; cbn [mach].
  - intros l'. destruct (El l') as [-> _]. apply (inv_lock s I).
  - intros j l' H. destruct (El l') as [-> _]. eapply (inv_has s I); eauto.
  - intros j k l' H1 H2. eapply (inv_excl s I); eauto.
  - intros j l'. destruct (El l') as [_ ->]. intros H. rewrite own_of_set.
    destruct (decide (l = l')) as [<- |].
    + injection H as <-. rewrite decide_True by done. by apply elem_of_union_l, elem_of_singleton.
    + apply (inv_cpu s I) in H. destruct (decide (i = j)) as [<- |]; [| done].
      by apply elem_of_union_r.
  - intros j l'. destruct (El l') as [_ ->]. rewrite own_of_set. intros H.
    destruct (decide (l = l')) as [<- |], (decide (i = j)) as [<- |]; try done.
    + destruct (Hi j); [by left | done].
    + apply elem_of_union in H as [H%elem_of_singleton | H]; [done |]. by apply (inv_own s I).
    + by apply (inv_own s I).
  - intros j l'. destruct (El l') as [_ ->]. rewrite pc_of_set. intros H.
    destruct (decide (i = j)) as [<- |]; [naive_solver |].
    destruct (decide (l = l')) as [<- |]; [| by apply (inv_pc s I j)].
    destruct (Hi j); [right; exact H | done].
Qed.

Lemma rel_inv s i l m' :
  mutex_inv s -> pc_of s i = Run -> release_enter i l (mach s) = Ret tt m' ->
  mutex_inv (Sys m' (<[i := Rel l]> (pcs s)) (<[i := own_of s i ∖ {[l]}]> (owned s))).
Proof.
  intros I Hp E. apply release_enter_lk in E as [Hc El].
  pose proof (inv_cpu s I i l Hc) as Hown.
  assert (forall j l', has (Sys m' (<[i := Rel l]> (pcs s)) (<[i := own_of s i ∖ {[l]}]> (owned s))) j l' ->
          has s j l') as Hh.
  { unfold has. intros j l' H. hart_cases; [| exact H].
    destruct H as [H | [[=] | [= <-]]]; left; [| done].
    by apply elem_of_difference in H as [H _]. }
  split; cbn [mach].
  - intros l'. destruct (El l') as [-> _]. apply (inv_lock s I).
  - intros j l' H. destruct (El l') as [-> _]. eapply (inv_has s I); eauto.
  - intros j k l' H1 H2. eapply (inv_excl s I); eauto.
  - intros j l'. destruct (El l') as [_ ->]. intros H. rewrite own_of_set.
    destruct (decide (l = l')) as [<- |]; [done |]. apply (inv_cpu s I) in H.
    destruct (decide (i = j)) as [<- |]; [| done].
    apply elem_of_difference. split; [done |]. by intros ->%elem_of_singleton.
  - intros j l'. destruct (El l') as [_ ->]. rewrite own_of_set. intros H.
    destruct (decide (l = l')) as [<- |], (decide (i = j)) as [<- |].
    + apply elem_of_difference in H as [_ H]. by destruct H; apply elem_of_singleton.
    + apply (inv_own s I) in H. congruence.
    + apply elem_of_difference in H as [H _]. by apply (inv_own s I).
    + by apply (inv_own s I).
  - intros j l'. destruct (El l') as [_ ->]. rewrite pc_of_set. intros H.
    destruct (decide (l = l')) as [<- |]; [done |].
    destruct (decide (i = j)) as [<- |]; [naive_solver |]. by apply (inv_pc s I j).
Qed.

Lemma free_inv s i l m' :
  mutex_inv s -> pc_of s i = Rel l -> release_exit i l (mach s) = Ret tt m' ->
  mutex_inv (Sys m' (<[i := Run]> (pcs s)) (owned s)).
Proof.
  intros I Hp E. pose proof (fun l' => release_exit_lk i l (mach s) m' l' E) as El.
  assert (forall j l', has (Sys m' (<[i := Run]> (pcs s)) (owned s)) j l' ->
          has s j l' /\ l <> l') as Hh.
  { intros j l' H. assert (has s j l') as Hs by (unfold has in *; hart_cases; naive_solver).
    split; [done |]. intros <-.
    assert (j = i) as -> by (apply (inv_excl s I j i l Hs); right; by right).
    pose proof (inv_pc s I i l (or_intror Hp)) as Hn.
    destruct H as [H | H]; [apply (inv_own s I) in H; congruence |].
    rewrite pc_of_set, decide_True in H by done. naive_solver. }
  split; cbn [mach].
  - intros l'. destruct (El l') as [-> _]. case_decide; [by left | apply (inv_lock s I)].
  - intros j l' H. apply Hh in H as [H ?]. destruct (El l') as [-> _].
    rewrite decide_False by done. eapply (inv_has s I); eauto.
  - intros j k l' H1 H2. apply Hh in H1 as [], H2 as []. eapply (inv_excl s I); eauto.
  - intros j l'. destruct (El l') as [_ ->]. apply (inv_cpu s I).
  - intros j l'. destruct (El l') as [_ ->]. apply (inv_own s I).
  - intros j l'. destruct (El l') as [_ ->]. rewrite pc_of_set. intros H.
    destruct (decide (i = j)) as [<- |]; [naive_solver |]. by apply (inv_pc s I j).
Qed.

Lemma step_inv s s' : step s s' -> mutex_inv s -> mutex_inv s'.
Proof. destruct 1; intros; eauto using enter_inv, spin_inv, exit_inv, rel_inv, free_inv. Qed.

(** All locks initialised, no hart inside the lock code. *)
Definition init_sys (m : hw) : sys := Sys m ∅ ∅.

Lemma init_inv m :
  (forall l, locked (lk_at m l) = 0 /\ lkcpu (lk_at m l) = None) -> mutex_inv (init_sys m).
Proof.
  intros H. split; cbn [mach init_sys]; unfold has, pc_of, own_of; cbn; intros;
    rewrite ?lookup_empty in *; cbn in *;
    repeat match goal with H : context [_ ∈ ∅] |- _ => rewrite elem_of_empty in H end;
    try (destruct (H l) as [E1 E2]); naive_solver.
Qed.

(** C14: mutual exclusion.  In every state reachable by any interleaving of the
    harts' atomic actions, two harts never both have a lock between the
    return of [acquire] and the call of [release]. *)
Theorem mutual_exclusion m s i j l :
  (forall l, locked (lk_at m l) = 0 /\ lkcpu (lk_at m l) = None) ->
  rtc step (init_sys m) s ->
  l ∈ own_of s i -> l ∈ own_of s j -> i = j.
Proof.
  intros H0 Hr Hi Hj.
  pose proof (rtc_preserves step mutex_inv _ _ step_inv Hr (init_inv m H0)) as I.
  eapply (inv_excl s I); left; eauto.
Qed.

Definition kmem_lk : lockid := ("kmem", 0).
Definition wit_m0 : hw := Hw ∅ ∅.
Definition wit_s1 : sys :=
  match acquire_enter 0 kmem_lk wit_m0 with
  | Ret _ m => Sys m {[0%nat := Spin kmem_lk]} ∅ | _ => init_sys wit_m0 end.
Definition wit_s2 : sys :=
  match lock_test_and_set kmem_lk (mach wit_s1) with
  | Ret _ m => Sys m (<[0%nat := Won kmem_lk]> (pcs wit_s1)) ∅ | _ => wit_s1 end.
Definition wit_s3 : sys :=
  match acquire_exit 0 kmem_lk (mach wit_s2) with
  | Ret _ m => Sys m (<[0%nat := Run]> (pcs wit_s2)) (<[0%nat := {[kmem_lk]} ∪ own_of wit_s2 0]> ∅)
  | _ => wit_s2 end.

Lemma mutual_exclusion_witness :
  rtc step (init_sys wit_m0) wit_s3 /\ kmem_lk ∈ own_of wit_s3 0 /\
  forall j, kmem_lk ∈ own_of wit_s3 j -> 0%nat = j.
Proof.
  assert (rtc step (init_sys wit_m0) wit_s3) as Hr.
  { apply rtc_l with wit_s1; [| apply rtc_l with wit_s2; [| apply rtc_once]].
    - apply (step_enter (init_sys wit_m0) 0 kmem_lk); reflexivity.
    - apply (step_spin wit_s1 0 kmem_lk 0); reflexivity.
    - apply (step_exit wit_s2 0 kmem_lk); reflexivity. }
  assert (kmem_lk ∈ own_of wit_s3 0) as Ho by (vm_compute; reflexivity).
  split; [exact Hr |]. split; [exact Ho |]. intros j Hj.
  apply (mutual_exclusion wit_m0 wit_s3 0 j kmem_lk); [| exact Hr | exact Ho | exact Hj].
  intros l. split; reflexivity.
Defined.

(** *** Sequences of lock operations *)

Inductive lop := Acq (l : lockid) | Rls (l : lockid).

Fixpoint run_abs (ops : list lop) : K locks unit :=
  match ops with
  | [] => kret tt
  | Acq l :: ops => Spinlock.acquire l >> run_abs ops
  | Rls l :: ops => Spinlock.release l >> run_abs ops
  end.

Fixpoint run_hart (me : nat) (ops : list lop) : K hw unit :=
  match ops with
  | [] => kret tt
  | Acq l :: ops => acquire me 1 l >> run_hart me ops
  | Rls l :: ops => release me l >> run_hart me ops
  end.

(** C33: refinement.  On an uncontended hart any sequence of [acquire] and
    [release] calls behaves as on the abstract set of held locks: it panics
    with the same message at the same point, or it returns with exactly the
    abstract locks held, [noff] counting them and interrupts off while any
    is held. *)
Theorem lock_ops_refine me ops st base h :
  view me st base h ->
  base + Z.of_nat (size h) + Z.of_nat (length ops) < 2 ^ 31 - 1 ->
  match run_abs ops h with
  | Ret _ h' => exists st', run_hart me ops st = Ret tt st' /\ view me st' base h'
  | Panic e => run_hart me ops st = Panic e
  | _ => False
  end.
Proof.
  revert st h. induction ops as [| [l | l] ops IH]; intros st h V Hm; cbn [length] in Hm.
  - exists st. done.
  - pose proof (acquire_view me st base h l 1 V ltac:(lia) ltac:(lia)) as H.
    cbn [run_abs run_hart]. unfold kbind, Spinlock.acquire in *.
    case_bool_decide; [by rewrite H |]. destruct H as (st' & -> & V').
    apply IH; [done |]. rewrite size_add by done. lia.
  - pose proof (release_view me st base h l V) as H.
    cbn [run_abs run_hart]. unfold kbind, Spinlock.release in *.
    case_bool_decide as Hin; [| by rewrite H]. destruct H as (st' & -> & V').
    apply IH; [done |]. pose proof (size_remove l h Hin). lia.
Qed.

Lemma lock_ops_refine_witness :
  view 0 wit_m0 0 ∅ /\
  exists st', run_hart 0 [Acq kmem_lk; Acq ("proc", 3); Rls kmem_lk] wit_m0 = Ret tt st'.
Proof.
  assert (view 0 wit_m0 0 ∅) as V.
  { split_and!; done. }
  split; [exact V |].
  destruct (lock_ops_refine 0 [Acq kmem_lk; Acq ("proc", 3); Rls kmem_lk] wit_m0 0 ∅ V ltac:(done))
    as (st' & E & _). exists st'. exact E.
Defined.

End Hart.
