(* ===== verification/Mem.v ===== *)
(** * Physical memory

    Memory is a finite map from physical addresses to bytes; a byte never
    stored reads as 0.  Loads and stores of w-byte little-endian integers are
    built from single bytes, and the lemmas say when a store is seen by a
    load and when it is not. *)

From S2P Require Import Prelude Riscv.

Abbreviation mem := (gmap Z Z).

Definition ld8 (m : mem) (a : Z) : Z := u8 (default 0 (m !! a)).
Definition st8 (m : mem) (a v : Z) : mem := <[a := u8 v]> m.

(** n-byte little-endian load and store. *)
Fixpoint ldn (m : mem) (a : Z) (n : nat) : Z :=
  match n with
  | O => 0
  | S n => ld8 m a + 256 * ldn m (a + 1) n
  end.

Fixpoint stn (m : mem) (a : Z) (n : nat) (v : Z) : mem :=
  match n with
  | O => m
  | S n => stn (st8 m a v) (a + 1) n (v / 256)
  end.

Definition ld32 m a := ldn m a 4.
Definition st32 m a v := stn m a 4 v.
Definition ld64 m a := ldn m a 8.
Definition st64 m a v := stn m a 8 v.

#[global] Arguments ld8 : simpl never.
#[global] Arguments st8 : simpl never.
#[global] Arguments ld32 : simpl never.
#[global] Arguments st32 : simpl never.
#[global] Arguments ld64 : simpl never.
#[global] Arguments st64 : simpl never.

(** The [n] bytes at [a]. *)
Fixpoint rdbytes (m : mem) (a : Z) (n : nat) : bytes :=
  match n with
  | O => []
  | S n => ld8 m a :: rdbytes m (a + 1) n
  end.

Fixpoint wrbytes (m : mem) (a : Z) (l : bytes) : mem :=
  match l with
  | [] => m
  | b :: l => wrbytes (st8 m a b) (a + 1) l
  end.

Lemma ld8_range m a : 0 <= ld8 m a < 256.
Proof. apply u8_range. Qed.

Lemma ld8_st8 m a v b : ld8 (st8 m a v) b = if decide (a = b) then u8 v else ld8 m b.
Proof.
  unfold ld8, st8. rewrite lookup_insert. case_decide; [| done].
  cbn. apply u8_small, u8_range.
Qed.

Lemma ld8_st8_eq m a v : ld8 (st8 m a v) a = u8 v.
Proof. rewrite ld8_st8. by rewrite decide_True. Qed.

Lemma ld8_st8_ne m a v b : a <> b -> ld8 (st8 m a v) b = ld8 m b.
Proof. intros. rewrite ld8_st8. by rewrite decide_False. Qed.

Lemma ldn_range m a n : 0 <= ldn m a n < 256 ^ Z.of_nat n.
Proof.
  revert a. induction n as [| n IH]; intros a; [cbn; lia |].
  rewrite Nat2Z.inj_succ, Z.pow_succ_r by lia. cbn [ldn].
  pose proof (ld8_range m a). specialize (IH (a + 1)). nia.
Qed.

Lemma ld64_range m a : 0 <= ld64 m a < 2 ^ 64.
Proof. apply (ldn_range m a 8). Qed.

Lemma ld32_range m a : 0 <= ld32 m a < 2 ^ 32.
Proof. apply (ldn_range m a 4). Qed.

Lemma ld8_stn_ne m a n v b :
  b < a \/ a + Z.of_nat n <= b -> ld8 (stn m a n v) b = ld8 m b.
Proof.
  revert m a v. induction n as [| n IH]; intros m a v H; [done |]. cbn [stn].
  rewrite IH by lia. apply ld8_st8_ne. lia.
Qed.

(** Loads agree when the bytes they read do. *)
Lemma ldn_ext m m' a n :
  (forall b, a <= b < a + Z.of_nat n -> ld8 m b = ld8 m' b) -> ldn m a n = ldn m' a n.
Proof.
  revert a. induction n as [| n IH]; intros a H; [done |]. cbn [ldn].
  rewrite H, IH by (intros; try apply H; lia). done.
Qed.

Lemma rdbytes_ext m m' a n :
  (forall b, a <= b < a + Z.of_nat n -> ld8 m b = ld8 m' b) -> rdbytes m a n = rdbytes m' a n.
Proof.
  revert a. induction n as [| n IH]; intros a H; [done |]. cbn [rdbytes].
  rewrite H, IH by (intros; try apply H; lia). done.
Qed.

Lemma ldn_stn_eq m a n v : ldn (stn m a n v) a n = v mod 256 ^ Z.of_nat n.
Proof.
  revert m a v. induction n as [| n IH]; intros m a v; [cbn; by rewrite Z.mod_1_r |].
  cbn [stn ldn]. rewrite IH, ld8_stn_ne, ld8_st8_eq by lia.
  rewrite Nat2Z.inj_succ, Z.pow_succ_r by lia. unfold u8. change (2 ^ 8) with 256.
  rewrite Z.rem_mul_r; lia.
Qed.

Lemma ldn_stn_ne m a n v b k :
  b + Z.of_nat k <= a \/ a + Z.of_nat n <= b -> ldn (stn m a n v) b k = ldn m b k.
Proof. intros. apply ldn_ext. intros. apply ld8_stn_ne. lia. Qed.

Lemma ld64_st64_eq m a v : ld64 (st64 m a v) a = u64 v.
Proof. apply (ldn_stn_eq m a 8). Qed.

Lemma ld64_st64_ne m a v b : b + 8 <= a \/ a + 8 <= b -> ld64 (st64 m a v) b = ld64 m b.
Proof. intros. apply ldn_stn_ne. lia. Qed.

Lemma ld8_st64_ne m a v b : b < a \/ a + 8 <= b -> ld8 (st64 m a v) b = ld8 m b.
Proof. intros. apply ld8_stn_ne. lia. Qed.

Lemma length_rdbytes m a n : length (rdbytes m a n) = n.
Proof. revert a. induction n; intros; cbn; auto. Qed.

Lemma nth_rdbytes m a n i : (i < n)%nat -> nth i (rdbytes m a n) 0 = ld8 m (a + Z.of_nat i).
Proof.
  revert a i. induction n as [| n IH]; intros a i Hi; [lia |]. destruct i as [| i]; cbn.
  - by rewrite Z.add_0_r.
  - rewrite IH by lia. f_equal. lia.
Qed.

Lemma rdbytes_app m a n k :
  rdbytes m a (n + k) = rdbytes m a n ++ rdbytes m (a + Z.of_nat n) k.
Proof.
  revert a. induction n as [| n IH]; intros a; cbn [rdbytes Nat.add app].
  - by rewrite Z.add_0_r.
  - rewrite IH. do 3 f_equal. lia.
Qed.

Lemma ld8_wrbytes m a l b :
  ld8 (wrbytes m a l) b =
    if decide (a <= b < a + Z.of_nat (length l)) then u8 (nth (Z.to_nat (b - a)) l 0) else ld8 m b.
Proof.
  revert m a. induction l as [| x l IH]; intros m a; cbn [wrbytes length].
  { rewrite decide_False by (cbn; lia). done. }
  rewrite IH. destruct (decide (b = a)) as [-> |].
  - rewrite decide_False by lia. rewrite decide_True by lia.
    rewrite Z.sub_diag. cbn. by rewrite ld8_st8_eq.
  - destruct (decide (a + 1 <= b < a + 1 + Z.of_nat (length l))).
    + rewrite decide_True by lia.
      replace (Z.to_nat (b - a)) with (S (Z.to_nat (b - (a + 1)))) by lia. done.
    + rewrite decide_False by lia. by rewrite ld8_st8_ne.
Qed.

Lemma rdbytes_wrbytes m a l : bytes_ok l -> rdbytes (wrbytes m a l) a (length l) = l.
Proof.
  intros Hok. apply nth_ext with 0 0; rewrite length_rdbytes; [done |].
  intros i Hi. rewrite nth_rdbytes, ld8_wrbytes, decide_True by lia.
  replace (Z.to_nat _) with i by lia. apply u8_small.
  unfold bytes_ok in Hok. rewrite Forall_forall in Hok. by apply Hok, list_elem_of_In, nth_In.
Qed.

(** A memory is unchanged outside the range [lo, hi). *)
Definition same_outside (lo hi : Z) (m m' : mem) : Prop :=
  forall b, b < lo \/ hi <= b -> ld8 m' b = ld8 m b.

(** Aligned pages are equal or disjoint. *)
Lemma pages_disjoint p q :
  p mod PGSIZE = 0 -> q mod PGSIZE = 0 -> p <> q -> p + PGSIZE <= q \/ q + PGSIZE <= p.
Proof. unfold PGSIZE. intros. dlia. Qed.
