(* ===== verification/CString.v ===== *)
(** * kernel/string.c

    The functions that write ([memset], [memmove], [strncpy], [safestrcpy])
    act on memory; those that only read ([memcmp], [strncmp], [strlen]) take
    the bytes behind each pointer as a function of the offset, so that they
    apply to memory and to byte arrays alike. *)

From S2P Require Import Prelude Mem.

(** [for(i = 0; i < n; i++) cdst[i] = c;] *)
Fixpoint memset_loop (m : mem) (a c : Z) (n : nat) : mem :=
  match n with
  | O => m
  | S n => memset_loop (st8 m a c) (a + 1) c n
  end.

Definition memset (m : mem) (dst c n : Z) : mem := memset_loop m dst c (Z.to_nat n).

(** [while(n-- > 0) *d++ = *s++;] *)
Fixpoint copy_fwd (m : mem) (d s : Z) (n : nat) : mem :=
  match n with
  | O => m
  | S n => copy_fwd (st8 m d (ld8 m s)) (d + 1) (s + 1) n
  end.

(** [while(n-- > 0) *--d = *--s;] *)
Fixpoint copy_bwd (m : mem) (d s : Z) (n : nat) : mem :=
  match n with
  | O => m
  | S n => copy_bwd (st8 m (d - 1) (ld8 m (s - 1))) (d - 1) (s - 1) n
  end.

Definition memmove (m : mem) (dst src n : Z) : mem :=
  if n =? 0 then m
  else if ((src <? dst) && (dst <? src + n))%bool
  then copy_bwd m (dst + n) (src + n) (Z.to_nat n)
  else copy_fwd m dst src (Z.to_nat n).

Definition memcpy (m : mem) (dst src n : Z) : mem := memmove m dst src n.

(** Bytes behind a pointer, by offset. *)
Definition at_mem (m : mem) (a : Z) : nat -> Z := fun i => ld8 m (a + Z.of_nat i).
Definition at_list (l : bytes) : nat -> Z := fun i => nth i l 0.

Fixpoint memcmp (s1 s2 : nat -> Z) (i n : nat) : Z :=
  match n with
  | O => 0
  | S n => if negb (s1 i =? s2 i) then s1 i - s2 i else memcmp s1 s2 (S i) n
  end.

Fixpoint strncmp (p q : nat -> Z) (i n : nat) : Z :=
  match n with
  | O => 0
  | S n' =>
      if (negb (p i =? 0) && (p i =? q i))%bool
      then strncmp p q (S i) n'
      else p i - q i
  end.

(** First loop of [strncpy]; returns the memory, [s] and [n] after it. *)
Fixpoint strncpy_copy (m : mem) (s t : Z) (n : nat) : mem * Z * nat :=
  match n with
  | O => (m, s, O)
  | S n =>
      let c := ld8 m t in
      let m := st8 m s c in
      if c =? 0 then (m, s + 1, n) else strncpy_copy m (s + 1) (t + 1) n
  end.

Definition strncpy (m : mem) (s t n : Z) : mem :=
  let '(m, s, n) := strncpy_copy m s t (Z.to_nat n) in
  memset_loop m s 0 n.

(** [while(--n > 0 && (star s++ = star t++) != 0);] *)
Fixpoint safestrcpy_copy (m : mem) (s t : Z) (n : nat) : mem * Z :=
  match n with
  | O => (m, s)
  | S n =>
      let c := ld8 m t in
      let m := st8 m s c in
      if c =? 0 then (m, s + 1) else safestrcpy_copy m (s + 1) (t + 1) n
  end.

Definition safestrcpy (m : mem) (s t n : Z) : mem :=
  if n <=? 0 then m
  else let '(m, s) := safestrcpy_copy m s t (Z.to_nat (n - 1)) in st8 m s 0.

(** [for(n = 0; s[n]; n++);], looking at no more than [fuel] bytes. *)
Fixpoint strlen_from (s : nat -> Z) (n fuel : nat) : option nat :=
  match fuel with
  | O => None
  | S fuel => if s n =? 0 then Some n else strlen_from s (S n) fuel
  end.

Definition strlen (s : nat -> Z) (fuel : nat) : option nat := strlen_from s 0 fuel.

#[global] Arguments memset : simpl never.
#[global] Arguments memmove : simpl never.
#[global] Arguments memcpy : simpl never.
#[global] Arguments strncpy : simpl never.
#[global] Arguments safestrcpy : simpl never.

(** ** memset and memmove *)

Lemma ld8_memset_loop m a c n b :
  ld8 (memset_loop m a c n) b =
    if decide (a <= b < a + Z.of_nat n) then u8 c else ld8 m b.
Proof.
  revert m a. induction n as [| n IH]; intros m a; cbn [memset_loop].
  { by rewrite decide_False by lia. }
  rewrite IH, ld8_st8. repeat case_decide; try done; lia.
Qed.

Lemma ld8_memset m d c n b :
  ld8 (memset m d c n) b = if decide (d <= b < d + n) then u8 c else ld8 m b.
Proof.
  unfold memset. rewrite ld8_memset_loop. repeat case_decide; try done; lia.
Qed.

Lemma ld8_copy_fwd m d s n b :
  d <= s \/ s + Z.of_nat n <= d ->
  ld8 (copy_fwd m d s n) b =
    if decide (d <= b < d + Z.of_nat n) then ld8 m (s + (b - d)) else ld8 m b.
Proof.
  revert m d s. induction n as [| n IH]; intros m d s H; cbn [copy_fwd].
  { by rewrite decide_False by lia. }
  destruct (decide (n = 0%nat)) as [-> | Hn].
  { cbn [copy_fwd]. rewrite ld8_st8. repeat case_decide; try lia.
    subst. rewrite u8_small by apply ld8_range. f_equal. lia. }
  rewrite IH by lia. repeat case_decide; try lia.
  - rewrite ld8_st8_ne by lia. f_equal. lia.
  - rewrite ld8_st8. case_decide; [| lia]. subst.
    rewrite u8_small by apply ld8_range. f_equal. lia.
  - rewrite ld8_st8_ne by lia. done.
Qed.

Lemma ld8_copy_bwd m d s n b :
  s < d ->
  ld8 (copy_bwd m d s n) b =
    if decide (d - Z.of_nat n <= b < d) then ld8 m (b - d + s) else ld8 m b.
Proof.
  revert m d s. induction n as [| n IH]; intros m d s H; cbn [copy_bwd].
  { by rewrite decide_False by lia. }
  rewrite IH by lia. repeat case_decide; try lia.
  - rewrite ld8_st8_ne by lia. f_equal. lia.
  - rewrite ld8_st8. case_decide; [| lia]. subst.
    rewrite u8_small by apply ld8_range. f_equal. lia.
  - rewrite ld8_st8_ne by lia. done.
Qed.

Lemma ld8_memmove m d s n b :
  0 <= n ->
  ld8 (memmove m d s n) b = if decide (d <= b < d + n) then ld8 m (s + (b - d)) else ld8 m b.
Proof.
  intros Hn. unfold memmove. case_if; zbool; [subst; by rewrite decide_False by lia |].
  case_if; zbool.
  - rewrite ld8_copy_bwd by lia. repeat case_decide; try lia. f_equal; lia.
  - rewrite ld8_copy_fwd by lia. repeat case_decide; lia.
Qed.

(** [memmove] copies as if through a temporary buffer, also when source and
    destination overlap in either direction, and writes nothing else. *)
Theorem memmove_correct m dst src n :
  0 <= n ->
  rdbytes (memmove m dst src n) dst (Z.to_nat n) = rdbytes m src (Z.to_nat n) /\
  same_outside dst (dst + n) m (memmove m dst src n).
Proof.
  intros Hn. split.
  - apply nth_ext with 0 0; rewrite !length_rdbytes; [done |]. intros i Hi.
    rewrite !nth_rdbytes, ld8_memmove, decide_True by lia. f_equal. lia.
  - intros b Hb. rewrite ld8_memmove, decide_False by lia. done.
Qed.

Definition wit_mem : mem := wrbytes ∅ 100 [1; 2; 3; 4; 5].

Lemma memmove_correct_witness :
  rdbytes (memmove wit_mem 102 100 5) 102 5 = [1; 2; 3; 4; 5] /\
  rdbytes (memmove wit_mem 99 100 5) 99 5 = [1; 2; 3; 4; 5].
Proof.
  split.
  - etransitivity; [apply (memmove_correct wit_mem 102 100 5); lia | vm_compute; reflexivity].
  - etransitivity; [apply (memmove_correct wit_mem 99 100 5); lia | vm_compute; reflexivity].
Defined.

(** ** NUL-terminated strings

    [cprefix p i n]: the bytes of [p] from offset [i] up to the first NUL, at
    most [n] of them: the C string a bounded function sees. *)
Fixpoint cprefix (p : nat -> Z) (i n : nat) : bytes :=
  match n with
  | O => []
  | S n => if p i =? 0 then [] else p i :: cprefix p (S i) n
  end.

Lemma cprefix_ext p q i n :
  (forall j, (i <= j < i + n)%nat -> p j = q j) -> cprefix p i n = cprefix q i n.
Proof.
  revert i. induction n as [| n IH]; intros i H; [done |]. cbn.
  rewrite <- (H i) by lia. case_if; [done |]. f_equal. apply IH. intros. apply H. lia.
Qed.

Lemma length_cprefix p i n : (length (cprefix p i n) <= n)%nat.
Proof. revert i. induction n; intros i; cbn; [lia |]. case_if; cbn; [lia |]. specialize (IHn (S i)). lia. Qed.

Lemma cprefix_nonzero p i n : Forall (fun b => b <> 0) (cprefix p i n).
Proof. revert i. induction n; intros i; cbn; [constructor |]. case_if; zbool; constructor; auto. Qed.

Lemma strncmp_eq0 p q i n :
  strncmp p q i n = 0 <-> cprefix p i n = cprefix q i n.
Proof.
  revert i. induction n as [| n IH]; intros i; [done |]. cbn.
  destruct (p i =? 0) eqn:Ep, (q i =? 0) eqn:Eq; zbool; cbn [negb andb].
  - split; [done | lia].
  - split; [lia | done].
  - destruct (p i =? q i) eqn:E; zbool; split; intros; try done; lia.
  - destruct (p i =? q i) eqn:E; zbool.
    + rewrite IH. split; [congruence | by intros [= _ ->]].
    + split; [lia | by intros [= ?]].
Qed.

(** [strncmp] returns 0 exactly when the two strings agree up to the first
    NUL or [n] bytes; otherwise the sign of the result is that of the first
    difference. *)
Theorem strncmp_correct p q n :
  (strncmp p q 0 n = 0 <-> cprefix p 0 n = cprefix q 0 n) /\
  (strncmp p q 0 n <> 0 ->
   exists k, (k < n)%nat /\ cprefix p 0 k = cprefix q 0 k /\ strncmp p q 0 n = p k - q k /\ p k <> q k).
Proof.
  split; [apply strncmp_eq0 |].
  enough (forall i, strncmp p q i n <> 0 ->
    exists k, (k < n)%nat /\ cprefix p i k = cprefix q i k /\
              strncmp p q i n = p (i + k)%nat - q (i + k)%nat /\ p (i + k)%nat <> q (i + k)%nat) as H.
  { intros. by apply (H 0%nat). }
  induction n as [| n IH]; intros i H; [done |]. cbn in *.
  destruct (negb (p i =? 0) && (p i =? q i))%bool eqn:E.
  - destruct (IH (S i) H) as (k & Hk & Hpre & Hr & Hne). exists (S k).
    rewrite Nat.add_succ_r. zbool. split_and!; auto; [lia |]. cbn.
    replace (q i) with (p i) by done. by rewrite Hpre.
  - exists 0%nat. rewrite Nat.add_0_r. split_and!; auto; [lia |].
    intros Heq. rewrite Heq in H. lia.
Qed.

Lemma strncmp_correct_witness :
  strncmp (at_list (cstr "cat")) (at_list (cstr "cab")) 0 14 <> 0 /\
  exists k, (k < 14)%nat /\
    strncmp (at_list (cstr "cat")) (at_list (cstr "cab")) 0 14
      = at_list (cstr "cat") k - at_list (cstr "cab") k.
Proof.
  assert (strncmp (at_list (cstr "cat")) (at_list (cstr "cab")) 0 14 <> 0) as H by (vm_compute; discriminate).
  split; [exact H |].
  destruct (proj2 (strncmp_correct (at_list (cstr "cat")) (at_list (cstr "cab")) 14) H)
    as (k & Hk & _ & E & _).
  exists k. split; [exact Hk | exact E].
Defined.

(** The copying loop of [strncpy]: it leaves the pointer after the bytes it
    wrote, which are the string and, if there was room, its NUL. *)
Lemma strncpy_copy_spec m s t n m' s' n' :
  s + Z.of_nat n <= t \/ t + Z.of_nat n <= s ->
  strncpy_copy m s t n = (m', s', n') ->
  let l := cprefix (at_mem m t) 0 n in
  (forall b, ld8 m' b = if decide (s <= b < s + Z.of_nat (length l))
                        then nth (Z.to_nat (b - s)) l 0
                        else if decide (s <= b < s') then 0 else ld8 m b) /\
  s + Z.of_nat (length l) <= s' /\ s' + Z.of_nat n' = s + Z.of_nat n.
Proof.
  revert m s t. induction n as [| n IH]; intros m s t Hd E; cbn [strncpy_copy] in E; cbv zeta in E.
  { injection E as <- <- <-. cbn. split; [| lia]. intros b. by rewrite !decide_False by lia. }
  cbn [cprefix]. replace (at_mem m t 0) with (ld8 m t) by (unfold at_mem; f_equal; lia).
  destruct (ld8 m t =? 0) eqn:E0; zbool.
  - injection E as <- <- <-. cbn [length]. split; [| lia]. intros b.
    rewrite decide_False, ld8_st8, E0 by lia. repeat case_decide; try lia; done.
  - apply IH in E; [| lia]. destruct E as (Hb & Hs & Hn).
    replace (cprefix (at_mem (st8 m s (ld8 m t)) (t + 1)) 0 n) with (cprefix (at_mem m t) 1 n) in *.
    2:{ clear -Hd. assert (forall i k, (i + k <= n)%nat -> cprefix (at_mem m t) (S i) k =
          cprefix (at_mem (st8 m s (ld8 m t)) (t + 1)) i k) as H.
        { intros i k. revert i. induction k as [| k IHk]; intros i Hi; [done |]. cbn.
          unfold at_mem. rewrite ld8_st8_ne by lia.
          replace (t + 1 + Z.of_nat i) with (t + Z.of_nat (S i)) by lia.
          case_if; [done |]. f_equal. apply IHk. lia. }
        apply H. lia. }
    cbn [length]. split; [| lia]. intros b. rewrite Hb, ld8_st8.
    pose proof (ld8_range m t).
    repeat case_decide; try lia.
    + replace (Z.to_nat (b - s)) with (S (Z.to_nat (b - (s + 1)))) by lia. done.
    + subst. rewrite Z.sub_diag. by apply u8_small.
Qed.

(** [strncpy] with room for [n] bytes writes the string, then zeroes up to
    exactly [n] bytes, and nothing else. *)
Lemma strncpy_spec m s t n :
  0 <= n -> s + n <= t \/ t + n <= s ->
  let l := cprefix (at_mem m t) 0 (Z.to_nat n) in
  rdbytes (strncpy m s t n) s (Z.to_nat n) = l ++ replicate (Z.to_nat n - length l) 0 /\
  same_outside s (s + n) m (strncpy m s t n).
Proof.
  intros Hn Hd l. unfold strncpy.
  destruct (strncpy_copy m s t (Z.to_nat n)) as [[m' s'] n'] eqn:E.
  apply strncpy_copy_spec in E; [| lia]. fold l in E. destruct E as (Hb & Hs & Hn').
  pose proof (length_cprefix (at_mem m t) 0 (Z.to_nat n)) as Hl. fold l in Hl.
  assert (forall b, ld8 (memset_loop m' s' 0 n') b =
    if decide (s <= b < s + Z.of_nat (length l)) then nth (Z.to_nat (b - s)) l 0
    else if decide (s <= b < s + n) then 0 else ld8 m b) as Hall.
  { intros b. rewrite ld8_memset_loop, Hb. repeat case_decide; try lia; done. }
  split.
  - apply nth_ext with 0 0.
    { rewrite length_rdbytes, length_app, length_replicate. lia. }
    intros i Hi. rewrite length_rdbytes in Hi. rewrite nth_rdbytes, Hall by done.
    case_decide.
    + rewrite app_nth1 by lia. f_equal. lia.
    + rewrite app_nth2 by lia. rewrite decide_True by lia. by rewrite nth_replicate.
  - intros b Hout. rewrite Hall, !decide_False by lia. done.
Qed.

(** The copying loop of [safestrcpy] is the first loop of [strncpy]. *)
Lemma safestrcpy_copy_eq m s t n :
  let '(m', s', _) := strncpy_copy m s t n in safestrcpy_copy m s t n = (m', s').
Proof.
  revert m s t. induction n as [| n IH]; intros m s t; [done |]. cbn.
  destruct (ld8 m t =? 0); [done | apply IH].
Qed.

(** [safestrcpy] stores a NUL-terminated prefix of the source, at most
    [n - 1] of its bytes, and writes only the [n] bytes of the destination. *)
Theorem safestrcpy_correct m s t n :
  0 < n -> s + n <= t \/ t + n <= s ->
  let l := cprefix (at_mem m t) 0 (Z.to_nat (n - 1)) in
  rdbytes (safestrcpy m s t n) s (length l) = l /\
  strlen (at_mem (safestrcpy m s t n) s) (Z.to_nat n) = Some (length l) /\
  same_outside s (s + n) m (safestrcpy m s t n).
Proof.
  intros Hn Hd l. unfold safestrcpy. case_if; zbool; [lia |].
  pose proof (safestrcpy_copy_eq m s t (Z.to_nat (n - 1))) as Eq.
  destruct (strncpy_copy m s t (Z.to_nat (n - 1))) as [[m' s'] n'] eqn:Ec. rewrite Eq.
  apply strncpy_copy_spec in Ec; [| lia]. fold l in Ec. destruct Ec as (Hb & Hs & Hn').
  pose proof (length_cprefix (at_mem m t) 0 (Z.to_nat (n - 1))) as Hl. fold l in Hl.
  assert (forall b, ld8 (st8 m' s' 0) b =
    if decide (s <= b < s + Z.of_nat (length l)) then nth (Z.to_nat (b - s)) l 0
    else if decide (s <= b <= s') then 0 else ld8 m b) as Hall.
  { intros b. rewrite ld8_st8, Hb. repeat case_decide; try lia; done. }
  split_and!.
  - apply nth_ext with 0 0; rewrite length_rdbytes; [done |]. intros i Hi.
    rewrite nth_rdbytes, Hall, decide_True by lia. f_equal. lia.
  - assert (forall i k, (i + k = length l)%nat ->
      strlen_from (at_mem (st8 m' s' 0) s) i (S k + (Z.to_nat n - S (length l))) = Some (length l)) as H.
    { intros i k. revert i. induction k as [| k IHk]; intros i Hi; cbn [strlen_from Nat.add];
        unfold at_mem at 1; rewrite Hall.
      - rewrite decide_False, decide_True by lia. cbn. f_equal. lia.
      - rewrite decide_True by lia. replace (Z.to_nat _) with i by lia.
        pose proof (cprefix_nonzero (at_mem m t) 0 (Z.to_nat (n - 1))) as Hnz. fold l in Hnz.
        rewrite Forall_forall in Hnz. specialize (Hnz (nth i l 0)).
        destruct (nth i l 0 =? 0) eqn:E0; zbool.
        + destruct Hnz; [apply list_elem_of_In, nth_In; lia | done].
        + apply (IHk (S i)). lia. }
    unfold strlen. replace (Z.to_nat n) with (S (length l) + (Z.to_nat n - S (length l)))%nat by lia.
    apply (H 0%nat). lia.
  - intros b Hout. rewrite Hall, !decide_False by lia. done.
Qed.

Definition wit_name : mem := wrbytes ∅ 100 (cstr "usertests-long-name" ++ [0]).

Lemma safestrcpy_correct_witness :
  strlen (at_mem (safestrcpy wit_name 10 100 16) 10) 16 = Some 15%nat.
Proof.
  etransitivity; [apply (safestrcpy_correct wit_name 10 100 16); lia | vm_compute; reflexivity].
Defined.

(** [strlen] returns the offset of the first NUL, when there is one within
    the bytes it looks at. *)
Lemma strlen_from_spec p i fuel k :
  strlen_from p i fuel = Some k <->
  (i <= k < i + fuel)%nat /\ p k = 0 /\ forall j, (i <= j < k)%nat -> p j <> 0.
Proof.
  revert i. induction fuel as [| fuel IH]; intros i; cbn.
  - split; [done | lia].
  - destruct (p i =? 0) eqn:E; zbool.
    + split; [intros [= <-]; split_and!; [lia | lia | done | lia] |].
      intros (Hk & H0 & Hj). f_equal. destruct (decide (i = k)); [done |].
      destruct (Hj i); [lia | done].
    + rewrite IH. split; intros (Hk & H0 & Hj); split_and!; try done; try lia.
      * intros j ?. destruct (decide (j = i)) as [-> |]; [done | apply Hj; lia].
      * destruct (decide (k = i)) as [-> |]; [done | lia].
      * intros j ?. apply Hj. lia.
Qed.
