(* ===== verification/Kalloc.v ===== *)
(** * kernel/kalloc.c: the physical page allocator

    State: the free list head [kmem.freelist], and memory itself, since the
    list is threaded through the first word of every free page.  The
    representation predicate [kmem_inv s l] says that the list in memory is
    the Rocq list [l] of distinct, aligned pages between [end] and PHYSTOP. *)

From S2P Require Import Prelude Riscv Spinlock Mem CString.

(** Addresses the linker script provides. *)
Class Layout := {
  kend : Z;        (* [end]: first address after the kernel *)
  etext : Z;       (* end of kernel text *)
  trampoline : Z;  (* the trampoline page *)
}.

Record pm := Pm { pm_held : locks; pm_mem : mem; freelist : Z }.

#[export] Instance pm_locks : Lens pm locks.
Proof.
  refine {| lget := pm_held; lset h s := Pm h (pm_mem s) (freelist s) |}; by try intros [].
Defined.

Definition set_mem (f : mem -> mem) : K pm unit :=
  kmod (fun s => Pm (pm_held s) (f (pm_mem s)) (freelist s)).
Definition set_freelist (a : Z) : K pm unit :=
  kmod (fun s => Pm (pm_held s) (pm_mem s) a).

Definition kmem_lock : lockid := ("kmem", 0).

Section kalloc.
Context `{L : Layout}.

Definition kfree (pa : Z) : K pm unit :=
  if (negb (pa mod PGSIZE =? 0) || (pa <? kend) || (PHYSTOP <=? pa))%bool
  then kpanic "kfree" else
  (* fill with junk to catch dangling refs *)
  set_mem (fun m => memset m pa 1 PGSIZE) >>
  zoom (acquire kmem_lock) >>
  head <- kgets freelist ;;
  set_mem (fun m => st64 m pa head) >>
  set_freelist pa >>
  zoom (release kmem_lock).

Definition kalloc : K pm Z :=
  zoom (acquire kmem_lock) >>
  r <- kgets freelist ;;
  kwhen (negb (r =? 0))
    (m <- kgets pm_mem ;; set_freelist (ld64 m r)) >>
  zoom (release kmem_lock) >>
  kwhen (negb (r =? 0)) (set_mem (fun m => memset m r 5 PGSIZE)) >>
  kret r.

(** [for(; p + PGSIZE <= pa_end; p += PGSIZE) kfree(p);] *)
Fixpoint freerange_loop (fuel : nat) (p pa_end : Z) : K pm unit :=
  match fuel with
  | O => kfuel
  | S fuel =>
      if p + PGSIZE <=? pa_end
      then kfree p >> freerange_loop fuel (p + PGSIZE) pa_end
      else kret tt
  end.

Definition freerange (pa_start pa_end : Z) : K pm unit :=
  let p := PGROUNDUP pa_start in
  freerange_loop (S (Z.to_nat ((pa_end - p) / PGSIZE))) p pa_end.

Definition kinit : K pm unit :=
  zoom (initlock kmem_lock) >> freerange kend PHYSTOP.

(** [while(r) { sz += PGSIZE; r = r->next; }] *)
Fixpoint kfreemem_loop (fuel : nat) (r sz : Z) : K pm Z :=
  match fuel with
  | O => kfuel
  | S fuel =>
      if r =? 0 then kret sz
      else m <- kgets pm_mem ;; kfreemem_loop fuel (ld64 m r) (u64 (sz + PGSIZE))
  end.

(** There are at most PHYSTOP/PGSIZE pages, so one more turn is enough. *)
Definition kfreemem : K pm Z :=
  zoom (acquire kmem_lock) >>
  r <- kgets freelist ;;
  sz <- kfreemem_loop (S (Z.to_nat (PHYSTOP / PGSIZE))) r 0 ;;
  zoom (release kmem_lock) >>
  kret sz.

(** ** The free list in memory *)

Definition page_ok (p : Z) : Prop :=
  p mod PGSIZE = 0 /\ kend <= p /\ p < PHYSTOP /\ 0 < p.

Fixpoint chain (m : mem) (a : Z) (l : list Z) : Prop :=
  match l with
  | [] => a = 0
  | p :: l => a = p /\ chain m (ld64 m p) l
  end.

Definition kmem_inv (s : pm) (l : list Z) : Prop :=
  chain (pm_mem s) (freelist s) l /\ NoDup l /\ Forall page_ok l.

Lemma chain_ext m m' a l :
  (forall p b, p ∈ l -> p <= b < p + PGSIZE -> ld8 m' b = ld8 m b) ->
  chain m a l -> chain m' a l.
Proof.
  revert a. induction l as [| p l IH]; intros a H; [done |]. cbn. intros [-> Hc].
  split; [done |].
  replace (ld64 m' p) with (ld64 m p)
    by (apply ldn_ext; intros; symmetry; apply (H p); [by left | unfold PGSIZE; lia]).
  apply IH; [| done]. intros q b Hq. apply (H q b). by right.
Qed.

Lemma page_ok_disjoint p q b :
  page_ok p -> page_ok q -> p <> q -> p <= b < p + PGSIZE -> b < q \/ q + PGSIZE <= b.
Proof. intros [? _] [? _] ? ?. pose proof (pages_disjoint p q). lia. Qed.

(** A change outside the free pages keeps the free list. *)
Lemma kmem_inv_ext s l h m' :
  kmem_inv s l -> (forall p b, p ∈ l -> p <= b < p + PGSIZE -> ld8 m' b = ld8 (pm_mem s) b) ->
  kmem_inv (Pm h m' (freelist s)) l.
Proof.
  intros (Hc & Hnd & Hok) Hm. split_and!; [| done..]. by eapply chain_ext.
Qed.

(** A change confined to a page that is not free keeps the free list. *)
Lemma kmem_inv_frame s l p m' :
  kmem_inv s l -> page_ok p -> p ∉ l -> same_outside p (p + PGSIZE) (pm_mem s) m' ->
  kmem_inv (Pm (pm_held s) m' (freelist s)) l.
Proof.
  intros I Hp Hin Hm. apply kmem_inv_ext; [done |]. intros q b Hq Hb. apply Hm.
  destruct I as (_ & _ & Hok). rewrite Forall_forall in Hok.
  eapply (page_ok_disjoint q p); eauto. congruence.
Qed.

Lemma page_ok_guard p :
  page_ok p -> (negb (p mod PGSIZE =? 0) || (p <? kend) || (PHYSTOP <=? p))%bool = false.
Proof. intros (? & ? & ? & ?). rewrite !orb_false_iff, negb_false_iff. lia. Qed.

(** [kfree] of a page that is not free puts it at the head of the list and
    touches no other page. *)
Lemma kfree_ok s l p :
  kmem_inv s l -> page_ok p -> p ∉ l -> kmem_lock ∉ pm_held s ->
  exists m', kfree p s = Ret tt (Pm (pm_held s) m' p) /\
    kmem_inv (Pm (pm_held s) m' p) (p :: l) /\
    same_outside p (p + PGSIZE) (pm_mem s) m'.
Proof.
  intros I Hp Hin Hl. unfold kfree. rewrite page_ok_guard by done.
  unfold set_mem, set_freelist, zoom. kred. cbn [lget lset pm_locks pm_held pm_mem freelist].
  rewrite acquire_ok by done. cbn [pm_held pm_mem freelist].
  rewrite release_acquired by done. eexists. split; [reflexivity |].
  set (m' := st64 _ _ _).
  assert (same_outside p (p + PGSIZE) (pm_mem s) m') as Hs.
  { intros b Hb. unfold m'. rewrite ld8_st64_ne by (unfold PGSIZE in *; lia).
    rewrite ld8_memset, decide_False by lia. done. }
  split; [| done]. destruct (kmem_inv_frame s l p m' I Hp Hin Hs) as (Hc & Hnd & Hok).
  split_and!; cbn [pm_mem freelist]; [| by constructor | by constructor].
  split; [done |]. unfold m' at 2. rewrite ld64_st64_eq.
  cbn in Hc. rewrite u64_small; [done |].
  destruct l as [| q l]; cbn in Hc; [by rewrite Hc |]. destruct Hc as [-> _].
  inversion_clear Hok as [| ? ? (? & ? & Hq & ?) _]. revert Hq. unfold PHYSTOP, KERNBASE. lia.
Qed.

(** [kalloc] takes the head of the free list, fills it with 5, and touches no
    other page. *)
Lemma kalloc_some s l p :
  kmem_inv s (p :: l) -> kmem_lock ∉ pm_held s ->
  exists m', kalloc s = Ret p (Pm (pm_held s) m' (ld64 (pm_mem s) p)) /\
    kmem_inv (Pm (pm_held s) m' (ld64 (pm_mem s) p)) l /\
    (forall b, ld8 m' b = if decide (p <= b < p + PGSIZE) then 5 else ld8 (pm_mem s) b).
Proof.
  intros ((Hf & Hc) & Hnd & Hok) Hl. inversion_clear Hnd. inversion_clear Hok as [| ? ? Hp Hok'].
  unfold kalloc, set_mem, set_freelist, zoom. kred.
  cbn [lget lset pm_locks pm_held pm_mem freelist].
  rewrite acquire_ok by done. cbn [pm_held pm_mem freelist]. rewrite Hf.
  destruct (p =? 0) eqn:E; [destruct Hp as (? & ? & ? & ?); zbool; lia |].
  cbn [negb]. kred. cbn [pm_held pm_mem freelist].
  rewrite release_acquired by done. eexists. split; [reflexivity |].
  assert (forall b, ld8 (memset (pm_mem s) p 5 PGSIZE) b =
    if decide (p <= b < p + PGSIZE) then 5 else ld8 (pm_mem s) b) as Hm.
  { intros b. rewrite ld8_memset. by case_decide. }
  split; [| done].
  apply (kmem_inv_frame (Pm (pm_held s) (pm_mem s) (ld64 (pm_mem s) p)) l p); try done.
  intros b Hb. rewrite Hm, decide_False by lia. done.
Qed.

Lemma kalloc_none s : kmem_inv s [] -> kmem_lock ∉ pm_held s -> kalloc s = Ret 0 s.
Proof.
  intros (Hf & _) Hl. cbn in Hf. unfold kalloc, zoom. kred.
  cbn [lget lset pm_locks pm_held pm_mem freelist].
  rewrite acquire_ok by done. cbn [pm_held pm_mem freelist]. rewrite Hf. cbn [negb Z.eqb]. kred.
  cbn [pm_held pm_mem freelist]. rewrite release_acquired by done. destruct s; cbn in *; by subst.
Qed.

(** [kalloc] on every branch.  With a free page it returns the head of the
    list, filled with the junk byte 5; every other byte of memory, the other
    free pages and the held locks are unchanged.  With none it returns 0 and
    changes nothing. *)
Theorem kalloc_correct s l :
  kmem_inv s l -> kmem_lock ∉ pm_held s ->
  match l with
  | [] => kalloc s = Ret 0 s
  | p :: l' => exists s', kalloc s = Ret p s' /\ kmem_inv s' l' /\ pm_held s' = pm_held s /\
      page_ok p /\ p ∉ l' /\
      forall b, ld8 (pm_mem s') b = if decide (p <= b < p + PGSIZE) then 5 else ld8 (pm_mem s) b
  end.
Proof.
  intros I Hl. destruct l as [| p l]; [by apply kalloc_none |].
  destruct (kalloc_some s l p I Hl) as (m' & E & I' & Hm). eexists. split; [exact E |].
  destruct I as (_ & Hnd & Hok). inversion_clear Hnd. by inversion_clear Hok.
Qed.

(** [kfree] on every branch.  A misaligned address or one outside
    [end, PHYSTOP) panics; freeing an allocated page makes it the first free
    page and writes only inside it. *)
Theorem kfree_correct s l p :
  kmem_inv s l -> kmem_lock ∉ pm_held s -> 0 < kend -> p ∉ l ->
  (~ page_ok p -> kfree p s = Panic "kfree") /\
  (page_ok p -> exists s', kfree p s = Ret tt s' /\ kmem_inv s' (p :: l) /\
     pm_held s' = pm_held s /\ same_outside p (p + PGSIZE) (pm_mem s) (pm_mem s')).
Proof.
  intros I Hl Hk Hin. split.
  - intros Hno. unfold kfree.
    destruct (_ || _)%bool eqn:E; [done |]. destruct Hno. zbool. unfold page_ok. lia.
  - intros Hp. destruct (kfree_ok s l p I Hp Hin Hl) as (m' & E & I' & Hm). by eexists.
Qed.

(** ** Initialisation *)

Fixpoint pages_from (p : Z) (n : nat) : list Z :=
  match n with
  | O => []
  | S n => p :: pages_from (p + PGSIZE) n
  end.

Lemma elem_of_pages_from p n q :
  p mod PGSIZE = 0 ->
  q ∈ pages_from p n <-> q mod PGSIZE = 0 /\ p <= q < p + Z.of_nat n * PGSIZE.
Proof.
  revert p. induction n as [| n IH]; intros p Hp; cbn [pages_from].
  - rewrite elem_of_nil. lia.
  - rewrite elem_of_cons, IH by (unfold PGSIZE in *; dlia).
    split; unfold PGSIZE in *; [intros [-> | ]; lia |]. intros [? ?].
    destruct (decide (q = p)); [by left | right]. dlia.
Qed.

Lemma length_pages_from p n : length (pages_from p n) = n.
Proof. revert p. induction n; intros; cbn; auto. Qed.

Lemma freerange_loop_ok n : forall fuel p pa_end s l,
  (n < fuel)%nat -> p mod PGSIZE = 0 -> kend <= p -> 0 < p -> pa_end <= PHYSTOP ->
  p + Z.of_nat n * PGSIZE <= pa_end < p + (Z.of_nat n + 1) * PGSIZE ->
  (forall q, q ∈ l -> q < p) -> kmem_inv s l -> kmem_lock ∉ pm_held s ->
  exists s', freerange_loop fuel p pa_end s = Ret tt s' /\
    kmem_inv s' (reverse (pages_from p n) ++ l) /\ pm_held s' = pm_held s.
Proof.
  induction n as [| n IH]; intros fuel p pa_end s l Hf Hp Hk H0 He Hn Hq I Hl;
    (destruct fuel as [| fuel]; [lia |]); cbn [freerange_loop].
  - destruct (p + PGSIZE <=? pa_end) eqn:E; zbool; [lia |]. exists s. done.
  - destruct (p + PGSIZE <=? pa_end) eqn:E; zbool; [| unfold PGSIZE in *; lia].
    assert (page_ok p) as Hpo by (unfold page_ok, PGSIZE in *; lia).
    destruct (kfree_ok s l p I Hpo) as (m' & Ek & I' & _); [intros ?%Hq; lia | done |].
    erewrite kbind_of by exact Ek.
    destruct (IH fuel (p + PGSIZE) pa_end (Pm (pm_held s) m' p) (p :: l)) as (s' & E' & I'' & Hh);
      unfold PGSIZE in *; try lia; try done; [dlia | |].
    { intros q [-> | ?%Hq]%elem_of_cons; lia. }
    exists s'. split_and!; [exact E' | | by rewrite Hh].
    cbn [pages_from]. by rewrite reverse_cons, <- app_assoc.
Qed.

(** [kinit] on the zero-initialised allocator puts every whole page between
    [end] and PHYSTOP on the free list, each exactly once, and terminates. *)
Theorem kinit_correct s :
  0 < kend <= PHYSTOP -> freelist s = 0 ->
  exists s' l, kinit s = Ret tt s' /\ kmem_inv s' l /\
    (forall q, q ∈ l <-> q mod PGSIZE = 0 /\ kend <= q < PHYSTOP) /\
    Z.of_nat (length l) = (PHYSTOP - PGROUNDUP kend) / PGSIZE /\ kmem_lock ∉ pm_held s'.
Proof.
  intros Hk Hf. unfold kinit, initlock, freerange. unfold zoom at 1. kred.
  cbn [lget lset pm_locks]. set (s0 := Pm _ _ _).
  assert (kmem_inv s0 []) as I0 by (split_and!; [exact Hf | constructor | constructor]).
  pose proof (PGROUNDUP_bounds kend) as Hb.
  assert (0 <= kend <= 2 ^ 64 - PGSIZE) as Hk' by (unfold PHYSTOP, KERNBASE, PGSIZE in *; lia).
  specialize (Hb Hk'). set (p := PGROUNDUP kend) in *.
  assert (p <= PHYSTOP) as Hp by (unfold PHYSTOP, KERNBASE, PGSIZE in *; dlia).
  destruct (freerange_loop_ok (Z.to_nat ((PHYSTOP - p) / PGSIZE)) (S (Z.to_nat ((PHYSTOP - p) / PGSIZE)))
    p PHYSTOP s0 []) as (s' & E & I & Hh);
    try done; try lia; try set_solver; try (unfold PGSIZE in *; dlia).
  exists s', (reverse (pages_from p (Z.to_nat ((PHYSTOP - p) / PGSIZE)))).
  rewrite app_nil_r in I. split_and!; [exact E | exact I | | | rewrite Hh; cbn; set_solver].
  - intros q. rewrite elem_of_reverse, elem_of_pages_from by tauto.
    unfold PHYSTOP, KERNBASE, PGSIZE in *. split; [| intros [? ?]; split; [done |]]; dlia.
  - rewrite length_reverse, length_pages_from. unfold PGSIZE in *. dlia.
Qed.

(** ** Counting the free pages *)

Lemma kmem_inv_length s l : kmem_inv s l -> (length l <= Z.to_nat (PHYSTOP / PGSIZE))%nat.
Proof.
  intros (_ & Hnd & Hok).
  replace (Z.to_nat (PHYSTOP / PGSIZE)) with (length (pages_from 0 (Z.to_nat (PHYSTOP / PGSIZE))))
    by apply length_pages_from.
  apply submseteq_length, NoDup_submseteq; [done |]. intros q Hq.
  rewrite Forall_forall in Hok. destruct (Hok q) as (? & ? & ? & ?); [done |].
  apply elem_of_pages_from; [done |]. rewrite Z2Nat.id by done.
  change (PHYSTOP / PGSIZE * PGSIZE) with PHYSTOP. lia.
Qed.

Lemma kfreemem_loop_ok s l : forall r fuel sz,
  chain (pm_mem s) r l -> Forall page_ok l -> (length l < fuel)%nat -> 0 <= sz ->
  sz + Z.of_nat (length l) * PGSIZE < 2 ^ 64 ->
  kfreemem_loop fuel r sz s = Ret (sz + Z.of_nat (length l) * PGSIZE) s.
Proof.
  induction l as [| p l IH]; intros r fuel sz Hc Hok Hf Hs Hm;
    (destruct fuel as [| fuel]; [cbn in Hf; lia |]); cbn [kfreemem_loop chain length] in *.
  - subst. cbn. f_equal. unfold PGSIZE. lia.
  - destruct Hc as [-> Hc]. inversion_clear Hok as [| ? ? (? & ? & ? & ?) Hok'].
    destruct (p =? 0) eqn:E; zbool; [lia |]. kred.
    rewrite u64_small by (unfold PGSIZE in *; lia).
    rewrite IH; [f_equal; lia | done | done | lia | unfold PGSIZE in *; lia | lia].
Qed.

(** [kfreemem] returns the number of free bytes, 4096 for each page on the
    free list, and changes nothing; its loop terminates because the list
    cannot be longer than the number of physical pages. *)
Theorem kfreemem_correct s l :
  kmem_inv s l -> kmem_lock ∉ pm_held s ->
  kfreemem s = Ret (Z.of_nat (length l) * PGSIZE) s.
Proof.
  intros I Hl. pose proof (kmem_inv_length s l I) as Hlen.
  assert (Z.of_nat (length l) <= 557056) as Hlen'.
  { apply Nat2Z.inj_le in Hlen. by rewrite Z2Nat.id in Hlen. }
  destruct I as (Hc & _ & Hok).
  unfold kfreemem. erewrite kbind_of by (apply zoom_acquire; done).
  cbn [lset lget pm_locks]. erewrite (kbind_of (kgets freelist)) by reflexivity. cbn [freelist].
  erewrite kbind_of.
  2:{ apply (kfreemem_loop_ok (Pm ({[kmem_lock]} ∪ pm_held s) (pm_mem s) (freelist s)) l);
      [done | done | lia | done | unfold PGSIZE; lia]. }
  erewrite kbind_of by (apply (zoom_release _ (pm_held s)); done). by destruct s.
Qed.

(** ** Clients

    The pages handed out by [kalloc] and not yet given back.  A client frees
    only pages it has. *)
Inductive kstep : pm * list Z -> pm * list Z -> Prop :=
| kstep_alloc s A p s' : kalloc s = Ret p s' -> p <> 0 -> kstep (s, A) (s', p :: A)
| kstep_oom s A s' : kalloc s = Ret 0 s' -> kstep (s, A) (s', A)
| kstep_free s A1 A2 p s' : kfree p s = Ret tt s' -> kstep (s, A1 ++ p :: A2) (s', A1 ++ A2)
| kstep_write s A p m' :
    p ∈ A -> same_outside p (p + PGSIZE) (pm_mem s) m' ->
    kstep (s, A) (Pm (pm_held s) m' (freelist s), A).

Definition alloc_inv (P : list Z) (sa : pm * list Z) : Prop :=
  exists l, kmem_inv sa.1 l /\ sa.2 ++ l ≡ₚ P /\ kmem_lock ∉ pm_held sa.1.

Lemma kstep_inv P sa sa' :
  NoDup P -> Forall page_ok P -> kstep sa sa' -> alloc_inv P sa -> alloc_inv P sa'.
Proof.
  intros HnP HokP Hst (l & I & Hp & Hl). destruct Hst as [s A p s' E Hp0 | s A s' E | s A1 A2 p s' E | s A p m' Hin Hm];
    cbn [fst snd] in *.
  - destruct l as [| q l]; [rewrite kalloc_none in E by done; congruence |].
    destruct (kalloc_some s l q I Hl) as (m' & E' & I' & _). rewrite E in E'. injection E' as -> ->.
    exists l. split_and!; [done | | done]. rewrite <- Hp. cbn. by rewrite Permutation_middle.
  - destruct l as [| q l].
    + rewrite kalloc_none in E by done. injection E as <-. exists []. done.
    + destruct I as (Hc & Hnd & Hok). pose proof (kalloc_some s l q) as H.
      destruct H as (m' & E' & _); [by split_and! | done |].
      rewrite E in E'. injection E' as <- _. inversion_clear Hok as [| ? ? (? & ? & ? & ?) _]. lia.
  - assert (p ∈ P) as HpP by (rewrite <- Hp; set_solver).
    assert (NoDup (A1 ++ p :: A2 ++ l)) as Hn.
    { replace (A1 ++ p :: A2 ++ l) with ((A1 ++ p :: A2) ++ l) by (by rewrite <- app_assoc).
      by rewrite Hp. }
    assert (p ∉ l) as Hpl.
    { rewrite <- Permutation_middle in Hn. inversion_clear Hn. set_solver. }
    rewrite Forall_forall in HokP.
    destruct (kfree_ok s l p I) as (m' & E' & I' & _); try done; [by apply HokP |].
    rewrite E in E'. injection E' as ->. exists (p :: l). split_and!; [done | | done].
    cbn [snd]. by rewrite <- Hp, <- !Permutation_middle.
  - exists l. split_and!; [| done | done].
    assert (p ∉ l) as Hpl.
    { assert (NoDup (A ++ l)) as Hn by (by rewrite Hp). apply NoDup_app in Hn as (_ & Hn & _). auto. }
    rewrite Forall_forall in HokP. apply (kmem_inv_frame s l p m'); try done.
    apply HokP. rewrite <- Hp. set_solver.
Qed.

(** C15: the allocator never hands a page out twice and never loses one: in any
    sequence of [kalloc], [kfree] of owned pages and writes by clients into
    pages they own, the allocated pages and the free list stay disjoint and
    together are exactly the initial pages. *)
Theorem alloc_partition P s A s' A' :
  NoDup P -> Forall page_ok P -> alloc_inv P (s, A) ->
  rtc kstep (s, A) (s', A') ->
  exists l, kmem_inv s' l /\ A' ++ l ≡ₚ P /\ NoDup (A' ++ l).
Proof.
  intros HnP HokP I Hr.
  assert (alloc_inv P (s', A')) as (l & I' & Hp & _).
  { eapply (rtc_preserves kstep); [| exact Hr | exact I]. intros. by eapply kstep_inv. }
  exists l. split_and!; [done | done |]. by rewrite Hp.
Qed.

End kalloc.

(** ** Witnesses: a layout with three free pages *)

#[local] Instance wit_layout : Layout :=
  {| kend := PHYSTOP - 3 * PGSIZE; etext := KERNBASE + PGSIZE; trampoline := KERNBASE |}.

Definition wit_pages : list Z := pages_from (PHYSTOP - 3 * PGSIZE) 3.
Definition wit_pm0 : pm := Pm ∅ ∅ 0.
Definition wit_pm : pm :=
  match kinit wit_pm0 with Ret _ s => s | _ => wit_pm0 end.

Lemma wit_pm_inv : kmem_inv wit_pm (reverse wit_pages).
Proof.
  split_and!; [vm_compute; done | by apply (bool_decide_unpack _); vm_compute |].
  repeat constructor; vm_compute; congruence.
Qed.

Lemma kalloc_correct_witness :
  exists p l, reverse wit_pages = p :: l /\
  exists s', kalloc wit_pm = Ret p s' /\ kmem_inv s' l.
Proof.
  exists (PHYSTOP - PGSIZE), [PHYSTOP - 2 * PGSIZE; PHYSTOP - 3 * PGSIZE].
  split; [vm_compute; reflexivity |].
  destruct (kalloc_correct wit_pm (reverse wit_pages) wit_pm_inv ltac:(vm_compute; set_solver))
    as (s' & E & I & _).
  exists s'. split; [exact E | exact I].
Defined.

Lemma kfree_correct_witness : kfree 12 wit_pm0 = Panic "kfree".
Proof.
  apply (kfree_correct wit_pm0 []); [| vm_compute; done | vm_compute; done | set_solver |].
  - split_and!; [reflexivity | constructor | constructor].
  - intros [H _]. vm_compute in H. discriminate.
Defined.

Lemma kinit_correct_witness : exists s' l, kinit wit_pm0 = Ret tt s' /\ kmem_inv s' l.
Proof.
  destruct (kinit_correct wit_pm0) as (s' & l & E & I & _);
    [vm_compute; split; congruence | reflexivity |].
  exists s', l. split; [exact E | exact I].
Defined.

Lemma kfreemem_correct_witness : kfreemem wit_pm = Ret (3 * 4096) wit_pm.
Proof.
  etransitivity; [apply (kfreemem_correct wit_pm (reverse wit_pages) wit_pm_inv); vm_compute; done |].
  reflexivity.
Defined.

Lemma alloc_partition_witness :
  exists l, kmem_inv wit_pm l /\ [] ++ l ≡ₚ reverse wit_pages.
Proof.
  destruct (alloc_partition (reverse wit_pages) wit_pm [] wit_pm []) as (l & I & Hp & _).
  - apply wit_pm_inv.
  - apply wit_pm_inv.
  - exists (reverse wit_pages). split; [exact wit_pm_inv |]. split; [reflexivity | vm_compute; done].
  - apply rtc_refl.
  - exists l. split; [exact I | exact Hp].
Defined.
