(* ===== verification/Vm.v ===== *)
(** * kernel/vm.c: page tables and user memory

    Page tables live in physical memory; a PTE pointer is the address of the
    entry.  Buffers on the kernel side of [copyin]/[copyout]/[copyinstr] are
    byte lists.  This file holds the code; its properties are in VmProofs.v
    and VmCopy.v. *)

From S2P Require Import Prelude Riscv Spinlock Mem CString Kalloc.

(** [*pte] and [*pte = v] *)
Definition rd_pte (pte : Z) : K pm Z := kgets (fun s => ld64 (pm_mem s) pte).
Definition wr_pte (pte v : Z) : K pm unit := set_mem (fun m => st64 m pte v).

(** [*pte & f] as a condition *)
Definition flag (pte f : Z) : bool := negb (Z.land pte f =? 0).

Section vm.
Context `{L : Layout}.

(** The loop of [walk] from [level] down to 1; [None] is [return 0]. *)
Fixpoint walk_loop (level : nat) (pagetable va : Z) (alloc : bool) : K pm (option Z) :=
  match level with
  | O => kret (Some pagetable)
  | S level' =>
      let pte := pagetable + 8 * PX (Z.of_nat level) va in
      e <- rd_pte pte ;;
      if flag e PTE_V then walk_loop level' (PTE2PA e) va alloc
      else if negb alloc then kret None
      else
        pagetable <- kalloc ;;
        if pagetable =? 0 then kret None
        else
          set_mem (fun m => memset m pagetable 0 PGSIZE) >>
          wr_pte pte (Z.lor (PA2PTE pagetable) PTE_V) >>
          walk_loop level' pagetable va alloc
  end.

Definition walk (pagetable va : Z) (alloc : bool) : K pm Z :=
  if MAXVA <=? va then kpanic "walk" else
  r <- walk_loop 2 pagetable va alloc ;;
  match r with
  | None => kret 0
  | Some pt => kret (pt + 8 * PX 0 va)
  end.

Definition walkaddr (pagetable va : Z) : K pm Z :=
  if MAXVA <=? va then kret 0 else
  pte <- walk pagetable va false ;;
  if pte =? 0 then kret 0 else
  e <- rd_pte pte ;;
  if negb (flag e PTE_V) then kret 0 else
  if negb (flag e PTE_U) then kret 0 else
  kret (PTE2PA e).

(** The [for(;;)] of [mappages]. *)
Fixpoint mappages_loop (fuel : nat) (pagetable a last pa perm : Z) : K pm Z :=
  match fuel with
  | O => kfuel
  | S fuel =>
      pte <- walk pagetable a true ;;
      if pte =? 0 then kret (-1) else
      e <- rd_pte pte ;;
      if flag e PTE_V then kpanic "mappages: remap" else
      wr_pte pte (Z.lor (Z.lor (PA2PTE pa) perm) PTE_V) >>
      if a =? last then kret 0
      else mappages_loop fuel pagetable (u64 (a + PGSIZE)) last (u64 (pa + PGSIZE)) perm
  end.

(** One turn per page; when [va + size - 1] wraps around, the turns up to
    MAXVA, where [walk] panics. *)
Definition mappages (pagetable va size pa perm : Z) : K pm Z :=
  if size =? 0 then kpanic "mappages: size" else
  let a := PGROUNDDOWN va in
  let last := PGROUNDDOWN (u64 (va + size - 1)) in
  let fuel := S (Z.to_nat ((if a <=? last then last - a else MAXVA - a) / PGSIZE)) in
  mappages_loop fuel pagetable a last pa perm.

Definition kvmmap (kpgtbl va pa sz perm : Z) : K pm unit :=
  r <- mappages kpgtbl va sz pa perm ;;
  if negb (r =? 0) then kpanic "kvmmap" else kret tt.

(** [for(a = va; a < va + npages*PGSIZE; a += PGSIZE)] *)
Fixpoint uvmunmap_loop (fuel : nat) (pagetable a hi : Z) (do_free : bool) : K pm unit :=
  match fuel with
  | O => kfuel
  | S fuel =>
      if a <? hi then
        pte <- walk pagetable a false ;;
        if pte =? 0 then kpanic "uvmunmap: walk" else
        e <- rd_pte pte ;;
        if negb (flag e PTE_V) then kpanic "uvmunmap: not mapped" else
        if PTE_FLAGS e =? PTE_V then kpanic "uvmunmap: not a leaf" else
        kwhen do_free (kfree (PTE2PA e)) >>
        wr_pte pte 0 >>
        uvmunmap_loop fuel pagetable (u64 (a + PGSIZE)) hi do_free
      else kret tt
  end.

Definition uvmunmap (pagetable va npages : Z) (do_free : bool) : K pm unit :=
  if negb (va mod PGSIZE =? 0) then kpanic "uvmunmap: not aligned" else
  uvmunmap_loop (S (Z.to_nat npages)) pagetable va (u64 (va + npages * PGSIZE)) do_free.

Definition uvmcreate : K pm Z :=
  pagetable <- kalloc ;;
  if pagetable =? 0 then kret 0 else
  set_mem (fun m => memset m pagetable 0 PGSIZE) >>
  kret pagetable.

Definition uvmfirst (pagetable : Z) (src : bytes) : K pm unit :=
  let sz := Z.of_nat (length src) in
  if PGSIZE <=? sz then kpanic "uvmfirst: more than a page" else
  mem <- kalloc ;;
  set_mem (fun m => memset m mem 0 PGSIZE) >>
  _ <- mappages pagetable 0 PGSIZE mem (Z.lor (Z.lor (Z.lor PTE_W PTE_R) PTE_X) PTE_U) ;;
  set_mem (fun m => wrbytes m mem src).

Definition uvmdealloc (pagetable oldsz newsz : Z) : K pm Z :=
  if oldsz <=? newsz then kret oldsz else
  kwhen (PGROUNDUP newsz <? PGROUNDUP oldsz)
    (let npages := i32 ((PGROUNDUP oldsz - PGROUNDUP newsz) / PGSIZE) in
     uvmunmap pagetable (PGROUNDUP newsz) (u64 npages) true) >>
  kret newsz.

(** [for(a = oldsz; a < newsz; a += PGSIZE)] *)
Fixpoint uvmalloc_loop (fuel : nat) (pagetable a oldsz newsz xperm : Z) : K pm Z :=
  match fuel with
  | O => kfuel
  | S fuel =>
      if a <? newsz then
        mem <- kalloc ;;
        if mem =? 0 then
          _ <- uvmdealloc pagetable a oldsz ;; kret 0
        else
          set_mem (fun m => memset m mem 0 PGSIZE) >>
          r <- mappages pagetable a PGSIZE mem (Z.lor (Z.lor PTE_R PTE_U) xperm) ;;
          if negb (r =? 0) then
            kfree mem >>
            _ <- uvmdealloc pagetable a oldsz ;; kret 0
          else uvmalloc_loop fuel pagetable (u64 (a + PGSIZE)) oldsz newsz xperm
      else kret newsz
  end.

Definition uvmalloc (pagetable oldsz newsz xperm : Z) : K pm Z :=
  if newsz <? oldsz then kret oldsz else
  let oldsz := PGROUNDUP oldsz in
  uvmalloc_loop (S (Z.to_nat ((newsz - oldsz + PGSIZE - 1) / PGSIZE))) pagetable oldsz oldsz newsz xperm.

(** The 512 entries of one table; [free] frees the table an entry points to. *)
Fixpoint freewalk_entries (free : Z -> K pm unit) (n : nat) (pagetable i : Z) : K pm unit :=
  match n with
  | O => kret tt
  | S n =>
      pte <- rd_pte (pagetable + 8 * i) ;;
      if (flag pte PTE_V && (Z.land pte (Z.lor (Z.lor PTE_R PTE_W) PTE_X) =? 0))%bool then
        free (PTE2PA pte) >>
        wr_pte (pagetable + 8 * i) 0 >>
        freewalk_entries free n pagetable (i + 1)
      else if flag pte PTE_V then kpanic "freewalk: leaf"
      else freewalk_entries free n pagetable (i + 1)
  end.

(** [depth] bounds the recursion; Sv39 tables have three levels. *)
Fixpoint freewalk (depth : nat) (pagetable : Z) : K pm unit :=
  match depth with
  | O => kfuel
  | S depth => freewalk_entries (freewalk depth) 512 pagetable 0 >> kfree pagetable
  end.

Definition uvmfree (pagetable sz : Z) : K pm unit :=
  kwhen (0 <? sz) (uvmunmap pagetable 0 (PGROUNDUP sz / PGSIZE) true) >>
  freewalk 3 pagetable.

(** The loop of [uvmcopy]; on error it returns how far it got. *)
Fixpoint uvmcopy_loop (fuel : nat) (old new i sz : Z) : K pm (option Z) :=
  match fuel with
  | O => kfuel
  | S fuel =>
      if i <? sz then
        pte <- walk old i false ;;
        if pte =? 0 then kpanic "uvmcopy: pte should exist" else
        e <- rd_pte pte ;;
        if negb (flag e PTE_V) then kpanic "uvmcopy: page not present" else
        let pa := PTE2PA e in
        let flags := PTE_FLAGS e in
        mem <- kalloc ;;
        if mem =? 0 then kret (Some i) else
        set_mem (fun m => memmove m mem pa PGSIZE) >>
        r <- mappages new i PGSIZE mem flags ;;
        if negb (r =? 0) then kfree mem >> kret (Some i)
        else uvmcopy_loop fuel old new (u64 (i + PGSIZE)) sz
      else kret None
  end.

Definition uvmcopy (old new sz : Z) : K pm Z :=
  r <- uvmcopy_loop (S (Z.to_nat ((sz + PGSIZE - 1) / PGSIZE))) old new 0 sz ;;
  match r with
  | None => kret 0
  | Some i => uvmunmap new 0 (i / PGSIZE) true >> kret (-1)
  end.

Definition uvmclear (pagetable va : Z) : K pm unit :=
  pte <- walk pagetable va false ;;
  if pte =? 0 then kpanic "uvmclear" else
  e <- rd_pte pte ;;
  wr_pte pte (Z.land e (u64 (Z.lnot PTE_U))).

(** How many bytes of [len] fit in the page of [va]. *)
Definition page_chunk (va va0 len : Z) : Z :=
  let n := PGSIZE - (va - va0) in if len <? n then len else n.

(** Every turn of the copying loops moves at least one byte. *)
Fixpoint copyout_loop (fuel : nat) (pagetable dstva : Z) (src : bytes) : K pm Z :=
  match fuel with
  | O => kfuel
  | S fuel =>
      match src with
      | [] => kret 0
      | _ =>
          let va0 := PGROUNDDOWN dstva in
          pa0 <- walkaddr pagetable va0 ;;
          if pa0 =? 0 then kret (-1) else
          let n := page_chunk dstva va0 (Z.of_nat (length src)) in
          set_mem (fun m => wrbytes m (pa0 + (dstva - va0)) (take (Z.to_nat n) src)) >>
          copyout_loop fuel pagetable (u64 (va0 + PGSIZE)) (drop (Z.to_nat n) src)
      end
  end.

Definition copyout (pagetable dstva : Z) (src : bytes) : K pm Z :=
  copyout_loop (S (length src)) pagetable dstva src.

(** Returns the result and the bytes stored at [dst] so far. *)
Fixpoint copyin_loop (fuel : nat) (pagetable srcva len : Z) (dst : bytes) : K pm (Z * bytes) :=
  match fuel with
  | O => kfuel
  | S fuel =>
      if 0 <? len then
        let va0 := PGROUNDDOWN srcva in
        pa0 <- walkaddr pagetable va0 ;;
        if pa0 =? 0 then kret (-1, dst) else
        let n := page_chunk srcva va0 len in
        b <- kgets (fun s => rdbytes (pm_mem s) (pa0 + (srcva - va0)) (Z.to_nat n)) ;;
        copyin_loop fuel pagetable (u64 (va0 + PGSIZE)) (len - n) (dst ++ b)
      else kret (0, dst)
  end.

Definition copyin (pagetable srcva len : Z) : K pm (Z * bytes) :=
  copyin_loop (S (Z.to_nat len)) pagetable srcva len [].

(** The inner [while(n > 0)] of [copyinstr]: [true] when a NUL was found. *)
Fixpoint copyinstr_page (m : mem) (p : Z) (n : nat) (dst : bytes) : bool * bytes :=
  match n with
  | O => (false, dst)
  | S n =>
      if ld8 m p =? 0 then (true, dst ++ [0])
      else copyinstr_page m (p + 1) n (dst ++ [ld8 m p])
  end.

Fixpoint copyinstr_loop (fuel : nat) (pagetable srcva max : Z) (dst : bytes) : K pm (Z * bytes) :=
  match fuel with
  | O => kfuel
  | S fuel =>
      if 0 <? max then
        let va0 := PGROUNDDOWN srcva in
        pa0 <- walkaddr pagetable va0 ;;
        if pa0 =? 0 then kret (-1, dst) else
        let n := page_chunk srcva va0 max in
        r <- kgets (fun s => copyinstr_page (pm_mem s) (pa0 + (srcva - va0)) (Z.to_nat n) dst) ;;
        let '(got_null, dst) := r in
        if (got_null : bool) then kret (0, dst)
        else copyinstr_loop fuel pagetable (u64 (va0 + PGSIZE)) (max - n) dst
      else kret (-1, dst)
  end.

Definition copyinstr (pagetable srcva max : Z) : K pm (Z * bytes) :=
  copyinstr_loop (S (Z.to_nat max)) pagetable srcva max [].

(** ** The kernel's own page table *)

(** [proc_mapstacks] of kernel/proc.c, for processes [i], [i+1], ... *)
Fixpoint proc_mapstacks_loop (n : nat) (kpgtbl i : Z) : K pm unit :=
  match n with
  | O => kret tt
  | S n =>
      pa <- kalloc ;;
      if pa =? 0 then kpanic "kalloc" else
      kvmmap kpgtbl (KSTACK i) pa PGSIZE (Z.lor PTE_R PTE_W) >>
      proc_mapstacks_loop n kpgtbl (i + 1)
  end.

Definition proc_mapstacks (kpgtbl : Z) : K pm unit :=
  proc_mapstacks_loop (Z.to_nat NPROC) kpgtbl 0.

Definition kvmmake : K pm Z :=
  kpgtbl <- kalloc ;;
  set_mem (fun m => memset m kpgtbl 0 PGSIZE) >>
  (* uart registers *)
  kvmmap kpgtbl UART0 UART0 PGSIZE (Z.lor PTE_R PTE_W) >>
  (* virtio mmio disk interface *)
  kvmmap kpgtbl VIRTIO0 VIRTIO0 PGSIZE (Z.lor PTE_R PTE_W) >>
  (* PLIC *)
  kvmmap kpgtbl PLIC PLIC 0x400000 (Z.lor PTE_R PTE_W) >>
  (* kernel text executable and read-only *)
  kvmmap kpgtbl KERNBASE KERNBASE (u64 (etext - KERNBASE)) (Z.lor PTE_R PTE_X) >>
  (* kernel data and the physical RAM *)
  kvmmap kpgtbl etext etext (u64 (PHYSTOP - etext)) (Z.lor PTE_R PTE_W) >>
  (* the trampoline *)
  kvmmap kpgtbl TRAMPOLINE trampoline PGSIZE (Z.lor PTE_R PTE_X) >>
  proc_mapstacks kpgtbl >>
  kret kpgtbl.
End vm.
