(* ===== verification/VmProofs.v ===== *)
(** * Page tables: invariant and mapping

    The tables reachable from a root are described by a finite map [T] from
    the physical page of each table to its level (2 for the root, 0 for the
    tables of leaf entries).  [pt_ok] says that every valid entry above level
    0 points to a table one level down, and that no table is shared.  The
    view of a table is the leaf entry of each virtual address ([leaf_from]);
    [walk] never changes it, [mappages] and [uvmunmap] change it at the
    addresses they are asked to. *)

From S2P Require Import Prelude Riscv Spinlock Mem CString Kalloc Vm.

Definition slot (p i : Z) : Z := p + 8 * i.
Definition valid (e : Z) : bool := Z.testbit e 0.
#[global] Arguments slot : simpl never.
#[global] Arguments valid : simpl never.

Section view.
Context `{L : Layout}.

(** The address of the leaf entry of [va], if the tables above it exist. *)
Fixpoint tbl_walk (m : mem) (k : nat) (p va : Z) : option Z :=
  match k with
  | O => Some (slot p (PX 0 va))
  | S k' =>
      let e := ld64 m (slot p (PX (Z.of_nat k) va)) in
      if valid e then tbl_walk m k' (PTE2PA e) va else None
  end.

(** The leaf entry of [va], 0 if it does not exist. *)
Definition leaf_from (m : mem) (k : nat) (p va : Z) : Z :=
  match tbl_walk m k p va with Some a => ld64 m a | None => 0 end.

Definition leaf (m : mem) (root va : Z) : Z := leaf_from m 2 root va.

Record pt_ok (m : mem) (root : Z) (T : gmap Z nat) : Prop := {
  pt_root : T !! root = Some 2%nat;
  pt_page : forall p k, T !! p = Some k -> page_ok p;
  pt_next : forall p k i, T !! p = Some (S k) -> 0 <= i < 512 ->
      valid (ld64 m (slot p i)) = true ->
      T !! PTE2PA (ld64 m (slot p i)) = Some k;
  pt_inj : forall p p' k i i', T !! p = Some (S k) -> T !! p' = Some (S k) ->
      0 <= i < 512 -> 0 <= i' < 512 ->
      valid (ld64 m (slot p i)) = true -> valid (ld64 m (slot p' i')) = true ->
      PTE2PA (ld64 m (slot p i)) = PTE2PA (ld64 m (slot p' i')) -> p = p' /\ i = i';
}.

Lemma flag_V e : flag e PTE_V = valid e.
Proof. unfold flag, PTE_V, valid. rewrite land_bit_eq0 by lia. by rewrite negb_involutive. Qed.

Lemma slot_in_page p i : 0 <= i < 512 -> p <= slot p i /\ slot p i + 8 <= p + PGSIZE.
Proof. unfold slot, PGSIZE. lia. Qed.

(** Distinct entries of tables do not overlap. *)
Lemma slot_disjoint p p' i i' :
  page_ok p -> page_ok p' -> 0 <= i < 512 -> 0 <= i' < 512 -> (p, i) <> (p', i') ->
  slot p i + 8 <= slot p' i' \/ slot p' i' + 8 <= slot p i.
Proof.
  intros [Hp _] [Hp' _] Hi Hi' Hne. destruct (decide (p = p')) as [<- | Hpp].
  - assert (i <> i') by congruence. unfold slot. lia.
  - pose proof (pages_disjoint p p' Hp Hp' Hpp).
    pose proof (slot_in_page p i Hi). pose proof (slot_in_page p' i' Hi'). lia.
Qed.

Lemma slot_inj p p' i i' :
  page_ok p -> page_ok p' -> 0 <= i < 512 -> 0 <= i' < 512 -> slot p i = slot p' i' -> p = p' /\ i = i'.
Proof.
  intros Hp Hp' Hi Hi' E. destruct (decide ((p, i) = (p', i'))) as [[= -> ->] | Hne]; [done |].
  pose proof (slot_disjoint p p' i i' Hp Hp' Hi Hi' Hne). lia.
Qed.

Lemma ld64_zero m a : (forall b, a <= b < a + 8 -> ld8 m b = 0) -> ld64 m a = 0.
Proof.
  intros H. unfold ld64. cbn [ldn]. by rewrite !H by lia.
Qed.

(** Addresses of one page have the same leaf slot. *)
Lemma tbl_walk_same_page m k p va va' :
  va / PGSIZE = va' / PGSIZE -> tbl_walk m k p va = tbl_walk m k p va'.
Proof.
  intros Hpg. revert p. induction k as [| k IH]; intros p; cbn.
  - by rewrite (PX_same_page va va' 0) by (done || lia).
  - rewrite (PX_same_page va va' (Z.of_nat (S k))) by (done || lia). case_if; auto.
Qed.

(** Two memories that agree on the tables have the same view. *)
Lemma tbl_walk_ext m m' root T :
  pt_ok m root T ->
  (forall p k i, T !! p = Some k -> 0 <= i < 512 -> ld64 m' (slot p i) = ld64 m (slot p i)) ->
  forall k p va, T !! p = Some k -> tbl_walk m' k p va = tbl_walk m k p va.
Proof.
  intros P H k. induction k as [| k IH]; intros p va Hp; [done |]. cbn.
  pose proof (PX_range (Z.of_nat (S k)) va ltac:(lia)) as Hr.
  rewrite (H p _ _ Hp Hr). destruct (valid _) eqn:V; [| done].
  apply IH. by apply (pt_next m root T P p k).
Qed.

(** The slot [tbl_walk] returns is an entry of a level-0 table. *)
Lemma tbl_walk_slot m root T :
  pt_ok m root T -> forall k p va a, T !! p = Some k -> tbl_walk m k p va = Some a ->
  exists p0, T !! p0 = Some O /\ a = slot p0 (PX 0 va).
Proof.
  intros P k. induction k as [| k IH]; intros p va a Hp E; cbn in E.
  - injection E as <-. by exists p.
  - destruct (valid _) eqn:V; [| done]. eapply IH; [| exact E].
    apply (pt_next m root T P p k); [done | apply PX_range; lia | done].
Qed.

(** Different pages of the address space have different leaf slots. *)
Lemma tbl_walk_inj m root T :
  pt_ok m root T -> forall k p p' va va' a,
  T !! p = Some k -> T !! p' = Some k ->
  tbl_walk m k p va = Some a -> tbl_walk m k p' va' = Some a ->
  p = p' /\ forall j, (j <= k)%nat -> PX (Z.of_nat j) va = PX (Z.of_nat j) va'.
Proof.
  intros P k. induction k as [| k IH]; intros p p' va va' a Hp Hp' E E'; cbn in E, E'.
  - injection E as <-. injection E' as E'.
    apply slot_inj in E' as [-> Hx]; try (by eapply (pt_page m root T P)); try (apply PX_range; lia).
    split; [done |]. intros j Hj. by replace j with O by lia.
  - destruct (valid (ld64 m (slot p _))) eqn:V, (valid (ld64 m (slot p' _))) eqn:V'; try done.
    pose proof (PX_range (Z.of_nat (S k)) va ltac:(lia)) as Hr.
    pose proof (PX_range (Z.of_nat (S k)) va' ltac:(lia)) as Hr'.
    destruct (IH _ _ va va' a (pt_next m root T P p k _ Hp Hr V)
      (pt_next m root T P p' k _ Hp' Hr' V') E E') as [Heq Hall].
    destruct (pt_inj m root T P p p' k _ _ Hp Hp' Hr Hr' V V' Heq) as [-> Hx].
    split; [done |]. intros j Hj. destruct (decide (j = S k)) as [-> |]; [done |]. apply Hall. lia.
Qed.

Lemma tbl_walk_page m root T va va' a :
  pt_ok m root T -> 0 <= va < MAXVA -> 0 <= va' < MAXVA ->
  tbl_walk m 2 root va = Some a -> tbl_walk m 2 root va' = Some a -> va / PGSIZE = va' / PGSIZE.
Proof.
  intros P Hva Hva' E E'.
  destruct (tbl_walk_inj m root T P 2 root root va va' a) as [_ H]; try done;
    try apply (pt_root m root T P).
  apply PX_inj; try done; [apply (H 2%nat) | apply (H 1%nat) | apply (H 0%nat)]; lia.
Qed.

(** *** Linking a zeroed page in as a new table *)

Lemma leaf_zero_page m q k va :
  (forall b, q <= b < q + PGSIZE -> ld8 m b = 0) -> leaf_from m k q va = 0.
Proof.
  intros Hz. unfold leaf_from. pose proof (PX_range (Z.of_nat k) va ltac:(lia)) as Hr.
  assert (ld64 m (slot q (PX (Z.of_nat k) va)) = 0) as E.
  { apply ld64_zero. intros b Hb. apply Hz. pose proof (slot_in_page q _ Hr). lia. }
  destruct k as [| k]; cbn; [exact E |]. change (Z.of_nat (S k)) with (Z.of_nat (S k)) in E.
  by rewrite E.
Qed.

(** [m'] is [m] with page [q] zeroed and entry [i] of table [p] pointing to it. *)
Record linked (m m' : mem) (p i q : Z) : Prop := {
  lk_zero : forall b, q <= b < q + PGSIZE -> ld8 m' b = 0;
  lk_entry : ld64 m' (slot p i) = Z.lor (PA2PTE q) PTE_V;
  lk_same : forall b, (b < q \/ q + PGSIZE <= b) -> (b < slot p i \/ slot p i + 8 <= b) ->
              ld8 m' b = ld8 m b;
}.

Lemma new_entry q : page_ok q ->
  valid (Z.lor (PA2PTE q) PTE_V) = true /\ PTE2PA (Z.lor (PA2PTE q) PTE_V) = q.
Proof.
  intros (Ha & _ & Hh & Hl). unfold PHYSTOP, KERNBASE in Hh.
  change PTE_V with 1. split.
  - unfold valid. by rewrite testbit_pte_low by lia.
  - apply PTE2PA_lor; [lia | done | lia].
Qed.

Section link.
Context (m m' : mem) (root : Z) (T : gmap Z nat) (p i q : Z) (k : nat).
Context (P : pt_ok m root T) (Hp : T !! p = Some (S k)) (Hi : 0 <= i < 512).
Context (Hinv : valid (ld64 m (slot p i)) = false).
Context (Hq : page_ok q) (HTq : T !! q = None) (Lk : linked m m' p i q).

Lemma link_other p' k' j :
  T !! p' = Some k' -> 0 <= j < 512 -> (p', j) <> (p, i) -> ld64 m' (slot p' j) = ld64 m (slot p' j).
Proof.
  intros Hp' Hj Hne. apply ldn_ext. intros b Hb. apply (lk_same m m' p i q Lk).
  - assert (page_ok p') as [Ha _] by (by eapply (pt_page m root T P)). destruct Hq as [Hqa _].
    pose proof (pages_disjoint p' q Ha Hqa ltac:(congruence)). pose proof (slot_in_page p' j Hj). lia.
  - pose proof (slot_disjoint p' p j i). pose proof (pt_page m root T P).
    specialize (H ltac:(eauto) ltac:(eauto) Hj Hi Hne). lia.
Qed.

Lemma link_new j : 0 <= j < 512 -> ld64 m' (slot q j) = 0.
Proof.
  intros Hj. apply ld64_zero. intros b Hb. apply (lk_zero m m' p i q Lk).
  pose proof (slot_in_page q j Hj). lia.
Qed.

Lemma link_entry_ok : valid (ld64 m' (slot p i)) = true /\ PTE2PA (ld64 m' (slot p i)) = q.
Proof. rewrite (lk_entry m m' p i q Lk). by apply new_entry. Qed.

(** Valid entries of the new memory: the new one, or an old one. *)
Lemma link_cases p' k' j :
  <[q := k]> T !! p' = Some (S k') -> 0 <= j < 512 -> valid (ld64 m' (slot p' j)) = true ->
  (p' = p /\ j = i /\ k' = k /\ PTE2PA (ld64 m' (slot p' j)) = q) \/
  (T !! p' = Some (S k') /\ valid (ld64 m (slot p' j)) = true /\
   ld64 m' (slot p' j) = ld64 m (slot p' j)).
Proof.
  intros Hp' Hj V. destruct (decide (p' = q)) as [-> | Hpq].
  { rewrite link_new in V by done. done. }
  rewrite lookup_insert_ne in Hp' by done.
  destruct (decide ((p', j) = (p, i))) as [[= -> ->] | Hne].
  - left. rewrite Hp in Hp'. injection Hp' as ->. split_and!; try done. apply link_entry_ok.
  - right. pose proof (link_other p' (S k') j Hp' Hj Hne) as E. rewrite E in V. auto.
Qed.

Lemma link_pt_ok : pt_ok m' root (<[q := k]> T).
Proof.
  split.
  - rewrite lookup_insert_ne; [apply (pt_root m root T P) |].
    intros ->. rewrite (pt_root m root T P) in HTq. done.
  - intros p' k'. rewrite lookup_insert. case_decide; [by intros _; subst |].
    apply (pt_page m root T P).
  - intros p' k' j Hp' Hj V.
    destruct (link_cases p' k' j Hp' Hj V) as [(-> & -> & -> & ->) | (HT & V0 & ->)].
    + apply lookup_insert_eq.
    + pose proof (pt_next m root T P p' k' j HT Hj V0) as Hn.
      rewrite lookup_insert_ne; [done |]. congruence.
  - intros p1 p2 k' i1 i2 H1 H2 Hi1 Hi2 V1 V2 E.
    destruct (link_cases p1 k' i1 H1 Hi1 V1) as [(-> & -> & -> & E1) | (T1 & V1' & E1)],
      (link_cases p2 _ i2 H2 Hi2 V2) as [(-> & -> & _ & E2) | (T2 & V2' & E2)]; try done.
    + rewrite E1, E2 in E. pose proof (pt_next m root T P p2 k i2 T2 Hi2 V2'). congruence.
    + rewrite E1, E2 in E. pose proof (pt_next m root T P p1 k' i1 T1 Hi1 V1'). congruence.
    + rewrite E1, E2 in E. by apply (pt_inj m root T P p1 p2 k').
Qed.

Lemma link_leaf k' p' va : T !! p' = Some k' -> leaf_from m' k' p' va = leaf_from m k' p' va.
Proof.
  revert p'. unfold leaf_from. induction k' as [| k' IH]; intros p' Hp'.
  - cbn. rewrite (link_other p' 0); [done | done | apply PX_range; lia |].
    intros [= -> _]. congruence.
  - cbn [tbl_walk]. set (j := PX (Z.of_nat (S k')) va).
    assert (0 <= j < 512) as Hj by (apply PX_range; lia).
    destruct (decide ((p', j) = (p, i))) as [[= -> ->] | Hne].
    + rewrite Hinv. destruct link_entry_ok as [-> ->].
      apply (leaf_zero_page m' q k' va), (lk_zero m m' p i q Lk).
    + rewrite (link_other p' (S k') j Hp' Hj Hne).
      destruct (valid (ld64 m (slot p' j))) eqn:V; [| done].
      apply IH. by apply (pt_next m root T P p' k' j).
Qed.
End link.

(** ** [walk] *)

(** The free list [l] and the tables [T] of [root], in a state of the
    allocator. *)
Record vm_inv (s : pm) (l : list Z) (root : Z) (T : gmap Z nat) : Prop := {
  vi_kmem : kmem_inv s l;
  vi_pt : pt_ok (pm_mem s) root T;
  vi_disj : forall p, p ∈ l -> T !! p = None;
  vi_lock : kmem_lock ∉ pm_held s;
}.

(** What [walk] may do: turn free pages into tables, keeping every leaf, every
    valid entry and every byte outside the tables. *)
Record grows (s : pm) (l : list Z) (T : gmap Z nat) (s' : pm) (l' : list Z) (T' : gmap Z nat) : Prop := {
  gr_free : exists l0, l = l0 ++ l' /\ forall q, T' !! q = None <-> T !! q = None /\ q ∉ l0;
  gr_sub : forall p k, T !! p = Some k -> T' !! p = Some k;
  gr_held : pm_held s' = pm_held s;
  gr_leaf : forall k p va, T !! p = Some k -> leaf_from (pm_mem s') k p va = leaf_from (pm_mem s) k p va;
  gr_valid : forall p k i, T !! p = Some (S k) -> 0 <= i < 512 ->
     valid (ld64 (pm_mem s) (slot p i)) = true -> ld64 (pm_mem s') (slot p i) = ld64 (pm_mem s) (slot p i);
  gr_data : forall b, (forall q k, T' !! q = Some k -> b < q \/ q + PGSIZE <= b) ->
     ld8 (pm_mem s') b = ld8 (pm_mem s) b;
}.

Lemma grows_refl s l T : grows s l T s l T.
Proof. split; try done. exists []. split; [done |]. set_solver. Qed.

Lemma grows_trans s l T s1 l1 T1 s2 l2 T2 :
  grows s l T s1 l1 T1 -> grows s1 l1 T1 s2 l2 T2 -> grows s l T s2 l2 T2.
Proof.
  intros [(la & -> & Fa) A2 A3 A4 A5 A6] [(lb & -> & Fb) B2 B3 B4 B5 B6]. split.
  - exists (la ++ lb). rewrite app_assoc. split; [done |]. intros q. rewrite Fb, Fa. set_solver.
  - eauto.
  - congruence.
  - intros k p va Hp. rewrite B4, A4 by eauto. done.
  - intros p k i Hp Hi V. rewrite (B5 p k), (A5 p k); eauto. by rewrite (A5 p k).
  - intros b Hb. rewrite B6 by done. apply A6. intros q k Hq. apply (Hb q k). eauto.
Qed.

(** The part of [walk] that creates a table. *)
Lemma alloc_link s q l root T p k i :
  vm_inv s (q :: l) root T -> T !! p = Some (S k) -> 0 <= i < 512 ->
  valid (ld64 (pm_mem s) (slot p i)) = false ->
  exists s1, kalloc s = Ret q s1 /\ (q =? 0) = false /\
    let s2 := Pm (pm_held s1) (st64 (memset (pm_mem s1) q 0 PGSIZE) (slot p i) (Z.lor (PA2PTE q) PTE_V))
                (freelist s1) in
    vm_inv s2 l root (<[q := k]> T) /\ grows s (q :: l) T s2 l (<[q := k]> T) /\
    linked (pm_mem s) (pm_mem s2) p i q.
Proof.
  intros [I P D Hl] Hp Hi V. pose proof I as (_ & Hnd & Hok).
  inversion_clear Hnd as [| ? ? Hql Hnd']. inversion_clear Hok as [| ? ? Hq Hok'].
  assert (T !! q = None) as HTq by (apply D; by left).
  destruct (kalloc_some s l q I Hl) as (m1 & E & I1 & Hm1).
  eexists. split; [exact E |]. split; [destruct Hq as (? & ? & ? & ?); lia |].
  cbn [pm_held pm_mem freelist]. set (m2 := st64 _ _ _).
  assert (page_ok p) as Hpp by (by eapply (pt_page _ root T P)).
  assert (p <> q) as Hpq by congruence.
  destruct Hpp as [Hpa Hpp]. pose proof Hq as [Hqa _].
  pose proof (pages_disjoint p q Hpa Hqa Hpq) as Hd. pose proof (slot_in_page p i Hi) as Hs.
  assert (forall b, ld8 m2 b = if decide (slot p i <= b < slot p i + 8) then ld8 m2 b
     else if decide (q <= b < q + PGSIZE) then 0 else ld8 (pm_mem s) b) as Hm2.
  { intros b. case_decide; [done |]. unfold m2. rewrite ld8_st64_ne by lia.
    rewrite ld8_memset, Hm1. by case_decide. }
  assert (linked (pm_mem s) m2 p i q) as Lk.
  { split.
    - intros b Hb. rewrite Hm2, decide_False, decide_True by lia. done.
    - unfold m2. rewrite ld64_st64_eq. apply u64_small.
      change PTE_V with 1. destruct Hq as (? & ? & Hqh & ?). unfold PHYSTOP, KERNBASE in Hqh.
      rewrite pte_lor by lia. unfold PGSIZE. dlia.
    - intros b H1 H2. rewrite Hm2, !decide_False by lia. done. }
  pose proof (link_pt_ok (pm_mem s) m2 root T p i q k P Hp Hi Hq HTq Lk) as P2.
  split_and!; [split; cbn [pm_mem pm_held]; try done | split; cbn [pm_mem pm_held]; try done | done].
  - rewrite Forall_forall in Hok'.
    apply (kmem_inv_ext _ l (pm_held s) m2 I1). intros r b Hr Hb. cbn [pm_mem].
    assert (page_ok r) as Hrp by auto. assert (r <> q) by congruence.
    assert (r <> p) by (intros ->; rewrite D in Hp by (by right); done).
    pose proof (page_ok_disjoint r q b Hrp Hq ltac:(done) Hb).
    pose proof (page_ok_disjoint r p b Hrp (conj Hpa Hpp) ltac:(done) Hb).
    rewrite Hm2, Hm1, !decide_False by lia. done.
  - intros r Hr. rewrite lookup_insert_ne; [apply D; by right |]. congruence.
  - exists [q]. split; [done |]. intros r. rewrite lookup_insert_None. set_solver.
  - intros r k' Hr. rewrite lookup_insert_ne; [done |]. congruence.
  - intros k' r va Hr. by apply (link_leaf (pm_mem s) m2 root T p i q k P Hp Hi V Hq HTq Lk).
  - intros r k' j Hr Hj Vr.
    apply (link_other (pm_mem s) m2 root T p i q k P Hp Hi Hq HTq Lk r (S k') j Hr Hj).
    intros [= -> ->]. congruence.
  - intros b Hb. apply (lk_same _ _ _ _ _ Lk).
    + apply (Hb q k), lookup_insert_eq.
    + specialize (Hb p (S k)). rewrite lookup_insert_ne in Hb by done. specialize (Hb Hp). lia.
Qed.

(** The loop of [walk] with [alloc]: either the pages ran out, or it returns
    the level-0 table of [va]. *)
Lemma walk_loop_alloc k : forall s l root T p va,
  vm_inv s l root T -> T !! p = Some k ->
  exists r s' l' T', walk_loop k p va true s = Ret r s' /\ vm_inv s' l' root T' /\
    grows s l T s' l' T' /\
    (length l <= length l' + k)%nat /\ (is_Some (tbl_walk (pm_mem s) k p va) -> l' = l) /\
    match r with
    | None => l' = []
    | Some p0 => T' !! p0 = Some O /\ tbl_walk (pm_mem s') k p va = Some (slot p0 (PX 0 va))
    end.
Proof.
  induction k as [| k IH]; intros s l root T p va I Hp.
  { exists (Some p), s, l, T. split_and!; [done.. | apply grows_refl | lia | done | done | done]. }
  set (i := PX (Z.of_nat (S k)) va). assert (0 <= i < 512) as Hi by (apply PX_range; lia).
  cbn [walk_loop]. fold i. change (p + 8 * i) with (slot p i).
  unfold rd_pte at 1. rewrite (kbind_of (kgets _) _ s _ s eq_refl). cbv beta. rewrite flag_V.
  destruct (valid _) eqn:V.
  - destruct (IH s l root T (PTE2PA (ld64 (pm_mem s) (slot p i))) va I) as (r & s' & l' & T' & E & I' & G & Hc & Hs & Hr).
    { by apply (pt_next _ _ _ (vi_pt _ _ _ _ I) p k). }
    exists r, s', l', T'. split_and!; [exact E | done | done | lia | |].
    { cbn [tbl_walk]. fold i. by rewrite V. }
    destruct r as [p0 |]; [| done].
    destruct Hr as [Hp0 Ew]. split; [done |]. cbn [tbl_walk]. fold i.
    rewrite (gr_valid _ _ _ _ _ _ G p k i Hp Hi V), V. exact Ew.
  - cbn [negb]. destruct l as [| q l].
    { exists None, s, [], T. erewrite kbind_of by (apply kalloc_none; apply I).
      split_and!; [done.. | apply grows_refl | cbn; lia | done | done]. }
    destruct (alloc_link s q l root T p k i I Hp Hi V) as (s1 & E1 & E0 & I2 & G2 & Lk).
    rewrite (kbind_of _ _ _ _ _ E1). rewrite E0. unfold wr_pte, set_mem at 1 2. kred.
    destruct (IH _ l root _ q va I2 (lookup_insert_eq _ _ _)) as (r & s' & l' & T' & E & I' & G & Hc & _ & Hr).
    exists r, s', l', T'. cbn [pm_held pm_mem freelist] in *.
    split_and!; [exact E | done | by eapply grows_trans | cbn; lia | |].
    { cbn [tbl_walk]. fold i. rewrite V. by intros []. }
    destruct r as [p0 |]; [| done].
    destruct Hr as [Hp0 Ew]. split; [done |]. cbn [tbl_walk]. fold i.
    destruct (link_entry_ok (pm_mem s) _ p i q ltac:(apply (vi_pt _ _ _ _ I2) with k, lookup_insert_eq) Lk) as [V2 E2].
    rewrite (gr_valid _ _ _ _ _ _ G p k i); cbn [pm_mem]; [by rewrite V2, E2 | | done | done].
    apply (gr_sub _ _ _ _ _ _ G2 p _ Hp).
Qed.

Lemma table_slot_pos s l root T p i :
  vm_inv s l root T -> T !! p = Some O -> 0 <= i -> (slot p i =? 0) = false.
Proof.
  intros I Hp Hi. destruct (pt_page _ _ _ (vi_pt _ _ _ _ I) p _ Hp) as (_ & _ & _ & ?).
  unfold slot. lia.
Qed.

(** Without [alloc], [walk] only reads. *)
Lemma walk_loop_read k : forall p va s,
  exists r, walk_loop k p va false s = Ret r s /\
    tbl_walk (pm_mem s) k p va = (fun p0 => slot p0 (PX 0 va)) <$> r.
Proof.
  induction k as [| k IH]; intros p va s; [by exists (Some p) |].
  cbn [walk_loop tbl_walk]. unfold rd_pte at 1. kred. fold (slot p (PX (Z.of_nat (S k)) va)).
  rewrite flag_V. destruct (valid _); [apply IH | by exists None].
Qed.

Lemma walk_read root va s :
  va < MAXVA -> walk root va false s = Ret (default 0 (tbl_walk (pm_mem s) 2 root va)) s.
Proof.
  intros Hva. unfold walk. destruct (MAXVA <=? va) eqn:E; zbool; [lia |].
  destruct (walk_loop_read 2 root va s) as (r & Er & ->).
  rewrite (kbind_of _ _ _ _ _ Er). by destruct r.
Qed.

(** [walk] with [alloc] on every branch. *)
Lemma walk_alloc s l root T va :
  vm_inv s l root T -> va < MAXVA ->
  exists a s' l' T', walk root va true s = Ret a s' /\ vm_inv s' l' root T' /\
    grows s l T s' l' T' /\
    (length l <= length l' + 2)%nat /\ (is_Some (tbl_walk (pm_mem s) 2 root va) -> l' = l) /\
    ((a = 0 /\ l' = []) \/ ((a =? 0) = false /\ tbl_walk (pm_mem s') 2 root va = Some a)).
Proof.
  intros I Hva. unfold walk. destruct (MAXVA <=? va) eqn:E; zbool; [lia |].
  destruct (walk_loop_alloc 2 s l root T root va I (pt_root _ _ _ (vi_pt _ _ _ _ I)))
    as (r & s' & l' & T' & Er & I' & G & Hc & Hs & Hr).
  rewrite (kbind_of _ _ _ _ _ Er). destruct r as [p0 |].
  - destruct Hr as [Hp0 Ew]. exists (slot p0 (PX 0 va)), s', l', T'.
    split_and!; [done.. |]. right. split; [| done].
    eapply table_slot_pos; eauto. apply PX_range. lia.
  - exists 0, s', l', T'. split_and!; [done.. |]. by left.
Qed.

(** Writing a leaf entry changes the view of its page only. *)
Lemma write_leaf m root T va a v :
  pt_ok m root T -> 0 <= va < MAXVA -> tbl_walk m 2 root va = Some a ->
  pt_ok (st64 m a v) root T /\
  (forall va', 0 <= va' < MAXVA -> leaf (st64 m a v) root va' =
     if decide (va' / PGSIZE = va / PGSIZE) then u64 v else leaf m root va') /\
  (exists p0, T !! p0 = Some O /\ same_outside p0 (p0 + PGSIZE) m (st64 m a v)).
Proof.
  intros P Hva Ea.
  destruct (tbl_walk_slot m root T P 2 root va a (pt_root m root T P) Ea) as (p0 & Hp0 & ->).
  pose proof (PX_range 0 va ltac:(lia)) as Hr.
  assert (forall p k i, T !! p = Some (S k) -> 0 <= i < 512 ->
    ld64 (st64 m (slot p0 (PX 0 va)) v) (slot p i) = ld64 m (slot p i)) as Hup.
  { intros p k i Hp Hi. apply ld64_st64_ne.
    pose proof (slot_disjoint p p0 i (PX 0 va)) as H. pose proof (pt_page m root T P) as Hpg.
    specialize (H ltac:(eauto) ltac:(eauto) Hi Hr ltac:(congruence)). lia. }
  assert (forall k p va', T !! p = Some k ->
    tbl_walk (st64 m (slot p0 (PX 0 va)) v) k p va' = tbl_walk m k p va') as Hw.
  { induction k as [| k IH]; intros p va' Hp; [done |]. cbn.
    rewrite (Hup p k) by (try done; apply PX_range; lia).
    destruct (valid _) eqn:V; [| done]. apply IH.
    apply (pt_next m root T P p k); [done | apply PX_range; lia | done]. }
  split_and!.
  - split; [apply P | apply P | |].
    + intros p k i Hp Hi. rewrite (Hup p k i Hp Hi). by apply (pt_next m root T P).
    + intros p p' k i i' Hp Hp' Hi Hi'. rewrite (Hup p k i Hp Hi), (Hup p' k i' Hp' Hi').
      by apply (pt_inj m root T P p p' k).
  - intros va' Hva'. unfold leaf, leaf_from. rewrite Hw by apply (pt_root m root T P).
    destruct (tbl_walk m 2 root va') as [a' |] eqn:Ea'.
    + case_decide as Hpg.
      * replace a' with (slot p0 (PX 0 va)); [apply ld64_st64_eq |].
        pose proof (tbl_walk_same_page m 2 root va' va Hpg). congruence.
      * destruct (tbl_walk_slot m root T P 2 root va' a' (pt_root m root T P) Ea') as (p1 & Hp1 & ->).
        apply ld64_st64_ne. pose proof (pt_page m root T P) as Hpage.
        pose proof (PX_range 0 va' ltac:(lia)) as Hr'.
        pose proof (slot_disjoint p1 p0 (PX 0 va') (PX 0 va)) as H.
        specialize (H ltac:(eauto) ltac:(eauto) Hr' Hr). destruct H as [H | H]; [| lia | lia].
        intros [= -> Heq]. rewrite Heq in Ea'. destruct Hpg.
        by apply (tbl_walk_page m root T va' va (slot p0 (PX 0 va)) P).
    + case_decide as Hpg; [| done]. exfalso.
      pose proof (tbl_walk_same_page m 2 root va' va Hpg). congruence.
  - exists p0. split; [done |]. intros b Hb. apply ld8_st64_ne.
    pose proof (slot_in_page p0 _ Hr). lia.
Qed.

(** ** Steps of an address space

    A step that changes the leaves of the pages (va / PGSIZE) where [chg] is
    defined, may turn free pages into tables, and leaves memory outside the
    tables alone. *)
Record vmstep (root : Z) (s : pm) (l : list Z) (T : gmap Z nat)
    (s' : pm) (l' : list Z) (T' : gmap Z nat) (chg : Z -> option Z) : Prop := {
  vs_inv : vm_inv s' l' root T';
  vs_free : exists l0, l = l0 ++ l' /\ forall q, T' !! q = None <-> T !! q = None /\ q ∉ l0;
  vs_sub : forall p k, T !! p = Some k -> T' !! p = Some k;
  vs_held : pm_held s' = pm_held s;
  vs_data : forall b, (forall q k, T' !! q = Some k -> b < q \/ q + PGSIZE <= b) ->
     ld8 (pm_mem s') b = ld8 (pm_mem s) b;
  vs_leaf : forall va, 0 <= va < MAXVA ->
     leaf (pm_mem s') root va = default (leaf (pm_mem s) root va) (chg (va / PGSIZE));
}.

Lemma vmstep_grows root s l T s' l' T' :
  vm_inv s l root T -> vm_inv s' l' root T' -> grows s l T s' l' T' ->
  vmstep root s l T s' l' T' (fun _ => None).
Proof.
  intros I I' [G1 G2 G3 G4 G5 G6]. split; try done. intros va _. apply G4, (vi_pt _ _ _ _ I).
Qed.

Lemma vmstep_trans root s l T s1 l1 T1 c1 s2 l2 T2 c2 :
  vmstep root s l T s1 l1 T1 c1 -> vmstep root s1 l1 T1 s2 l2 T2 c2 ->
  vmstep root s l T s2 l2 T2 (fun pg => match c2 pg with Some v => Some v | None => c1 pg end).
Proof.
  intros [_ (la & -> & Fa) A2 A3 A4 A5] [I (lb & -> & Fb) B2 B3 B4 B5]. split.
  - done.
  - exists (la ++ lb). rewrite app_assoc. split; [done |]. intros q. rewrite Fb, Fa. set_solver.
  - eauto.
  - congruence.
  - intros b Hb. rewrite B4 by done. apply A4. intros q k Hq. apply (Hb q k). eauto.
  - intros va Hva. rewrite B5, A5 by done. by destruct (c2 _).
Qed.

Lemma vmstep_chg root s l T s' l' T' c c' :
  (forall pg, 0 <= pg -> c pg = c' pg) ->
  vmstep root s l T s' l' T' c -> vmstep root s l T s' l' T' c'.
Proof.
  intros H [V1 V2 V3 V4 V5 V6]. split; try done. intros va Hva. rewrite V6 by done.
  rewrite H; [done |]. apply Z.div_pos; [lia | done].
Qed.

(** Storing a leaf entry whose table exists. *)
Lemma vmstep_write root s l T va a v :
  vm_inv s l root T -> 0 <= va < MAXVA -> tbl_walk (pm_mem s) 2 root va = Some a -> 0 <= v < 2 ^ 64 ->
  vmstep root s l T (Pm (pm_held s) (st64 (pm_mem s) a v) (freelist s)) l T
    (fun pg => if decide (pg = va / PGSIZE) then Some v else None).
Proof.
  intros [I P D Hl] Hva Ea Hv.
  destruct (write_leaf (pm_mem s) root T va a v P Hva Ea) as (P' & Hleaf & p0 & Hp0 & Hout).
  split; cbn [pm_mem pm_held]; try done.
  - split; cbn [pm_mem pm_held]; try done. eapply kmem_inv_frame; eauto.
    + by eapply (pt_page _ _ _ P).
    + intros Hin. specialize (D p0 Hin). congruence.
  - exists []. split; [done |]. set_solver.
  - intros b Hb. apply Hout. by apply (Hb p0 0%nat).
  - intros va' Hva'. rewrite Hleaf by done. case_decide; [| done]. cbn. by apply u64_small.
Qed.

Definition mk_pte (pa perm : Z) : Z := Z.lor (Z.lor (PA2PTE pa) perm) PTE_V.

Lemma log2_lt_10 a : 0 <= a < 1024 -> Z.log2 a < 10.
Proof. intros. destruct (decide (a = 0)) as [-> |]; [done |]. apply Z.log2_lt_pow2; lia. Qed.

Lemma lor_flags a b : 0 <= a < 1024 -> 0 <= b < 1024 -> 0 <= Z.lor a b < 1024.
Proof.
  intros Ha Hb. split; [apply Z.lor_nonneg; lia |]. apply Z.log2_lt_cancel. change (Z.log2 1024) with 10.
  rewrite Z.log2_lor by lia. apply Z.max_lub_lt; by apply log2_lt_10.
Qed.

Lemma lor_perm perm : 0 <= perm < 1024 -> 0 <= Z.lor perm PTE_V < 1024.
Proof. intros. by apply lor_flags. Qed.

Lemma mk_pte_facts pa perm :
  0 <= pa < 2 ^ 56 -> pa mod PGSIZE = 0 -> 0 <= perm < 1024 ->
  0 <= mk_pte pa perm < 2 ^ 64 /\ valid (mk_pte pa perm) = true /\
  PTE2PA (mk_pte pa perm) = pa /\ PTE_FLAGS (mk_pte pa perm) = Z.lor perm PTE_V.
Proof.
  intros Hpa Ha Hp. unfold mk_pte. rewrite <- Z.lor_assoc.
  pose proof (lor_perm perm Hp) as Hf. split_and!.
  - rewrite pte_lor by lia. unfold PGSIZE. dlia.
  - rewrite pte_lor by lia. unfold PGSIZE. dlia.
  - unfold valid. rewrite testbit_pte_low, Z.lor_spec by lia. change PTE_V with 1.
    by rewrite orb_true_r.
  - by apply PTE2PA_lor.
  - by apply PTE_FLAGS_lor.
Qed.

Lemma page_of_aligned a j : a mod PGSIZE = 0 -> (a + j * PGSIZE) / PGSIZE = a / PGSIZE + j.
Proof. unfold PGSIZE. intros. dlia. Qed.

(** Pages [pg0], ..., [pg0 + c - 1] mapped to consecutive physical pages. *)
Definition map_chg (pg0 c pa perm : Z) : Z -> option Z :=
  fun pg => if decide (pg0 <= pg < pg0 + c) then Some (mk_pte (pa + (pg - pg0) * PGSIZE) perm) else None.

(** The pages that became tables on the way to [a]: two at most, none if the
    tables are there. *)
Definition taken (s : pm) (l l' : list Z) (root a : Z) : Prop :=
  (length l <= length l' + 2)%nat /\ (is_Some (tbl_walk (pm_mem s) 2 root a) -> l' = l).

(** One table of level 0 serves 512 pages. *)
Definition region (va : Z) : Z := va / 2 ^ 21.

Lemma region_down x : region (x - x mod PGSIZE) = region x.
Proof.
  unfold region. change (2 ^ 21) with (PGSIZE * 512).
  rewrite <- !Z.div_div by (unfold PGSIZE; lia). f_equal.
  unfold PGSIZE. dlia.
Qed.

Lemma region_PX va va' : region va = region va' -> PX 1 va = PX 1 va' /\ PX 2 va = PX 2 va'.
Proof.
  unfold region, PX. change (PXSHIFT 1) with 21. change (PXSHIFT 2) with (21 + 9).
  intros E. rewrite <- !Z.shiftr_shiftr, !(Z.shiftr_div_pow2 _ 21), E by lia. done.
Qed.

Lemma region_walk m root va va' :
  region va = region va' -> valid (leaf m root va) = true ->
  is_Some (tbl_walk m 2 root va').
Proof.
  intros Hr. destruct (region_PX va va' Hr) as [E1 E2].
  unfold leaf, leaf_from. cbn [tbl_walk]. change (Z.of_nat 2) with 2. change (Z.of_nat 1) with 1.
  rewrite E1, E2. destruct (valid (ld64 m (slot root _))); [| done].
  destruct (valid (ld64 m (slot (PTE2PA _) _))); [eauto | done].
Qed.

(** One turn of the loop of [mappages]. *)
Lemma map_one root perm s l T a pa :
  vm_inv s l root T -> 0 <= a < MAXVA -> 0 <= pa < 2 ^ 56 -> pa mod PGSIZE = 0 -> 0 <= perm < 1024 ->
  valid (leaf (pm_mem s) root a) = false ->
  (exists s1 T1, walk root a true s = Ret 0 s1 /\ vmstep root s l T s1 [] T1 (fun _ => None) /\
     taken s l [] root a) \/
  (exists pte s1 l1 T1, taken s l l1 root a /\ walk root a true s = Ret pte s1 /\ (pte =? 0) = false /\
     valid (ld64 (pm_mem s1) pte) = false /\
     vmstep root s l T (Pm (pm_held s1) (st64 (pm_mem s1) pte (mk_pte pa perm)) (freelist s1)) l1 T1
       (fun pg => if decide (pg = a / PGSIZE) then Some (mk_pte pa perm) else None)).
Proof.
  intros I Ha Hpa Hpal Hperm Hfree.
  destruct (walk_alloc s l root T a I ltac:(lia)) as (pte & s1 & l1 & T1 & E1 & I1 & G1 & Hc1 & Hc2 & Hc).
  pose proof (vmstep_grows root s l T s1 l1 T1 I I1 G1) as V1.
  assert (taken s l l1 root a) as Ht by (by split).
  destruct Hc as [[-> ->] | [E0 Ew]]; [left; eauto 6 | right].
  exists pte, s1, l1, T1. split_and!; [done | done | done | |].
  - assert (ld64 (pm_mem s1) pte = leaf (pm_mem s) root a) as ->; [| done].
    unfold leaf. rewrite <- (gr_leaf _ _ _ _ _ _ G1 2 root a (pt_root _ _ _ (vi_pt _ _ _ _ I))).
    unfold leaf_from. by rewrite Ew.
  - destruct (mk_pte_facts pa perm Hpa Hpal Hperm) as (Hv & _).
    pose proof (vmstep_write root s1 l1 T1 a pte _ I1 Ha Ew Hv) as V2.
    eapply vmstep_chg; [| exact (vmstep_trans _ _ _ _ _ _ _ _ _ _ _ _ V1 V2)].
    intros pg _. cbn. by case_decide.
Qed.

(** The pages that became tables while the pages of [a], ..., [last] were mapped: two
    per region, none for the region of [a] if a page of it is mapped. *)
Definition tables_bound (s : pm) (l l' : list Z) (root a last : Z) : Prop :=
  let n := 2 * (region last - region a) in
  Z.of_nat (length l) <= Z.of_nat (length l') + n + 2 /\
  ((exists v, region v = region a /\ valid (leaf (pm_mem s) root v) = true) ->
   Z.of_nat (length l) <= Z.of_nat (length l') + n).

Lemma tables_one s l l' root a last :
  taken s l l' root a -> region a <= region last -> tables_bound s l l' root a last.
Proof.
  intros [H1 H2] Hr. split; [lia |]. intros (v & Hv & Hl).
  rewrite H2; [lia |]. by apply (region_walk _ _ v).
Qed.

Lemma tables_next s l l1 l' root a s1 last :
  taken s l l1 root a -> valid (leaf (pm_mem s1) root a) = true ->
  tables_bound s1 l1 l' root (a + PGSIZE) last -> tables_bound s l l' root a last.
Proof.
  intros [H1 H2] Hv [B1 B2].
  assert (Z.of_nat (length l1) <= Z.of_nat (length l') + 2 * (region last - region a)) as B.
  { destruct (decide (region (a + PGSIZE) = region a)) as [E | E].
    - rewrite <- E. apply B2. by exists a.
    - assert (region (a + PGSIZE) = region a + 1) as E1 by (unfold region, PGSIZE in *; dlia).
      rewrite E1 in B1. lia. }
  split; [lia |]. intros (v & Hv1 & Hl). rewrite <- H2; [done |]. by apply (region_walk _ _ v).
Qed.

Lemma mappages_loop_ok root perm n : forall fuel s l T a last pa,
  vm_inv s l root T -> (n < fuel)%nat -> 0 <= a -> a mod PGSIZE = 0 -> last = a + Z.of_nat n * PGSIZE ->
  last < MAXVA -> 0 <= pa -> pa + Z.of_nat n * PGSIZE < 2 ^ 56 -> pa mod PGSIZE = 0 -> 0 <= perm < 1024 ->
  (forall va, a <= va <= last -> valid (leaf (pm_mem s) root va) = false) ->
  exists r s' l' T' c, mappages_loop fuel root a last pa perm s = Ret r s' /\
    vmstep root s l T s' l' T' (map_chg (a / PGSIZE) c pa perm) /\
    ((r = 0 /\ c = Z.of_nat n + 1) \/ (r = -1 /\ 0 <= c <= Z.of_nat n /\ l' = [])) /\
    tables_bound s l l' root a last.
Proof.
  assert (MAXVA = 2 ^ 38) as HMv by reflexivity.
  induction n as [| n IH]; intros fuel s l T a last pa I Hf Ha Hal Hlast HM Hpa Hpa' Hpal Hperm Hfree;
    (destruct fuel as [| fuel]; [lia |]); cbn [mappages_loop];
    (destruct (map_one root perm s l T a pa I) as
      [(s1 & T1 & E1 & V1 & Ht) | (pte & s1 & l1 & T1 & Ht & E1 & E0 & Ev & V1)];
      [unfold PGSIZE in *; lia | unfold PGSIZE in *; lia | done | done
      | apply Hfree; unfold PGSIZE in *; lia | |]);
    rewrite (kbind_of _ _ _ _ _ E1);
    try (exists (-1), s1, [], T1, 0; split_and!;
           [done | | right; split_and!; try done; lia
           | apply tables_one; [done | subst last; unfold region, PGSIZE; apply Z.div_le_mono; lia]];
         eapply vmstep_chg; [| exact V1]; intros; unfold map_chg; by rewrite decide_False by lia);
    rewrite E0; unfold rd_pte at 1; rewrite (kbind_of (kgets _) _ s1 _ s1 eq_refl); cbv beta;
    rewrite flag_V, Ev; unfold wr_pte, set_mem; rewrite (kbind_of (kmod _) _ s1 tt _ eq_refl);
    fold (mk_pte pa perm).
  - replace (a =? last) with true by (symmetry; apply Z.eqb_eq; lia).
    eexists 0, _, l1, T1, 1. split_and!; [reflexivity | | left; lia
      | apply tables_one; [done | replace last with a by lia; lia]].
    eapply vmstep_chg; [| exact V1]. intros pg Hpg. unfold map_chg. cbn.
    case_decide; [subst; rewrite decide_True by lia; do 2 f_equal; lia | by rewrite decide_False by lia].
  - replace (a =? last) with false by (symmetry; apply Z.eqb_neq; unfold PGSIZE in *; lia).
    rewrite !u64_small by (unfold PGSIZE in *; lia).
    destruct (IH fuel _ l1 T1 (a + PGSIZE) last (pa + PGSIZE) (vs_inv _ _ _ _ _ _ _ _ V1))
      as (r & s' & l' & T' & c & E & V3 & Hr & Hb);
      try (unfold PGSIZE in *; lia); try (unfold PGSIZE in *; dlia).
    { intros va Hva. rewrite (vs_leaf _ _ _ _ _ _ _ _ V1) by (unfold PGSIZE in *; lia).
      rewrite decide_False by (unfold PGSIZE in *; dlia). cbn. apply Hfree. unfold PGSIZE in *; lia. }
    exists r, s', l', T', (c + 1).
    split_and!; [exact E | | destruct Hr as [[-> ->] | (-> & ? & ->)]; [left; lia | right; split_and!; try done; lia]
      | eapply tables_next; [exact Ht | | exact Hb]].
    2: { rewrite (vs_leaf _ _ _ _ _ _ _ _ V1) by (unfold PGSIZE in *; lia). rewrite decide_True by done.
         apply mk_pte_facts; unfold PGSIZE in *; lia || done. }
    eapply vmstep_chg; [| exact (vmstep_trans _ _ _ _ _ _ _ _ _ _ _ _ V1 V3)].
    intros pg Hpg. unfold map_chg. cbn beta.
    replace ((a + PGSIZE) / PGSIZE) with (a / PGSIZE + 1) by (unfold PGSIZE; dlia).
    assert (0 <= c) by (destruct Hr as [[_ ->] | (_ & ? & _)]; lia).
    repeat case_decide; try lia; try done.
    + do 2 f_equal. lia.
    + subst. do 2 f_equal. lia.
Qed.

(** A new, empty address space. *)
Lemma uvmcreate_ok s q l :
  kmem_inv s (q :: l) -> kmem_lock ∉ pm_held s ->
  exists s', uvmcreate s = Ret q s' /\ vm_inv s' l q {[q := 2%nat]} /\
    pm_held s' = pm_held s /\ forall va, leaf (pm_mem s') q va = 0.
Proof.
  intros I Hl. pose proof I as (_ & Hnd & Hok).
  inversion_clear Hnd as [| ? ? Hql Hnd']. inversion_clear Hok as [| ? ? Hq Hok'].
  destruct (kalloc_some s l q I Hl) as (m1 & E & I1 & Hm1).
  unfold uvmcreate. rewrite (kbind_of _ _ _ _ _ E).
  replace (q =? 0) with false by (symmetry; apply Z.eqb_neq; destruct Hq as (? & ? & ? & ?); lia).
  eexists. split; [reflexivity |]. cbn [pm_held pm_mem freelist].
  set (m2 := memset _ _ _ _).
  assert (forall b, q <= b < q + PGSIZE -> ld8 m2 b = 0) as Hz.
  { intros b Hb. unfold m2. by rewrite ld8_memset, decide_True by lia. }
  assert (forall i, 0 <= i < 512 -> ld64 m2 (slot q i) = 0) as H0.
  { intros i Hi. apply ld64_zero. intros b Hb. apply Hz. pose proof (slot_in_page q i Hi). lia. }
  assert (same_outside q (q + PGSIZE) m1 m2) as Hout.
  { intros b Hb. unfold m2. by rewrite ld8_memset, decide_False by lia. }
  clearbody m2.
  split_and!; [split; cbn [pm_held pm_mem]; try done | done | intros va; by apply leaf_zero_page].
  - by apply (kmem_inv_frame _ _ q _ I1).
  - split; [apply lookup_singleton_eq | intros p k; rewrite lookup_singleton_Some; by intros [<- _] | |].
    + intros p k i [<- _]%lookup_singleton_Some Hi V. by rewrite H0 in V.
    + intros p p' k i i' [<- _]%lookup_singleton_Some _ Hi _ V. by rewrite H0 in V.
  - intros p Hp. rewrite lookup_singleton_ne; [done |]. congruence.
Qed.

Lemma mappages_ok s l root T va size pa perm :
  vm_inv s l root T ->
  0 <= va -> 0 < size -> va + size <= MAXVA ->
  0 <= pa -> pa + size + PGSIZE <= 2 ^ 56 -> pa mod PGSIZE = 0 -> 0 <= perm < 1024 ->
  (forall v, PGROUNDDOWN va <= v < va + size -> valid (leaf (pm_mem s) root v) = false) ->
  let npages := (va + size - 1) / PGSIZE - va / PGSIZE + 1 in
  exists r s' l' T' c, mappages root va size pa perm s = Ret r s' /\
    vmstep root s l T s' l' T' (map_chg (va / PGSIZE) c pa perm) /\
    ((r = 0 /\ c = npages) \/ (r = -1 /\ 0 <= c < npages /\ l' = [])) /\
    tables_bound s l l' root va (va + size - 1).
Proof.
  intros I Hva Hsz HM Hpa Hpa2 Hpal Hperm Hfree npages.
  assert (MAXVA = 2 ^ 38) as HMv by reflexivity.
  unfold mappages. replace (size =? 0) with false by lia.
  rewrite u64_small, !PGROUNDDOWN_eq in * by lia. cbv zeta.
  set (a := va - va mod PGSIZE) in *. set (last := va + size - 1 - (va + size - 1) mod PGSIZE).
  assert (last = a + (npages - 1) * PGSIZE) as Hlast
    by (subst a last npages; unfold PGSIZE; dlia).
  assert (0 <= npages - 1) as Hn by (subst npages; unfold PGSIZE; dlia).
  replace (a <=? last) with true by (unfold PGSIZE in *; lia).
  replace (va / PGSIZE) with (a / PGSIZE) by (subst a; unfold PGSIZE; dlia).
  destruct (mappages_loop_ok root perm (Z.to_nat (npages - 1)) (S (Z.to_nat ((last - a) / PGSIZE)))
    s l T a last pa I) as (r & s' & l' & T' & c & E & V & Hr & Hb); try done.
  - rewrite Hlast. unfold PGSIZE. replace (a + (npages - 1) * 4096 - a) with ((npages - 1) * 4096) by lia.
    rewrite Z.div_mul by done. lia.
  - subst a. unfold PGSIZE. dlia.
  - subst a. unfold PGSIZE. dlia.
  - by rewrite Z2Nat.id.
  - subst last. unfold PGSIZE. dlia.
  - subst npages. unfold PGSIZE in *. dlia.
  - intros v Hv. destruct (decide (v < va + size)); [apply Hfree; lia |].
    rewrite <- (Hfree (va + size - 1)) by (subst a; unfold PGSIZE in *; dlia). unfold leaf, leaf_from.
    rewrite (tbl_walk_same_page _ 2 root v (va + size - 1)); [done |].
    subst last. unfold PGSIZE in *. dlia.
  - exists r, s', l', T', c. split_and!; [exact E | exact V | |].
    + destruct Hr as [[-> ->] | (-> & ? & ->)]; [left | right]; split_and!; try done; lia.
    + unfold tables_bound in *. subst a last. by rewrite !region_down in Hb.
Qed.

(** C28: [mappages] on a range of unmapped pages.  It maps every page of
    [va, va+size) to the corresponding page of [pa] with the permissions
    asked for and returns 0, or it returns -1 and then the free list is
    exhausted and only a prefix of the range has been mapped.  In both cases
    the page-table invariant holds afterwards, every other virtual page keeps
    its entry, free pages are only taken (to become tables), and no byte
    outside the tables changes. *)
Theorem mappages_correct s l root T va size pa perm :
  vm_inv s l root T ->
  0 <= va -> 0 < size -> va + size <= MAXVA ->
  0 <= pa -> pa + size + PGSIZE <= 2 ^ 56 -> pa mod PGSIZE = 0 -> 0 <= perm < 1024 ->
  (forall v, PGROUNDDOWN va <= v < va + size -> valid (leaf (pm_mem s) root v) = false) ->
  let npages := (va + size - 1) / PGSIZE - va / PGSIZE + 1 in
  exists r s' l' T' c, mappages root va size pa perm s = Ret r s' /\
    vmstep root s l T s' l' T' (map_chg (va / PGSIZE) c pa perm) /\
    ((r = 0 /\ c = npages) \/ (r = -1 /\ 0 <= c < npages /\ l' = [])).
Proof.
  intros I Hva Hsz HM Hpa Hpa2 Hpal Hperm Hfree npages.
  destruct (mappages_ok s l root T va size pa perm I) as (r & s' & l' & T' & c & E & V & Hr & _); eauto 10.
Qed.

End view.

(** Witness state: eight free pages, the last of them made a root table. *)
#[local] Instance vm_layout : Layout :=
  {| kend := PHYSTOP - 8 * PGSIZE; etext := KERNBASE + PGSIZE; trampoline := KERNBASE |}.
Definition wit_vm_pages : list Z := reverse (pages_from (PHYSTOP - 8 * PGSIZE) 8).
Definition wit_vm_pm : pm := match kinit (Pm ∅ ∅ 0) with Ret _ s => s | _ => Pm ∅ ∅ 0 end.

Lemma wit_vm_pm_inv : kmem_inv wit_vm_pm wit_vm_pages.
Proof.
  split_and!; [vm_compute; done | by apply (bool_decide_unpack _); vm_compute |].
  repeat constructor; vm_compute; congruence.
Qed.

Definition wit_root : Z := PHYSTOP - PGSIZE.
Definition wit_vm_state : pm := match uvmcreate wit_vm_pm with Ret _ s => s | _ => wit_vm_pm end.

Lemma wit_vm_state_inv :
  vm_inv wit_vm_state (tail wit_vm_pages) wit_root {[wit_root := 2%nat]} /\
  forall va, leaf (pm_mem wit_vm_state) wit_root va = 0.
Proof.
  destruct (uvmcreate_ok wit_vm_pm wit_root (tail wit_vm_pages)) as (s' & E & I & _ & Z0);
    [exact wit_vm_pm_inv | vm_compute; set_solver |].
  unfold wit_vm_state. rewrite E. exact (conj I Z0).
Qed.

Lemma mappages_correct_witness :
  exists r s' l' T' c, mappages wit_root 0x1234 0x2000 KERNBASE 6 wit_vm_state = Ret r s' /\
    vmstep wit_root wit_vm_state (tail wit_vm_pages) {[wit_root := 2%nat]} s' l' T' (map_chg 1 c KERNBASE 6) /\
    ((r = 0 /\ c = 3) \/ (r = -1 /\ 0 <= c < 3 /\ l' = [])).
Proof.
  destruct wit_vm_state_inv as [I Z0].
  apply (mappages_correct wit_vm_state _ wit_root _ 0x1234 0x2000 KERNBASE 6 I);
    [lia | lia | vm_compute; discriminate | vm_compute; discriminate | vm_compute; discriminate | reflexivity | lia |].
  intros v _. rewrite Z0. reflexivity.
Defined.
