(* ===== verification/VmUser.v ===== *)
(** * User address spaces: growing, shrinking and unmapping

    [uvmunmap], [uvmdealloc] and [uvmalloc] on top of the page-table
    invariant of VmProofs.v: which pages leave the free list, which return to
    it, and what the address space looks like on every branch. *)

From S2P Require Import Prelude Riscv Spinlock Mem CString Kalloc Vm VmProofs.

Section user.
Context `{L : Layout}.

(** Pages that neither the free list nor the page table uses. *)
Record data_pages (l : list Z) (T : gmap Z nat) (ps : list Z) : Prop := {
  dp_page : Forall page_ok ps;
  dp_nodup : NoDup ps;
  dp_free : forall p, p ∈ ps -> p ∉ l;
  dp_table : forall p, p ∈ ps -> T !! p = None;
}.

Lemma data_pages_cons l T p ps :
  data_pages l T (p :: ps) -> page_ok p /\ p ∉ l /\ T !! p = None /\ data_pages (p :: l) T ps.
Proof.
  intros [Hp Hnd Hf Ht]. inversion_clear Hp. inversion_clear Hnd as [| ? ? Hn Hnd'].
  split_and!; [done | set_solver | set_solver |].
  split; [done | done | | set_solver]. intros q Hq. rewrite not_elem_of_cons.
  split; [by intros -> | set_solver].
Qed.

(** A change confined to a page that is not a table keeps the address space. *)
Lemma pt_frame m m' root T p :
  pt_ok m root T -> page_ok p -> T !! p = None -> same_outside p (p + PGSIZE) m m' ->
  pt_ok m' root T /\
  (forall k q va, T !! q = Some k -> tbl_walk m' k q va = tbl_walk m k q va) /\
  (forall va, leaf m' root va = leaf m root va).
Proof.
  intros P Hp HT Hout.
  assert (forall q k i, T !! q = Some k -> 0 <= i < 512 -> ld64 m' (slot q i) = ld64 m (slot q i)) as Hs.
  { intros q k i Hq Hi. apply ldn_ext. intros b Hb. apply Hout.
    pose proof (slot_in_page q i Hi). pose proof (pt_page _ _ _ P q k Hq) as Hqp.
    apply (page_ok_disjoint q p b); try done; [congruence | lia]. }
  pose proof (tbl_walk_ext _ _ root T P Hs) as Hw.
  split_and!; [| exact Hw |].
  - destruct P as [P1 P2 P3 P4]. split; [done | done | |].
    + intros q k i Hq Hi. rewrite (Hs q (S k) i Hq Hi). by apply P3.
    + intros q q' k i i' Hq Hq' Hi Hi'. rewrite (Hs q (S k) i), (Hs q' (S k) i') by done. by apply (P4 q q' k).
  - intros va. unfold leaf, leaf_from. rewrite (Hw 2%nat) by apply (pt_root _ _ _ P).
    destruct (tbl_walk _ 2 root va) as [a |] eqn:Ea; [| done].
    destruct (tbl_walk_slot _ _ _ P 2 root va a (pt_root _ _ _ P) Ea) as (p0 & Hp0 & ->).
    apply (Hs p0 O); [done | apply PX_range; lia].
Qed.

(** Freeing a data page keeps the page table. *)
Lemma kfree_vm s l root T p :
  vm_inv s l root T -> page_ok p -> p ∉ l -> T !! p = None ->
  exists s', kfree p s = Ret tt s' /\ vm_inv s' (p :: l) root T /\
    pm_held s' = pm_held s /\ same_outside p (p + PGSIZE) (pm_mem s) (pm_mem s') /\
    (forall k q va, T !! q = Some k -> tbl_walk (pm_mem s') k q va = tbl_walk (pm_mem s) k q va) /\
    (forall va, leaf (pm_mem s') root va = leaf (pm_mem s) root va).
Proof.
  intros [I P D Hl] Hp Hin HT.
  destruct (kfree_ok s l p I Hp Hin Hl) as (m' & E & I' & Hout).
  destruct (pt_frame _ m' root T p P Hp HT Hout) as (P' & Hw & Hlf).
  eexists. split; [exact E |]. cbn [pm_held pm_mem].
  split_and!; [split; cbn [pm_held pm_mem]; try done | done | done | exact Hw | exact Hlf].
  intros q [-> | Hq]%elem_of_cons; [done | by apply D].
Qed.

(** Taking a page from the free list and zeroing it. *)
Lemma kalloc_vm s p l root T :
  vm_inv s (p :: l) root T ->
  exists s1, kalloc s = Ret p s1 /\ (p =? 0) = false /\ page_ok p /\ p ∉ l /\ T !! p = None /\
    let s2 := Pm (pm_held s1) (memset (pm_mem s1) p 0 PGSIZE) (freelist s1) in
    vm_inv s2 l root T /\ pm_held s2 = pm_held s /\
    same_outside p (p + PGSIZE) (pm_mem s) (pm_mem s2) /\
    (forall b, p <= b < p + PGSIZE -> ld8 (pm_mem s2) b = 0) /\
    (forall va, leaf (pm_mem s2) root va = leaf (pm_mem s) root va).
Proof.
  intros [I P D Hl]. pose proof I as (_ & Hnd & Hok).
  inversion_clear Hnd as [| ? ? Hpl Hnd']. inversion_clear Hok as [| ? ? Hp Hok'].
  assert (T !! p = None) as HT by (apply D; by left).
  destruct (kalloc_some s l p I Hl) as (m1 & E & I1 & Hm1).
  eexists. split; [exact E |]. cbn [pm_held pm_mem freelist].
  pose proof (fun b => ld8_memset m1 p 0 PGSIZE b) as Hm2.
  remember (memset m1 p 0 PGSIZE) as m2 eqn:Em2. clear Em2.
  assert (same_outside p (p + PGSIZE) (pm_mem s) m2) as Hout.
  { intros b Hb. by rewrite Hm2, Hm1, !decide_False by lia. }
  destruct (pt_frame _ m2 root T p P Hp HT Hout) as (P' & Hw & Hlf).
  split_and!; [destruct Hp as (? & ? & ? & ?); lia | done | done | done | | done | done | | done].
  - split; cbn [pm_held pm_mem]; try done; [| intros q Hq; apply D; by right].
    apply (kmem_inv_frame _ l p m2 I1); [done | done |].
    intros b Hb. cbn [pm_mem]. by rewrite Hm2, decide_False by lia.
  - intros b Hb. by rewrite Hm2, decide_True by lia.
Qed.

(** The data pages [ps] mapped from virtual address [a] on. *)
Definition mapped_at (m : mem) (root a : Z) (ps : list Z) : Prop :=
  forall i p, ps !! i = Some p ->
    let e := leaf m root (a + Z.of_nat i * PGSIZE) in
    valid e = true /\ PTE_FLAGS e <> PTE_V /\ PTE2PA e = p.

(** The state after the pages [ps] at [a] were unmapped; with [do_free] they
    went back to the free list, last page first. *)
Record unmapped (root : Z) (do_free : bool) (s : pm) (l : list Z) (T : gmap Z nat) (a : Z) (ps : list Z)
    (s' : pm) : Prop := {
  um_inv : vm_inv s' (if do_free then reverse ps ++ l else l) root T;
  um_held : pm_held s' = pm_held s;
  um_leaf : forall va, 0 <= va < MAXVA -> leaf (pm_mem s') root va =
     if decide (a <= va < a + Z.of_nat (length ps) * PGSIZE) then 0 else leaf (pm_mem s) root va;
  um_data : forall b, (forall q k, T !! q = Some k -> b < q \/ q + PGSIZE <= b) ->
     (do_free = true -> forall q, q ∈ ps -> b < q \/ q + PGSIZE <= b) ->
     ld8 (pm_mem s') b = ld8 (pm_mem s) b;
}.

(** One turn of the loop: the entry is cleared, its page freed if asked. *)
Lemma unmap_one root do_free s l T a p ps :
  vm_inv s l root T -> 0 <= a < MAXVA -> mapped_at (pm_mem s) root a (p :: ps) ->
  (do_free = true -> data_pages l T (p :: ps)) ->
  exists pte s1, walk root a false s = Ret pte s /\ (pte =? 0) = false /\
    ld64 (pm_mem s) pte = leaf (pm_mem s) root a /\
    kwhen do_free (kfree p) s = Ret tt s1 /\
    let s2 := Pm (pm_held s1) (st64 (pm_mem s1) pte 0) (freelist s1) in
    vm_inv s2 (if do_free then p :: l else l) root T /\ pm_held s2 = pm_held s /\
    (forall va, 0 <= va < MAXVA -> leaf (pm_mem s2) root va =
       if decide (va / PGSIZE = a / PGSIZE) then 0 else leaf (pm_mem s) root va) /\
    (forall b, (forall q k, T !! q = Some k -> b < q \/ q + PGSIZE <= b) ->
       (do_free = true -> b < p \/ p + PGSIZE <= b) -> ld8 (pm_mem s2) b = ld8 (pm_mem s) b).
Proof.
  intros I Ha Hm Hd. destruct (Hm 0%nat p eq_refl) as (Hv & _ & _).
  rewrite Z.mul_0_l, Z.add_0_r in Hv.
  unfold leaf, leaf_from in Hv. destruct (tbl_walk (pm_mem s) 2 root a) as [pte |] eqn:Ea; [| done].
  destruct (tbl_walk_slot _ _ _ (vi_pt _ _ _ _ I) 2 root a pte (pt_root _ _ _ (vi_pt _ _ _ _ I)) Ea) as (p0 & Hp0 & Hpte).
  assert (exists s1, kwhen do_free (kfree p) s = Ret tt s1 /\ vm_inv s1 (if do_free then p :: l else l) root T /\
    pm_held s1 = pm_held s /\ tbl_walk (pm_mem s1) 2 root a = Some pte /\
    (forall va, leaf (pm_mem s1) root va = leaf (pm_mem s) root va) /\
    (forall b, (do_free = true -> b < p \/ p + PGSIZE <= b) -> ld8 (pm_mem s1) b = ld8 (pm_mem s) b)) as (s1 & E1 & I1 & H1 & W1 & L1 & D1).
  { destruct do_free; [| by exists s].
    destruct (data_pages_cons l T p ps (Hd eq_refl)) as (Hp & Hpl & HT & _).
    destruct (kfree_vm s l root T p I Hp Hpl HT) as (s1 & E & I1 & H1 & Hout & Hw & Hl).
    exists s1. split_and!; try done; [| intros b Hb; apply Hout; by apply Hb].
    by rewrite (Hw 2%nat) by apply (pt_root _ _ _ (vi_pt _ _ _ _ I)). }
  exists pte, s1. rewrite walk_read by lia. rewrite Ea. cbn [default].
  pose proof (vmstep_write root s1 _ T a pte 0 I1 Ha W1 ltac:(lia)) as V.
  split_and!; [done | | unfold leaf, leaf_from; by rewrite Ea | done | apply V
  | etransitivity; [apply V | done] | |].
  - rewrite Hpte. eapply table_slot_pos; eauto. apply PX_range. lia.
  - intros va Hva. rewrite (vs_leaf _ _ _ _ _ _ _ _ V va Hva), L1. by case_decide.
  - intros b Hb Hb2. rewrite (vs_data _ _ _ _ _ _ _ _ V b Hb). by apply D1.
Qed.

Lemma uvmunmap_loop_ok root do_free ps : forall fuel s l T a hi,
  vm_inv s l root T -> (length ps < fuel)%nat -> 0 <= a -> a mod PGSIZE = 0 ->
  hi = a + Z.of_nat (length ps) * PGSIZE -> hi <= MAXVA ->
  mapped_at (pm_mem s) root a ps -> (do_free = true -> data_pages l T ps) ->
  exists s', uvmunmap_loop fuel root a hi do_free s = Ret tt s' /\ unmapped root do_free s l T a ps s'.
Proof.
  assert (MAXVA = 2 ^ 38) as HMv by reflexivity.
  induction ps as [| p ps IH]; intros fuel s l T a hi I Hf Ha Hal Hhi HM Hm Hd;
    (destruct fuel as [| fuel]; [cbn in Hf; lia |]); cbn [uvmunmap_loop length] in *.
  { replace (a <? hi) with false by (symmetry; apply Z.ltb_ge; lia).
    exists s. split; [done |]. split; try done; [by destruct do_free |].
    intros va Hva. by rewrite decide_False by (cbn; lia). }
  replace (a <? hi) with true by (symmetry; apply Z.ltb_lt; unfold PGSIZE in *; lia).
  destruct (unmap_one root do_free s l T a p ps I) as (pte & s1 & E1 & E0 & El & E2 & I2 & H2 & L2 & D2);
    [unfold PGSIZE in *; lia | done | done |].
  destruct (Hm 0%nat p eq_refl) as (Hv & Hfl & Hpa). rewrite Z.mul_0_l, Z.add_0_r in Hv, Hfl, Hpa.
  rewrite (kbind_of _ _ _ _ _ E1), E0. unfold rd_pte at 1.
  rewrite (kbind_of (kgets _) _ s _ s eq_refl). cbv beta. rewrite El, flag_V, Hv. cbn [negb].
  replace (PTE_FLAGS _ =? PTE_V) with false by (symmetry; by apply Z.eqb_neq).
  rewrite Hpa, (kbind_of _ _ _ _ _ E2). unfold wr_pte, set_mem. rewrite (kbind_of (kmod _) _ _ tt _ eq_refl).
  rewrite u64_small by (unfold PGSIZE in *; lia).
  edestruct (IH fuel _ _ T (a + PGSIZE) hi I2) as (s' & E' & [U1 U2 U3 U4]);
    [lia | unfold PGSIZE in *; lia | unfold PGSIZE in *; dlia | unfold PGSIZE in *; lia | done | | |].
  - intros i q Hq. destruct (Hm (S i) q Hq) as (? & ? & ?).
    replace (a + PGSIZE + Z.of_nat i * PGSIZE) with (a + Z.of_nat (S i) * PGSIZE) by (unfold PGSIZE; lia).
    apply lookup_lt_Some in Hq. rewrite L2 by (unfold PGSIZE in *; lia).
    by rewrite decide_False by (unfold PGSIZE in *; dlia).
  - intros ->. by apply (data_pages_cons l T p ps (Hd eq_refl)).
  - exists s'. split; [exact E' |]. split.
    + destruct do_free; [| done]. by rewrite reverse_cons, <- app_assoc.
    + congruence.
    + intros va Hva. rewrite U3, L2 by done. cbn [length].
      repeat case_decide; try done; unfold PGSIZE in *; exfalso; dlia.
    + intros b Hb Hq. rewrite U4; [apply D2; [done | intros Hdf; apply (Hq Hdf); by left] | done |].
      intros Hdf q Hq'. apply (Hq Hdf). by right.
Qed.

Lemma uvmdealloc_ok root s l T oldsz newsz ps :
  vm_inv s l root T -> 0 <= newsz -> newsz < oldsz -> PGROUNDUP oldsz <= MAXVA -> oldsz <= MAXVA ->
  Z.of_nat (length ps) * PGSIZE = PGROUNDUP oldsz - PGROUNDUP newsz ->
  mapped_at (pm_mem s) root (PGROUNDUP newsz) ps -> data_pages l T ps ->
  exists s', uvmdealloc root oldsz newsz s = Ret newsz s' /\
    unmapped root true s l T (PGROUNDUP newsz) ps s'.
Proof.
  intros I H0 Hlt HM HM' Hlen Hm Hd. assert (MAXVA = 2 ^ 38) as HMv by reflexivity.
  unfold uvmdealloc. replace (oldsz <=? newsz) with false by (symmetry; apply Z.leb_gt; lia).
  pose proof (PGROUNDUP_bounds newsz ltac:(unfold PGSIZE; lia)) as (Hb & Hal).
  destruct (decide (ps = [])) as [-> | Hne].
  { cbn in Hlen. replace (_ <? _) with false by (symmetry; apply Z.ltb_ge; lia).
    exists s. split; [done |]. split; try done. intros va Hva.
    by rewrite decide_False by (cbn; lia). }
  assert (0 < Z.of_nat (length ps)) by (destruct ps; [done | cbn; lia]).
  replace (_ <? _) with true by (symmetry; apply Z.ltb_lt; unfold PGSIZE in *; lia).
  cbn [kwhen]. rewrite <- Hlen, Z.div_mul by done.
  rewrite i32_small, u64_small by (unfold PGSIZE in *; lia). unfold uvmunmap.
  rewrite (proj2 (Z.eqb_eq _ _) Hal). cbn [negb]. rewrite Nat2Z.id, u64_small by (unfold PGSIZE in *; lia).
  destruct (uvmunmap_loop_ok root true ps (S (length ps)) s l T (PGROUNDUP newsz)
    (PGROUNDUP newsz + Z.of_nat (length ps) * PGSIZE) I) as (s' & E & U); try done; [lia.. |].
  exists s'. unfold kwhen. rewrite (kbind_of _ _ _ _ _ E). done.
Qed.
(** Mapping one aligned page. *)
Lemma mappages_page root perm s l T a pa :
  vm_inv s l root T -> 0 <= a -> a mod PGSIZE = 0 -> a < MAXVA -> page_ok pa -> 0 <= perm < 1024 ->
  leaf (pm_mem s) root a = 0 ->
  exists r s' l' T', mappages root a PGSIZE pa perm s = Ret r s' /\
    ((r = 0 /\ vmstep root s l T s' l' T'
        (fun pg => if decide (pg = a / PGSIZE) then Some (mk_pte pa perm) else None)) \/
     (r = -1 /\ l' = [] /\ vmstep root s l T s' l' T' (fun _ => None))).
Proof.
  intros I Ha Hal HM (Hp1 & Hp2 & Hp3 & Hp4) Hperm H0. assert (MAXVA = 2 ^ 38) as HMv by reflexivity.
  unfold mappages. change (PGSIZE =? 0) with false. cbv iota.
  rewrite u64_small by (unfold PGSIZE in *; lia).
  rewrite !PGROUNDDOWN_eq by (unfold PGSIZE in *; lia).
  replace (a - a mod PGSIZE) with a by lia.
  replace (a + PGSIZE - 1 - (a + PGSIZE - 1) mod PGSIZE) with a by (unfold PGSIZE in *; dlia).
  cbv zeta. rewrite Z.leb_refl. replace ((a - a) / PGSIZE) with 0 by (rewrite Z.sub_diag; done).
  unfold PHYSTOP, KERNBASE in Hp3.
  destruct (mappages_loop_ok root perm 0 1 s l T a a pa I) as (r & s' & l' & T' & c & E & V & Hr & _);
    try done; try lia.
  { intros va Hva. by replace va with a by lia; rewrite H0. }
  exists r, s', l', T'. split; [exact E |].
  destruct Hr as [[-> ->] | (-> & Hc & ->)]; [left | right]; split_and!; try done;
    (eapply vmstep_chg; [| exact V]); intros pg _; unfold map_chg.
  - case_decide; [assert (pg = a / PGSIZE) as -> by lia; rewrite decide_True by done; do 2 f_equal; lia | by rewrite decide_False by lia].
  - by rewrite decide_False by lia.
Qed.

(** ** Growing: pages [ps] taken from the free list and mapped from [old] on *)

(** The pages [ps], zeroed, have left the free list [l0] for the caller; other
    pages that left it are new tables. *)
Record owned (root : Z) (s0 : pm) (l0 : list Z) (T0 : gmap Z nat)
    (s : pm) (l : list Z) (T : gmap Z nat) (ps : list Z) : Prop := {
  ow_inv : vm_inv s l root T;
  ow_pages : data_pages l T ps;
  ow_free : exists tabs, l0 ≡ₚ ps ++ tabs ++ l /\ forall q, T !! q = None <-> T0 !! q = None /\ q ∉ tabs;
  ow_sub : forall p k, T0 !! p = Some k -> T !! p = Some k;
  ow_held : pm_held s = pm_held s0;
  ow_zero : forall p b, p ∈ ps -> p <= b < p + PGSIZE -> ld8 (pm_mem s) b = 0;
  ow_data : forall b, (forall q k, T0 !! q = Some k -> b < q \/ q + PGSIZE <= b) ->
    (forall q, q ∈ l0 -> b < q \/ q + PGSIZE <= b) -> ld8 (pm_mem s) b = ld8 (pm_mem s0) b;
}.

(** Consecutive pages from [old] on are mapped to [ps]; the rest is as before. *)
Definition grown_view (root perm old : Z) (m0 m : mem) (ps : list Z) : Prop :=
  forall va, 0 <= va < MAXVA -> leaf m root va =
    if decide (old <= va < old + Z.of_nat (length ps) * PGSIZE)
    then mk_pte (nthZ 0 ps ((va - old) / PGSIZE)) perm else leaf m0 root va.

Section growth.
Context (root : Z) (s0 : pm) (l0 : list Z) (T0 : gmap Z nat).
Let own := owned root s0 l0 T0.

Lemma owned_refl : vm_inv s0 l0 root T0 -> own s0 l0 T0 [].
Proof.
  intros I. split; try done; [split; try constructor; set_solver | | set_solver].
  exists []. split; [done |]. set_solver.
Qed.

(** Bytes outside the initial tables and free pages are outside every table. *)
Lemma owned_outside s l T ps b :
  own s l T ps -> (forall q k, T0 !! q = Some k -> b < q \/ q + PGSIZE <= b) ->
  (forall q, q ∈ l0 -> b < q \/ q + PGSIZE <= b) ->
  forall q k, T !! q = Some k -> b < q \/ q + PGSIZE <= b.
Proof.
  intros [_ _ (tabs & Hp & Ht) _ _ _ _] H1 H2 q k Hq.
  destruct (T0 !! q) as [k0 |] eqn:E0; [by eapply H1 |].
  apply H2. rewrite Hp. destruct (decide (q ∈ tabs)); [set_solver |].
  assert (T !! q = None) by (apply Ht; done). congruence.
Qed.

Lemma owned_in_l0 s l T ps q : own s l T ps -> q ∈ ps ++ l -> q ∈ l0.
Proof. intros [_ _ (tabs & Hp & _) _ _ _ _] Hq. rewrite Hp. set_solver. Qed.

Lemma owned_page s l T ps q : own s l T ps -> q ∈ ps -> page_ok q.
Proof. intros O Hq. pose proof (dp_page _ _ _ (ow_pages _ _ _ _ _ _ _ _ O)) as H. rewrite Forall_forall in H. auto. Qed.

(** Allocating and zeroing one more page. *)
Lemma owned_alloc s p l T ps :
  own s (p :: l) T ps ->
  exists s1, kalloc s = Ret p s1 /\ (p =? 0) = false /\ page_ok p /\
    let s2 := Pm (pm_held s1) (memset (pm_mem s1) p 0 PGSIZE) (freelist s1) in
    own s2 l T (ps ++ [p]) /\ forall va, leaf (pm_mem s2) root va = leaf (pm_mem s) root va.
Proof.
  intros O. pose proof O as [I [D1 D2 D3 D4] (tabs & Gp & Gt) Gs Gh Gz Gd].
  destruct (kalloc_vm s p l root T I) as (s1 & E1 & E0 & Hp & Hpl & HTp & I2 & H2 & O2 & Z2 & L2).
  exists s1. cbv zeta. set (s2 := Pm _ _ _) in *. clearbody s2.
  split_and!; [done | done | done | | done].
  assert (p ∉ ps) as Hpps by (intros Hin; apply (D3 p Hin); by left).
  split; try done.
  - split; [apply Forall_app_2; [done | by constructor] | | set_solver | set_solver].
    apply NoDup_app. split_and!; [done | set_solver | apply NoDup_singleton].
  - exists tabs. split; [| done]. rewrite Gp. solve_Permutation.
  - congruence.
  - intros q b [Hq | ->%list_elem_of_singleton]%elem_of_app Hb; [| by apply Z2].
    rewrite O2; [by apply (Gz q) |].
    apply (page_ok_disjoint q p b); [by eapply owned_page | done | congruence | done].
  - intros b H1 H3. rewrite O2; [by apply Gd |]. apply H3, (owned_in_l0 _ _ _ _ _ O). set_solver.
Qed.

(** Page-table steps that take tables from the free list. *)
Lemma owned_vmstep s l T ps s' l' T' c :
  own s l T ps -> vmstep root s l T s' l' T' c -> own s' l' T' ps.
Proof.
  intros O [VI (lt & -> & Vt) Vs Vh Vd _].
  pose proof O as [I [D1 D2 D3 D4] (tabs & Gp & Gt) Gs Gh Gz Gd].
  assert (forall q, q ∈ ps -> T' !! q = None) as Hn.
  { intros q Hq. apply Vt. split; [by apply D4 |]. specialize (D3 q Hq). set_solver. }
  split; try done; [split; [done | done | | done] | | by eauto | congruence | |].
  - intros q Hq. specialize (D3 q Hq). set_solver.
  - exists (tabs ++ lt). split; [rewrite Gp; solve_Permutation |]. intros q. rewrite Vt, Gt. set_solver.
  - intros p b Hp Hb. rewrite Vd; [by apply (Gz p) |]. intros q k Hq.
    apply (page_ok_disjoint p q b); [by eapply owned_page | by eapply (pt_page _ _ _ (vi_pt _ _ _ _ VI))
    | intros ->; specialize (Hn q Hp); congruence | done].
  - intros b H1 H2. rewrite Vd; [by apply Gd |]. intros q k Hq.
    destruct (T !! q) as [k0 |] eqn:E0; [by eapply owned_outside |].
    apply H2, (owned_in_l0 _ _ _ _ _ O). destruct (decide (q ∈ lt)); [set_solver |].
    assert (T' !! q = None) by (apply Vt; done). congruence.
Qed.

(** Giving the last page back. *)
Lemma owned_free s l T ps p :
  own s l T (ps ++ [p]) ->
  exists s', kfree p s = Ret tt s' /\ own s' (p :: l) T ps /\
    forall va, leaf (pm_mem s') root va = leaf (pm_mem s) root va.
Proof.
  intros O. pose proof O as [I [D1 D2 D3 D4] (tabs & Gp & Gt) Gs Gh Gz Gd].
  assert (page_ok p) as Hp by (eapply owned_page; [exact O | set_solver]).
  apply NoDup_app in D2 as (D2 & D2' & _). apply Forall_app in D1 as [D1 _].
  destruct (kfree_vm s l root T p I Hp) as (s' & E & I' & Hh & Hout & _ & Hl);
    [apply D3; set_solver | apply D4; set_solver |].
  exists s'. split_and!; [done | | done].
  split; try done; [split; [done | done | set_solver | set_solver] | | congruence | |].
  - exists tabs. split; [| done]. rewrite Gp. solve_Permutation.
  - intros q b Hq Hb. rewrite Hout; [apply (Gz q b); [set_solver | done] |].
    apply (page_ok_disjoint q p b); [eapply owned_page; [exact O | set_solver] | done | | done].
    intros ->. by apply (D2' p Hq), list_elem_of_singleton.
  - intros b H1 H2. rewrite Hout; [by apply Gd |]. apply H2, (owned_in_l0 _ _ _ _ _ O). set_solver.
Qed.

(** Unmapping and freeing all of them. *)
Lemma owned_unmapped s l T ps old s' :
  own s l T ps -> unmapped root true s l T old ps s' -> own s' (reverse ps ++ l) T [].
Proof.
  intros O [U1 U2 U3 U4]. pose proof O as [I Dp (tabs & Gp & Gt) Gs Gh Gz Gd].
  split; try done; [split; try constructor; set_solver | | congruence | set_solver |].
  - exists tabs. split; [| done]. rewrite Gp, reverse_Permutation. solve_Permutation.
  - intros b H1 H2. rewrite U4; [by apply Gd | by eapply owned_outside |].
    intros _ q Hq. apply H2. rewrite Gp. set_solver.
Qed.
End growth.

Section uvmalloc.
Context (root perm old : Z) (s0 : pm) (l0 : list Z) (T0 : gmap Z nat).
Context (Hperm : 0 <= perm < 1024) (Hpv : Z.lor perm PTE_V <> PTE_V).
Context (Hold : 0 <= old) (Hal : old mod PGSIZE = 0).
Let own := owned root s0 l0 T0.
Let view s := grown_view root perm old (pm_mem s0) (pm_mem s).

Lemma view_nil s : (forall va, 0 <= va < MAXVA -> leaf (pm_mem s) root va = leaf (pm_mem s0) root va) -> view s [].
Proof. intros H va Hva. rewrite decide_False by (cbn; lia). by apply H. Qed.

Lemma view_snoc s s' ps p :
  view s ps -> (forall va, 0 <= va < MAXVA -> leaf (pm_mem s') root va =
    default (leaf (pm_mem s) root va)
      (if decide (va / PGSIZE = (old + Z.of_nat (length ps) * PGSIZE) / PGSIZE) then Some (mk_pte p perm) else None)) ->
  view s' (ps ++ [p]).
Proof.
  intros V H va Hva. rewrite H, V by done. rewrite page_of_aligned by done.
  rewrite length_app, Nat2Z.inj_add. cbn [length]. unfold nthZ.
  destruct (decide (va / PGSIZE = _)); cbn [default].
  - rewrite decide_True by (unfold PGSIZE in *; dlia).
    replace ((va - old) / PGSIZE) with (Z.of_nat (length ps)) by (unfold PGSIZE in *; dlia).
    replace (_ <? 0) with false by lia. rewrite Nat2Z.id, nth_middle. done.
  - case_decide.
    + rewrite decide_True by (unfold PGSIZE in *; lia).
      rewrite app_nth1; [done |]. unfold PGSIZE in *. dlia.
    + rewrite decide_False; [done |]. unfold PGSIZE in *. dlia.
Qed.

Lemma view_mapped s l T ps :
  own s l T ps -> view s ps -> old + Z.of_nat (length ps) * PGSIZE <= MAXVA -> mapped_at (pm_mem s) root old ps.
Proof.
  intros O V HM i p Hi. pose proof (lookup_lt_Some _ _ _ Hi) as Hlt. cbv zeta.
  rewrite V by (unfold PGSIZE in *; lia). rewrite decide_True by (unfold PGSIZE in *; lia).
  replace ((old + Z.of_nat i * PGSIZE - old) / PGSIZE) with (Z.of_nat i)
    by (rewrite Z.add_simpl_l, Z.div_mul; done).
  unfold nthZ. replace (Z.of_nat i <? 0) with false by lia. rewrite Nat2Z.id.
  rewrite (nth_lookup_Some _ _ _ _ Hi).
  destruct (owned_page _ _ _ _ _ _ _ _ p O) as (? & ? & Hp3 & ?); [by eapply list_elem_of_lookup_2 |].
  unfold PHYSTOP, KERNBASE in Hp3.
  destruct (mk_pte_facts p perm) as (_ & ? & ? & ->); [lia | done | done |]. done.
Qed.

(** The error path: everything mapped so far is unmapped and freed. *)
Lemma uvmalloc_fail s l T ps :
  own s l T ps -> view s ps ->
  let a := old + Z.of_nat (length ps) * PGSIZE in
  a <= MAXVA -> (forall va, old <= va < a -> leaf (pm_mem s0) root va = 0) ->
  exists r s' l', uvmdealloc root a old s = Ret r s' /\ own s' l' T [] /\ view s' [].
Proof.
  intros O V a HM H0. assert (MAXVA = 2 ^ 38) as HMv by reflexivity.
  destruct (decide (ps = [])) as [-> | Hne].
  { subst a. unfold uvmdealloc. replace (_ <=? old) with true by (symmetry; apply Z.leb_le; cbn; lia).
    by eexists _, s, l. }
  assert (0 < Z.of_nat (length ps)) by (destruct ps; [done | cbn; lia]).
  assert (PGROUNDUP old = old) as Eo
    by (pose proof (PGROUNDUP_bounds old); subst a; unfold PGSIZE in *; dlia).
  assert (PGROUNDUP a = a) as Ea
    by (pose proof (PGROUNDUP_bounds a); subst a; unfold PGSIZE in *; dlia).
  destruct (uvmdealloc_ok root s l T a old ps) as (s' & E & U);
    [apply O | done | subst a; unfold PGSIZE in *; lia | lia | lia | subst a; lia
    | rewrite Eo; by eapply view_mapped | apply O |].
  rewrite Eo in U. exists old, s', (reverse ps ++ l).
  split_and!; [done | by eapply owned_unmapped |]. apply view_nil. intros va Hva.
  rewrite (um_leaf _ _ _ _ _ _ _ _ U va Hva), V by done. case_decide; [| done].
  symmetry. apply H0. done.
Qed.

Lemma uvmalloc_loop_ok xperm newsz : perm = Z.lor (Z.lor PTE_R PTE_U) xperm ->
  0 <= newsz <= MAXVA ->
  (forall va, old <= va < newsz + PGSIZE -> va < MAXVA -> leaf (pm_mem s0) root va = 0) ->
  forall n fuel s l T ps, let a := old + Z.of_nat (length ps) * PGSIZE in
  own s l T ps -> view s ps -> (n < fuel)%nat -> a < newsz + PGSIZE -> a <= MAXVA ->
  newsz <= a + Z.of_nat n * PGSIZE ->
  exists r s' l' T' ps', uvmalloc_loop fuel root a old newsz xperm s = Ret r s' /\
    own s' l' T' ps' /\ view s' ps' /\
    ((r = newsz /\ newsz <= old + Z.of_nat (length ps') * PGSIZE < newsz + PGSIZE) \/ (r = 0 /\ ps' = [])).
Proof.
  intros Ep HM H0 n. assert (MAXVA = 2 ^ 38) as HMv by reflexivity.
  induction n as [| n IH]; intros fuel s l T ps a O V Hf Ha1 Ha2 Hn;
    (destruct fuel as [| fuel]; [lia |]); cbn [uvmalloc_loop].
  { replace (a <? newsz) with false by (symmetry; apply Z.ltb_ge; lia).
    exists newsz, s, l, T, ps. split_and!; try done. left. lia. }
  destruct (a <? newsz) eqn:Ea; zbool.
  2: { exists newsz, s, l, T, ps. split_and!; try done. left. lia. }
  destruct (uvmalloc_fail s l T ps O V) as (rf & sf & lf & Ef & Of & Vf);
    [done | intros; apply H0; unfold a in *; lia |].
  destruct l as [| p l].
  { erewrite kbind_of by (apply kalloc_none; apply O). cbn [Z.eqb]. fold a in Ef.
    rewrite (kbind_of _ _ _ _ _ Ef). exists 0, sf, lf, T, []. split_and!; try done. by right. }
  destruct (owned_alloc root s0 l0 T0 s p l T ps O) as (s1 & E1 & E0 & Hp & O2 & L2).
  rewrite (kbind_of _ _ _ _ _ E1), E0. unfold set_mem. rewrite (kbind_of (kmod _) _ s1 tt _ eq_refl).
  set (s2 := Pm _ _ _) in *. rewrite <- Ep.
  destruct (mappages_page root perm s2 l T a p) as (r & s3 & l3 & T3 & E3 & Hr);
    [apply O2 | unfold a, PGSIZE in *; lia | unfold a; by rewrite Z.mod_add | lia | done | done | |].
  { rewrite L2, V by (unfold a, PGSIZE in *; lia). rewrite decide_False by (unfold a; lia).
    apply H0; unfold a, PGSIZE in *; lia. }
  rewrite (kbind_of _ _ _ _ _ E3).
  destruct Hr as [[-> Vs] | (-> & -> & Vs)]; cbn [Z.eqb negb];
    pose proof (owned_vmstep _ _ _ _ _ _ _ _ _ _ _ _ O2 Vs) as O3.
  - replace (u64 (a + PGSIZE)) with (old + Z.of_nat (length (ps ++ [p])) * PGSIZE)
      by (rewrite u64_small, length_app by (unfold a, PGSIZE in *; lia); cbn; unfold a, PGSIZE; lia).
    apply (IH fuel s3 l3 T3 (ps ++ [p])); [done | | lia | | | ];
      try (rewrite length_app; cbn; unfold a, PGSIZE in *; lia).
    apply (view_snoc s); [done |]. intros va Hva. rewrite (vs_leaf _ _ _ _ _ _ _ _ Vs va Hva), L2. done.
    rewrite length_app. cbn. unfold a, PGSIZE in *. dlia.
  - destruct (owned_free _ _ _ _ _ _ _ _ _ O3) as (s4 & E4 & O4 & L4).
    rewrite (kbind_of _ _ _ _ _ E4).
    destruct (uvmalloc_fail s4 [p] T3 ps O4) as (rf2 & sf2 & lf2 & Ef2 & Of2 & Vf2);
      [ | done | intros; apply H0; unfold a in *; lia |].
    { intros va Hva. rewrite L4, (vs_leaf _ _ _ _ _ _ _ _ Vs va Hva). cbn [default]. rewrite L2. by apply V. }
    fold a in Ef2. rewrite (kbind_of _ _ _ _ _ Ef2). exists 0, sf2, lf2, T3, []. split_and!; try done. by right.
Qed.
End uvmalloc.
(** C34: [uvmunmap] of a page-aligned range whose pages are all mapped to
    leaves.  It returns, every entry of the range is 0 and every other entry
    is unchanged; with [do_free] exactly the mapped pages go back to the free
    list, and no byte outside the tables and the freed pages changes. *)
Theorem uvmunmap_correct root do_free s l T va ps :
  vm_inv s l root T -> 0 <= va -> va mod PGSIZE = 0 ->
  va + Z.of_nat (length ps) * PGSIZE <= MAXVA ->
  mapped_at (pm_mem s) root va ps -> (do_free = true -> data_pages l T ps) ->
  exists s', uvmunmap root va (Z.of_nat (length ps)) do_free s = Ret tt s' /\
    unmapped root do_free s l T va ps s'.
Proof.
  intros I H0 Hal HM Hm Hd. assert (MAXVA = 2 ^ 38) as HMv by reflexivity.
  unfold uvmunmap. rewrite (proj2 (Z.eqb_eq _ _) Hal). cbn [negb].
  rewrite Nat2Z.id, u64_small by (unfold PGSIZE in *; lia).
  apply uvmunmap_loop_ok; try done. lia.
Qed.

(** C16: [uvmalloc] is all or nothing.  Growing from [oldsz] to [newsz] over
    unmapped pages either returns [newsz], and then every page between is
    mapped R|U|xperm to its own zeroed page taken from the free list; or it
    returns 0, and then the address space is what it was and every page it
    took is back on the free list, except pages that became (empty) page
    tables.  Other memory is untouched either way. *)
Theorem uvmalloc_correct root s l T oldsz newsz xperm :
  vm_inv s l root T -> 0 <= oldsz <= newsz -> newsz <= MAXVA -> 0 <= xperm < 1024 ->
  (forall va, PGROUNDUP oldsz <= va < newsz + PGSIZE -> va < MAXVA -> leaf (pm_mem s) root va = 0) ->
  let perm := Z.lor (Z.lor PTE_R PTE_U) xperm in
  exists r s' l' T' ps, uvmalloc root oldsz newsz xperm s = Ret r s' /\
    owned root s l T s' l' T' ps /\
    grown_view root perm (PGROUNDUP oldsz) (pm_mem s) (pm_mem s') ps /\
    ((r = newsz /\ newsz <= PGROUNDUP oldsz + Z.of_nat (length ps) * PGSIZE < newsz + PGSIZE) \/
     (r = 0 /\ ps = [])).
Proof.
  intros I Ho HM Hx H0 perm. assert (MAXVA = 2 ^ 38) as HMv by reflexivity.
  unfold uvmalloc. replace (newsz <? oldsz) with false by (symmetry; apply Z.ltb_ge; lia).
  pose proof (PGROUNDUP_bounds oldsz ltac:(unfold PGSIZE; lia)) as (Hb & Hal).
  assert (perm_ok : 0 <= perm < 1024) by (by apply lor_flags).
  assert (Hpv : Z.lor perm PTE_V <> PTE_V).
  { intros E. apply (f_equal (fun z => Z.testbit z 1)) in E. subst perm. rewrite !Z.lor_spec in E. done. }
  cbv zeta. set (n := Z.to_nat _).
  pose proof (uvmalloc_loop_ok root perm (PGROUNDUP oldsz) s l T perm_ok Hpv ltac:(lia) Hal xperm newsz
    eq_refl ltac:(lia) H0 n (S n) s l T []) as Hloop.
  cbn [length] in Hloop. rewrite Z.mul_0_l, Z.add_0_r in Hloop. apply Hloop.
  - by apply owned_refl.
  - by apply view_nil.
  - lia.
  - lia.
  - unfold PGSIZE in *. rewrite PGROUNDUP_eq in * by (unfold PGSIZE; lia). unfold PGSIZE in *. dlia.
  - subst n. unfold PGSIZE in *. dlia.
Qed.
End user.

(** Witness: an address space of one root table and seven free pages. *)
#[local] Existing Instance vm_layout.

Lemma uvmalloc_correct_witness :
  exists r s' l' T' ps, uvmalloc wit_root 100 5000 PTE_W wit_vm_state = Ret r s' /\
    owned wit_root wit_vm_state (tail wit_vm_pages) {[wit_root := 2%nat]} s' l' T' ps /\
    grown_view wit_root (Z.lor (Z.lor PTE_R PTE_U) PTE_W) (PGROUNDUP 100) (pm_mem wit_vm_state) (pm_mem s') ps /\
    ((r = 5000 /\ 5000 <= PGROUNDUP 100 + Z.of_nat (length ps) * PGSIZE < 5000 + PGSIZE) \/
     (r = 0 /\ ps = [])).
Proof.
  destruct wit_vm_state_inv as [I Z0].
  apply (uvmalloc_correct wit_root wit_vm_state _ _ 100 5000 PTE_W I);
    [lia | vm_compute; discriminate | vm_compute; split; congruence | intros va _ _; apply Z0].
Defined.

(** Its first free page mapped at 0x5000. *)
Definition wit_page : Z := PHYSTOP - 2 * PGSIZE.
Definition wit_map : K pm Z :=
  mem <- kalloc ;;
  set_mem (fun m => memset m mem 0 PGSIZE) >>
  mappages wit_root 0x5000 PGSIZE mem 0x16.

Lemma wit_mapped : exists s l T, wit_map wit_vm_state = Ret 0 s /\ vm_inv s l wit_root T /\
  data_pages l T [wit_page] /\ mapped_at (pm_mem s) wit_root 0x5000 [wit_page] /\ page_ok wit_page /\
  (forall v, 0 <= v < MAXVA -> leaf (pm_mem s) wit_root v = if decide (v / PGSIZE = 5) then mk_pte wit_page 0x16 else 0) /\
  (forall b, wit_page <= b < wit_page + PGSIZE -> ld8 (pm_mem s) b = 0).
Proof.
  destruct wit_vm_state_inv as [I Z0].
  assert (match wit_map wit_vm_state with Ret r _ => r | _ => -2 end = 0) as R by (vm_compute; reflexivity).
  destruct (owned_alloc wit_root wit_vm_state (tail wit_vm_pages) _ wit_vm_state wit_page (tail (tail wit_vm_pages)) _ []
    (owned_refl wit_root _ _ _ I)) as (s1 & E1 & _ & Hp & O & L1).
  destruct (mappages_page wit_root 0x16 _ _ _ 0x5000 wit_page (ow_inv _ _ _ _ _ _ _ _ O)) as (r & s3 & l3 & T3 & E3 & Hr);
    [lia | reflexivity | reflexivity | exact Hp | lia | rewrite L1; apply Z0 |].
  assert (E : wit_map wit_vm_state = Ret r s3).
  { unfold wit_map. rewrite (kbind_of _ _ _ _ _ E1). unfold set_mem. rewrite (kbind_of (kmod _) _ s1 tt _ eq_refl). exact E3. }
  rewrite E in R. cbv beta iota in R. subst r. destruct Hr as [[_ V] | [? _]]; [| lia].
  pose proof (owned_vmstep _ _ _ _ _ _ _ _ _ _ _ _ O V) as O3. exists s3, l3, T3.
  assert (Hl : forall v, 0 <= v < MAXVA ->
    leaf (pm_mem s3) wit_root v = if decide (v / PGSIZE = 5) then mk_pte wit_page 0x16 else 0).
  { intros v Hv. rewrite (vs_leaf _ _ _ _ _ _ _ _ V v Hv), L1, Z0.
    change (0x5000 / PGSIZE) with 5. by case_decide. }
  split_and!; [exact E | apply V | apply (ow_pages _ _ _ _ _ _ _ _ O3) | | exact Hp | exact Hl |].
  - intros [| i] p Hi; [| by destruct i]. injection Hi as <-. cbv zeta.
    rewrite Hl by (vm_compute; split; congruence). split_and!; vm_compute; congruence.
  - intros b Hb. apply (ow_zero _ _ _ _ _ _ _ _ O3 wit_page b); [by left | exact Hb].
Qed.

Lemma uvmunmap_correct_witness :
  exists s l T s', mapped_at (pm_mem s) wit_root 0x5000 [wit_page] /\
    uvmunmap wit_root 0x5000 1 true s = Ret tt s' /\
    unmapped wit_root true s l T 0x5000 [wit_page] s'.
Proof.
  destruct wit_mapped as (s & l & T & E & I & D & M & _).
  destruct (uvmunmap_correct wit_root true s l T 0x5000 [wit_page] I) as (s' & E' & U);
    [lia | reflexivity | vm_compute; discriminate | exact M | intros _; exact D |].
  exists s, l, T, s'. split; [exact M | split; [exact E' | exact U]].
Defined.
