(* ===== verification/VmCopy.v ===== *)
(** * copyin, copyout and copyinstr: data across the user/kernel boundary

    The user's view of memory is a byte per mapped user address ([uread]).
    The copying loops split a range at page boundaries; the theorems here say
    that the split is invisible. *)

From S2P Require Import Prelude Riscv Spinlock Mem CString Kalloc Vm VmProofs VmUser.

Section copy.
Context `{L : Layout}.

(** The physical page user address [va] is mapped to, 0 if there is none. *)
Definition uwalk (m : mem) (root va : Z) : Z :=
  let e := leaf m root va in
  if (valid e && flag e PTE_U)%bool then PTE2PA e else 0.

Definition umapped (m : mem) (root va : Z) : Prop := va < MAXVA /\ uwalk m root va <> 0.

(** The byte a user program reads at [va]. *)
Definition uread (m : mem) (root va : Z) : Z := ld8 m (uwalk m root va + va mod PGSIZE).

Fixpoint ubytes (m : mem) (root va : Z) (n : nat) : bytes :=
  match n with
  | O => []
  | S n => uread m root va :: ubytes m root (va + 1) n
  end.

Lemma walkaddr_eq root T va s :
  pt_ok (pm_mem s) root T ->
  walkaddr root va s = Ret (if MAXVA <=? va then 0 else uwalk (pm_mem s) root va) s.
Proof.
  intros P. unfold walkaddr. destruct (MAXVA <=? va) eqn:E; zbool; [done |].
  rewrite (kbind_of _ _ _ _ _ (walk_read root va s E)). unfold uwalk, leaf, leaf_from.
  destruct (tbl_walk (pm_mem s) 2 root va) as [a |] eqn:Ea; cbn [default]; [| done].
  destruct (tbl_walk_slot _ _ _ P 2 root va a (pt_root _ _ _ P) Ea) as (p0 & Hp0 & ->).
  destruct (pt_page _ _ _ P p0 _ Hp0) as (_ & _ & _ & Hpos).
  pose proof (PX_range 0 va ltac:(lia)) as Hr.
  unfold id. replace (slot p0 (PX 0 va) =? 0) with false by (symmetry; apply Z.eqb_neq; unfold slot; lia).
  unfold rd_pte. kred. rewrite flag_V. destruct (valid _), (flag _ PTE_U); done.
Qed.

Lemma uwalk_same_page m root va va' : va / PGSIZE = va' / PGSIZE -> uwalk m root va = uwalk m root va'.
Proof. intros H. unfold uwalk, leaf, leaf_from. by rewrite (tbl_walk_same_page m 2 root va va' H). Qed.

Lemma uwalk_aligned m root va : uwalk m root va mod PGSIZE = 0.
Proof.
  unfold uwalk. cbv zeta. case_if; [| done].
  unfold PTE2PA, u64. rewrite Z.shiftl_mul_pow2 by lia. unfold PGSIZE. dlia.
Qed.

Lemma length_ubytes m root va n : length (ubytes m root va n) = n.
Proof. revert va. induction n; intros va; cbn; [done | by rewrite IHn]. Qed.

Lemma ubytes_app m root va n k :
  ubytes m root va (n + k) = ubytes m root va n ++ ubytes m root (va + Z.of_nat n) k.
Proof.
  revert va. induction n as [| n IH]; intros va; cbn [ubytes Nat.add app].
  - by rewrite Z.add_0_r.
  - rewrite IH. do 3 f_equal. lia.
Qed.

(** Inside one page, user bytes are consecutive physical bytes. *)
Lemma ubytes_page m root va n :
  0 <= va -> va mod PGSIZE + Z.of_nat n <= PGSIZE ->
  ubytes m root va n = rdbytes m (uwalk m root va + va mod PGSIZE) n.
Proof.
  revert va. induction n as [| n IH]; intros va Hva Hn; [done |]. cbn. f_equal.
  destruct n as [| n]; [done |]. rewrite IH; [| unfold PGSIZE in *; dlia..].
  rewrite (uwalk_same_page m root (va + 1) va) by (unfold PGSIZE in *; dlia).
  f_equal. unfold PGSIZE in *. dlia.
Qed.

(** The chunk of a range in the page of [va]. *)
Lemma page_chunk_facts va len :
  0 <= va < MAXVA -> 0 < len ->
  let va0 := PGROUNDDOWN va in let n := page_chunk va va0 len in
  va0 = va - va mod PGSIZE /\ 0 < n <= len /\ va - va0 = va mod PGSIZE /\ va mod PGSIZE + n <= PGSIZE /\
  (n < len -> va0 + PGSIZE = va + n) /\ u64 (va0 + PGSIZE) = va0 + PGSIZE /\ va0 / PGSIZE = va / PGSIZE.
Proof.
  intros Hva Hlen. cbv zeta. assert (MAXVA = 2 ^ 38) as HMv by reflexivity.
  rewrite PGROUNDDOWN_eq by lia. unfold page_chunk.
  rewrite u64_small by (unfold PGSIZE; dlia).
  destruct (len <? _) eqn:E; zbool; unfold PGSIZE in *; split_and!; dlia.
Qed.

Lemma copyin_loop_ok root T s : pt_ok (pm_mem s) root T -> forall fuel va len dst,
  0 <= va -> 0 <= len -> (Z.to_nat len < fuel)%nat ->
  (forall v, va <= v < va + len -> umapped (pm_mem s) root v) ->
  copyin_loop fuel root va len dst s = Ret (0, dst ++ ubytes (pm_mem s) root va (Z.to_nat len)) s.
Proof.
  intros P. induction fuel as [| fuel IH]; intros va len dst Hva Hlen Hf Hm; [lia |]. cbn [copyin_loop].
  destruct (0 <? len) eqn:E; zbool.
  2: { replace len with 0 by lia. cbn. by rewrite app_nil_r. }
  destruct (Hm va ltac:(lia)) as [HM Hu].
  destruct (page_chunk_facts va len ltac:(lia) ltac:(lia)) as (E0 & Hn & Eo & Hfit & Hnext & Eu & Epg).
  set (va0 := PGROUNDDOWN va) in *. set (n := page_chunk va va0 len) in *.
  rewrite (kbind_of _ _ _ _ _ (walkaddr_eq root T va0 s P)).
  replace (MAXVA <=? va0) with false by (unfold PGSIZE in *; dlia).
  rewrite (uwalk_same_page _ _ va0 va) by (done). rewrite (proj2 (Z.eqb_neq _ _) Hu).
  rewrite (kbind_of (kgets _) _ s _ s eq_refl). rewrite Eo, <- ubytes_page by (try lia; unfold PGSIZE in *; lia).
  rewrite Eu. destruct (decide (n = len)) as [-> | Hne].
  - rewrite Z.sub_diag. destruct fuel as [| fuel]; [lia |]. done.
  - rewrite Hnext by lia. rewrite IH; [| lia | lia | lia | intros v Hv; apply Hm; lia].
    rewrite <- app_assoc. replace (Z.to_nat len) with (Z.to_nat n + Z.to_nat (len - n))%nat by lia.
    rewrite ubytes_app, Z2Nat.id by lia. done.
Qed.

Lemma copyin_loop_fail root T s : pt_ok (pm_mem s) root T -> forall fuel va len dst v,
  0 <= va -> 0 <= len -> va + len < 2 ^ 63 -> (Z.to_nat len < fuel)%nat -> va <= v < va + len -> ~ umapped (pm_mem s) root v ->
  exists b, copyin_loop fuel root va len dst s = Ret (-1, dst ++ b) s.
Proof.
  intros P. assert (MAXVA = 2 ^ 38) as HMv by reflexivity.
  induction fuel as [| fuel IH]; intros va len dst v Hva Hlen Hb Hf Hv Hm; [lia |]. cbn [copyin_loop].
  replace (0 <? len) with true by (symmetry; apply Z.ltb_lt; lia).
  rewrite (kbind_of _ _ _ _ _ (walkaddr_eq root T _ s P)).
  destruct (MAXVA <=? PGROUNDDOWN va) eqn:EM; zbool; [exists []; by rewrite app_nil_r |].
  assert (va < MAXVA) as HM.
  { rewrite PGROUNDDOWN_eq in EM by lia. rewrite HMv in *. unfold PGSIZE in *. dlia. }
  destruct (page_chunk_facts va len ltac:(lia) ltac:(lia)) as (E0 & Hn & Eo & Hfit & Hnext & Eu & Epg).
  set (va0 := PGROUNDDOWN va) in *. set (n := page_chunk va va0 len) in *.
  rewrite (uwalk_same_page _ _ va0 va) by done.
  destruct (uwalk (pm_mem s) root va =? 0) eqn:E; zbool; [exists []; by rewrite app_nil_r |].
  rewrite (kbind_of (kgets _) _ s _ s eq_refl). rewrite Eu.
  destruct (decide (v < va + n)) as [Hvn | Hvn].
  - destruct Hm. split; [unfold PGSIZE in *; dlia |].
    by rewrite (uwalk_same_page _ _ v va) by (unfold PGSIZE in *; dlia).
  - rewrite Hnext by lia.
    edestruct (IH (va + n) (len - n)) as (b & Eb); [| | | | | exact Hm |]; try lia.
    rewrite Eb. eexists. by rewrite <- app_assoc.
Qed.
(** ** [copyout] *)

(** The pages of [lo, hi) belong to this address space alone and are mapped
    once: they are neither tables nor free. *)
Definition private (m : mem) (root : Z) (l : list Z) (T : gmap Z nat) (lo hi : Z) : Prop :=
  forall v, lo <= v < hi ->
    umapped m root v /\ page_ok (uwalk m root v) /\ uwalk m root v ∉ l /\ T !! uwalk m root v = None /\
    (forall v', 0 <= v' < MAXVA -> uwalk m root v' = uwalk m root v -> v' / PGSIZE = v / PGSIZE).

(** What [copyout] does: the user reads [src] at [va], everything else is as before. *)
Record copied (root : Z) (s : pm) (l : list Z) (T : gmap Z nat) (va : Z) (src : bytes) (s' : pm) : Prop := {
  co_inv : vm_inv s' l root T;
  co_held : pm_held s' = pm_held s;
  co_leaf : forall v, leaf (pm_mem s') root v = leaf (pm_mem s) root v;
  co_read : forall v, 0 <= v < MAXVA -> umapped (pm_mem s) root v ->
    uread (pm_mem s') root v =
      if decide (va <= v < va + Z.of_nat (length src)) then u8 (nthZ 0 src (v - va)) else uread (pm_mem s) root v;
}.

Lemma copied_nil root s l T va : vm_inv s l root T -> copied root s l T va [] s.
Proof. intros I. split; try done. intros v Hv _. by rewrite decide_False by (cbn; lia). Qed.

Lemma uwalk_leaf m m' root v : leaf m' root v = leaf m root v -> uwalk m' root v = uwalk m root v.
Proof. unfold uwalk. by intros ->. Qed.

(** One chunk, inside one page. *)
Lemma copy_chunk root s l T va src :
  vm_inv s l root T -> 0 <= va < MAXVA -> private (pm_mem s) root l T va (va + 1) ->
  va mod PGSIZE + Z.of_nat (length src) <= PGSIZE ->
  copied root s l T va src
    (Pm (pm_held s) (wrbytes (pm_mem s) (uwalk (pm_mem s) root va + va mod PGSIZE) src) (freelist s)).
Proof.
  intros [I P D Hl] Hva Hpr Hfit.
  destruct (Hpr va ltac:(lia)) as ([HM Hu] & Hpg & Hpl & HpT & Hinj).
  set (pa := uwalk (pm_mem s) root va) in *. set (m' := wrbytes _ _ _).
  assert (forall b, ld8 m' b = if decide (pa + va mod PGSIZE <= b < pa + va mod PGSIZE + Z.of_nat (length src))
    then u8 (nth (Z.to_nat (b - (pa + va mod PGSIZE))) src 0) else ld8 (pm_mem s) b) as Hld by apply ld8_wrbytes.
  assert (same_outside pa (pa + PGSIZE) (pm_mem s) m') as Hout.
  { intros b Hb. rewrite Hld, decide_False; [done |]. unfold PGSIZE in *. dlia. }
  destruct (pt_frame _ m' root T pa P Hpg HpT Hout) as (P' & _ & Hlf).
  split; cbn [pm_held pm_mem]; try done.
  { split; cbn [pm_held pm_mem]; try done. by apply (kmem_inv_frame s l pa). }
  intros v Hv [_ Hvu]. unfold uread. rewrite (uwalk_leaf _ _ _ _ (Hlf v)), Hld. destruct Hpg as [Hpal _].
  destruct (decide (v / PGSIZE = va / PGSIZE)) as [Epg | Epg].
  - rewrite (uwalk_same_page _ _ v va Epg). fold pa. unfold nthZ.
    destruct (decide (va <= v < va + Z.of_nat (length src))) as [Hin | Hin].
    + rewrite decide_True by (unfold PGSIZE in *; dlia).
      replace (v - va <? 0) with false by lia. do 2 f_equal. unfold PGSIZE in *. dlia.
    + by rewrite decide_False by (unfold PGSIZE in *; dlia).
  - rewrite (decide_False (P := va <= v < _)) by (unfold PGSIZE in *; dlia).
    rewrite decide_False; [done |]. intros Hb. apply Epg, Hinj; [done |].
    pose proof (uwalk_aligned (pm_mem s) root v) as Hal.
    unfold PGSIZE in *. dlia.
Qed.

Lemma copied_trans root s l T va a b s1 s2 :
  copied root s l T va a s1 -> copied root s1 l T (va + Z.of_nat (length a)) b s2 ->
  copied root s l T va (a ++ b) s2.
Proof.
  intros [A1 A2 A3 A4] [B1 B2 B3 B4]. split; [done | congruence | intros v; by rewrite B3, A3 |].
  intros v Hv Hm. rewrite B4, A4; [| done | done | done | split; [lia |]].
  2: { rewrite (uwalk_leaf _ _ _ _ (A3 v)). apply Hm. }
  rewrite length_app, Nat2Z.inj_add. unfold nthZ.
  destruct (decide (va + Z.of_nat (length a) <= v < _)) as [Hb | Hb].
  - rewrite (decide_True (P := va <= v < va + (_ + _))) by lia.
    replace (_ <? 0) with false by lia. replace (v - va <? 0) with false by lia.
    rewrite app_nth2 by lia. do 2 f_equal. lia.
  - destruct (decide (va <= v < va + Z.of_nat (length a))) as [Ha | Ha].
    + rewrite decide_True by lia. replace (v - va <? 0) with false by lia.
      by rewrite app_nth1 by lia.
    + by rewrite decide_False by lia.
Qed.

Lemma private_leaf m m' root l T lo hi :
  (forall v, leaf m' root v = leaf m root v) -> private m root l T lo hi -> private m' root l T lo hi.
Proof.
  intros H Hp v Hv. destruct (Hp v Hv) as ([? ?] & ? & ? & ? & Hinj). unfold umapped.
  rewrite !(uwalk_leaf _ _ _ _ (H v)). split_and!; try done.
  intros v' Hv'. rewrite (uwalk_leaf _ _ _ _ (H v')). by apply Hinj.
Qed.

Lemma copyout_loop_ok root l T : forall fuel s va src,
  vm_inv s l root T -> 0 <= va -> (length src < fuel)%nat ->
  private (pm_mem s) root l T va (va + Z.of_nat (length src)) ->
  exists s', copyout_loop fuel root va src s = Ret 0 s' /\ copied root s l T va src s'.
Proof.
  induction fuel as [| fuel IH]; intros s va src I Hva Hf Hpr; [lia |].
  destruct src as [| x src0]; cbn [copyout_loop].
  { exists s. split; [done | by apply copied_nil]. }
  set (src := x :: src0) in *. assert (0 < Z.of_nat (length src)) as Hlen by (cbn; lia).
  destruct (Hpr va ltac:(lia)) as ([HM Hu] & _).
  destruct (page_chunk_facts va (Z.of_nat (length src)) ltac:(lia) ltac:(lia)) as (E0 & Hn & Eo & Hfit & Hnext & Eu & Epg).
  set (va0 := PGROUNDDOWN va) in *. set (n := page_chunk va va0 _) in *. clearbody src.
  rewrite (kbind_of _ _ _ _ _ (walkaddr_eq root T va0 s (vi_pt _ _ _ _ I))).
  replace (MAXVA <=? va0) with false by (unfold PGSIZE in *; dlia).
  rewrite (uwalk_same_page _ _ va0 va) by done. rewrite (proj2 (Z.eqb_neq _ _) Hu).
  unfold set_mem. rewrite (kbind_of (kmod _) _ s tt _ eq_refl). rewrite Eo, Eu.
  assert (length (take (Z.to_nat n) src) = Z.to_nat n) as Ht by (rewrite length_take; lia).
  pose proof (copy_chunk root s l T va (take (Z.to_nat n) src) I ltac:(lia)
    ltac:(intros v Hv; apply Hpr; lia) ltac:(rewrite Ht; lia)) as C1.
  set (s1 := Pm _ _ _) in *. clearbody s1.
  assert (exists s', copyout_loop fuel root (va + n) (drop (Z.to_nat n) src) s1 = Ret 0 s' /\
    copied root s1 l T (va + n) (drop (Z.to_nat n) src) s') as (s' & E' & C2).
  { apply IH; [apply C1 | lia | rewrite length_drop; lia |].
    eapply private_leaf; [apply C1 |]. rewrite length_drop. intros v Hv. apply Hpr. lia. }
  exists s'. split.
  - destruct (decide (n = Z.of_nat (length src))) as [En | En].
    + rewrite drop_ge in * by lia. destruct fuel; [lia |]. cbn in E' |- *. exact E'.
    + rewrite Hnext by lia. exact E'.
  - rewrite <- (take_drop (Z.to_nat n) src). eapply copied_trans; [exact C1 |].
    rewrite Ht. by rewrite Z2Nat.id by lia.
Qed.

(** ** [copyinstr] *)

Lemma copyinstr_page_nul m p n str dst :
  Forall (fun b => b <> 0) str -> (length str < n)%nat -> rdbytes m p (length str + 1) = str ++ [0] ->
  copyinstr_page m p n dst = (true, dst ++ str ++ [0]).
Proof.
  revert p n dst. induction str as [| c str IH]; intros p n dst Hnz Hn E;
    (destruct n as [| n]; [cbn in Hn; lia |]); cbn in E |- *.
  - injection E as ->. done.
  - injection E as Ec E. inversion_clear Hnz as [| ? ? Hc Hnz']. rewrite Ec, (proj2 (Z.eqb_neq _ _) Hc).
    rewrite IH; [by rewrite <- app_assoc | done | cbn in Hn; lia | done].
Qed.

Lemma copyinstr_page_none m p n dst :
  Forall (fun b => b <> 0) (rdbytes m p n) -> copyinstr_page m p n dst = (false, dst ++ rdbytes m p n).
Proof.
  revert p dst. induction n as [| n IH]; intros p dst H; cbn in *; [by rewrite app_nil_r |].
  inversion_clear H as [| ? ? Hc H']. rewrite (proj2 (Z.eqb_neq _ _) Hc), IH by done. by rewrite <- app_assoc.
Qed.

(** One turn of the outer loop in a mapped page. *)
Lemma copyinstr_turn root T s fuel va max dst :
  pt_ok (pm_mem s) root T -> 0 <= va -> 0 < max -> umapped (pm_mem s) root va ->
  let n := page_chunk va (PGROUNDDOWN va) max in
  copyinstr_loop (S fuel) root va max dst s =
    (let '(got_null, dst) := copyinstr_page (pm_mem s) (uwalk (pm_mem s) root va + va mod PGSIZE) (Z.to_nat n) dst in
     if (got_null : bool) then kret (0, dst)
     else copyinstr_loop fuel root (if decide (n < max) then va + n else PGROUNDDOWN va + PGSIZE) (max - n) dst) s.
Proof.
  intros P Hva Hmax [HM Hu]. cbv zeta. cbn [copyinstr_loop].
  rewrite (proj2 (Z.ltb_lt _ _) Hmax).
  destruct (page_chunk_facts va max ltac:(lia) ltac:(lia)) as (E0 & Hn & Eo & Hfit & Hnext & Eu & Epg).
  rewrite (kbind_of _ _ _ _ _ (walkaddr_eq root T _ s P)).
  replace (MAXVA <=? PGROUNDDOWN va) with false by (unfold PGSIZE in *; dlia).
  rewrite (uwalk_same_page _ _ _ va) by done. rewrite (proj2 (Z.eqb_neq _ _) Hu).
  rewrite (kbind_of (kgets _) _ s _ s eq_refl), Eo, Eu.
  destruct (copyinstr_page _ _ _ _) as [[] d]; [done |].
  case_decide; [| done]. by rewrite Hnext.
Qed.

Lemma copyinstr_loop_nul root T s : pt_ok (pm_mem s) root T -> forall fuel va max str dst,
  0 <= va -> Z.of_nat (length str) < max -> (length str < fuel)%nat ->
  (forall v, va <= v <= va + Z.of_nat (length str) -> umapped (pm_mem s) root v) ->
  Forall (fun b => b <> 0) str -> ubytes (pm_mem s) root va (length str + 1) = str ++ [0] ->
  copyinstr_loop fuel root va max dst s = Ret (0, dst ++ str ++ [0]) s.
Proof.
  intros P. induction fuel as [| fuel IH]; intros va max str dst Hva Hmax Hf Hm Hnz Hstr; [lia |].
  destruct (Hm va ltac:(lia)) as [HM Hu].
  rewrite (copyinstr_turn root T s fuel va max dst P Hva ltac:(lia) (conj HM Hu)).
  destruct (page_chunk_facts va max ltac:(lia) ltac:(lia)) as (E0 & Hn & Eo & Hfit & Hnext & Eu & Epg).
  set (n := page_chunk va _ max) in *. clearbody n.
  destruct (decide (Z.of_nat (length str) < n)) as [Hin | Hin].
  - rewrite (copyinstr_page_nul _ _ _ str); [done | done | lia |].
    rewrite <- ubytes_page by lia. done.
  - replace (length str + 1)%nat with (Z.to_nat n + (length str - Z.to_nat n + 1))%nat in Hstr by lia.
    rewrite ubytes_app in Hstr.
    rewrite <- (take_drop (Z.to_nat n) str), <- app_assoc in Hstr.
    apply app_inj_1 in Hstr as [H1 H2]; [| rewrite length_ubytes, length_take; lia].
    rewrite ubytes_page in H1 by lia.
    assert (Forall (fun b => b <> 0) (take (Z.to_nat n) str)) as Hz by (by apply Forall_take).
    rewrite copyinstr_page_none, decide_True by (try lia; by rewrite H1). cbv beta iota zeta. rewrite H1.
    rewrite (IH _ _ (drop (Z.to_nat n) str)).
    + by rewrite <- app_assoc, (app_assoc (take _ _)), take_drop.
    + lia.
    + rewrite length_drop. lia.
    + rewrite length_drop. lia.
    + intros v Hv. rewrite length_drop in Hv. apply Hm. lia.
    + by apply Forall_drop.
    + rewrite length_drop. rewrite <- H2, Z2Nat.id, take_drop by lia. done.
Qed.

Lemma copyinstr_loop_none root T s : pt_ok (pm_mem s) root T -> forall fuel va max dst,
  0 <= va -> 0 <= max -> (Z.to_nat max < fuel)%nat ->
  (forall v, va <= v < va + max -> umapped (pm_mem s) root v) ->
  Forall (fun b => b <> 0) (ubytes (pm_mem s) root va (Z.to_nat max)) ->
  copyinstr_loop fuel root va max dst s = Ret (-1, dst ++ ubytes (pm_mem s) root va (Z.to_nat max)) s.
Proof.
  intros P. induction fuel as [| fuel IH]; intros va max dst Hva Hmax Hf Hm Hnz; [lia |].
  destruct (decide (max = 0)) as [-> | Hne]; [cbn; by rewrite app_nil_r |].
  destruct (Hm va ltac:(lia)) as [HM Hu].
  rewrite (copyinstr_turn root T s fuel va max dst P Hva ltac:(lia) (conj HM Hu)).
  destruct (page_chunk_facts va max ltac:(lia) ltac:(lia)) as (E0 & Hn & Eo & Hfit & Hnext & Eu & Epg).
  set (n := page_chunk va _ max) in *. clearbody n.
  replace (Z.to_nat max) with (Z.to_nat n + Z.to_nat (max - n))%nat in Hnz |- * by lia.
  rewrite ubytes_app in Hnz |- *. apply Forall_app in Hnz as [Hz1 Hz2].
  rewrite ubytes_page in Hz1 by lia. rewrite copyinstr_page_none by done. cbv beta iota zeta.
  rewrite <- ubytes_page by lia. rewrite Z2Nat.id in * by lia.
  case_decide.
  - rewrite IH; [by rewrite <- app_assoc | lia | lia | lia | intros v Hv; apply Hm; lia | done].
  - replace (max - n) with 0 by lia. destruct fuel; [lia |]. cbn. by rewrite app_nil_r.
Qed.

(** C22: [copyout] followed by [copyin] is a round trip.  Copying [src] out to
    a private, mapped user range returns 0; afterwards the user reads exactly
    [src] there and what it read before everywhere else, the page tables and
    the free list are intact, and copying the same range in gives [src]
    back. *)
Theorem copyout_copyin root s l T va src :
  vm_inv s l root T -> 0 <= va -> bytes_ok src ->
  private (pm_mem s) root l T va (va + Z.of_nat (length src)) ->
  exists s', copyout root va src s = Ret 0 s' /\ copied root s l T va src s' /\
    copyin root va (Z.of_nat (length src)) s' = Ret (0, src) s'.
Proof.
  intros I Hva Hok Hpr.
  destruct (copyout_loop_ok root l T (S (length src)) s va src I Hva ltac:(lia) Hpr) as (s' & E & C).
  exists s'. split_and!; [exact E | exact C |]. unfold copyin. rewrite Nat2Z.id.
  assert (forall v, va <= v < va + Z.of_nat (length src) -> umapped (pm_mem s') root v) as Hm.
  { intros v Hv. destruct (Hpr v Hv) as ([? ?] & _). split; [done |]. by rewrite (uwalk_leaf _ _ _ _ (co_leaf _ _ _ _ _ _ _ C v)). }
  rewrite (copyin_loop_ok root T s' (vi_pt _ _ _ _ (co_inv _ _ _ _ _ _ _ C))) by (done || lia).
  rewrite Nat2Z.id. do 2 f_equal. cbn [app].
  apply (nthZ_ext 0); [by rewrite length_ubytes |]. intros i Hi. rewrite length_ubytes in Hi.
  assert (forall n v j, 0 <= j < Z.of_nat n -> nthZ 0 (ubytes (pm_mem s') root v n) j = uread (pm_mem s') root (v + j)) as Hn.
  { clear. induction n as [| n IH]; intros v j Hj; [lia |]. cbn. unfold nthZ in *.
    replace (j <? 0) with false by lia. destruct (decide (j = 0)) as [-> | Hne]; [by rewrite Z.add_0_r |].
    replace (Z.to_nat j) with (S (Z.to_nat (j - 1))) by lia. cbn.
    specialize (IH (v + 1) (j - 1) ltac:(lia)). replace (j - 1 <? 0) with false in IH by lia.
    rewrite IH. f_equal. lia. }
  rewrite Hn by done. destruct (Hpr (va + i) ltac:(lia)) as ([HM Hu] & _).
  rewrite (co_read _ _ _ _ _ _ _ C) by (try done; lia). rewrite decide_True by lia.
  rewrite Z.add_simpl_l. apply u8_small. unfold nthZ. replace (i <? 0) with false by lia.
  apply (Forall_nth byte_ok 0 src); [done | lia].
Qed.

(** C35: [copyinstr] copies the user's string, its NUL included, when it is
    mapped and shorter than [max]; when the first [max] bytes hold no NUL it
    fails with -1 and stores at most [max] bytes.  Neither changes memory. *)
Theorem copyinstr_correct root s l T va max str :
  vm_inv s l root T -> 0 <= va -> 0 <= max -> Forall (fun b => b <> 0) str ->
  (forall v, va <= v <= va + Z.of_nat (length str) -> umapped (pm_mem s) root v) ->
  ubytes (pm_mem s) root va (length str + 1) = str ++ [0] ->
  copyinstr root va max s =
    if decide (Z.of_nat (length str) < max) then Ret (0, str ++ [0]) s
    else Ret (-1, take (Z.to_nat max) str) s.
Proof.
  intros I Hva Hmax Hnz Hm Hstr. pose proof (vi_pt _ _ _ _ I) as P. unfold copyinstr. case_decide.
  - rewrite (copyinstr_loop_nul root T s P _ va max str []); try done; lia.
  - assert (take (Z.to_nat max) str = ubytes (pm_mem s) root va (Z.to_nat max)) as Ht.
    { replace (length str + 1)%nat with (Z.to_nat max + (length str - Z.to_nat max + 1))%nat in Hstr by lia.
      rewrite ubytes_app, <- (take_drop (Z.to_nat max) str), <- app_assoc in Hstr.
      apply app_inj_1 in Hstr as [H1 _]; [by rewrite <- H1 at 1 |]. rewrite length_ubytes, length_take. lia. }
    rewrite Ht. rewrite (copyinstr_loop_none root T s P); try done; try lia.
    + intros v Hv. apply Hm. lia.
    + rewrite <- Ht. by apply Forall_take.
Qed.
End copy.

#[local] Existing Instance vm_layout.

Lemma wit_private : exists s l T, vm_inv s l wit_root T /\ private (pm_mem s) wit_root l T 0x5ffe 0x6000 /\
  ubytes (pm_mem s) wit_root 0x5ffe 1 = [0].
Proof.
  destruct wit_mapped as (s & l & T & _ & I & [_ _ D3 D4] & _ & Hp & Hl & Hz).
  assert (forall v, 0 <= v < MAXVA -> uwalk (pm_mem s) wit_root v = if decide (v / PGSIZE = 5) then wit_page else 0) as Hu.
  { intros v Hv. unfold uwalk. rewrite (Hl v Hv). by case_decide. }
  exists s, l, T. split_and!; [exact I | |].
  - intros v Hv. assert (0 <= v < MAXVA) as Hv' by (split; [lia | apply Z.lt_trans with 0x6000; [lia | reflexivity]]).
    assert (v / PGSIZE = 5) as Hpg by (clear - Hv; unfold PGSIZE; dlia). unfold umapped.
    rewrite !(Hu v Hv'), !decide_True by exact Hpg. split_and!; [apply Hv' | discriminate | exact Hp | | |].
    + apply D3. set_solver.
    + apply D4. set_solver.
    + intros v' Hv'' E'. rewrite (Hu v' Hv'') in E'. case_decide; [congruence | discriminate].
  - cbn. unfold uread. rewrite Hu by (vm_compute; split; congruence).
    rewrite decide_True by reflexivity. f_equal. apply Hz. vm_compute. split; congruence.
Qed.

Lemma copyout_copyin_witness :
  exists s l T s', private (pm_mem s) wit_root l T 0x5ffe 0x6000 /\
    copyout wit_root 0x5ffe [104; 105] s = Ret 0 s' /\ copyin wit_root 0x5ffe 2 s' = Ret (0, [104; 105]) s'.
Proof.
  destruct wit_private as (s & l & T & I & P & _).
  destruct (copyout_copyin wit_root s l T 0x5ffe [104; 105] I) as (s' & E & _ & E2);
    [lia | repeat constructor; lia | exact P |].
  exists s, l, T, s'. split; [exact P | split; [exact E | exact E2]].
Defined.

Lemma copyinstr_correct_witness :
  exists s, copyinstr wit_root 0x5ffe 128 s = Ret (0, [0]) s.
Proof.
  destruct wit_private as (s & l & T & I & P & B). exists s.
  apply (copyinstr_correct wit_root s l T 0x5ffe 128 [] I); [lia | lia | constructor | | exact B].
  intros v Hv. apply P. cbn [length] in Hv. lia.
Defined.
