(* ===== verification/Sleeplock.v ===== *)
(** * kernel/sleeplock.c: sleeping locks

    The operations act on the lock through a getter and a setter of the state
    that holds it, on the spin locks of that state, and on the record of
    [wakeup] calls.  [acquiresleep] of a lock that is taken gives up the CPU:
    it releases the spin lock and is [Asleep] on the lock's channel. *)

From S2P Require Import Prelude Riscv Spinlock.

Record sleeplock := Sleeplock { locked : Z; lk_pid : Z }.

(** States with a record of the channels [wakeup] was called on, and with a
    running process. *)
Class Waker (S : Type) := {
  woken : S -> list Z;
  add_woken : Z -> S -> S;
}.

Definition wakeup_rec {S} `{Waker S} (chan : Z) : K S unit := kmod (add_woken chan).

Section sleeplock.
Context {S : Type} `{Lens S locks} `{Waker S}.
Variable mypid : S -> Z.             (* myproc()->pid *)
Variable get : S -> sleeplock.
Variable put : sleeplock -> S -> S.
Variable lk : lockid.                (* &lk->lk *)
Variable chan : Z.                   (* lk *)

Definition initsleeplock : K S unit :=
  zoom (initlock lk) >> kmod (put (Sleeplock 0 0)).

(** After a wakeup the process is back at the test of the [while]. *)
Definition acquiresleep : K S unit :=
  zoom (acquire lk) >>
  l <- kgets get ;;
  if negb (locked l =? 0) then zoom (release lk) >> ksleep chan
  else
    pid <- kgets mypid ;;
    kmod (put (Sleeplock 1 pid)) >>
    zoom (release lk).

Definition releasesleep : K S unit :=
  zoom (acquire lk) >>
  kmod (put (Sleeplock 0 0)) >>
  wakeup_rec chan >>
  zoom (release lk).

Definition holdingsleep : K S bool :=
  zoom (acquire lk) >>
  l <- kgets get ;;
  pid <- kgets mypid ;;
  zoom (release lk) >>
  kret (negb (locked l =? 0) && (lk_pid l =? pid))%bool.
End sleeplock.
