(* ===== verification/Block.v ===== *)
(** * Little-endian fields of byte blocks

    [get32 d o] is the C read of a 32-bit field at byte offset [o] of a
    buffer, [put32 d o v] the buffer after the store; likewise for 16 bits. *)

From S2P Require Import Prelude.

(** kernel/fs.h *)
Definition BSIZE : Z := 1024.
Definition zero_block : bytes := replicate 1024 0.
#[global] Arguments zero_block : simpl never.

Fixpoint getn (d : bytes) (o : Z) (n : nat) : Z :=
  match n with
  | O => 0
  | S n => nthZ 0 d o + 256 * getn d (o + 1) n
  end.

Fixpoint putn (d : bytes) (o : Z) (n : nat) (v : Z) : bytes :=
  match n with
  | O => d
  | S n => putn (updZ d o (v mod 256)) (o + 1) n (v / 256)
  end.

Definition get16 d o := getn d o 2.
Definition put16 d o v := putn d o 2 v.
Definition get32 d o := getn d o 4.
Definition put32 d o v := putn d o 4 v.

#[global] Arguments get16 : simpl never.
#[global] Arguments put16 : simpl never.
#[global] Arguments get32 : simpl never.
#[global] Arguments put32 : simpl never.

Lemma length_putn n : forall d o v, length (putn d o n v) = length d.
Proof. induction n as [| n IH]; intros d o v; cbn; [done |]. by rewrite IH, length_updZ. Qed.

Lemma length_put32 d o v : length (put32 d o v) = length d.
Proof. apply length_putn. Qed.
Lemma length_put16 d o v : length (put16 d o v) = length d.
Proof. apply length_putn. Qed.

Lemma nthZ_putn_ne n : forall d o v i, i < o \/ o + Z.of_nat n <= i -> nthZ 0 (putn d o n v) i = nthZ 0 d i.
Proof.
  induction n as [| n IH]; intros d o v i Hi; cbn; [done |]. rewrite IH by lia. apply nthZ_updZ_ne. lia.
Qed.

Lemma getn_putn_ne n : forall k d o o' v,
  o + Z.of_nat k <= o' \/ o' + Z.of_nat n <= o -> getn (putn d o' n v) o k = getn d o k.
Proof.
  induction k as [| k IH]; intros d o o' v H; cbn; [done |]. rewrite nthZ_putn_ne, IH by lia. done.
Qed.

Lemma getn_putn_eq n : forall d o v,
  0 <= o -> o + Z.of_nat n <= Z.of_nat (length d) -> getn (putn d o n v) o n = v mod 256 ^ Z.of_nat n.
Proof.
  induction n as [| n IH]; intros d o v Ho Hl; cbn [getn putn].
  - by rewrite Z.mod_1_r.
  - rewrite nthZ_putn_ne, nthZ_updZ_eq by lia. rewrite IH by (rewrite ?length_updZ; lia).
    rewrite Nat2Z.inj_succ, Z.pow_succ_r by lia.
    rewrite (Z.rem_mul_r v 256 (256 ^ Z.of_nat n)) by lia. done.
Qed.

Lemma get32_put32_eq d o v : 0 <= o -> o + 4 <= Z.of_nat (length d) -> get32 (put32 d o v) o = u32 v.
Proof. intros. unfold get32, put32. by rewrite getn_putn_eq. Qed.

Lemma get32_put32_ne d o o' v : o + 4 <= o' \/ o' + 4 <= o -> get32 (put32 d o' v) o = get32 d o.
Proof. intros. apply getn_putn_ne. lia. Qed.

Lemma get16_put16_eq d o v : 0 <= o -> o + 2 <= Z.of_nat (length d) -> get16 (put16 d o v) o = u16 v.
Proof. intros. unfold get16, put16. by rewrite getn_putn_eq. Qed.

Lemma get16_put16_ne d o o' v : o + 2 <= o' \/ o' + 2 <= o -> get16 (put16 d o' v) o = get16 d o.
Proof. intros. apply getn_putn_ne. lia. Qed.

(** Two buffers that agree on a field's bytes agree on the field. *)
Lemma getn_ext n : forall d d' o, (forall i, o <= i < o + Z.of_nat n -> nthZ 0 d i = nthZ 0 d' i) -> getn d o n = getn d' o n.
Proof.
  induction n as [| n IH]; intros d d' o H; cbn; [done |]. rewrite (H o) by lia. f_equal. f_equal. apply IH.
  intros i Hi. apply H. lia.
Qed.
