(* ===== verification/Bio.v ===== *)
(** * kernel/bio.c: the buffer cache

    The cache is the array [bcache.buf] and the list head [bcache.head], a
    [struct buf] too: [bufs] has NBUF + 1 entries and the head is entry NBUF.
    [prev] and [next] are indices into it.  The disk is a map from block
    numbers to blocks; [hist] records the writes that reached it, in order,
    so that a crash can be taken between any two of them. *)

From S2P Require Import Prelude Riscv Spinlock Sleeplock Block.

Record buf := Buf {
  valid : Z;
  dev : Z;
  blockno : Z;
  block_lock : sleeplock;
  refcnt : Z;
  prev : Z;
  next : Z;
  data : bytes;
}.

Record bst := Bst {
  bs_held : locks;
  bs_woken : list Z;
  bs_pid : Z;
  bufs : list buf;
  disk : gmap Z bytes;
  hist : list (Z * bytes);
}.

#[export] Instance bst_locks : Lens bst locks.
Proof.
  refine {| lget := bs_held;
    lset h s := Bst h (bs_woken s) (bs_pid s) (bufs s) (disk s) (hist s) |}; by try intros [].
Defined.

#[export] Instance bst_waker : Waker bst := {|
  woken := bs_woken;
  add_woken c s := Bst (bs_held s) (c :: bs_woken s) (bs_pid s) (bufs s) (disk s) (hist s) |}.

Definition HEAD : Z := NBUF.
Definition buf0 : buf := Buf 0 0 0 (Sleeplock 0 0) 0 0 0 zero_block.

Definition bf (s : bst) (i : Z) : buf := nthZ buf0 (bufs s) i.
Definition set_bufs (l : list buf) (s : bst) : bst :=
  Bst (bs_held s) (bs_woken s) (bs_pid s) l (disk s) (hist s).
(** Update of one buffer. *)
Definition upd_buf (i : Z) (f : buf -> buf) : K bst unit :=
  kmod (fun s => set_bufs (updZ (bufs s) i (f (bf s i))) s).

Definition set_prev (p : Z) (b : buf) : buf :=
  Buf (valid b) (dev b) (blockno b) (block_lock b) (refcnt b) p (next b) (data b).
Definition set_next (n : Z) (b : buf) : buf :=
  Buf (valid b) (dev b) (blockno b) (block_lock b) (refcnt b) (prev b) n (data b).
Definition set_refcnt (r : Z) (b : buf) : buf :=
  Buf (valid b) (dev b) (blockno b) (block_lock b) r (prev b) (next b) (data b).
Definition set_lock (l : sleeplock) (b : buf) : buf :=
  Buf (valid b) (dev b) (blockno b) l (refcnt b) (prev b) (next b) (data b).
Definition set_valid (v : Z) (b : buf) : buf :=
  Buf v (dev b) (blockno b) (block_lock b) (refcnt b) (prev b) (next b) (data b).
Definition set_data (d : bytes) (b : buf) : buf :=
  Buf (valid b) (dev b) (blockno b) (block_lock b) (refcnt b) (prev b) (next b) d.

Definition bcache_lock : lockid := ("bcache", 0).
Definition buf_lock (i : Z) : lockid := ("sleep lock", i).

Definition buf_put (i : Z) (l : sleeplock) (s : bst) : bst :=
  set_bufs (updZ (bufs s) i (set_lock l (bf s i))) s.

(** The sleep lock [b->lock] of buffer [i]. *)
Definition b_acquiresleep (i : Z) : K bst unit :=
  acquiresleep bs_pid (fun s => block_lock (bf s i)) (buf_put i) (buf_lock i) i.
Definition b_releasesleep (i : Z) : K bst unit :=
  releasesleep (buf_put i) (buf_lock i) i.
Definition b_holdingsleep (i : Z) : K bst bool :=
  holdingsleep bs_pid (fun s => block_lock (bf s i)) (buf_lock i).

(** What [virtio_disk_rw] promises: the block moves between buffer and disk.
    A block write is atomic. *)
Definition virtio_disk_rw (i : Z) (write : bool) : K bst unit :=
  s <- kget ;;
  let b := bf s i in
  if write then
    kmod (fun s => Bst (bs_held s) (bs_woken s) (bs_pid s) (bufs s)
      (<[blockno b := data b]> (disk s)) (hist s ++ [(blockno b, data b)]))
  else upd_buf i (set_data (default zero_block (disk s !! blockno b))).

(** [b->next = head.next; b->prev = &head; head.next->prev = b; head.next = b;] *)
Definition insert_front (i : Z) : K bst unit :=
  h <- kgets (fun s => next (bf s HEAD)) ;;
  upd_buf i (set_next h) >>
  upd_buf i (set_prev HEAD) >>
  h <- kgets (fun s => next (bf s HEAD)) ;;
  upd_buf h (set_prev i) >>
  upd_buf HEAD (set_next i).

(** [for(b = bcache.buf; b < bcache.buf+NBUF; b++)] *)
Fixpoint binit_loop (n : nat) (i : Z) : K bst unit :=
  match n with
  | O => kret tt
  | S n =>
      h <- kgets (fun s => next (bf s HEAD)) ;;
      upd_buf i (set_next h) >>
      upd_buf i (set_prev HEAD) >>
      initsleeplock (buf_put i) (buf_lock i) >>
      h <- kgets (fun s => next (bf s HEAD)) ;;
      upd_buf h (set_prev i) >>
      upd_buf HEAD (set_next i) >>
      binit_loop n (i + 1)
  end.

Definition binit : K bst unit :=
  zoom (initlock bcache_lock) >>
  upd_buf HEAD (set_prev HEAD) >>
  upd_buf HEAD (set_next HEAD) >>
  binit_loop (Z.to_nat NBUF) 0.

(** The first loop of [bget], along [next]; [None] when it reaches the head. *)
Fixpoint bget_cached (fuel : nat) (s : bst) (b d blk : Z) : option (option Z) :=
  match fuel with
  | O => None
  | S fuel =>
      if b =? HEAD then Some None
      else if ((dev (bf s b) =? d) && (blockno (bf s b) =? blk))%bool then Some (Some b)
      else bget_cached fuel s (next (bf s b)) d blk
  end.

(** The second loop of [bget], along [prev]. *)
Fixpoint bget_unused (fuel : nat) (s : bst) (b : Z) : option (option Z) :=
  match fuel with
  | O => None
  | S fuel =>
      if b =? HEAD then Some None
      else if refcnt (bf s b) =? 0 then Some (Some b)
      else bget_unused fuel s (prev (bf s b))
  end.

(** The list has NBUF entries: NBUF + 1 turns reach its head again. *)
Definition bget_fuel : nat := S (Z.to_nat NBUF).

Definition bget (d blk : Z) : K bst Z :=
  zoom (acquire bcache_lock) >>
  s <- kget ;;
  match bget_cached bget_fuel s (next (bf s HEAD)) d blk with
  | None => kfuel
  | Some (Some b) =>
      upd_buf b (set_refcnt (u32 (refcnt (bf s b) + 1))) >>
      zoom (release bcache_lock) >>
      b_acquiresleep b >>
      kret b
  | Some None =>
      match bget_unused bget_fuel s (prev (bf s HEAD)) with
      | None => kfuel
      | Some (Some b) =>
          upd_buf b (fun x => Buf 0 d blk (block_lock x) 1 (prev x) (next x) (data x)) >>
          zoom (release bcache_lock) >>
          b_acquiresleep b >>
          kret b
      | Some None => kpanic "bget: no buffers"
      end
  end.

Definition bread (d blk : Z) : K bst Z :=
  b <- bget d blk ;;
  v <- kgets (fun s => valid (bf s b)) ;;
  kwhen (v =? 0) (virtio_disk_rw b false >> upd_buf b (set_valid 1)) >>
  kret b.

Definition bwrite (b : Z) : K bst unit :=
  h <- b_holdingsleep b ;;
  if negb h then kpanic "bwrite" else virtio_disk_rw b true.

Definition brelse (b : Z) : K bst unit :=
  h <- b_holdingsleep b ;;
  if negb h then kpanic "brelse" else
  b_releasesleep b >>
  zoom (acquire bcache_lock) >>
  r <- kgets (fun s => refcnt (bf s b)) ;;
  upd_buf b (set_refcnt (u32 (r - 1))) >>
  r <- kgets (fun s => refcnt (bf s b)) ;;
  kwhen (r =? 0)
    (n <- kgets (fun s => next (bf s b)) ;;
     p <- kgets (fun s => prev (bf s b)) ;;
     upd_buf n (set_prev p) >>
     upd_buf p (set_next n) >>
     insert_front b) >>
  zoom (release bcache_lock).

Definition bpin (b : Z) : K bst unit :=
  zoom (acquire bcache_lock) >>
  r <- kgets (fun s => refcnt (bf s b)) ;;
  upd_buf b (set_refcnt (u32 (r + 1))) >>
  zoom (release bcache_lock).

Definition bunpin (b : Z) : K bst unit :=
  zoom (acquire bcache_lock) >>
  r <- kgets (fun s => refcnt (bf s b)) ;;
  upd_buf b (set_refcnt (u32 (r - 1))) >>
  zoom (release bcache_lock).

(** The zeroed static data at boot, on a disk with contents [d]. *)
Definition boot_bst (pid : Z) (d : gmap Z bytes) : bst :=
  Bst ∅ [] pid (replicate (Z.to_nat NBUF + 1) buf0) d [].
