(* ===== verification/BufCache.v ===== *)
(** * The interface of the buffer cache

    What the log and the file system may assume of bread/bwrite/brelse and
    the rest, for one device (ROOTDEV).  [bview] is the abstract state: the
    contents of every block as the kernel sees it ([v_look]) and as the disk
    has it ([v_disk]), the writes that reached the disk ([v_hist]), the
    buffers this process has locked ([v_own], buffer to block number) and the
    pinned blocks ([v_pin]).  A block that is neither locked nor pinned is
    clean. *)

From S2P Require Import Prelude Riscv Block.

Record bview := View {
  v_look : Z -> bytes;
  v_disk : Z -> bytes;
  v_hist : list (Z * bytes);
  v_own : gmap Z Z;
  v_pin : gset Z;
}.

Definition bupd (f : Z -> bytes) (k : Z) (d : bytes) : Z -> bytes :=
  fun j => if decide (j = k) then d else f j.

Lemma bupd_eq f k d : bupd f k d k = d.
Proof. unfold bupd. by rewrite decide_True. Qed.

Lemma bupd_ne f k d j : j <> k -> bupd f k d j = f j.
Proof. intros. unfold bupd. by rewrite decide_False. Qed.

Definition v_get (b bno : Z) (v : bview) : bview :=
  View (v_look v) (v_disk v) (v_hist v) (<[b := bno]> (v_own v)) (v_pin v).
Definition v_put (b : Z) (v : bview) : bview :=
  View (v_look v) (v_disk v) (v_hist v) (delete b (v_own v)) (v_pin v).
Definition v_store (bno : Z) (d : bytes) (v : bview) : bview :=
  View (bupd (v_look v) bno d) (v_disk v) (v_hist v) (v_own v) (v_pin v).
Definition v_write (bno : Z) (v : bview) : bview :=
  View (v_look v) (bupd (v_disk v) bno (v_look v bno)) (v_hist v ++ [(bno, v_look v bno)]) (v_own v) (v_pin v).
Definition v_pinned (p : gset Z) (v : bview) : bview :=
  View (v_look v) (v_disk v) (v_hist v) (v_own v) p.

(** A buffer can be had for [bno]: it is cached, or one is unused. *)
Definition room (v : bview) (bno : Z) : Prop :=
  bno ∈ v_pin v \/ Z.of_nat (size (v_pin v ∪ map_img (v_own v))) < NBUF.

Definition free_block (v : bview) (bno : Z) : Prop := forall b, v_own v !! b <> Some bno.

Class BufCache (S : Type) := {
  bread : Z -> Z -> K S Z;
  bwrite : Z -> K S unit;
  brelse : Z -> K S unit;
  bpin : Z -> K S unit;
  bunpin : Z -> K S unit;
  b_data : S -> Z -> bytes;          (* b->data *)
  b_blockno : S -> Z -> Z;           (* b->blockno *)
  b_store : Z -> bytes -> K S unit;  (* memmove(b->data, d, ...) *)
  b_boot : gmap Z bytes -> S;        (* after a restart and binit *)

  bsim : S -> bview -> Prop;
  bread_law : forall s v bno, bsim s v -> 0 <= bno < 2 ^ 32 -> free_block v bno -> room v bno ->
    exists b s', bread ROOTDEV bno s = Ret b s' /\ v_own v !! b = None /\ bsim s' (v_get b bno v);
  data_law : forall s v b bno, bsim s v -> v_own v !! b = Some bno ->
    b_data s b = v_look v bno /\ b_blockno s b = bno;
  store_law : forall s v b bno d, bsim s v -> v_own v !! b = Some bno ->
    exists s', b_store b d s = Ret tt s' /\ bsim s' (v_store bno d v);
  bwrite_law : forall s v b bno, bsim s v -> v_own v !! b = Some bno ->
    exists s', bwrite b s = Ret tt s' /\ bsim s' (v_write bno v);
  brelse_law : forall s v b bno, bsim s v -> v_own v !! b = Some bno ->
    bno ∈ v_pin v \/ v_look v bno = v_disk v bno ->
    exists s', brelse b s = Ret tt s' /\ bsim s' (v_put b v);
  bpin_law : forall s v b bno, bsim s v -> v_own v !! b = Some bno -> bno ∉ v_pin v ->
    exists s', bpin b s = Ret tt s' /\ bsim s' (v_pinned ({[bno]} ∪ v_pin v) v);
  bunpin_law : forall s v b bno, bsim s v -> v_own v !! b = Some bno -> bno ∈ v_pin v ->
    exists s', bunpin b s = Ret tt s' /\ bsim s' (v_pinned (v_pin v ∖ {[bno]}) v);
  boot_law : forall d, let f bno := default zero_block (d !! bno) in
    bsim (b_boot d) (View f f [] ∅ ∅);
}.
