(* ===== verification/BioProofs.v ===== *)
(** * The buffer cache keeps its promises

    The doubly linked list of bcache is a permutation of the buffers, most
    recently used first; no block of a device has two buffers; a buffer that
    is not in use holds what the disk holds, so that recycling it loses
    nothing.  With this invariant bio.c implements the interface of
    BufCache.v (the instance at the end). *)

From S2P Require Import Prelude Riscv Spinlock Sleeplock Block BufCache.
From S2P Require Bio.
Import Bio.

(** ** Linked lists as index functions *)

Definition fset (f : Z -> Z) (k v : Z) : Z -> Z := fun j => if decide (j = k) then v else f j.

(** From [x], [f] visits [l] and then [y]. *)
Fixpoint seg (f : Z -> Z) (x : Z) (l : list Z) (y : Z) : Prop :=
  match l with
  | [] => f x = y
  | z :: l => f x = z /\ seg f z l y
  end.

Lemma seg_ext f g x l y : (forall j, j ∈ x :: l -> f j = g j) -> seg f x l y -> seg g x l y.
Proof.
  revert x. induction l as [| z l IH]; intros x H; cbn.
  - intros <-. symmetry. apply H. set_solver.
  - intros [<- Hp]. split; [symmetry; apply H; set_solver |]. apply IH; [| done]. set_solver.
Qed.

Lemma seg_app f x l1 b l2 y : seg f x (l1 ++ b :: l2) y <-> seg f x l1 b /\ seg f b l2 y.
Proof.
  revert x. induction l1 as [| z l1 IH]; intros x; cbn; [tauto |]. rewrite IH. tauto.
Qed.

Lemma seg_first f x l y : seg f x l y -> f x = List.hd y l.
Proof. by destruct l; [| intros []]. Qed.

Lemma last_cons (x z : Z) l : List.last (z :: l) x = List.last l z.
Proof. revert x z. induction l as [| w l IH]; intros x z; [done |]. cbn in *. by rewrite (IH x w), (IH z w). Qed.

Lemma last_in (x : Z) l : List.last l x ∈ x :: l.
Proof. revert x. induction l as [| w l IH]; intros x; [by left |]. rewrite last_cons. right. apply IH. Qed.

(** Redirect the last step. *)
Lemma seg_retarget f x l y y' :
  NoDup (x :: l) -> seg f x l y -> seg (fset f (List.last l x) y') x l y'.
Proof.
  revert x. induction l as [| z l IH]; intros x Hnd H.
  - cbn. unfold fset. by rewrite decide_True.
  - destruct H as [Hx Hs]. inversion_clear Hnd as [| ? ? Hn Hnd']. rewrite last_cons.
    split; [| by apply IH]. unfold fset. rewrite decide_False; [done |].
    intros ->. apply Hn, last_in.
Qed.

Lemma NoDup_rev (l : list Z) : NoDup l -> NoDup (reverse l).
Proof. intros H. by rewrite (reverse_Permutation l). Qed.

Lemma last_reverse (x : Z) l : List.last (reverse l) x = List.hd x l.
Proof. destruct l as [| y l]; [done |]. rewrite reverse_cons. apply last_last. Qed.

Lemma hd_reverse (x : Z) l : List.hd x (reverse l) = List.last l x.
Proof. rewrite <- (reverse_involutive l) at 2. by rewrite last_reverse. Qed.

Lemma seg_unlink f x l1 b l2 :
  NoDup (x :: l1 ++ b :: l2) -> seg f x (l1 ++ b :: l2) HEAD ->
  seg (fset f (List.last l1 x) (f b)) x (l1 ++ l2) HEAD.
Proof.
  intros Hnd [H1 H2]%seg_app.
  assert (NoDup (x :: l1) /\ forall j, j ∈ b :: l2 -> j ∉ x :: l1) as [Hnd1 Hd].
  { change (x :: l1 ++ b :: l2) with ((x :: l1) ++ b :: l2) in Hnd.
    apply NoDup_app in Hnd as (? & Hn & _). split; [done |]. intros j Hj Hj'. by apply (Hn j Hj'). }
  pose proof (seg_retarget f x l1 b (f b) Hnd1 H1) as H1'. pose proof (last_in x l1) as Hl.
  destruct l2 as [| c l2]; [cbn in H2; rewrite H2 in *; by rewrite app_nil_r |].
  destruct H2 as [Hc H2]. rewrite Hc in *. apply seg_app. split; [done |].
  eapply seg_ext; [| exact H2]. intros j Hj. unfold fset. rewrite decide_False; [done |].
  intros ->. apply (Hd (List.last l1 x)); [by right | done].
Qed.

Lemma seg_insert_front f l b :
  b ∉ HEAD :: l -> NoDup (HEAD :: l) -> seg f HEAD l HEAD -> seg (fset (fset f b (f HEAD)) HEAD b) HEAD (b :: l) HEAD.
Proof.
  intros Hb Hnd H. split; [unfold fset; by rewrite decide_True |].
  inversion_clear Hnd as [| ? ? Hn Hnd'].
  assert (b <> HEAD) by set_solver.
  destruct l as [| c l]; cbn in H |- *.
  - unfold fset. by rewrite decide_False, decide_True.
  - destruct H as [Hc H]. split; [unfold fset; by rewrite decide_False, decide_True|].
    eapply seg_ext; [| exact H]. intros j Hj. unfold fset. rewrite !decide_False; [done | set_solver..].
Qed.

Lemma seg_insert_end f l b :
  b ∉ HEAD :: l -> NoDup (HEAD :: l) -> seg f HEAD l HEAD ->
  seg (fset (fset f b HEAD) (List.last l HEAD) b) HEAD (l ++ [b]) HEAD.
Proof.
  intros Hb Hnd H. pose proof (last_in HEAD l) as Hl. apply seg_app. split.
  - eapply seg_retarget; [done |]. eapply seg_ext; [| exact H].
    intros j Hj. unfold fset. rewrite decide_False; [done | set_solver].
  - cbn. unfold fset. rewrite decide_False by set_solver. by rewrite decide_True.
Qed.

(** ** The representation *)

Definition ring (s : bst) (l : list Z) : Prop :=
  seg (fun i => next (bf s i)) HEAD l HEAD /\ seg (fun i => prev (bf s i)) HEAD (reverse l) HEAD /\
  NoDup l /\ forall i, i ∈ l <-> 0 <= i < NBUF.

Definition pinned (v : bview) (bno : Z) : Z := if decide (bno ∈ v_pin v) then 1 else 0.

(** Buffer [i], locked by this process or not. *)
Definition buf_ok (pid : Z) (v : bview) (b : buf) (o : option Z) : Prop :=
  match o with
  | Some bno => dev b = ROOTDEV /\ blockno b = bno /\ valid b <> 0 /\ block_lock b = Sleeplock 1 pid /\
      refcnt b = 1 + pinned v bno /\ data b = v_look v bno
  | None => locked (block_lock b) = 0 /\
      refcnt b = (if decide (dev b = ROOTDEV) then pinned v (blockno b) else 0) /\
      (dev b = ROOTDEV -> (valid b <> 0 -> data b = v_look v (blockno b)) /\
        (blockno b ∈ v_pin v -> valid b <> 0))
  end.

Record brep (s : bst) (v : bview) : Prop := {
  br_len : length (bufs s) = 31%nat;
  br_cl : bcache_lock ∉ bs_held s;
  br_bl : forall i, buf_lock i ∉ bs_held s;
  br_ring : exists l, ring s l;
  br_own : forall i bno, v_own v !! i = Some bno -> 0 <= i < NBUF;
  br_buf : forall i, 0 <= i < NBUF -> buf_ok (bs_pid s) v (bf s i) (v_own v !! i);
  br_uniq : forall i j, 0 <= i < NBUF -> 0 <= j < NBUF -> dev (bf s i) = ROOTDEV -> dev (bf s j) = ROOTDEV ->
    blockno (bf s i) = blockno (bf s j) -> i = j;
  br_pin : forall bno, bno ∈ v_pin v -> exists i, 0 <= i < NBUF /\ dev (bf s i) = ROOTDEV /\ blockno (bf s i) = bno;
  br_clean : forall bno, bno ∉ v_pin v -> free_block v bno -> v_look v bno = v_disk v bno;
  br_disk : forall bno, v_disk v bno = default zero_block (disk s !! bno);
  br_hist : hist s = v_hist v;
}.

(** *** Stores into buffers *)

Lemma bf_upd s i x j :
  length (bufs s) = 31%nat -> 0 <= i <= NBUF ->
  bf (set_bufs (updZ (bufs s) i x) s) j = if decide (j = i) then x else bf s j.
Proof.
  intros Hlen Hi. unfold bf, set_bufs. cbn [bufs]. change NBUF with 30 in Hi.
  rewrite nthZ_updZ by lia. case_decide; [subst; by rewrite Z.eqb_refl | by rewrite (proj2 (Z.eqb_neq _ _))].
Qed.

Lemma upd_buf_ok s i f :
  upd_buf i f s = Ret tt (set_bufs (updZ (bufs s) i (f (bf s i))) s).
Proof. done. Qed.

(** The lists only read [next] and [prev]. *)
Lemma ring_ext s s' l :
  (forall j, next (bf s' j) = next (bf s j)) -> (forall j, prev (bf s' j) = prev (bf s j)) -> ring s l -> ring s' l.
Proof.
  intros Hn Hp (H1 & H2 & H3 & H4). split_and!; try done; (eapply seg_ext; [| eassumption]); intros j _; by cbn.
Qed.

Lemma bget_cached_find s d blk l : forall fuel x,
  seg (fun i => next (bf s i)) x l HEAD -> HEAD ∉ l -> (length l < fuel)%nat ->
  bget_cached fuel s (next (bf s x)) d blk =
    Some (List.find (fun b => (dev (bf s b) =? d) && (blockno (bf s b) =? blk))%bool l).
Proof.
  induction l as [| y l IH]; intros fuel x Hs Hh Hf; (destruct fuel as [| fuel]; [cbn in Hf; lia |]); cbn in *.
  - by rewrite Hs, Z.eqb_refl.
  - destruct Hs as [-> Hs]. rewrite (proj2 (Z.eqb_neq y HEAD)) by set_solver.
    destruct (_ && _)%bool; [done |]. apply IH; [done | set_solver | lia].
Qed.

Lemma bget_unused_find s l : forall fuel x,
  seg (fun i => prev (bf s i)) x l HEAD -> HEAD ∉ l -> (length l < fuel)%nat ->
  bget_unused fuel s (prev (bf s x)) = Some (List.find (fun b => refcnt (bf s b) =? 0) l).
Proof.
  induction l as [| y l IH]; intros fuel x Hs Hh Hf; (destruct fuel as [| fuel]; [cbn in Hf; lia |]); cbn in *.
  - by rewrite Hs, Z.eqb_refl.
  - destruct Hs as [-> Hs]. rewrite (proj2 (Z.eqb_neq y HEAD)) by set_solver.
    destruct (_ =? 0); [done |]. apply IH; [done | set_solver | lia].
Qed.

Lemma ring_length s l : ring s l -> length l = 30%nat.
Proof.
  intros (_ & _ & Hnd & Hin).
  assert (l ≡ₚ map Z.of_nat (seq 0 30)) as ->; [| done].
  apply NoDup_Permutation; [done | by apply (bool_decide_unpack _); vm_compute |].
  intros i. rewrite Hin. change NBUF with 30. rewrite list_elem_of_fmap. split.
  - intros Hi. exists (Z.to_nat i). rewrite elem_of_seq. lia.
  - intros (n & -> & Hn%elem_of_seq). lia.
Qed.

(** *** Sleep locks of buffers *)

Lemma b_acquiresleep_ok s i :
  buf_lock i ∉ bs_held s -> locked (block_lock (bf s i)) = 0 ->
  b_acquiresleep i s = Ret tt (buf_put i (Sleeplock 1 (bs_pid s)) s).
Proof.
  intros Hl H0. unfold b_acquiresleep, acquiresleep.
  erewrite kbind_of by (apply zoom_acquire; done). kred. cbn [bf bufs lset bst_locks].
  unfold bf in H0 |- *. cbn [bufs]. rewrite H0. cbn [Z.eqb negb].
  erewrite zoom_release; [reflexivity | exact Hl | done].
Qed.

Lemma b_releasesleep_ok s i :
  buf_lock i ∉ bs_held s -> b_releasesleep i s = Ret tt (add_woken i (buf_put i (Sleeplock 0 0) s)).
Proof.
  intros Hl. unfold b_releasesleep, releasesleep, wakeup_rec.
  erewrite kbind_of by (apply zoom_acquire; done). kred.
  erewrite zoom_release; [reflexivity | exact Hl | done].
Qed.

Lemma b_holdingsleep_ok s i :
  buf_lock i ∉ bs_held s -> block_lock (bf s i) = Sleeplock 1 (bs_pid s) ->
  b_holdingsleep i s = Ret true s.
Proof.
  intros Hl H0. unfold b_holdingsleep, holdingsleep.
  erewrite kbind_of by (apply zoom_acquire; done). kred.
  erewrite zoom_release; [| exact Hl | done]. unfold bf in *. cbn [bufs lset lget bst_locks bs_pid].
  rewrite H0. cbn [locked lk_pid]. rewrite Z.eqb_refl. by destruct s.
Qed.

(** Everything but the buffers. *)
Definition same_env (s s' : bst) : Prop :=
  bs_held s' = bs_held s /\ bs_pid s' = bs_pid s /\ disk s' = disk s /\ hist s' = hist s /\
  length (bufs s') = length (bufs s).

Lemma same_env_trans s s1 s2 : same_env s s1 -> same_env s1 s2 -> same_env s s2.
Proof. unfold same_env. intuition congruence. Qed.

(** The buffer [b], now locked, is the buffer of block [bno]. *)
Record got (s : bst) (v : bview) (bno b : Z) (s' : bst) : Prop := {
  g_range : 0 <= b < NBUF;
  g_free : v_own v !! b = None;
  g_env : same_env s s';
  g_links : forall j, next (bf s' j) = next (bf s j) /\ prev (bf s' j) = prev (bf s j);
  g_other : forall j, j <> b -> bf s' j = bf s j;
  g_id : dev (bf s' b) = ROOTDEV /\ blockno (bf s' b) = bno;
  g_lock : block_lock (bf s' b) = Sleeplock 1 (bs_pid s);
  g_ref : refcnt (bf s' b) = 1 + pinned v bno;
  g_data : (valid (bf s' b) <> 0 -> data (bf s' b) = v_look v bno) /\ (bno ∈ v_pin v -> valid (bf s' b) <> 0);
  g_uniq : forall j, 0 <= j < NBUF -> j <> b -> dev (bf s j) = ROOTDEV -> blockno (bf s j) <> bno;
  g_old : dev (bf s b) = ROOTDEV -> blockno (bf s b) <> bno -> blockno (bf s b) ∉ v_pin v;
}.

(** With a buffer to spare there is one with refcnt 0. *)
Lemma unused_exists s v :
  brep s v -> Z.of_nat (size (v_pin v ∪ map_img (v_own v))) < NBUF -> exists i, 0 <= i < NBUF /\ refcnt (bf s i) = 0.
Proof.
  intros R Hs. destruct (br_ring _ _ R) as (l & Hl). pose proof (ring_length s l Hl) as Hlen.
  destruct (decide (Exists (fun i => refcnt (bf s i) = 0) l)) as [He | He].
  { apply Exists_exists in He as (i & Hi & H0). exists i. split; [by apply Hl | done]. }
  exfalso. set (bs := map (fun i => blockno (bf s i)) l).
  assert (forall i, i ∈ l -> dev (bf s i) = ROOTDEV /\ blockno (bf s i) ∈ v_pin v ∪ map_img (SA := gset Z) (v_own v)) as Hin.
  { intros i Hi. assert (refcnt (bf s i) <> 0) as Hr.
    { intros H0. apply He, Exists_exists. eauto. }
    apply Hl in Hi. pose proof (br_buf _ _ R i Hi) as Hb. unfold buf_ok in Hb.
    destruct (v_own v !! i) as [bno |] eqn:Eo.
    - destruct Hb as (? & -> & _). split; [done |]. apply elem_of_union_r, elem_of_map_img. eauto.
    - destruct Hb as (_ & Hrc & _). unfold pinned in Hrc. repeat case_decide; try lia. set_solver. }
  assert (NoDup bs) as Hnd.
  { apply NoDup_fmap_2_strong; [| apply Hl]. intros i j Hi Hj E.
    apply (br_uniq _ _ R); [by apply Hl | by apply Hl | by apply Hin | by apply Hin | done]. }
  assert (size (list_to_set bs : gset Z) <= size (v_pin v ∪ map_img (v_own v)))%nat as Hle.
  { apply subseteq_size. intros x. rewrite elem_of_list_to_set. intros (i & -> & Hi)%list_elem_of_fmap. by apply Hin. }
  rewrite size_list_to_set in Hle by done. unfold bs in Hle. rewrite length_map, Hlen in Hle.
  change NBUF with 30 in Hs. lia.
Qed.

(** Taking buffer [b] with contents [x], then its sleep lock. *)
Lemma take_buf s v b x :
  brep s v -> 0 <= b < NBUF -> locked (block_lock x) = 0 -> next x = next (bf s b) -> prev x = prev (bf s b) ->
  exists s', (upd_buf b (fun _ => x) >> zoom (release bcache_lock) >> b_acquiresleep b >> kret b)
      (lset ({[bcache_lock]} ∪ lget s) s) = Ret b s' /\ same_env s s' /\
    (forall j, bf s' j = if decide (j = b) then set_lock (Sleeplock 1 (bs_pid s)) x else bf s j) /\
    (forall j, next (bf s' j) = next (bf s j) /\ prev (bf s' j) = prev (bf s j)).
Proof.
  intros R Hb H0 Hn Hp. pose proof (br_len _ _ R) as Hlen. pose proof (br_cl _ _ R) as Hcl.
  rewrite (kbind_of _ _ _ _ _ (upd_buf_ok _ _ _)).
  erewrite kbind_of by (apply zoom_release; [exact Hcl | done]).
  set (s1 := lset _ _).
  assert (forall j, bf s1 j = if decide (j = b) then x else bf s j) as Hb1.
  { intros j. apply (bf_upd s b x j Hlen). lia. }
  assert (length (bufs s1) = 31%nat) as Hlen1 by (cbn; by rewrite length_updZ).
  rewrite (kbind_of _ _ _ _ _ (b_acquiresleep_ok s1 b (br_bl _ _ R b) ltac:(rewrite Hb1, decide_True by done; done))).
  eexists. split; [reflexivity |].
  assert (forall j, bf (buf_put b (Sleeplock 1 (bs_pid s1)) s1) j =
     if decide (j = b) then set_lock (Sleeplock 1 (bs_pid s)) x else bf s j) as Hb2.
  { intros j. unfold buf_put. rewrite bf_upd, !Hb1 by (done || lia). case_decide; [| done].
    by rewrite decide_True by done. }
  split_and!; [split_and!; try done; cbn; by rewrite !length_updZ | exact Hb2 |].
  intros j. rewrite Hb2. case_decide; [subst; cbn; done | done].
Qed.

Lemma upd_buf_const (f : buf -> buf) b s {A} (k : unit -> K bst A) :
  kbind (upd_buf b f) k s = kbind (upd_buf b (fun _ => f (bf s b))) k s.
Proof. done. Qed.

Lemma bget_ok s v bno :
  brep s v -> free_block v bno -> room v bno ->
  exists b s', bget ROOTDEV bno s = Ret b s' /\ got s v bno b s'.
Proof.
  intros R Hf Hroom. destruct (br_ring _ _ R) as (l & Hl). pose proof Hl as (Hn & Hp & Hnd & Hin).
  pose proof (ring_length s l Hl) as Hlen.
  assert (HEAD ∉ l) as Hh by (rewrite Hin; unfold HEAD; lia).
  unfold bget. erewrite kbind_of by (apply zoom_acquire; apply R).
  rewrite (kbind_of kget _ _ _ _ eq_refl). set (s1 := lset _ _).
  change (next (bf s1 HEAD)) with (next (bf s HEAD)). change (prev (bf s1 HEAD)) with (prev (bf s HEAD)).
  assert (forall fuel x, bget_cached fuel s1 x ROOTDEV bno = bget_cached fuel s x ROOTDEV bno) as ->.
  { induction fuel as [| fuel IH]; intros x; [done |]. cbn [bget_cached]. by rewrite <- IH. }
  assert (forall fuel x, bget_unused fuel s1 x = bget_unused fuel s x) as ->.
  { induction fuel as [| fuel IH]; intros x; [done |]. cbn [bget_unused]. by rewrite <- IH. }
  rewrite (bget_cached_find s ROOTDEV bno l) by (try done; rewrite Hlen; vm_compute; lia).
  destruct (List.find _ l) as [b |] eqn:Ef.
  - apply find_some in Ef as [Hb%list_elem_of_In [Ed%Z.eqb_eq Eb%Z.eqb_eq]%andb_true_iff]. apply Hin in Hb.
    pose proof (br_buf _ _ R b Hb) as Hok.
    destruct (v_own v !! b) as [bno' |] eqn:Eo.
    { destruct Hok as (_ & Hbn & _). exfalso. apply (Hf b). congruence. }
    destruct Hok as (Hlk & Hrc & Hdat). rewrite decide_True in Hrc by done. rewrite Eb in *.
    destruct (Hdat Ed) as [Hd1 Hd2]. rewrite upd_buf_const.
    destruct (take_buf s v b (set_refcnt (u32 (refcnt (bf s b) + 1)) (bf s b)) R Hb Hlk eq_refl eq_refl)
      as (s' & E & Henv & Hbf & Hlinks).
    change (bf s1 b) with (bf s b). exists b, s'. split; [exact E |].
    split; try done; rewrite ?(Hbf b), ?decide_True by done; cbn; try done.
    + intros j Hj. by rewrite Hbf, decide_False.
    + rewrite Hrc. unfold pinned. case_decide; reflexivity.
    + intros j Hj Hjb Hdj Hbj. apply Hjb, (br_uniq _ _ R); try done. congruence.
  - assert (forall j, 0 <= j < NBUF -> dev (bf s j) = ROOTDEV -> blockno (bf s j) <> bno) as Hnone.
    { intros j Hj Hd Hb. apply Hin in Hj. pose proof (find_none _ _ Ef j ltac:(by apply list_elem_of_In)) as Hx.
      cbn in Hx. rewrite Hd, Hb, !Z.eqb_refl in Hx. done. }
    assert (bno ∉ v_pin v) as Hnp.
    { intros Hpin. destruct (br_pin _ _ R bno Hpin) as (i & Hi & Hd & Hb). by apply (Hnone i). }
    destruct Hroom as [? | Hroom]; [done |].
    destruct (unused_exists s v R Hroom) as (i & Hi & Hi0).
    assert (HEAD ∉ reverse l) as Hh' by (by rewrite elem_of_reverse).
    rewrite (bget_unused_find s (reverse l)) by (try done; rewrite length_reverse, Hlen; vm_compute; lia).
    destruct (List.find _ (reverse l)) as [b |] eqn:Eu.
    2: { exfalso. pose proof (find_none _ _ Eu i) as Hx. cbn in Hx. rewrite Hi0 in Hx.
         discriminate Hx. apply list_elem_of_In. rewrite elem_of_reverse. by apply Hin. }
    apply find_some in Eu as [Hb%list_elem_of_In Hr0%Z.eqb_eq]. rewrite elem_of_reverse in Hb. apply Hin in Hb.
    pose proof (br_buf _ _ R b Hb) as Hok.
    destruct (v_own v !! b) as [bno' |] eqn:Eo.
    { destruct Hok as (_ & _ & _ & _ & Hrc & _). unfold pinned in Hrc. case_decide; lia. }
    destruct Hok as (Hlk & Hrc & Hdat). rewrite upd_buf_const.
    destruct (take_buf s v b (Buf 0 ROOTDEV bno (block_lock (bf s b)) 1 (prev (bf s b)) (next (bf s b)) (data (bf s b))) R Hb Hlk eq_refl eq_refl)
      as (s' & E & Henv & Hbf & Hlinks).
    change (bf s1 b) with (bf s b). exists b, s'. split; [exact E |].
    split; try done; rewrite ?(Hbf b), ?decide_True by done; cbn; try done.
    + intros j Hj. by rewrite Hbf, decide_False.
    + unfold pinned. by rewrite decide_False.
    + intros j Hj _. by apply Hnone.
    + intros Hd _ Hpin. rewrite decide_True in Hrc by done. unfold pinned in Hrc. rewrite decide_True in Hrc by done. lia.
Qed.

Lemma bread_ok s v bno :
  brep s v -> free_block v bno -> room v bno ->
  exists b s', bread ROOTDEV bno s = Ret b s' /\ v_own v !! b = None /\ brep s' (v_get b bno v).
Proof.
  intros R Hf Hroom. destruct (bget_ok s v bno R Hf Hroom) as (b & s1 & E1 & G).
  unfold bread. rewrite (kbind_of _ _ _ _ _ E1), (kbind_of (kgets _) _ _ _ _ eq_refl).
  destruct G as [Hb Ho Henv Hlinks Hoth [Hid1 Hid2] Hlk Hrc [Hd1 Hd2] Huq Hold].
  pose proof Henv as (He1 & He2 & He3 & He4 & He5).
  assert (exists s', (kwhen (valid (bf s1 b) =? 0) (virtio_disk_rw b false >> upd_buf b (set_valid 1)) >> kret b) s1 = Ret b s' /\
    same_env s s' /\ (forall j, next (bf s' j) = next (bf s j) /\ prev (bf s' j) = prev (bf s j)) /\
    (forall j, j <> b -> bf s' j = bf s j) /\
    dev (bf s' b) = ROOTDEV /\ blockno (bf s' b) = bno /\ valid (bf s' b) <> 0 /\
    block_lock (bf s' b) = Sleeplock 1 (bs_pid s) /\ refcnt (bf s' b) = 1 + pinned v bno /\
    data (bf s' b) = v_look v bno) as (s' & E & Henv' & Hlinks' & Hoth' & H1 & H2 & H3 & H4 & H5 & H6).
  { destruct (valid (bf s1 b) =? 0) eqn:Ev; zbool.
    2: { exists s1. split_and!; try done. by apply Hd1. }
    assert (bno ∉ v_pin v) as Hnp by (intros Hpin; by apply Hd2).
    unfold kwhen, virtio_disk_rw.
    eexists. split; [reflexivity |].
    cbv beta. rewrite Hid2.
    set (s2 := set_bufs (updZ (bufs s1) b _) s1). set (s3 := set_bufs _ s2).
    pose proof (br_len _ _ R) as Hlen.
    assert (length (bufs s2) = 31%nat) as Hl2 by (cbn; rewrite length_updZ; congruence).
    assert (forall j, bf s3 j = if decide (j = b) then set_valid 1 (set_data (default zero_block (disk s1 !! bno)) (bf s1 b)) else bf s1 j) as Hb3.
    { intros j. unfold s3. rewrite bf_upd by (done || lia). unfold s2.
      rewrite !bf_upd by (congruence || lia). case_decide; [| done]. by rewrite decide_True by done. }
    split_and!.
    - split_and!; try done. unfold s3, s2. cbn. rewrite !length_updZ. congruence.
    - intros j. rewrite Hb3. destruct (Hlinks j). case_decide; [subst; cbn; done | done].
    - intros j Hj. rewrite Hb3, decide_False by done. by apply Hoth.
    - by rewrite Hb3, decide_True.
    - by rewrite Hb3, decide_True.
    - by rewrite Hb3, decide_True.
    - by rewrite Hb3, decide_True.
    - by rewrite Hb3, decide_True.
    - rewrite Hb3, decide_True by done. cbn. rewrite He3, <- (br_disk _ _ R). symmetry. by apply (br_clean _ _ R). }
  exists b, s'. split_and!; [exact E | done |]. destruct Henv' as (F1 & F2 & F3 & F4 & F5).
  split; cbn [v_own v_look v_disk v_hist v_pin v_get].
  - rewrite F5. apply R.
  - rewrite F1. apply R.
  - rewrite F1. apply R.
  - destruct (br_ring _ _ R) as (l & Hl). exists l. eapply ring_ext; [| | exact Hl]; intros j; apply Hlinks'.
  - intros i bn. rewrite lookup_insert. case_decide; [by intros [= <-]; subst | apply R].
  - intros i Hi. rewrite F2. destruct (decide (i = b)) as [-> | Hib].
    + rewrite lookup_insert_eq. by split_and!.
    + rewrite lookup_insert_ne, Hoth' by done. apply (br_buf _ _ R i Hi).
  - intros i j Hi Hj. destruct (decide (i = b)) as [-> | Hib], (decide (j = b)) as [-> | Hjb]; try done.
    + rewrite (Hoth' j) by done. intros _ Hdj Hbj. exfalso. apply (Huq j); [done.. |]. congruence.
    + rewrite (Hoth' i) by done. intros Hdi _ Hbi. exfalso. apply (Huq i); [done.. |]. congruence.
    + rewrite !Hoth' by done. by apply (br_uniq _ _ R).
  - intros bn Hbn. destruct (decide (bn = bno)) as [-> | Hne]; [by exists b |].
    destruct (br_pin _ _ R bn Hbn) as (i & Hi & Hd & Hbi). exists i.
    destruct (decide (i = b)) as [-> | Hib]; [| by rewrite Hoth'].
    exfalso. apply Hold; [done | congruence | congruence].
  - intros bn Hbn Hfr. apply (br_clean _ _ R); [done |]. intros j Hj. apply (Hfr j). cbn.
    rewrite lookup_insert_ne; [done |]. congruence.
  - rewrite F3. apply R.
  - rewrite F4. apply R.
Qed.

(** A change of the buffer [b] of block [bno], locked before and after (or
    released), that touches nothing of other blocks. *)
Lemma brep_update s v s' v' b bno :
  brep s v -> v_own v !! b = Some bno ->
  bs_held s' = bs_held s -> bs_pid s' = bs_pid s -> length (bufs s') = length (bufs s) ->
  (exists l, ring s' l) ->
  (forall j, dev (bf s' j) = dev (bf s j) /\ blockno (bf s' j) = blockno (bf s j)) ->
  (forall j o, j <> b -> buf_ok (bs_pid s) v' (bf s j) o -> buf_ok (bs_pid s) v' (bf s' j) o) ->
  (forall j, j <> b -> v_own v' !! j = v_own v !! j) ->
  (forall o, v_own v' !! b = Some o -> o = bno) ->
  buf_ok (bs_pid s) v' (bf s' b) (v_own v' !! b) ->
  (forall x, x <> bno -> v_look v' x = v_look v x /\ v_disk v' x = v_disk v x /\ (x ∈ v_pin v' <-> x ∈ v_pin v)) ->
  (bno ∉ v_pin v' -> v_own v' !! b = None -> v_look v' bno = v_disk v' bno) ->
  (forall x, v_disk v' x = default zero_block (disk s' !! x)) -> hist s' = v_hist v' ->
  brep s' v'.
Proof.
  intros R Ho E1 E2 E3 Hring Hid Hoth Hown Hown' Hb Hx Hcl Hd Hh.
  pose proof (br_own _ _ R b bno Ho) as Hbr.
  pose proof (br_buf _ _ R b Hbr) as Hok. rewrite Ho in Hok. destruct Hok as (Hdev & Hbno & _).
  split; try done.
  - rewrite E3. apply R.
  - rewrite E1. apply R.
  - rewrite E1. apply R.
  - intros i o Hi. destruct (decide (i = b)) as [-> | Hib]; [done |]. apply (br_own _ _ R i o). by rewrite <- Hown.
  - intros i Hi. rewrite E2. destruct (decide (i = b)) as [-> | Hib]; [done |].
    apply Hoth; [done |]. rewrite Hown by done. pose proof (br_buf _ _ R i Hi) as Hi'.
    assert (dev (bf s i) = ROOTDEV -> blockno (bf s i) <> bno) as Hne.
    { intros Hdi Hbi. apply Hib, (br_uniq _ _ R); try done. congruence. }
    unfold buf_ok, pinned in *. destruct (v_own v !! i) as [o |].
    + destruct Hi' as (A1 & A2 & A3 & A4 & A5 & A6).
      destruct (Hx o ltac:(rewrite <- A2; auto)) as (X1 & X2 & X3).
      split_and!; try done; [| congruence]. rewrite A5. f_equal. by apply decide_ext.
    + destruct Hi' as (A1 & A2 & A3). split; [done |].
      case_decide; [| by split].
      destruct (Hx (blockno (bf s i)) ltac:(auto)) as (X1 & X2 & X3). destruct (A3 ltac:(done)) as [B1 B2].
      split; [rewrite A2; by apply decide_ext |]. intros _. rewrite X1. split; [done |]. intros ?. apply B2. by apply X3.
  - intros i j Hi Hj. destruct (Hid i) as [-> ->], (Hid j) as [-> ->]. by apply (br_uniq _ _ R).
  - intros x Hp. destruct (decide (x = bno)) as [-> | Hne].
    + exists b. destruct (Hid b) as [-> ->]. done.
    + apply (Hx x Hne) in Hp. destruct (br_pin _ _ R x Hp) as (i & Hi & Hdi & Hbi).
      exists i. destruct (Hid i) as [-> ->]. done.
  - intros x Hp Hf. destruct (decide (x = bno)) as [-> | Hne].
    + apply Hcl; [done |]. specialize (Hf b). destruct (v_own v' !! b) as [o |] eqn:Eo; [| done].
      exfalso. apply Hf. by rewrite (Hown' o).
    + destruct (Hx x Hne) as (-> & -> & Hp'). apply (br_clean _ _ R); [by rewrite <- Hp' |].
      intros j Hj. apply (Hf j). destruct (decide (j = b)) as [-> | ?]; [congruence | by rewrite Hown].
Qed.

Section ops.
Context (s : bst) (v : bview) (b bno : Z) (R : brep s v) (Ho : v_own v !! b = Some bno).

Lemma own_range : 0 <= b < NBUF.
Proof. exact (br_own _ _ R b bno Ho). Qed.

Lemma own_ok : dev (bf s b) = ROOTDEV /\ blockno (bf s b) = bno /\ valid (bf s b) <> 0 /\
  block_lock (bf s b) = Sleeplock 1 (bs_pid s) /\ refcnt (bf s b) = 1 + pinned v bno /\ data (bf s b) = v_look v bno.
Proof. pose proof (br_buf _ _ R b own_range) as H. by rewrite Ho in H. Qed.

(** One field of [b] changes, not its links. *)
Lemma brep_field v' x :
  next x = next (bf s b) -> prev x = prev (bf s b) -> dev x = dev (bf s b) -> blockno x = blockno (bf s b) ->
  v_own v' = v_own v -> v_disk v' = v_disk v -> v_hist v' = v_hist v ->
  buf_ok (bs_pid s) v' x (Some bno) ->
  (forall y, y <> bno -> v_look v' y = v_look v y /\ (y ∈ v_pin v' <-> y ∈ v_pin v)) ->
  brep (set_bufs (updZ (bufs s) b x) s) v'.
Proof.
  intros Hn Hp Hdv Hbn Ev Ed Eh Hok Hy. pose proof own_range as Hbr.
  assert (forall j, bf (set_bufs (updZ (bufs s) b x) s) j = if decide (j = b) then x else bf s j) as Hbf
    by (intros j; apply bf_upd; [apply R | lia]).
  eapply (brep_update s v _ v' b bno); try done.
  - cbn. apply length_updZ.
  - destruct (br_ring _ _ R) as (l & Hl). exists l.
    eapply ring_ext; [| | exact Hl]; intros j; rewrite Hbf; case_decide; by subst.
  - intros j. rewrite Hbf. case_decide; by subst.
  - intros j o Hj. by rewrite Hbf, decide_False.
  - intros j Hj. by rewrite Ev.
  - intros o. rewrite Ev, Ho. congruence.
  - rewrite Ev, Ho, Hbf, decide_True by done. done.
  - intros y Hne. rewrite Ed. destruct (Hy y Hne). done.
  - rewrite Ev, Ho. done.
  - intros y. rewrite Ed. apply R.
  - rewrite Eh. apply R.
Qed.

Lemma store_ok d :
  exists s', upd_buf b (set_data d) s = Ret tt s' /\ brep s' (v_store bno d v).
Proof.
  destruct own_ok as (O1 & O2 & O3 & O4 & O5 & O6).
  eexists. split; [reflexivity |]. apply brep_field; try done.
  - cbn. split_and!; try done. unfold bupd. by rewrite decide_True.
  - intros y Hy. cbn. unfold bupd. by rewrite decide_False.
Qed.

Lemma bwrite_ok : exists s', bwrite b s = Ret tt s' /\ brep s' (v_write bno v).
Proof.
  destruct own_ok as (O1 & O2 & O3 & O4 & O5 & O6).
  unfold bwrite. rewrite (kbind_of _ _ _ _ _ (b_holdingsleep_ok s b (br_bl _ _ R b) O4)). cbn [negb].
  unfold virtio_disk_rw. kred. rewrite O2, O6. eexists. split; [reflexivity |].
  eapply (brep_update s v _ _ b bno); try done; cbn.
  - apply R.
  - intros o. rewrite Ho. congruence.
  - rewrite Ho. by split_and!.
  - intros x Hx. unfold bupd. by rewrite decide_False.
  - by rewrite Ho.
  - intros x. unfold bupd. rewrite lookup_insert. case_decide; [by rewrite decide_True by done |].
    rewrite decide_False by done. apply R.
  - by rewrite (br_hist _ _ R).
Qed.

Lemma with_bcache f :
  (zoom (acquire bcache_lock) >>
   r <- kgets (fun s => refcnt (bf s b)) ;;
   upd_buf b (set_refcnt (f r)) >> zoom (release bcache_lock)) s =
  Ret tt (set_bufs (updZ (bufs s) b (set_refcnt (f (refcnt (bf s b))) (bf s b))) s).
Proof.
  erewrite kbind_of by (apply zoom_acquire; apply R). kred. rewrite upd_buf_ok.
  erewrite zoom_release; [| apply R | done]. done.
Qed.

Lemma bpin_ok : bno ∉ v_pin v ->
  exists s', bpin b s = Ret tt s' /\ brep s' (v_pinned ({[bno]} ∪ v_pin v) v).
Proof.
  intros Hp. destruct own_ok as (O1 & O2 & O3 & O4 & O5 & O6).
  unfold bpin. rewrite (with_bcache (fun r => u32 (r + 1))). eexists. split; [reflexivity |].
  apply brep_field; try done; cbn.
  - split_and!; try done. rewrite O5. unfold pinned. cbn. rewrite decide_False, decide_True by set_solver. done.
  - intros y Hy. split; [done |]. set_solver.
Qed.

Lemma bunpin_ok : bno ∈ v_pin v ->
  exists s', bunpin b s = Ret tt s' /\ brep s' (v_pinned (v_pin v ∖ {[bno]}) v).
Proof.
  intros Hp. destruct own_ok as (O1 & O2 & O3 & O4 & O5 & O6).
  unfold bunpin. rewrite (with_bcache (fun r => u32 (r - 1))). eexists. split; [reflexivity |].
  apply brep_field; try done; cbn.
  - split_and!; try done. rewrite O5. unfold pinned. cbn. rewrite decide_True, decide_False by set_solver. done.
  - intros y Hy. split; [done |]. set_solver.
Qed.
End ops.

(** *** Relinking *)

(** [s] is [s0] with the links [f] (next) and [g] (prev). *)
Definition relinked (s0 : bst) (f g : Z -> Z) (s : bst) : Prop :=
  same_env s0 s /\ forall j, bf s j = set_prev (g j) (set_next (f j) (bf s0 j)).

Lemma relinked_refl s : relinked s (fun j => next (bf s j)) (fun j => prev (bf s j)) s.
Proof. split; [by split_and! |]. intros j. by destruct (bf s j). Qed.

Section relink.
Context (s0 s : bst) (f g : Z -> Z) (Hlen : length (bufs s0) = 31%nat) (L : relinked s0 f g s).

Lemma relink_next i x : 0 <= i <= NBUF ->
  exists s', upd_buf i (set_next x) s = Ret tt s' /\ relinked s0 (fset f i x) g s'.
Proof.
  intros Hi. destruct L as [Henv Hbf]. eexists. split; [reflexivity |]. split.
  - eapply same_env_trans; [exact Henv |]. split_and!; try done. cbn. apply length_updZ.
  - intros j. destruct Henv as (_ & _ & _ & _ & El). rewrite bf_upd by (congruence || lia).
    rewrite !Hbf. unfold fset. case_decide; by subst.
Qed.

Lemma relink_prev i x : 0 <= i <= NBUF ->
  exists s', upd_buf i (set_prev x) s = Ret tt s' /\ relinked s0 f (fset g i x) s'.
Proof.
  intros Hi. destruct L as [Henv Hbf]. eexists. split; [reflexivity |]. split.
  - eapply same_env_trans; [exact Henv |]. split_and!; try done. cbn. apply length_updZ.
  - intros j. destruct Henv as (_ & _ & _ & _ & El). rewrite bf_upd by (congruence || lia).
    rewrite !Hbf. unfold fset. case_decide; by subst.
Qed.

Lemma relinked_nx j : next (bf s j) = f j.
Proof. destruct L as [_ ->]. done. Qed.

Lemma relinked_pv j : prev (bf s j) = g j.
Proof. destruct L as [_ ->]. done. Qed.
End relink.

Lemma relinked_ring s0 s f g l :
  relinked s0 f g s -> seg f HEAD l HEAD -> seg g HEAD (reverse l) HEAD -> NoDup l ->
  (forall i, i ∈ l <-> 0 <= i < NBUF) -> ring s l.
Proof.
  intros L Hf Hg Hnd Hin. split_and!; try done; (eapply seg_ext; [| eassumption]); intros j _; cbn; symmetry.
  - by eapply relinked_nx.
  - by eapply relinked_pv.
Qed.

(** [insert_front] on a list that lacks [b]. *)
Lemma insert_front_ok s0 s f g l b :
  length (bufs s0) = 31%nat -> relinked s0 f g s -> 0 <= b < NBUF ->
  b ∉ l -> (forall i, i ∈ l -> 0 <= i < NBUF) -> NoDup l ->
  seg f HEAD l HEAD -> seg g HEAD (reverse l) HEAD ->
  exists s' f' g', insert_front b s = Ret tt s' /\ relinked s0 f' g' s' /\
    seg f' HEAD (b :: l) HEAD /\ seg g' HEAD (reverse (b :: l)) HEAD.
Proof.
  intros Hlen L Hb Hbl Hin Hnd Hf Hg.
  assert (HEAD ∉ l) as Hh by (intros H%Hin; unfold HEAD in H; lia).
  assert (b <> HEAD) as HbH by (unfold HEAD; lia).
  assert (f HEAD = List.last (reverse l) HEAD) as Eh by (rewrite last_reverse; by eapply seg_first).
  assert (0 <= f HEAD <= NBUF) as Hhr.
  { rewrite Eh. pose proof (last_in HEAD (reverse l)) as Hi. rewrite elem_of_cons, elem_of_reverse in Hi.
    destruct Hi as [-> | Hi]; [unfold HEAD, NBUF, MAXOPBLOCKS; lia | apply Hin in Hi; lia]. }
  unfold insert_front. rewrite (kbind_of (kgets _) _ _ _ _ eq_refl), (relinked_nx s0 s f g L).
  destruct (relink_next s0 s f g Hlen L b (f HEAD)) as (s1 & E1 & L1); [lia |]. rewrite (kbind_of _ _ _ _ _ E1).
  destruct (relink_prev s0 s1 _ g Hlen L1 b HEAD) as (s2 & E2 & L2); [lia |]. rewrite (kbind_of _ _ _ _ _ E2).
  rewrite (kbind_of (kgets _) _ _ _ _ eq_refl), (relinked_nx s0 s2 _ _ L2).
  assert (fset f b (f HEAD) HEAD = f HEAD) as -> by (unfold fset; by rewrite decide_False).
  destruct (relink_prev s0 s2 _ _ Hlen L2 (f HEAD) b) as (s3 & E3 & L3); [lia |]. rewrite (kbind_of _ _ _ _ _ E3).
  destruct (relink_next s0 s3 _ _ Hlen L3 HEAD b) as (s4 & E4 & L4); [unfold HEAD, NBUF, MAXOPBLOCKS; lia |].
  eexists s4, _, _. split_and!; [exact E4 | exact L4 | |].
  - apply seg_insert_front; [set_solver | by constructor | done].
  - rewrite reverse_cons, Eh. apply seg_insert_end; [set_solver | constructor; [set_solver | by apply NoDup_rev] | done].
Qed.

(** [brelse]'s move of [b] to the front of the list. *)
Lemma move_front_ok s l b :
  length (bufs s) = 31%nat -> ring s l -> 0 <= b < NBUF ->
  exists s' f' g' l', (n <- kgets (fun s => next (bf s b)) ;;
     p <- kgets (fun s => prev (bf s b)) ;;
     upd_buf n (set_prev p) >>
     upd_buf p (set_next n) >>
     insert_front b) s = Ret tt s' /\ relinked s f' g' s' /\ ring s' (b :: l').
Proof.
  intros Hlen (Hn & Hp & Hnd & Hin) Hb.
  destruct (list_elem_of_split l b) as (l1 & l2 & ->); [by apply Hin |].
  assert (HEAD ∉ l1 ++ b :: l2) as Hh by (rewrite Hin; unfold HEAD; lia).
  pose proof (relinked_refl s) as L. set (f := fun j => next (bf s j)) in *. set (g := fun j => prev (bf s j)) in *.
  assert (reverse (l1 ++ b :: l2) = reverse l2 ++ b :: reverse l1) as Er
    by (rewrite reverse_app, reverse_cons, <- app_assoc; done).
  rewrite Er in Hp. pose proof Hn as [_ Hn2]%seg_app. pose proof Hp as [_ Hp2]%seg_app.
  apply seg_first in Hn2, Hp2. rewrite hd_reverse in Hp2.
  rewrite (kbind_of (kgets _) _ _ _ _ eq_refl), (kbind_of (kgets _) _ _ _ _ eq_refl).
  fold (f b) (g b).
  assert (forall x, x ∈ HEAD :: l1 ++ b :: l2 -> 0 <= x <= NBUF) as Hrng.
  { intros x [-> | Hx%Hin]%elem_of_cons; [unfold HEAD, NBUF, MAXOPBLOCKS; lia | lia]. }
  assert (0 <= f b <= NBUF) as Hfr.
  { rewrite Hn2. apply Hrng. destruct l2; set_solver. }
  assert (0 <= g b <= NBUF) as Hgr.
  { rewrite Hp2. apply Hrng. pose proof (last_in HEAD l1). set_solver. }
  destruct (relink_prev s s f g Hlen L (f b) (g b) Hfr) as (s1 & E1 & L1). rewrite (kbind_of _ _ _ _ _ E1).
  destruct (relink_next s s1 f _ Hlen L1 (g b) (f b) Hgr) as (s2 & E2 & L2). rewrite (kbind_of _ _ _ _ _ E2).
  assert (NoDup (HEAD :: l1 ++ b :: l2)) as HndH by (by constructor).
  assert (NoDup (HEAD :: reverse l2 ++ b :: reverse l1)) as HndR.
  { rewrite <- Er. constructor; [by rewrite elem_of_reverse | by apply NoDup_rev]. }
  pose proof (seg_unlink f HEAD l1 b l2 HndH Hn) as U1. rewrite <- Hp2 in U1.
  pose proof (seg_unlink g HEAD (reverse l2) b (reverse l1) HndR Hp) as U2.
  rewrite last_reverse, <- Hn2, <- reverse_app in U2.
  assert (b ∉ l1 ++ l2 /\ NoDup (l1 ++ l2)) as [Hbl Hndl].
  { apply NoDup_Permutation_proper with (y := b :: l1 ++ l2) in Hnd; [| symmetry; apply Permutation_middle].
    inversion_clear Hnd. done. }
  assert (forall i, i ∈ l1 ++ l2 -> 0 <= i < NBUF) as Hin' by (intros i Hi; apply Hin; set_solver).
  destruct (insert_front_ok s s2 _ _ (l1 ++ l2) b Hlen L2 Hb Hbl Hin' Hndl U1 U2) as (s' & f' & g' & E & L' & F & G).
  exists s', f', g', (l1 ++ l2). split_and!; [exact E | exact L' |].
  eapply relinked_ring; [exact L' | exact F | exact G | by constructor |].
  intros i. rewrite <- Hin. set_solver.
Qed.

Lemma brelse_ok s v b bno :
  brep s v -> v_own v !! b = Some bno -> bno ∈ v_pin v \/ v_look v bno = v_disk v bno ->
  exists s', brelse b s = Ret tt s' /\ brep s' (v_put b v).
Proof.
  intros R Ho Hcl. pose proof (own_range s v b bno R Ho) as Hb.
  destruct (own_ok s v b bno R Ho) as (O1 & O2 & O3 & O4 & O5 & O6). pose proof (br_len _ _ R) as Hlen.
  unfold brelse. rewrite (kbind_of _ _ _ _ _ (b_holdingsleep_ok s b (br_bl _ _ R b) O4)). cbn [negb].
  rewrite (kbind_of _ _ _ _ _ (b_releasesleep_ok s b (br_bl _ _ R b))).
  set (s1 := add_woken _ _).
  erewrite kbind_of by (apply (zoom_acquire bcache_lock s1); apply R).
  rewrite (kbind_of (kgets _) _ _ _ _ eq_refl). set (s2 := lset _ s1).
  assert (forall j, bf s2 j = if decide (j = b) then set_lock (Sleeplock 0 0) (bf s b) else bf s j) as H2.
  { intros j. apply (bf_upd s b _ j Hlen). lia. }
  rewrite (H2 b), decide_True by done. cbn [refcnt set_lock]. rewrite O5.
  replace (u32 (1 + pinned v bno - 1)) with (pinned v bno) by (unfold pinned; by case_decide).
  rewrite (kbind_of _ _ _ _ _ (upd_buf_ok _ _ _)). set (s3 := set_bufs _ s2).
  rewrite (kbind_of (kgets _) _ _ _ _ eq_refl).
  set (nb := set_refcnt (pinned v bno) (set_lock (Sleeplock 0 0) (bf s b))).
  assert (length (bufs s3) = 31%nat) as Hlen3 by (unfold s3, s2, s1; cbn; by rewrite !length_updZ).
  assert (forall j, bf s3 j = if decide (j = b) then nb else bf s j) as H3.
  { intros j. unfold s3. rewrite bf_upd; [| unfold s2, s1; cbn; by rewrite length_updZ | lia].
    rewrite !H2. case_decide; [by rewrite decide_True | done]. }
  rewrite (H3 b), decide_True by done. cbn [refcnt nb set_refcnt].
  destruct (br_ring _ _ R) as (l & Hl).
  assert (ring s3 l) as Hl3.
  { eapply ring_ext; [| | exact Hl]; intros j; rewrite H3; case_decide; by subst. }
  assert (exists s4 f g, kwhen (pinned v bno =? 0)
    (n <- kgets (fun s => next (bf s b)) ;;
     p <- kgets (fun s => prev (bf s b)) ;;
     upd_buf n (set_prev p) >>
     upd_buf p (set_next n) >>
     insert_front b) s3 = Ret tt s4 /\ relinked s3 f g s4 /\ exists l', ring s4 l') as (s4 & f & g & E4 & [Henv4 L4] & l' & Hl').
  { unfold kwhen. destruct (_ =? 0).
    - destruct (move_front_ok s3 l b Hlen3 Hl3 Hb) as (s4 & f & g & l' & E & L & Hl'). exists s4, f, g. eauto.
    - eexists s3, _, _. split_and!; [done | apply relinked_refl | eauto]. }
  rewrite (kbind_of _ _ _ _ _ E4). destruct Henv4 as (F1 & F2 & F3 & F4 & F5).
  erewrite zoom_release; [| apply (br_cl _ _ R) | unfold s3, s2, s1 in F1; exact F1].
  eexists. split; [reflexivity |].
  eapply (brep_update s v _ (v_put b v) b bno R Ho); cbn; try done.
  - rewrite F5, Hlen3, Hlen. done.
  - exists l'. eapply ring_ext; [| | exact Hl']; intros j; done.
  - intros j. change (bf (Bst _ _ _ (bufs s4) _ _) j) with (bf s4 j). rewrite L4, H3. case_decide; by subst.
  - intros j o Hj. change (bf (Bst _ _ _ (bufs s4) _ _) j) with (bf s4 j). rewrite L4, H3, decide_False by done. by destruct o.
  - intros j Hj. by rewrite lookup_delete_ne.
  - intros o. by rewrite lookup_delete_eq.
  - change (bf (Bst _ _ _ (bufs s4) _ _) b) with (bf s4 b). rewrite lookup_delete_eq, L4, H3, decide_True by done. cbn.
    rewrite O1, O2, decide_True by done. split_and!; try done.
  - intros Hp _. destruct Hcl; [done | done].
  - intros x. rewrite F3. unfold s3, s2, s1. cbn. apply R.
  - rewrite F4. apply R.
Qed.

(** ** After a restart *)

Definition booted : list buf :=
  match binit (boot_bst 1 ∅) with Ret _ s => bufs s | _ => [] end.

Definition bio_boot (d : gmap Z bytes) : bst :=
  match binit (boot_bst 1 d) with Ret _ s => s | _ => boot_bst 1 d end.

Lemma binit_boot d : binit (boot_bst 1 d) = Ret tt (Bst ∅ [] 1 booted d []).
Proof. vm_compute. reflexivity. Qed.

Definition boot_order : list Z := map Z.of_nat (rev (seq 0 30)).

Lemma booted_ring d : ring (Bst ∅ [] 1 booted d []) boot_order.
Proof.
  split_and!.
  - vm_compute. by repeat split.
  - vm_compute. by repeat split.
  - by apply (bool_decide_unpack _); vm_compute.
  - intros i. unfold boot_order. change NBUF with 30. rewrite list_elem_of_fmap. split.
    + intros (n & -> & Hn%list_elem_of_In%in_rev%list_elem_of_In%elem_of_seq). lia.
    + intros Hi. exists (Z.to_nat i). split; [lia |].
      apply list_elem_of_In, in_rev. rewrite rev_involutive. apply list_elem_of_In, elem_of_seq. lia.
Qed.

Lemma booted_bufs d i :
  0 <= i < NBUF -> let b := bf (Bst ∅ [] 1 booted d []) i in
  dev b = 0 /\ locked (block_lock b) = 0 /\ refcnt b = 0.
Proof.
  intros Hi. assert (Forall (fun b => dev b = 0 /\ locked (block_lock b) = 0 /\ refcnt b = 0) booted) as Hall.
  { vm_compute. by repeat constructor. }
  unfold bf, nthZ. cbn [bufs]. replace (i <? 0) with false by lia.
  apply Forall_nth; [exact Hall |]. change (length booted) with 31%nat. change NBUF with 30 in Hi. lia.
Qed.

Lemma bio_boot_ok d : let f bno := default zero_block (d !! bno) in
  brep (bio_boot d) (View f f [] ∅ ∅).
Proof.
  intros f. unfold bio_boot. rewrite binit_boot. split; cbn [v_own v_look v_disk v_hist v_pin]; try done.
  - exists boot_order. apply booted_ring.
  - intros i Hi. destruct (booted_bufs d i Hi) as (H1 & H2 & H3). rewrite lookup_empty. cbn.
    rewrite H1, H3, decide_False by done. split_and!; done.
  - intros i j Hi Hj H. destruct (booted_bufs d i Hi) as (H1 & _). rewrite H1 in H. done.
Qed.

(** bio.c implements the interface. *)
#[export] Instance bio_cache : BufCache bst.
Proof.
  refine {|
    BufCache.bread := Bio.bread; BufCache.bwrite := Bio.bwrite; BufCache.brelse := Bio.brelse;
    BufCache.bpin := Bio.bpin; BufCache.bunpin := Bio.bunpin;
    b_data s b := data (bf s b); b_blockno s b := blockno (bf s b);
    b_store b d := upd_buf b (set_data d);
    b_boot := bio_boot;
    bsim := brep |}.
  - intros s v bno R _ Hf Hr. by apply bread_ok.
  - intros s v b bno R Ho. destruct (own_ok s v b bno R Ho) as (? & ? & ? & ? & ? & ?). done.
  - intros s v b bno d R Ho. by apply store_ok.
  - intros s v b bno R Ho. by apply bwrite_ok.
  - intros s v b bno R Ho Hc. by apply (brelse_ok s v b bno).
  - intros s v b bno R Ho Hp. by apply bpin_ok.
  - intros s v b bno R Ho Hp. by apply bunpin_ok.
  - apply bio_boot_ok.
Defined.

(** ** Simulation of the interface's operations *)

Inductive bop :=
| Bread (bno : Z)
| Bstore (b : Z) (d : bytes)
| Bwrite (b : Z)
| Brelse (b : Z)
| Bpin (b : Z)
| Bunpin (b : Z).

Definition run_bop (o : bop) : K bst unit :=
  match o with
  | Bread bno => _ <- Bio.bread ROOTDEV bno ;; kret tt
  | Bstore b d => upd_buf b (set_data d)
  | Bwrite b => Bio.bwrite b
  | Brelse b => Bio.brelse b
  | Bpin b => Bio.bpin b
  | Bunpin b => Bio.bunpin b
  end.

(** The abstract cache: what each operation may be called on and does. *)
Inductive bview_step : bview -> bop -> bview -> Prop :=
| step_bread v b bno : free_block v bno -> room v bno -> v_own v !! b = None -> bview_step v (Bread bno) (v_get b bno v)
| step_store v b bno d : v_own v !! b = Some bno -> bview_step v (Bstore b d) (v_store bno d v)
| step_bwrite v b bno : v_own v !! b = Some bno -> bview_step v (Bwrite b) (v_write bno v)
| step_brelse v b bno : v_own v !! b = Some bno -> bno ∈ v_pin v \/ v_look v bno = v_disk v bno ->
    bview_step v (Brelse b) (v_put b v)
| step_bpin v b bno : v_own v !! b = Some bno -> bno ∉ v_pin v -> bview_step v (Bpin b) (v_pinned ({[bno]} ∪ v_pin v) v)
| step_bunpin v b bno : v_own v !! b = Some bno -> bno ∈ v_pin v -> bview_step v (Bunpin b) (v_pinned (v_pin v ∖ {[bno]}) v).


