(* ===== verification/Log.v ===== *)
(** * kernel/log.c: the redo log

    The code, over any buffer cache (BufCache.v).  The in-memory log is the
    record [logst]; the on-disk header is the block [log.start], its fields
    read and written with [get32]/[put32].  A process that must wait for log
    space is [Asleep] on [log_chan]; when it wakes up it is back at the test
    of the [while(1)] of [begin_op]. *)

From S2P Require Import Prelude Riscv Spinlock Sleeplock Block BufCache.

Record logst := LogSt {
  log_start : Z;
  log_size : Z;
  outstanding : Z;
  committing : Z;
  log_dev : Z;
  lh_n : Z;
  lh_block : list Z;
}.

Record lst (S : Type) := Lst {
  ls_held : locks;
  ls_woken : list Z;
  ls_log : logst;
  ls_bc : S;
}.
Arguments Lst {S}.
Arguments ls_held {S}.
Arguments ls_woken {S}.
Arguments ls_log {S}.
Arguments ls_bc {S}.

#[export] Instance lst_locks S : Lens (lst S) locks.
Proof.
  refine {| lget := ls_held; lset h s := Lst h (ls_woken s) (ls_log s) (ls_bc s) |}; by try intros [].
Defined.
#[export] Instance lst_bc S : Lens (lst S) S.
Proof.
  refine {| lget := ls_bc; lset b s := Lst (ls_held s) (ls_woken s) (ls_log s) b |}; by try intros [].
Defined.
#[export] Instance lst_waker S : Waker (lst S) := {|
  woken := ls_woken;
  add_woken c s := Lst (ls_held s) (c :: ls_woken s) (ls_log s) (ls_bc s) |}.

Definition log_lock : lockid := ("log", 0).
Definition log_chan : Z := -1.

Definition log0 : logst := LogSt 0 0 0 0 0 0 (replicate (Z.to_nat LOGSIZE) 0).

Section log.
Context {S : Type} `{BC : BufCache S}.

Definition set_log (f : logst -> logst) : K (lst S) unit :=
  kmod (fun s => Lst (ls_held s) (ls_woken s) (f (ls_log s)) (ls_bc s)).
Definition get_log : K (lst S) logst := kgets ls_log.

Definition set_n (n : Z) (g : logst) : logst :=
  LogSt (log_start g) (log_size g) (outstanding g) (committing g) (log_dev g) n (lh_block g).
Definition set_block (i b : Z) (g : logst) : logst :=
  LogSt (log_start g) (log_size g) (outstanding g) (committing g) (log_dev g) (lh_n g) (updZ (lh_block g) i b).
Definition set_outstanding (o : Z) (g : logst) : logst :=
  LogSt (log_start g) (log_size g) o (committing g) (log_dev g) (lh_n g) (lh_block g).
Definition set_committing (c : Z) (g : logst) : logst :=
  LogSt (log_start g) (log_size g) (outstanding g) c (log_dev g) (lh_n g) (lh_block g).

(** [for (tail = 0; tail < log.lh.n; tail++)] of [install_trans]. *)
Fixpoint install_loop (n : nat) (tail : Z) (recovering : bool) : K (lst S) unit :=
  match n with
  | O => kret tt
  | Datatypes.S n =>
      g <- get_log ;;
      lbuf <- zoom (bread (log_dev g) (u32 (log_start g + tail + 1))) ;;
      dbuf <- zoom (bread (log_dev g) (u32 (nthZ 0 (lh_block g) tail))) ;;
      d <- kgets (fun s => b_data (ls_bc s) lbuf) ;;
      zoom (b_store dbuf d) >>
      zoom (bwrite dbuf) >>
      kwhen (negb recovering) (zoom (bunpin dbuf)) >>
      zoom (brelse lbuf) >>
      zoom (brelse dbuf) >>
      install_loop n (tail + 1) recovering
  end.

Definition install_trans (recovering : bool) : K (lst S) unit :=
  g <- get_log ;; install_loop (Z.to_nat (lh_n g)) 0 recovering.

(** [struct logheader]: [n], then [block[]] *)
Fixpoint read_blocks (n : nat) (i : Z) (d : bytes) (g : logst) : logst :=
  match n with
  | O => g
  | Datatypes.S n => read_blocks n (i + 1) d (set_block i (i32 (get32 d (4 + 4 * i))) g)
  end.

Definition read_head : K (lst S) unit :=
  g <- get_log ;;
  buf <- zoom (bread (log_dev g) (u32 (log_start g))) ;;
  d <- kgets (fun s => b_data (ls_bc s) buf) ;;
  let n := i32 (get32 d 0) in
  set_log (set_n n) >>
  set_log (read_blocks (Z.to_nat n) 0 d) >>
  zoom (brelse buf).

Fixpoint write_blocks (n : nat) (i : Z) (g : logst) (d : bytes) : bytes :=
  match n with
  | O => d
  | Datatypes.S n => write_blocks n (i + 1) g (put32 d (4 + 4 * i) (nthZ 0 (lh_block g) i))
  end.

Definition write_head : K (lst S) unit :=
  g <- get_log ;;
  buf <- zoom (bread (log_dev g) (u32 (log_start g))) ;;
  d <- kgets (fun s => b_data (ls_bc s) buf) ;;
  zoom (b_store buf (write_blocks (Z.to_nat (lh_n g)) 0 g (put32 d 0 (lh_n g)))) >>
  zoom (bwrite buf) >>
  zoom (brelse buf).

Definition recover_from_log : K (lst S) unit :=
  read_head >>
  install_trans true >>
  set_log (set_n 0) >>
  write_head.

(** [sb->logstart] and [sb->nlog]; the size of [struct logheader] is checked
    against BSIZE first. *)
Definition initlog (dev logstart nlog : Z) : K (lst S) unit :=
  if BSIZE <=? 4 + 4 * LOGSIZE then kpanic "initlog: too big logheader" else
  zoom (initlock log_lock) >>
  set_log (fun g => LogSt (i32 logstart) (i32 nlog) (outstanding g) (committing g) dev (lh_n g) (lh_block g)) >>
  recover_from_log.

(** One turn of [while(1)]. *)
Definition begin_op : K (lst S) unit :=
  zoom (acquire log_lock) >>
  g <- get_log ;;
  if negb (committing g =? 0) then zoom (release log_lock) >> ksleep log_chan
  else if LOGSIZE <? lh_n g + (outstanding g + 1) * MAXOPBLOCKS then
    zoom (release log_lock) >> ksleep log_chan
  else
    set_log (set_outstanding (outstanding g + 1)) >>
    zoom (release log_lock).

Fixpoint write_log_loop (n : nat) (tail : Z) : K (lst S) unit :=
  match n with
  | O => kret tt
  | Datatypes.S n =>
      g <- get_log ;;
      to <- zoom (bread (log_dev g) (u32 (log_start g + tail + 1))) ;;
      from <- zoom (bread (log_dev g) (u32 (nthZ 0 (lh_block g) tail))) ;;
      d <- kgets (fun s => b_data (ls_bc s) from) ;;
      zoom (b_store to d) >>
      zoom (bwrite to) >>
      zoom (brelse from) >>
      zoom (brelse to) >>
      write_log_loop n (tail + 1)
  end.

Definition write_log : K (lst S) unit :=
  g <- get_log ;; write_log_loop (Z.to_nat (lh_n g)) 0.

Definition commit : K (lst S) unit :=
  g <- get_log ;;
  if 0 <? lh_n g then
    write_log >>
    write_head >>
    install_trans false >>
    set_log (set_n 0) >>
    write_head
  else kret tt.

Definition end_op : K (lst S) unit :=
  zoom (acquire log_lock) >>
  g <- get_log ;;
  set_log (set_outstanding (outstanding g - 1)) >>
  if negb (committing g =? 0) then kpanic "log.committing" else
  let do_commit := outstanding g - 1 =? 0 in
  (if do_commit then set_log (set_committing 1) else wakeup_rec log_chan) >>
  zoom (release log_lock) >>
  kwhen do_commit
    (commit >>
     zoom (acquire log_lock) >>
     set_log (set_committing 0) >>
     wakeup_rec log_chan >>
     zoom (release log_lock)).

(** [for (i = 0; i < log.lh.n; i++)]: the first slot that holds [bno], or
    [lh.n]. *)
Fixpoint find_slot (n : nat) (i : Z) (g : logst) (bno : Z) : Z :=
  match n with
  | O => i
  | Datatypes.S n => if u32 (nthZ 0 (lh_block g) i) =? bno then i else find_slot n (i + 1) g bno
  end.

Definition log_write (b : Z) : K (lst S) unit :=
  zoom (acquire log_lock) >>
  g <- get_log ;;
  if ((LOGSIZE <=? lh_n g) || (log_size g - 1 <=? lh_n g))%bool then kpanic "too big a transaction" else
  if outstanding g <? 1 then kpanic "log_write outside of trans" else
  bno <- kgets (fun s => b_blockno (ls_bc s) b) ;;
  let i := find_slot (Z.to_nat (lh_n g)) 0 g bno in
  set_log (set_block i (i32 bno)) >>
  kwhen (i =? lh_n g)
    (zoom (bpin b) >>
     set_log (set_n (lh_n g + 1))) >>
  zoom (release log_lock).
End log.
