(* ===== verification/LogProofs.v ===== *)
(** * The log is crash safe

    Every write that reaches the disk is recorded in [v_hist].  A crash is a
    prefix of those writes; recovery is [recover_from_log] on a fresh cache
    over the disk that prefix leaves.  The theorems below hold for any buffer
    cache that satisfies BufCache.v, and BioProofs.v provides one. *)

From S2P Require Import Prelude Riscv Spinlock Sleeplock Block BufCache Log.

(** The disk after a list of block writes. *)
Definition apply_writes (ws : list (Z * bytes)) (d : Z -> bytes) : Z -> bytes :=
  fold_left (fun d w => bupd d w.1 w.2) ws d.

Lemma apply_writes_app ws ws' d : apply_writes (ws ++ ws') d = apply_writes ws' (apply_writes ws d).
Proof. apply fold_left_app. Qed.

Lemma apply_writes_other ws d b : (forall w, w ∈ ws -> w.1 <> b) -> apply_writes ws d b = d b.
Proof.
  revert d. induction ws as [| w ws IH]; intros d H; [done |]. cbn. rewrite IH by set_solver.
  apply bupd_ne. intros ->. by apply (H w); [left |].
Qed.

(** The writes of [write_log] and of [install_trans]: block [k] of the log
    and its home block. *)
Fixpoint log_writes (start : Z) (look : Z -> bytes) (bl : list Z) (k : Z) : list (Z * bytes) :=
  match bl with
  | [] => []
  | b :: bl => (start + 1 + k, look b) :: log_writes start look bl (k + 1)
  end.

Fixpoint install_writes (start : Z) (look : Z -> bytes) (bl : list Z) (k : Z) : list (Z * bytes) :=
  match bl with
  | [] => []
  | b :: bl => (b, look (start + 1 + k)) :: install_writes start look bl (k + 1)
  end.

Section log.
Context {S : Type} `{BC : BufCache S}.
Implicit Types (bc : S) (v : bview).

(** Writes that reach both the cache and the disk. *)
Definition v_after (ws : list (Z * bytes)) v : bview :=
  View (apply_writes ws (v_look v)) (apply_writes ws (v_disk v)) (v_hist v ++ ws) (v_own v) (v_pin v).

Lemma v_after_app ws ws' v : v_after ws' (v_after ws v) = v_after (ws ++ ws') v.
Proof. unfold v_after. cbn. by rewrite !apply_writes_app, app_assoc. Qed.

Lemma v_after_nil v : v_after [] v = v.
Proof. unfold v_after. cbn. rewrite app_nil_r. by destruct v. Qed.

Lemma zoom_bc {A} (m : K S A) h w g bc a bc' :
  m bc = Ret a bc' -> zoom m (Lst h w g bc) = Ret a (Lst h w g bc').
Proof. intros E. unfold zoom. cbn. by rewrite E. Qed.

(** Run the next cache operation of the goal: [E] is its equation. *)
Ltac zstep E := erewrite kbind_of by (apply zoom_bc, E).

Lemma room_small v bno : v_own v = ∅ -> Z.of_nat (size (v_pin v)) < NBUF -> room v bno.
Proof. intros E H. right. rewrite E, map_img_empty_L. by rewrite union_empty_r_L. Qed.

Lemma own_two (t f x y : Z) : t <> f -> delete t (delete f (<[f := x]> (<[t := y]> ∅))) = (∅ : gmap Z Z).
Proof.
  intros H. apply map_empty. intros i. rewrite !lookup_delete, !lookup_insert, lookup_empty.
  repeat case_decide; congruence.
Qed.

(** One turn of [write_log]. *)
Lemma write_log_turn {A} (k : K (lst S) A) h w g bc v to from :
  bsim bc v -> v_own v = ∅ -> from ∈ v_pin v -> Z.of_nat (size (v_pin v)) < NBUF ->
  0 <= to < 2 ^ 32 -> 0 <= from < 2 ^ 32 -> to <> from ->
  exists bc', bsim bc' (v_after [(to, v_look v from)] v) /\
  (t <- zoom (bread ROOTDEV to) ;;
   f <- zoom (bread ROOTDEV from) ;;
   d <- kgets (fun s => b_data (ls_bc s) f) ;;
   zoom (b_store t d) >> zoom (bwrite t) >> zoom (brelse f) >> zoom (brelse t) >> k) (Lst h w g bc) =
  k (Lst h w g bc').
Proof.
  intros B Ho Hp Hs Hto Hfrom Hne.
  destruct (bread_law bc v to B Hto) as (t & b1 & E1 & _ & B1);
    [intros b; by rewrite Ho | by apply room_small |].
  destruct (bread_law b1 _ from B1 Hfrom) as (f & b2 & E2 & Hf2 & B2).
  { intros b. cbn. rewrite Ho, lookup_insert. case_decide; [congruence | done]. }
  { by left. }
  cbn in Hf2. rewrite Ho in Hf2.
  assert (t <> f) as Htf by (intros ->; by rewrite lookup_insert_eq in Hf2).
  destruct (data_law b2 _ f from B2) as [Ed _]; [apply lookup_insert_eq |].
  destruct (store_law b2 _ t to (v_look v from) B2) as (b3 & E3 & B3);
    [cbn; by rewrite lookup_insert_ne, lookup_insert_eq by done |].
  destruct (bwrite_law b3 _ t to B3) as (b4 & E4 & B4); [cbn; by rewrite lookup_insert_ne, lookup_insert_eq by done |].
  destruct (brelse_law b4 _ f from B4) as (b5 & E5 & B5); [apply lookup_insert_eq | by left |].
  destruct (brelse_law b5 _ t to B5) as (b6 & E6 & B6).
  { cbn. by rewrite lookup_delete_ne, lookup_insert_ne, lookup_insert_eq by done. }
  { right. cbn. by rewrite !bupd_eq. }
  exists b6. split.
  - assert (v_after [(to, v_look v from)] v = v_put t (v_put f (v_write to
      (v_store to (v_look v from) (v_get f from (v_get t to v)))))) as ->; [| exact B6].
    unfold v_after, v_put, v_write, v_store, v_get. cbn. by rewrite Ho, !bupd_eq, own_two.
  - zstep E1. zstep E2. rewrite (kbind_of (kgets _) _ _ _ _ eq_refl). cbn [ls_bc]. rewrite Ed. cbn [v_look v_get].
    zstep E3. zstep E4. zstep E5. zstep E6. done.
Qed.

(** One turn of [install_trans]. *)
Lemma install_turn {A} (k : K (lst S) A) h w g bc v l b (recovering : bool) :
  bsim bc v -> v_own v = ∅ -> Z.of_nat (size (v_pin v)) < NBUF ->
  (if recovering then v_pin v = ∅ else b ∈ v_pin v) -> v_look v l = v_disk v l ->
  0 <= l < 2 ^ 32 -> 0 <= b < 2 ^ 32 -> l <> b ->
  exists bc', bsim bc' (v_pinned (if recovering then v_pin v else v_pin v ∖ {[b]}) (v_after [(b, v_look v l)] v)) /\
  (lbuf <- zoom (bread ROOTDEV l) ;;
   dbuf <- zoom (bread ROOTDEV b) ;;
   d <- kgets (fun s => b_data (ls_bc s) lbuf) ;;
   zoom (b_store dbuf d) >> zoom (bwrite dbuf) >>
   kwhen (negb recovering) (zoom (bunpin dbuf)) >>
   zoom (brelse lbuf) >> zoom (brelse dbuf) >> k) (Lst h w g bc) =
  k (Lst h w g bc').
Proof.
  intros B Ho Hs Hp Hcl Hl Hb Hne.
  destruct (bread_law bc v l B Hl) as (t & b1 & E1 & _ & B1);
    [intros x; by rewrite Ho | by apply room_small |].
  destruct (bread_law b1 _ b B1 Hb) as (f & b2 & E2 & Hf2 & B2).
  { intros x. cbn. rewrite Ho, lookup_insert. case_decide; [congruence | done]. }
  { destruct recovering; [| by left]. right. cbn. rewrite Ho, Hp. unfold NBUF, MAXOPBLOCKS.
    rewrite union_empty_l_L, insert_empty, map_img_singleton_L, size_singleton. lia. }
  cbn in Hf2. rewrite Ho in Hf2.
  assert (t <> f) as Htf by (intros ->; by rewrite lookup_insert_eq in Hf2).
  destruct (data_law b2 _ t l B2) as [Ed _]; [cbn; by rewrite lookup_insert_ne, lookup_insert_eq by done |].
  destruct (store_law b2 _ f b (v_look v l) B2) as (b3 & E3 & B3); [apply lookup_insert_eq |].
  destruct (bwrite_law b3 _ f b B3) as (b4 & E4 & B4); [apply lookup_insert_eq |].
  set (pin' := if recovering then v_pin v else v_pin v ∖ {[b]}).
  assert (exists b5, kwhen (negb recovering) (zoom (bunpin f)) (Lst h w g b4) = Ret tt (Lst h w g b5) /\
    bsim b5 (v_pinned pin' (v_write b (v_store b (v_look v l) (v_get f b (v_get t l v)))))) as (b5 & E5 & B5).
  { destruct recovering; [by exists b4 |].
    destruct (bunpin_law b4 _ f b B4) as (b5 & E5 & B5); [apply lookup_insert_eq | done |].
    exists b5. split; [by apply zoom_bc | done]. }
  destruct (brelse_law b5 _ t l B5) as (b6 & E6 & B6).
  { cbn. by rewrite lookup_insert_ne, lookup_insert_eq by done. }
  { right. cbn. rewrite !bupd_ne by done. done. }
  destruct (brelse_law b6 _ f b B6) as (b7 & E7 & B7).
  { cbn. by rewrite lookup_delete_ne, lookup_insert_eq by done. }
  { right. cbn. by rewrite !bupd_eq. }
  exists b7. split.
  - match type of B7 with bsim _ ?x => assert (v_pinned pin' (v_after [(b, v_look v l)] v) = x) as ->; [| exact B7] end.
    unfold v_after, v_put, v_write, v_store, v_get, v_pinned. cbn. rewrite Ho, !bupd_eq.
    by rewrite delete_delete, own_two.
  - zstep E1. zstep E2. rewrite (kbind_of (kgets _) _ _ _ _ eq_refl). cbn [ls_bc]. rewrite Ed. cbn [v_look v_get].
    zstep E3. zstep E4. rewrite (kbind_of _ _ _ _ _ E5). zstep E6. zstep E7. done.
Qed.

(** ** The loops *)

(** The entries of the in-memory header from [tail] on are [bl], and lie
    outside the log, whose blocks [start, start+1, ...] are valid numbers. *)
Record log_ok (g : logst) (tail : Z) (bl : list Z) : Prop := {
  lo_dev : log_dev g = ROOTDEV;
  lo_start : 0 <= log_start g;
  lo_tail : 0 <= tail;
  lo_end : log_start g + 1 + tail + Z.of_nat (length bl) < 2 ^ 31;
  lo_bl : forall i b, bl !! i = Some b -> nthZ 0 (lh_block g) (tail + Z.of_nat i) = b;
  lo_home : forall b, b ∈ bl -> 0 <= b < 2 ^ 31 /\
    (b < log_start g \/ log_start g + 1 + tail + Z.of_nat (length bl) <= b);
}.

Lemma log_ok_tail g tail b bl : log_ok g tail (b :: bl) ->
  nthZ 0 (lh_block g) tail = b /\ log_ok g (tail + 1) bl.
Proof.
  intros [H1 H2 H3 H4 H5 H6]. split.
  - rewrite <- (H5 0%nat b eq_refl). f_equal. lia.
  - cbn [length] in *. split; try done; try lia.
    + intros i x Hi. rewrite <- (H5 (Datatypes.S i) x Hi). f_equal. lia.
    + intros x Hx. destruct (H6 x) as [? ?]; [by right |]. split; [done |]. lia.
Qed.

Lemma log_writes_ext start look look' bl k :
  (forall b, b ∈ bl -> look' b = look b) -> log_writes start look' bl k = log_writes start look bl k.
Proof.
  revert k. induction bl as [| b bl IH]; intros k H; cbn; [done |]. rewrite H, IH by set_solver. done.
Qed.

Lemma install_writes_ext start look look' bl k :
  (forall i, k <= i < k + Z.of_nat (length bl) -> look' (start + 1 + i) = look (start + 1 + i)) ->
  install_writes start look' bl k = install_writes start look bl k.
Proof.
  revert k. induction bl as [| b bl IH]; intros k H; cbn; [done |]. cbn [length] in H. rewrite H by lia. f_equal. apply IH. intros i Hi. apply H. lia.
Qed.

Lemma write_log_loop_ok h w g bl : forall bc v tail,
  log_ok g tail bl -> bsim bc v -> v_own v = ∅ -> (forall b, b ∈ bl -> b ∈ v_pin v) ->
  Z.of_nat (size (v_pin v)) < NBUF ->
  exists bc', write_log_loop (length bl) tail (Lst h w g bc) = Ret tt (Lst h w g bc') /\
    bsim bc' (v_after (log_writes (log_start g) (v_look v) bl tail) v).
Proof.
  induction bl as [| b bl IH]; intros bc v tail Hok B Ho Hpin Hs; cbn [length write_log_loop log_writes].
  { exists bc. by rewrite v_after_nil. }
  destruct (log_ok_tail g tail b bl Hok) as [Eb Hok']. pose proof Hok as [D1 D2 D3 D4 D5 D6].
  cbn [length] in *. destruct (D6 b) as [Hb1 Hb2]; [by left |].
  unfold get_log. rewrite (kbind_of (kgets _) _ _ _ _ eq_refl). cbn [ls_log]. rewrite D1, Eb, !u32_small by lia.
  replace (log_start g + tail + 1) with (log_start g + 1 + tail) by lia.
  edestruct (write_log_turn (write_log_loop (length bl) (tail + 1)) h w g bc v (log_start g + 1 + tail) b B Ho) as (bc1 & B1 & E1);
    [apply Hpin; by left | done | lia | lia | lia |].
  rewrite E1. destruct (IH bc1 _ (tail + 1) Hok' B1) as (bc' & E' & B'); [done | intros; apply Hpin; by right | done |].
  exists bc'. split; [exact E' |]. rewrite v_after_app in B'. cbn [app] in B'.
  rewrite (log_writes_ext _ (v_look v)) in B'; [exact B' |].
  intros x Hx. cbn. apply bupd_ne. destruct (D6 x) as [? ?]; [by right |]. lia.
Qed.

Lemma install_loop_ok h w g bl (recovering : bool) : forall bc v tail,
  log_ok g tail bl -> NoDup bl -> bsim bc v -> v_own v = ∅ ->
  v_pin v = (if recovering then ∅ else list_to_set bl) -> Z.of_nat (length bl) < NBUF ->
  (forall i, tail <= i < tail + Z.of_nat (length bl) -> v_look v (log_start g + 1 + i) = v_disk v (log_start g + 1 + i)) ->
  exists bc', install_loop (length bl) tail recovering (Lst h w g bc) = Ret tt (Lst h w g bc') /\
    bsim bc' (v_pinned ∅ (v_after (install_writes (log_start g) (v_look v) bl tail) v)).
Proof.
  induction bl as [| b bl IH]; intros bc v tail Hok Hnd B Ho Hpin Hlen Hcl; cbn [length install_loop install_writes].
  { exists bc. split; [done |]. rewrite v_after_nil.
    assert (v_pinned ∅ v = v) as ->; [| done]. destruct v; cbn in *. unfold v_pinned. cbn. f_equal. by destruct recovering. }
  destruct (log_ok_tail g tail b bl Hok) as [Eb Hok']. pose proof Hok as [D1 D2 D3 D4 D5 D6].
  inversion_clear Hnd as [| ? ? Hnb Hnd'].
  cbn [length] in *. destruct (D6 b) as [Hb1 Hb2]; [by left |].
  unfold get_log. rewrite (kbind_of (kgets _) _ _ _ _ eq_refl). cbn [ls_log]. rewrite D1, Eb, !u32_small by lia.
  replace (log_start g + tail + 1) with (log_start g + 1 + tail) by lia.
  edestruct (install_turn (install_loop (length bl) (tail + 1) recovering) h w g bc v (log_start g + 1 + tail) b recovering B Ho)
    as (bc1 & B1 & E1); [| | apply Hcl; lia | lia | lia | lia |].
  { rewrite Hpin. destruct recovering; [done |]. rewrite size_list_to_set by (by constructor). done. }
  { rewrite Hpin. destruct recovering; [done |]. set_solver. }
  rewrite E1. destruct (IH bc1 _ (tail + 1) Hok' Hnd' B1) as (bc' & E' & B'); [done | | lia | |].
  { cbn. rewrite Hpin. destruct recovering; [done |]. set_solver. }
  { intros i Hi. cbn. rewrite !bupd_ne by lia. apply Hcl. lia. }
  exists bc'. split; [exact E' |].
  match type of B' with bsim _ ?x => assert (v_pinned ∅ (v_after ((b, v_look v (log_start g + 1 + tail)) :: install_writes (log_start g) (v_look v) bl (tail + 1)) v) = x) as ->; [| exact B'] end.
  unfold v_pinned, v_after. cbn. rewrite <- app_assoc. cbn [app].
  rewrite (install_writes_ext _ (v_look v) (bupd (v_look v) b _)); [done |]. intros i Hi. by rewrite bupd_ne by lia.
Qed.

(** ** The header block *)

Definition head_data (g : logst) (d : bytes) : bytes :=
  write_blocks (Z.to_nat (lh_n g)) 0 g (put32 d 0 (lh_n g)).

Lemma get32_write_blocks_low g n : forall i d, 0 <= i -> get32 (write_blocks n i g d) 0 = get32 d 0.
Proof.
  induction n as [| n IH]; intros i d Hi; cbn; [done |]. rewrite IH by lia. apply get32_put32_ne. lia.
Qed.

Lemma length_write_blocks g n : forall i d, length (write_blocks n i g d) = length d.
Proof. induction n as [| n IH]; intros i d; cbn; [done |]. by rewrite IH, length_put32. Qed.

Lemma get32_write_blocks g n : forall i d j, 0 <= i -> 4 + 4 * (i + Z.of_nat n) <= Z.of_nat (length d) ->
  get32 (write_blocks n i g d) (4 + 4 * j) =
    if decide (i <= j < i + Z.of_nat n) then u32 (nthZ 0 (lh_block g) j) else get32 d (4 + 4 * j).
Proof.
  induction n as [| n IH]; intros i d j Hi Hl; cbn [write_blocks]; [by rewrite decide_False by lia |].
  rewrite IH by (rewrite ?length_put32; lia). destruct (decide (j = i)) as [-> | Hne].
  - rewrite decide_False, decide_True by lia. apply get32_put32_eq; lia.
  - rewrite get32_put32_ne by lia. repeat case_decide; done || lia.
Qed.

Lemma read_blocks_fields d n : forall i g,
  log_start (read_blocks n i d g) = log_start g /\ log_size (read_blocks n i d g) = log_size g /\
  outstanding (read_blocks n i d g) = outstanding g /\ committing (read_blocks n i d g) = committing g /\
  log_dev (read_blocks n i d g) = log_dev g /\ lh_n (read_blocks n i d g) = lh_n g /\
  length (lh_block (read_blocks n i d g)) = length (lh_block g).
Proof.
  induction n as [| n IH]; intros i g; cbn; [done |]. specialize (IH (i + 1) (set_block i (i32 (get32 d (4 + 4 * i))) g)).
  cbn in IH. by rewrite length_updZ in IH.
Qed.

Lemma read_blocks_nth d n : forall i g j, 0 <= i -> i + Z.of_nat n <= Z.of_nat (length (lh_block g)) ->
  nthZ 0 (lh_block (read_blocks n i d g)) j =
    if decide (i <= j < i + Z.of_nat n) then i32 (get32 d (4 + 4 * j)) else nthZ 0 (lh_block g) j.
Proof.
  induction n as [| n IH]; intros i g j Hi Hl; cbn [read_blocks]; [by rewrite decide_False by lia |].
  rewrite IH by (cbn; rewrite ?length_updZ; lia). cbn [lh_block set_block].
  rewrite nthZ_updZ by lia. destruct (decide (j = i)) as [-> | Hne].
  - rewrite Z.eqb_refl, decide_False, decide_True by lia. done.
  - rewrite (proj2 (Z.eqb_neq _ _)) by done. repeat case_decide; done || lia.
Qed.

Lemma head_block {A} (k : Z -> bytes -> K (lst S) A) h w g bc v :
  bsim bc v -> v_own v = ∅ -> Z.of_nat (size (v_pin v)) < NBUF ->
  log_dev g = ROOTDEV -> 0 <= log_start g < 2 ^ 31 ->
  exists b bc1, bsim bc1 (v_get b (log_start g) v) /\
    (buf <- zoom (bread (log_dev g) (u32 (log_start g))) ;;
     d <- kgets (fun s => b_data (ls_bc s) buf) ;; k buf d) (Lst h w g bc) =
    k b (v_look v (log_start g)) (Lst h w g bc1).
Proof.
  intros B Ho Hs Hd Hst. rewrite Hd, u32_small by lia.
  destruct (bread_law bc v (log_start g) B ltac:(lia)) as (b & bc1 & E1 & _ & B1);
    [intros x; by rewrite Ho | by apply room_small |].
  exists b, bc1. split; [done |]. zstep E1. rewrite (kbind_of (kgets _) _ _ _ _ eq_refl). cbn [ls_bc].
  destruct (data_law bc1 _ b (log_start g) B1) as [-> _]; [apply lookup_insert_eq | done].
Qed.

Lemma own_one (t x : Z) : delete t (<[t := x]> ∅) = (∅ : gmap Z Z).
Proof. apply map_empty. intros i. rewrite lookup_delete, lookup_insert, lookup_empty. by repeat case_decide. Qed.

Lemma write_head_ok h w g bc v :
  bsim bc v -> v_own v = ∅ -> Z.of_nat (size (v_pin v)) < NBUF ->
  log_dev g = ROOTDEV -> 0 <= log_start g < 2 ^ 31 ->
  exists bc', write_head (Lst h w g bc) = Ret tt (Lst h w g bc') /\
    bsim bc' (v_after [(log_start g, head_data g (v_look v (log_start g)))] v).
Proof.
  intros B Ho Hs Hd Hst. unfold write_head, get_log. rewrite (kbind_of (kgets _) _ _ _ _ eq_refl). cbn [ls_log].
  edestruct (head_block (fun buf d => zoom (b_store buf (write_blocks (Z.to_nat (lh_n g)) 0 g (put32 d 0 (lh_n g)))) >>
    zoom (bwrite buf) >> zoom (brelse buf)) h w g bc v B Ho Hs Hd Hst) as (b & bc1 & B1 & E1).
  rewrite E1. fold (head_data g (v_look v (log_start g))). set (hd := head_data _ _).
  destruct (store_law bc1 _ b (log_start g) hd B1) as (b3 & E3 & B3); [apply lookup_insert_eq |].
  destruct (bwrite_law b3 _ b (log_start g) B3) as (b4 & E4 & B4); [apply lookup_insert_eq |].
  destruct (brelse_law b4 _ b (log_start g) B4) as (b5 & E5 & B5); [apply lookup_insert_eq | right; cbn; by rewrite !bupd_eq |].
  exists b5. split.
  - zstep E3. zstep E4. by rewrite (zoom_bc _ h w g _ _ _ E5).
  - match type of B5 with bsim _ ?x => assert (v_after [(log_start g, hd)] v = x) as ->; [| exact B5] end.
    unfold v_after, v_put, v_write, v_store, v_get. cbn. by rewrite Ho, !bupd_eq, own_one.
Qed.

Lemma read_head_ok h w g bc v :
  bsim bc v -> v_own v = ∅ -> Z.of_nat (size (v_pin v)) < NBUF ->
  log_dev g = ROOTDEV -> 0 <= log_start g < 2 ^ 31 -> v_look v (log_start g) = v_disk v (log_start g) ->
  let d := v_look v (log_start g) in let n := i32 (get32 d 0) in
  exists bc', read_head (Lst h w g bc) = Ret tt (Lst h w (read_blocks (Z.to_nat n) 0 d (set_n n g)) bc') /\ bsim bc' v.
Proof.
  intros B Ho Hs Hd Hst Hcl d n. unfold read_head, get_log. rewrite (kbind_of (kgets _) _ _ _ _ eq_refl). cbn [ls_log].
  edestruct (head_block (fun buf d => let n := i32 (get32 d 0) in
    set_log (set_n n) >> set_log (read_blocks (Z.to_nat n) 0 d) >> zoom (brelse buf)) h w g bc v B Ho Hs Hd Hst) as (b & bc1 & B1 & E1).
  cbv zeta in E1 |- *. rewrite E1. fold d. fold n.
  destruct (brelse_law bc1 _ b (log_start g) B1) as (b5 & E5 & B5); [apply lookup_insert_eq | by right |].
  exists b5. split.
  - unfold set_log. kred. cbn [ls_held ls_woken ls_log ls_bc]. apply zoom_bc, E5.
  - match type of B5 with bsim _ ?x => assert (v = x) as ->; [| exact B5] end.
    unfold v_put, v_get. cbn. rewrite Ho, own_one. destruct v; cbn in *. by subst.
Qed.

(** ** What a disk promises: recovering it gives the home blocks [f]

    The header names the blocks [bl] whose new contents are in the log; every
    other home block already has its contents. *)
Record pending (start size : Z) (f D : Z -> bytes) (bl : list Z) : Prop := {
  pd_start : 0 <= start;
  pd_size : 1 + Z.of_nat (length bl) <= size;
  pd_end : start + size < 2 ^ 31;
  pd_len : Z.of_nat (length bl) < NBUF;
  pd_nodup : NoDup bl;
  pd_block : length (D start) = 1024%nat;
  pd_n : i32 (get32 (D start) 0) = Z.of_nat (length bl);
  pd_bl : forall i b, bl !! i = Some b -> i32 (get32 (D start) (4 + 4 * Z.of_nat i)) = b;
  pd_home : forall b, b ∈ bl -> 0 <= b < 2 ^ 31 /\ (b < start \/ start + size <= b);
  pd_log : forall i b, bl !! i = Some b -> D (start + 1 + Z.of_nat i) = f b;
  pd_rest : forall b, b < start \/ start + size <= b -> b ∉ bl -> D b = f b;
}.

(** A write outside the log, of the right contents, keeps the promise. *)
Lemma pending_home_write start size f D bl b :
  pending start size f D bl -> b < start \/ start + size <= b -> pending start size f (bupd D b (f b)) bl.
Proof.
  intros [P1 P2 P3 P4 P5 P6 P7 P8 P9 P10 P11] Hb.
  assert (bupd D b (f b) start = D start) as Es by (apply bupd_ne; lia).
  split; rewrite ?Es; try done.
  - intros i x Hi. pose proof (lookup_lt_Some _ _ _ Hi). rewrite bupd_ne by lia. by apply P10.
  - intros x Hx Hn. unfold bupd. case_decide; [by subst | by apply P11].
Qed.

Lemma pending_home_writes start size f bl ws : forall D,
  pending start size f D bl ->
  (forall w, w ∈ ws -> (w.1 < start \/ start + size <= w.1) /\ w.2 = f w.1) ->
  pending start size f (apply_writes ws D) bl.
Proof.
  induction ws as [| w ws IH]; intros D P H; [done |]. cbn. apply IH; [| set_solver].
  destruct (H w) as [Hb Hf]; [by left |]. rewrite Hf. by apply pending_home_write.
Qed.

(** Clearing the header once every home block has its contents. *)
Lemma pending_clear start size f D bl bl' d :
  pending start size f D bl -> (forall b, b < start \/ start + size <= b -> D b = f b) ->
  length d = 1024%nat -> get32 d 0 = 0 -> bl' = [] -> pending start size f (bupd D start d) bl'.
Proof.
  intros [P1 P2 P3 P4 P5 P6 P7 P8 P9 P10 P11] Hall Hd H0 ->.
  split; rewrite ?bupd_eq; try done; try (cbn [length] in *; lia); try (by constructor).
  - by rewrite H0.
  - set_solver.
  - intros b Hb _. rewrite bupd_ne by lia. by apply Hall.
Qed.

Lemma in_install_writes start look bl k w :
  w ∈ install_writes start look bl k <-> exists i b, bl !! i = Some b /\ w = (b, look (start + 1 + k + Z.of_nat i)).
Proof.
  revert k. induction bl as [| b bl IH]; intros k; cbn [install_writes].
  - split; [intros H; by apply elem_of_nil in H | intros (i & b & H & _); by rewrite lookup_nil in H].
  - rewrite elem_of_cons, IH. split.
    + intros [-> | (i & x & Hi & ->)].
      * exists 0%nat, b. split; [done |]. do 2 f_equal. lia.
      * exists (Datatypes.S i), x. split; [done |]. do 2 f_equal. lia.
    + intros ([| i] & x & Hi & ->); cbn in Hi.
      * injection Hi as ->. left. do 2 f_equal. lia.
      * right. exists i, x. split; [done |]. do 2 f_equal. lia.
Qed.

(** Applied writes whose value depends on the block only. *)
Lemma apply_writes_fun ws f : forall D b,
  (forall w, w ∈ ws -> w.2 = f w.1) -> b ∈ map fst ws -> apply_writes ws D b = f b.
Proof.
  induction ws as [| w ws IH]; intros D b H Hb; [by apply elem_of_nil in Hb |]. cbn.
  destruct (decide (b ∈ map fst ws)) as [Hin | Hin]; [apply IH; [set_solver | done] |].
  cbn in Hb. apply elem_of_cons in Hb as [-> | ?]; [| done].
  rewrite apply_writes_other; [rewrite bupd_eq; apply H; by left |].
  intros x Hx E. apply Hin. rewrite <- E. by apply list_elem_of_fmap_2.
Qed.

Lemma map_fst_install start look bl k : map fst (install_writes start look bl k) = bl.
Proof. revert k. induction bl as [| b bl IH]; intros k; cbn; [done |]. by rewrite IH. Qed.

(** [recover_from_log] on a disk that promises [f]. *)
Definition fresh_log (start size : Z) (blk : list Z) : logst := LogSt start size 0 0 ROOTDEV 0 blk.

Lemma recover_pending start size f D bl h w bc blk :
  pending start size f D bl -> length blk = Z.to_nat LOGSIZE ->
  bsim bc (View D D [] ∅ ∅) ->
  exists ws g' bc', recover_from_log (Lst h w (fresh_log start size blk) bc) = Ret tt (Lst h w g' bc') /\
    lh_n g' = 0 /\ bsim bc' (View (apply_writes ws D) (apply_writes ws D) ws ∅ ∅) /\
    pending start size f (apply_writes ws D) [] /\
    forall k, exists bl', pending start size f (apply_writes (take k ws) D) bl'.
Proof.
  intros P Hblk B. pose proof P as [P1 P2 P3 P4 P5 P6 P7 P8 P9 P10 P11].
  unfold recover_from_log.
  destruct (read_head_ok h w (fresh_log start size blk) bc _ B) as (bc1 & E1 & B1);
    [done | by vm_compute | done | cbn; lia | done |].
  rewrite (kbind_of _ _ _ _ _ E1). cbn [log_start fresh_log v_look]. rewrite P7, Nat2Z.id.
  set (g1 := read_blocks _ _ _ _).
  assert (log_start g1 = start /\ log_dev g1 = ROOTDEV /\ lh_n g1 = Z.of_nat (length bl)) as (G1 & G2 & G3).
  { destruct (read_blocks_fields (D start) (length bl) 0 (set_n (Z.of_nat (length bl)) (fresh_log start size blk)))
      as (? & ? & ? & ? & ? & ? & ?). done. }
  assert (log_ok g1 0 bl) as Hok.
  { split; rewrite ?G1; try done; try lia.
    - intros i b Hi. pose proof (lookup_lt_Some _ _ _ Hi). unfold g1. cbn [lh_block set_n fresh_log].
      change NBUF with 30 in P4. change (Z.to_nat LOGSIZE) with 30%nat in Hblk.
      rewrite read_blocks_nth by (cbn; lia). rewrite decide_True by lia. by apply P8.
    - intros b Hb. destruct (P9 b Hb). split; [done |]. lia. }
  unfold install_trans, get_log. rewrite kbind_assoc, (kbind_of (kgets _) _ _ _ _ eq_refl). cbn [ls_log].
  rewrite G3, Nat2Z.id.
  destruct (install_loop_ok h w g1 bl true bc1 _ 0 Hok P5 B1) as (bc2 & E2 & B2); try done.
  rewrite (kbind_of _ _ _ _ _ E2). unfold set_log at 1. rewrite (kbind_of (kmod _) _ _ tt _ eq_refl). cbn [ls_held ls_woken ls_log ls_bc].
  rewrite G1 in B2. set (iw := install_writes _ _ _ _) in *. cbn in iw.
  destruct (write_head_ok h w (set_n 0 g1) bc2 _ B2) as (bc3 & E3 & B3);
    [done | by vm_compute | done | cbn; rewrite G1; lia |].
  cbn [log_start set_n] in B3. rewrite G1 in *.
  set (hd := head_data _ _) in B3.
  assert (forall x, x ∈ iw -> (x.1 < start \/ start + size <= x.1) /\ x.2 = f x.1) as Hiw.
  { intros x (i & b & Hi & ->)%in_install_writes. cbn.
    split; [apply P9; by eapply list_elem_of_lookup_2 |]. rewrite Z.add_0_r. by apply P10. }
  assert (forall b, b < start \/ start + size <= b -> apply_writes iw D b = f b) as Hhome.
  { intros b Hb. destruct (decide (b ∈ bl)) as [Hin | Hin].
    - apply apply_writes_fun; [intros; by apply Hiw |]. unfold iw. by rewrite map_fst_install.
    - rewrite apply_writes_other; [by apply P11 |]. intros x Hx E. apply Hin. rewrite <- E.
      rewrite <- (map_fst_install start D bl 0). by apply list_elem_of_fmap_2. }
  assert (length hd = 1024%nat /\ get32 hd 0 = 0) as [Hd1 Hd2].
  { assert (apply_writes iw D start = D start) as Es.
    { apply apply_writes_other. intros x Hx E. destruct (Hiw x Hx). lia. }
    unfold hd, head_data. cbn. rewrite Es. change (Z.to_nat 0) with 0%nat. cbn [write_blocks]. rewrite length_put32. split; [done |].
    rewrite get32_put32_eq by lia. done. }
  assert (forall k, k = length iw -> pending start size f (apply_writes (iw ++ [(start, hd)]) D) []) as Hend.
  { intros _ _. rewrite apply_writes_app. cbn. eapply pending_clear; try done. by apply pending_home_writes. }
  exists (iw ++ [(start, hd)]), (set_n 0 g1), bc3. split_and!; [exact E3 | done | | by eapply Hend |].
  - rewrite apply_writes_app. exact B3.
  - intros k. destruct (decide (k <= length iw)%nat) as [Hk | Hk].
    + exists bl. rewrite take_app_le by done. apply pending_home_writes; [done |].
      intros x Hx. apply Hiw. rewrite <- (take_drop k iw). set_solver.
    + exists []. rewrite take_ge by (rewrite length_app; cbn; lia). by eapply Hend.
Qed.

(** ** [commit] *)

(** The state [commit] starts from: the blocks [bl] are logged and pinned,
    everything else the kernel sees is on disk, the log on disk is empty. *)
Record commit_pre (g : logst) v (bl : list Z) : Prop := {
  cp_ok : log_ok g 0 bl;
  cp_n : lh_n g = Z.of_nat (length bl);
  cp_size : 1 + Z.of_nat (length bl) <= log_size g;
  cp_end : log_start g + log_size g < 2 ^ 31;
  cp_len : Z.of_nat (length bl) < NBUF;
  cp_nodup : NoDup bl;
  cp_home : forall b, b ∈ bl -> b < log_start g \/ log_start g + log_size g <= b;
  cp_own : v_own v = ∅;
  cp_pin : v_pin v = list_to_set bl;
  cp_clean : forall b, b ∉ bl -> v_look v b = v_disk v b;
  cp_block : length (v_disk v (log_start g)) = 1024%nat;
  cp_empty : get32 (v_disk v (log_start g)) 0 = 0;
}.

Lemma in_log_writes start look bl k w :
  w ∈ log_writes start look bl k <-> exists i b, bl !! i = Some b /\ w = (start + 1 + k + Z.of_nat i, look b).
Proof.
  revert k. induction bl as [| b bl IH]; intros k; cbn [log_writes].
  - split; [intros H; by apply elem_of_nil in H | intros (i & b & H & _); by rewrite lookup_nil in H].
  - rewrite elem_of_cons, IH. split.
    + intros [-> | (i & x & Hi & ->)].
      * exists 0%nat, b. split; [done |]. f_equal. lia.
      * exists (Datatypes.S i), x. split; [done |]. f_equal. lia.
    + intros ([| i] & x & Hi & ->); cbn in Hi.
      * injection Hi as ->. left. f_equal. lia.
      * right. exists i, x. split; [done |]. f_equal. lia.
Qed.

Lemma apply_log_writes start look bl : forall k D i b, bl !! i = Some b ->
  apply_writes (log_writes start look bl k) D (start + 1 + k + Z.of_nat i) = look b.
Proof.
  induction bl as [| x bl IH]; intros k D [| i] b Hi; cbn in Hi; try done; cbn [log_writes]; cbn.
  - injection Hi as ->. fold (apply_writes (log_writes start look bl (k + 1)) (bupd D (start + 1 + k) (look b))).
    rewrite apply_writes_other; [replace (start + 1 + k + Z.of_nat 0) with (start + 1 + k) by lia; apply bupd_eq |].
    intros w (j & y & _ & ->)%in_log_writes. cbn. lia.
  - specialize (IH (k + 1) (bupd D (start + 1 + k) (look x)) i b Hi). unfold apply_writes in IH.
    rewrite <- IH. f_equal. lia.
Qed.

Definition commit_writes (g : logst) v (bl : list Z) : list (Z * bytes) :=
  let hd := head_data g (v_look v (log_start g)) in
  log_writes (log_start g) (v_look v) bl 0 ++ [(log_start g, hd)] ++
  map (fun b => (b, v_look v b)) bl ++ [(log_start g, put32 hd 0 0)].

Lemma commit_ok h w g bc v bl :
  commit_pre g v bl -> bl <> [] -> bsim bc v ->
  exists bc', commit (Lst h w g bc) = Ret tt (Lst h w (set_n 0 g) bc') /\
    bsim bc' (v_pinned ∅ (v_after (commit_writes g v bl) v)).
Proof.
  intros [C1 C2 C3 C4 C5 C6 C7 C8 C9 C10 C11 C12] Hne B. pose proof C1 as [D1 D2 D3 D4 D5 D6].
  set (start := log_start g) in *.
  assert (0 < Z.of_nat (length bl)) as Hpos by (destruct bl; [done | cbn; lia]).
  assert (Z.of_nat (size (v_pin v)) < NBUF) as Hsz by (rewrite C9, size_list_to_set by done; done).
  unfold commit, get_log. rewrite (kbind_of (kgets _) _ _ _ _ eq_refl). cbn [ls_log]. rewrite C2.
  replace (0 <? _) with true by lia.
  unfold write_log, get_log. rewrite kbind_assoc, (kbind_of (kgets _) _ _ _ _ eq_refl). cbn [ls_log]. rewrite C2, Nat2Z.id.
  destruct (write_log_loop_ok h w g bl bc v 0 C1 B C8) as (bc1 & E1 & B1); [rewrite C9; set_solver | done |].
  rewrite (kbind_of _ _ _ _ _ E1). fold start in B1.
  set (W1 := log_writes start (v_look v) bl 0) in *.
  destruct (write_head_ok h w g bc1 _ B1 C8 Hsz D1 ltac:(lia)) as (bc2 & E2 & B2).
  rewrite (kbind_of _ _ _ _ _ E2). fold start in B2. rewrite v_after_app in B2.
  assert (apply_writes W1 (v_look v) start = v_look v start) as Es.
  { apply apply_writes_other. intros x (i & b & _ & ->)%in_log_writes. cbn. lia. }
  cbn [v_look v_after] in B2. rewrite Es in B2. set (hd := head_data g (v_look v start)) in *.
  unfold install_trans, get_log. rewrite kbind_assoc, (kbind_of (kgets _) _ _ _ _ eq_refl). cbn [ls_log]. rewrite C2, Nat2Z.id.
  assert (forall D i b, bl !! i = Some b -> apply_writes (W1 ++ [(start, hd)]) D (start + 1 + Z.of_nat i) = v_look v b) as Hlog.
  { intros D i b Hi. rewrite apply_writes_app. cbn. rewrite bupd_ne by lia.
    rewrite <- (apply_log_writes start (v_look v) bl 0 D i b Hi). unfold W1. f_equal. lia. }
  destruct (install_loop_ok h w g bl false bc2 _ 0 C1 C6 B2 C8 C9 C5) as (bc3 & E3 & B3).
  { intros i Hi. destruct (lookup_lt_is_Some_2 bl (Z.to_nat i)) as [b Hb]; [lia |].
    cbn [v_look v_disk v_after]. fold start. replace i with (Z.of_nat (Z.to_nat i)) by lia. by rewrite !(Hlog _ _ b). }
  rewrite (kbind_of _ _ _ _ _ E3). fold start in B3. unfold set_log at 1. rewrite (kbind_of (kmod _) _ _ tt _ eq_refl).
  cbn [ls_held ls_woken ls_log ls_bc].
  assert (install_writes start (v_look (v_after (W1 ++ [(start, hd)]) v)) bl 0 = map (fun b => (b, v_look v b)) bl) as EW2.
  { cbn [v_look v_after].
    assert (forall l k, (forall i b, l !! i = Some b -> apply_writes (W1 ++ [(start, hd)]) (v_look v) (start + 1 + k + Z.of_nat i) = v_look v b) ->
      install_writes start (apply_writes (W1 ++ [(start, hd)]) (v_look v)) l k = map (fun b => (b, v_look v b)) l) as Hgen.
    { induction l as [| b l IH]; intros k Hl; cbn [install_writes map]; [done |].
      f_equal; [f_equal; rewrite <- (Hl 0%nat b eq_refl); f_equal; lia |].
      apply IH. intros i x Hi. rewrite <- (Hl (Datatypes.S i) x Hi). f_equal. lia. }
    apply Hgen. intros i b Hi. rewrite <- (Hlog (v_look v) i b Hi). f_equal. lia. }
  rewrite EW2 in B3. set (W2 := map _ bl) in *.
  destruct (write_head_ok h w (set_n 0 g) bc3 _ B3) as (bc4 & E4 & B4);
    [done | by vm_compute | done | cbn; lia |].
  exists bc4. split; [exact E4 |]. cbn [log_start set_n] in B4. fold start in B4.
  assert (apply_writes W2 (apply_writes (W1 ++ [(start, hd)]) (v_look v)) start = hd) as Es2.
  { rewrite apply_writes_other.
    - rewrite apply_writes_app. cbn. apply bupd_eq.
    - intros x (b & -> & Hb)%list_elem_of_fmap. cbn. destruct (C7 b Hb); lia. }
  assert (head_data (set_n 0 g) hd = put32 hd 0 0) as Eh by done.
  match type of B4 with bsim _ ?x => assert (v_pinned ∅ (v_after (commit_writes g v bl) v) = x) as ->; [| exact B4] end.
  unfold v_pinned, v_after, commit_writes. fold start hd W1 W2. cbn [v_look v_disk v_hist v_own v_pin].
  rewrite Es2, Eh, !apply_writes_app, <- !app_assoc. done.
Qed.

(** The two halves of a commit: before the header write the disk still
    promises the old contents, from then on the new ones. *)
Section halves.
Context (g : logst) (v : bview) (bl : list Z) (C : commit_pre g v bl).
Abbreviation start := (log_start g).
Abbreviation hd := (head_data g (v_look v start)).
Abbreviation W1 := (log_writes start (v_look v) bl 0).

Lemma commit_start : v_look v start = v_disk v start.
Proof.
  destruct C as [C1 C2 C3 C4 C5 C6 C7 C8 C9 C10 C11 C12]. apply C10. intros H.
  destruct (C7 _ H); lia.
Qed.

Lemma before_header ws :
  (forall x, x ∈ ws -> x ∈ W1) -> pending start (log_size g) (v_disk v) (apply_writes ws (v_disk v)) [].
Proof.
  intros Hs. destruct C as [C1 C2 C3 C4 C5 C6 C7 C8 C9 C10 C11 C12]. pose proof C1 as [D1 D2 D3 D4 D5 D6].
  assert (forall x, x ∈ ws -> start < x.1 < start + log_size g) as Hin.
  { intros x Hx. specialize (Hs x Hx). apply in_log_writes in Hs as (i & b & Hi & ->).
    cbn. apply lookup_lt_Some in Hi. lia. }
  assert (apply_writes ws (v_disk v) start = v_disk v start) as Es.
  { apply apply_writes_other. intros x Hx. specialize (Hin x Hx). lia. }
  split; rewrite ?Es; try done; try (cbn; lia); try (by constructor).
  - by rewrite C12.
  - set_solver.
  - intros b Hb _. apply apply_writes_other. intros x Hx. specialize (Hin x Hx). lia.
Qed.

Lemma after_header : pending start (log_size g) (v_look v) (apply_writes (W1 ++ [(start, hd)]) (v_disk v)) bl.
Proof.
  pose proof commit_start as Es. destruct C as [C1 C2 C3 C4 C5 C6 C7 C8 C9 C10 C11 C12].
  pose proof C1 as [D1 D2 D3 D4 D5 D6]. change NBUF with 30 in C5.
  assert (length (v_look v start) = 1024%nat) as Hl by (by rewrite Es).
  rewrite apply_writes_app. cbn.
  split; rewrite ?bupd_eq; try done; try lia.
  - unfold head_data. by rewrite length_write_blocks, length_put32.
  - unfold head_data. rewrite get32_write_blocks_low, get32_put32_eq, C2 by lia.
    rewrite u32_small, i32_small by lia. done.
  - intros i b Hi. pose proof (lookup_lt_Some _ _ _ Hi). unfold head_data.
    rewrite get32_write_blocks by (rewrite ?length_put32; lia). rewrite decide_True by lia.
    specialize (D5 i b Hi). rewrite Z.add_0_l in D5. rewrite D5.
    destruct (D6 b) as [? _]; [by eapply list_elem_of_lookup_2 |]. rewrite u32_small, i32_small by lia. done.
  - intros b Hb. split; [by apply D6 | by apply C7].
  - intros i b Hi. rewrite bupd_ne by lia. rewrite <- (apply_log_writes start (v_look v) bl 0 (v_disk v) i b Hi).
    f_equal. lia.
  - intros b Hb Hn. rewrite bupd_ne by lia. rewrite C10 by done. apply apply_writes_other.
    intros x (i & y & Hi & ->)%in_log_writes. apply lookup_lt_Some in Hi. cbn. lia.
Qed.

Abbreviation W2 := (map (fun b => (b, v_look v b)) bl).

Lemma home_writes_ok x : x ∈ W2 -> (x.1 < start \/ start + log_size g <= x.1) /\ x.2 = v_look v x.1.
Proof. intros (b & -> & Hb)%list_elem_of_fmap. cbn. split; [by apply (cp_home _ _ _ C) | done]. Qed.

Lemma commit_done : pending start (log_size g) (v_look v) (apply_writes (commit_writes g v bl) (v_disk v)) [].
Proof.
  pose proof after_header as P0. unfold commit_writes. cbv zeta.
  rewrite app_assoc, apply_writes_app. set (D := apply_writes (W1 ++ _) (v_disk v)) in *. rewrite apply_writes_app. cbn.
  pose proof (pd_block _ _ _ _ _ P0) as Hl. unfold D in Hl. rewrite apply_writes_app in Hl. cbn in Hl. rewrite bupd_eq in Hl.
  eapply pending_clear; [by apply pending_home_writes, home_writes_ok | | by rewrite length_put32 | | done].
  - intros b Hb. destruct (decide (b ∈ bl)) as [Hin | Hin].
    + apply apply_writes_fun; [intros; by apply home_writes_ok |]. rewrite map_map. cbn. by rewrite map_id.
    + rewrite apply_writes_other; [by apply (pd_rest _ _ _ _ _ P0) |].
      intros x (y & -> & Hy)%list_elem_of_fmap. cbn. congruence.
  - rewrite get32_put32_eq by lia. done.
Qed.

Lemma commit_prefix k : exists bl',
  pending start (log_size g) (v_disk v) (apply_writes (take k (commit_writes g v bl)) (v_disk v)) bl' \/
  pending start (log_size g) (v_look v) (apply_writes (take k (commit_writes g v bl)) (v_disk v)) bl'.
Proof.
  pose proof commit_done as Pd. revert Pd. unfold commit_writes. cbv zeta. intros Pd.
  destruct (decide (k <= length W1)%nat) as [Hk | Hk].
  { exists []. left. rewrite take_app_le by done. apply before_header.
    intros x Hx. rewrite <- (take_drop k W1). set_solver. }
  pose proof after_header as P0. rewrite app_assoc in *.
  rewrite take_app_ge by (rewrite length_app; cbn; lia). set (j := (k - _)%nat).
  destruct (decide (j <= length W2)%nat) as [Hj | Hj].
  - exists bl. right. rewrite take_app_le, apply_writes_app by done. apply pending_home_writes; [done |].
    intros x Hx. apply home_writes_ok. rewrite <- (take_drop j W2). set_solver.
  - exists []. right. rewrite take_ge by (rewrite length_app; cbn; lia). exact Pd.
Qed.
End halves.

(** ** Crash and recovery *)

Lemma pending_ext start size f D D' bl :
  (forall b, D' b = D b) -> pending start size f D bl -> pending start size f D' bl.
Proof.
  intros H [P1 P2 P3 P4 P5 P6 P7 P8 P9 P10 P11]. split; rewrite ?H; try done.
  - intros i b Hi. rewrite H. by apply P10.
  - intros b Hb Hn. rewrite H. by apply P11.
Qed.

(** The contents of a disk image. *)
Definition image (d : gmap Z bytes) : Z -> bytes := fun b => default zero_block (d !! b).

(** The state of a restarted kernel just before recovery. *)
Definition restart (start size : Z) (blk : list Z) (d : gmap Z bytes) : lst S :=
  Lst ∅ [] (fresh_log start size blk) (b_boot d).

Lemma recover_image start size f D bl d blk :
  pending start size f D bl -> length blk = Z.to_nat LOGSIZE -> (forall b, image d b = D b) ->
  exists ws g' bc', recover_from_log (restart start size blk d) = Ret tt (Lst ∅ [] g' bc') /\
    lh_n g' = 0 /\ bsim bc' (View (apply_writes ws (image d)) (apply_writes ws (image d)) ws ∅ ∅) /\
    pending start size f (apply_writes ws (image d)) [] /\
    forall k, exists bl', pending start size f (apply_writes (take k ws) (image d)) bl'.
Proof.
  intros P Hb Hd. eapply recover_pending; [| done | apply boot_law]. by eapply pending_ext.
Qed.

(** C1: a commit is atomic with respect to crashes.  Commit returns, the home
    blocks on disk are then what the kernel saw, and nothing stays pinned.
    Whatever prefix of its disk writes a crash lets through, restarting on
    that disk and running recovery returns, with every home block either as
    before the transaction or as after it: all old, or all new. *)
Theorem commit_atomic h w g bc v bl :
  commit_pre g v bl -> bl <> [] -> bsim bc v ->
  let home b := b < log_start g \/ log_start g + log_size g <= b in
  exists bc' v' ws, commit (Lst h w g bc) = Ret tt (Lst h w (set_n 0 g) bc') /\ bsim bc' v' /\
    v_hist v' = v_hist v ++ ws /\ v_pin v' = ∅ /\ (forall b, home b -> v_disk v' b = v_look v b) /\
    forall k d blk, length blk = Z.to_nat LOGSIZE ->
      (forall b, image d b = apply_writes (take k ws) (v_disk v) b) ->
      exists g2 bc2 v2, recover_from_log (restart (log_start g) (log_size g) blk d) = Ret tt (Lst ∅ [] g2 bc2) /\
        lh_n g2 = 0 /\ bsim bc2 v2 /\
        ((forall b, home b -> v_disk v2 b = v_disk v b) \/ (forall b, home b -> v_disk v2 b = v_look v b)).
Proof.
  intros C Hne B home. destruct (commit_ok h w g bc v bl C Hne B) as (bc' & E & B').
  eexists bc', _, (commit_writes g v bl). split_and!; [exact E | exact B' | done | done | |].
  - intros b Hb. apply (pd_rest _ _ _ _ _ (commit_done g v bl C) b Hb). set_solver.
  - intros k d blk Hblk Hd. destruct (commit_prefix g v bl C k) as (bl' & [P | P]);
      destruct (recover_image _ _ _ _ bl' d blk P Hblk Hd) as (ws & g2 & bc2 & E2 & Hn & B2 & P2 & _);
      eexists g2, bc2, _; (split_and!; [exact E2 | exact Hn | exact B2 |]); [left | right];
      intros b Hb; apply (pd_rest _ _ _ _ _ P2 b Hb); set_solver.
Qed.

(** C27: recovery may itself crash.  On a disk that promises the home blocks
    [f], recovery returns with the home blocks equal to [f]; and on the disk
    left by any prefix of its writes, recovering again returns with the home
    blocks equal to [f] too. *)
Theorem recovery_restartable start size f bl d blk :
  pending start size f (image d) bl -> length blk = Z.to_nat LOGSIZE ->
  let home b := b < start \/ start + size <= b in
  exists g1 bc1 v1 ws, recover_from_log (restart start size blk d) = Ret tt (Lst ∅ [] g1 bc1) /\
    bsim bc1 v1 /\ v_hist v1 = ws /\ (forall b, home b -> v_disk v1 b = f b) /\
    forall k d', (forall b, image d' b = apply_writes (take k ws) (image d) b) ->
      exists g2 bc2 v2, recover_from_log (restart start size blk d') = Ret tt (Lst ∅ [] g2 bc2) /\
        bsim bc2 v2 /\ (forall b, home b -> v_disk v2 b = f b).
Proof.
  intros P Hblk home.
  destruct (recover_image start size f _ bl d blk P Hblk (fun _ => eq_refl)) as (ws & g1 & bc1 & E1 & _ & B1 & P1 & Hk).
  eexists g1, bc1, _, ws. split_and!; [exact E1 | exact B1 | done | |].
  - intros b Hb. apply (pd_rest _ _ _ _ _ P1 b Hb). set_solver.
  - intros k d' Hd'. destruct (Hk k) as (bl' & P').
    destruct (recover_image start size f _ bl' d' blk P' Hblk Hd') as (ws2 & g2 & bc2 & E2 & _ & B2 & P2 & _).
    eexists g2, bc2, _. split_and!; [exact E2 | exact B2 |].
    intros b Hb. apply (pd_rest _ _ _ _ _ P2 b Hb). set_solver.
Qed.


(** ** Transactions under way *)

(** The in-memory header lists the blocks [bl], all pinned; every block that
    is neither listed nor locked is on disk as the kernel sees it. *)
Record txn (g : logst) v (bl : list Z) : Prop := {
  tx_ok : log_ok g 0 bl;
  tx_n : lh_n g = Z.of_nat (length bl);
  tx_slots : length (lh_block g) = Z.to_nat LOGSIZE;
  tx_nodup : NoDup bl;
  tx_home : forall b, b ∈ bl -> b < log_start g \/ log_start g + log_size g <= b;
  tx_pin : v_pin v = list_to_set bl;
  tx_clean : forall b, b ∉ bl -> free_block v b -> v_look v b = v_disk v b;
}.

Lemma find_slot_spec g bno bl : forall k,
  (forall i b, bl !! i = Some b -> nthZ 0 (lh_block g) (k + Z.of_nat i) = b /\ 0 <= b < 2 ^ 31) ->
  (bno ∈ bl /\ exists i, bl !! i = Some bno /\ find_slot (length bl) k g bno = k + Z.of_nat i) \/
  (bno ∉ bl /\ find_slot (length bl) k g bno = k + Z.of_nat (length bl)).
Proof.
  induction bl as [| b bl IH]; intros k H; cbn [length find_slot].
  { right. split; [set_solver |]. lia. }
  destruct (H 0%nat b eq_refl) as [Hb Hr]. rewrite Z.add_0_r in Hb. rewrite Hb, u32_small by lia.
  destruct (b =? bno) eqn:E; zbool.
  - left. subst. split; [by left |]. exists 0%nat. split; [done |]. lia.
  - destruct (IH (k + 1)) as [(Hin & i & Hi & ->) | (Hin & ->)].
    { intros i x Hi. destruct (H (Datatypes.S i) x Hi) as [<- ?]. split; [f_equal; lia | done]. }
    + left. split; [by right |]. exists (Datatypes.S i). split; [done |]. lia.
    + right. split; [by rewrite not_elem_of_cons |]. lia.
Qed.

(** [log_write] on every branch. *)
Lemma log_write_ok h w g bc v bl b bno :
  txn g v bl -> bsim bc v -> v_own v !! b = Some bno -> log_lock ∉ h ->
  0 <= bno < 2 ^ 31 -> bno < log_start g \/ log_start g + log_size g <= bno ->
  log_size g <= LOGSIZE -> log_start g + log_size g < 2 ^ 31 ->
  let s := Lst h w g bc in
  if decide (log_size g - 1 <= Z.of_nat (length bl)) then log_write b s = Panic "too big a transaction"
  else if decide (outstanding g < 1) then log_write b s = Panic "log_write outside of trans"
  else let bl' := if decide (bno ∈ bl) then bl else bl ++ [bno] in
    exists g' bc', log_write b s = Ret tt (Lst h w g' bc') /\
      bsim bc' (v_pinned (list_to_set bl') v) /\ txn g' (v_pinned (list_to_set bl') v) bl' /\
      outstanding g' = outstanding g /\ log_start g' = log_start g /\ log_size g' = log_size g.
Proof.
  intros [T1 T2 T3 T4 T5 T6 T7] B Ho Hl Hbno Hhome Hsz Hend s. subst s. cbv zeta. pose proof T1 as [D1 D2 D3 D4 D5 D6].
  unfold log_write. erewrite kbind_of by (apply zoom_acquire; exact Hl).
  unfold get_log. rewrite (kbind_of (kgets _) _ _ _ _ eq_refl). cbn [ls_log ls_held ls_woken ls_bc lset lget lst_locks]. rewrite T2.
  destruct (decide (log_size g - 1 <= Z.of_nat (length bl))) as [Hf | Hf].
  { replace (log_size g - 1 <=? Z.of_nat (length bl)) with true by lia. by rewrite orb_true_r. }
  replace ((LOGSIZE <=? Z.of_nat (length bl)) || (log_size g - 1 <=? Z.of_nat (length bl)))%bool with false
    by (symmetry; apply orb_false_iff; lia).
  destruct (decide (outstanding g < 1)) as [Hout | Hout]; [by replace (outstanding g <? 1) with true by lia |].
  replace (outstanding g <? 1) with false by lia.
  rewrite (kbind_of (kgets _) _ _ _ _ eq_refl). cbn [ls_bc].
  destruct (data_law bc v b bno B Ho) as [_ Hbn]. rewrite Hbn, Nat2Z.id.
  destruct (find_slot_spec g bno bl 0) as [(Hin & i & Hi & ->) | (Hin & ->)].
  { intros i x Hi. split; [by apply D5 | apply D6; by eapply list_elem_of_lookup_2]. }
  - rewrite decide_True by done. pose proof (lookup_lt_Some _ _ _ Hi).
    unfold set_log at 1. rewrite (kbind_of (kmod _) _ _ tt _ eq_refl). rewrite Z.add_0_l.
    replace (Z.of_nat i =? Z.of_nat (length bl)) with false by lia. cbn [kwhen].
    rewrite (kbind_of (kret _) _ _ _ _ eq_refl). erewrite zoom_release; [| exact Hl | done].
    assert (v_pinned (list_to_set bl) v = v) as -> by (destruct v; cbn in *; by subst).
    eexists _, bc. split_and!; [reflexivity | done | | done..]. rewrite i32_small by lia.
    split; try done; [split; try done | by rewrite <- T3; cbn; rewrite length_updZ].
    intros j x Hj. cbn. rewrite Z.add_0_l. specialize (D5 j x Hj). rewrite Z.add_0_l in D5.
    rewrite nthZ_updZ by lia. case_if; zbool; [| done]. assert (j = i) by lia. subst. congruence.
  - rewrite decide_False by done. unfold set_log at 1. rewrite (kbind_of (kmod _) _ _ tt _ eq_refl).
    rewrite Z.add_0_l, Z.eqb_refl. unfold kwhen. rewrite kbind_assoc. cbn [ls_held ls_woken ls_log ls_bc].
    destruct (bpin_law bc v b bno B Ho) as (bc' & E & B'); [rewrite T6; set_solver |].
    zstep E. unfold set_log. rewrite (kbind_of (kmod _) _ _ tt _ eq_refl).
    erewrite zoom_release; [| exact Hl | done]. rewrite i32_small by lia.
    assert (list_to_set (bl ++ [bno]) = {[bno]} ∪ v_pin v) as Es by (rewrite T6; set_solver).
    eexists _, bc'. rewrite Es. split_and!; [reflexivity | done | | done..].
    change (Z.to_nat LOGSIZE) with 30%nat in *. change LOGSIZE with 30 in *.
    split; cbn; rewrite ?length_app; cbn [length]; try done; try lia.
    + split; cbn; rewrite ?length_app; cbn [length]; try done; try lia.
      * intros j x Hj. rewrite nthZ_updZ by lia. destruct (decide (j = length bl)) as [-> | Hne].
        -- rewrite Z.eqb_refl. rewrite list_lookup_middle in Hj by done. congruence.
        -- replace (Z.of_nat j =? _) with false by lia. apply D5.
           pose proof (lookup_lt_Some _ _ _ Hj) as Hlt. rewrite length_app in Hlt. cbn in Hlt.
           by rewrite lookup_app_l in Hj by lia.
      * intros x [Hx | ->%list_elem_of_singleton]%elem_of_app; [destruct (D6 x Hx); split; [done |] | split; [lia |]].
        -- specialize (T5 x Hx). lia.
        -- lia.
    + by rewrite length_updZ.
    + apply NoDup_app. split_and!; [done | set_solver | apply NoDup_singleton].
    + intros x [Hx | ->%list_elem_of_singleton]%elem_of_app; [by apply T5 | lia].
    + intros x Hx Hfr. apply T7; [set_solver | done].
Qed.

(** C36: [log_write] records a block in the current transaction.  Outside a
    transaction, or with the log full, it panics; otherwise it returns, the
    block is listed exactly once (a block already listed is absorbed, a new
    one is appended and pinned), nothing else changes, and the invariant that
    [commit] relies on holds again. *)
Theorem log_write_correct h w g bc v bl b bno :
  txn g v bl -> bsim bc v -> v_own v !! b = Some bno -> log_lock ∉ h ->
  0 <= bno < 2 ^ 31 -> bno < log_start g \/ log_start g + log_size g <= bno ->
  log_size g <= LOGSIZE -> log_start g + log_size g < 2 ^ 31 ->
  let s := Lst h w g bc in
  if decide (log_size g - 1 <= Z.of_nat (length bl)) then log_write b s = Panic "too big a transaction"
  else if decide (outstanding g < 1) then log_write b s = Panic "log_write outside of trans"
  else let bl' := if decide (bno ∈ bl) then bl else bl ++ [bno] in
    exists g' bc', log_write b s = Ret tt (Lst h w g' bc') /\
      bsim bc' (v_pinned (list_to_set bl') v) /\ txn g' (v_pinned (list_to_set bl') v) bl' /\
      outstanding g' = outstanding g /\ log_start g' = log_start g /\ log_size g' = log_size g.
Proof. apply log_write_ok. Qed.

(** A transaction of one block on an empty disk. *)
Definition one_log : logst := LogSt 2 30 1 0 ROOTDEV 1 (100 :: replicate 29 0).
Definition one_data : bytes := replicate 1024 7.
#[local] Arguments one_data : simpl never.

Lemma one_block_txn : exists bc v, bsim bc v /\ commit_pre one_log v [100] /\ v_disk v = image ∅.
Proof.
  destruct (bread_law (b_boot ∅) _ 100 (boot_law ∅) ltac:(lia)) as (b & bc1 & _ & Hb & B1);
    [intros b; cbn; by rewrite lookup_empty | right; vm_compute; done |].
  destruct (store_law bc1 _ b 100 one_data B1) as (bc2 & _ & B2); [apply lookup_insert_eq |].
  destruct (bpin_law bc2 _ b 100 B2) as (bc3 & _ & B3); [apply lookup_insert_eq | set_solver |].
  destruct (brelse_law bc3 _ b 100 B3) as (bc4 & _ & B4); [apply lookup_insert_eq | left; cbn; set_solver |].
  eexists bc4, _. split; [exact B4 |]. split; [| done]. split; cbn; try done.
  - split; cbn; try done.
    + intros [| i] x Hi; cbn in Hi; [by injection Hi as <- | done].
    + intros x ->%list_elem_of_singleton. lia.
  - by apply NoDup_singleton.
  - intros x ->%list_elem_of_singleton. lia.
  - by apply own_one.
  - intros x Hx. apply bupd_ne. set_solver.
Qed.
End log.

(** ** Witnesses, with the buffer cache of bio.c *)
From S2P Require Import BioProofs.
From S2P Require Bio.

Lemma commit_atomic_witness :
  exists bc bc' ws, commit (Lst (S := Bio.bst) ∅ [] one_log bc) = Ret tt (Lst ∅ [] (set_n 0 one_log) bc') /\
    forall k d blk, length blk = Z.to_nat LOGSIZE -> (forall b, image d b = apply_writes (take k ws) (image ∅) b) ->
    exists g2 bc2, recover_from_log (restart 2 30 blk d) = Ret tt (Lst (S := Bio.bst) ∅ [] g2 bc2).
Proof.
  destruct (one_block_txn (S := Bio.bst)) as (bc & v & B & C & E).
  destruct (commit_atomic ∅ [] one_log bc v [100] C) as (bc' & v' & ws & Ec & _ & _ & _ & _ & H); [discriminate | exact B |].
  exists bc, bc', ws. split; [exact Ec |]. intros k d blk Hb Hd. rewrite E in H.
  destruct (H k d blk Hb Hd) as (g2 & bc2 & v2 & E2 & _). exists g2, bc2. exact E2.
Defined.

Lemma recovery_restartable_witness :
  exists g1 bc1, recover_from_log (restart 2 30 (replicate 30 0) ∅) = Ret tt (Lst (S := Bio.bst) ∅ [] g1 bc1).
Proof.
  destruct (recovery_restartable (S := Bio.bst) 2 30 (image ∅) [] ∅ (replicate 30 0)) as (g1 & bc1 & v1 & ws & E & _).
  - split; [lia | cbn; lia | lia | reflexivity | constructor | vm_compute; reflexivity | vm_compute; reflexivity | | | |].
    + intros i b Hi. discriminate Hi.
    + intros b Hb. apply elem_of_nil in Hb. destruct Hb.
    + intros i b Hi. discriminate Hi.
    + intros b _ _. reflexivity.
  - reflexivity.
  - exists g1, bc1. exact E.
Defined.

(** The block device after [begin_op] and [bread]. *)
Definition wit_log : logst := LogSt 2 30 1 0 ROOTDEV 0 (replicate 30 0).

Lemma log_write_correct_witness :
  exists bc b g' bc', log_write b (Lst (S := Bio.bst) ∅ [] wit_log bc) = Ret tt (Lst ∅ [] g' bc') /\ lh_n g' = 1.
Proof.
  destruct (bread_law (S := Bio.bst) (b_boot ∅) _ 100 (boot_law ∅) ltac:(lia)) as (b & bc1 & _ & Hb & B1);
    [intros b; cbn; by rewrite lookup_empty | right; vm_compute; reflexivity |].
  assert (T : txn wit_log (v_get b 100 (View (image ∅) (image ∅) [] ∅ ∅)) []).
  { split; [| reflexivity | reflexivity | constructor | | reflexivity | intros; reflexivity].
    - split; [reflexivity | cbn; lia | lia | cbn; lia | intros i x Hi; discriminate Hi | intros x Hx; apply elem_of_nil in Hx; destruct Hx].
    - intros x Hx. apply elem_of_nil in Hx. destruct Hx. }
  pose proof (log_write_correct ∅ [] wit_log bc1 _ [] b 100 T B1 (lookup_insert_eq _ _ _)
    ltac:(set_solver) ltac:(lia) ltac:(right; cbn; lia) ltac:(vm_compute; discriminate) ltac:(vm_compute; reflexivity)) as H.
  cbv zeta in H. rewrite !decide_False in H by (cbn; (lia || set_solver)).
  destruct H as (g' & bc' & E & _ & T' & _). exists bc1, b, g', bc'. split; [exact E |].
  rewrite (tx_n _ _ _ T'). reflexivity.
Defined.

(** ** The space reserved by [begin_op]

    [mkfs] makes the log LOGSIZE blocks long, header included, so that 29
    blocks fit; [begin_op] admits operations as if 30 did. *)

(** One block modified in a transaction: bread, store, log_write, brelse. *)
Definition touch (bno : Z) : K (lst Bio.bst) unit :=
  b <- zoom (bread ROOTDEV bno) ;;
  zoom (b_store b (replicate 1024 1)) >>
  log_write b >>
  zoom (brelse b).

Fixpoint touch_all (n : nat) (bno : Z) : K (lst Bio.bst) unit :=
  match n with
  | O => kret tt
  | S n => touch bno >> touch_all n (bno + 1)
  end.

