(* ===== verification/TxnDisk.v ===== *)
(** * The interface of the log to the file system

    The file system reads blocks with [bread], changes them in the cache and
    hands them to [log_write] instead of writing them.  The laws are stated
    over the view of BufCache.v: [v_look] is what the running transaction
    sees, [v_pin] the set of blocks it has logged, and the blocks of the log
    itself are [lo, hi). *)

From S2P Require Import Prelude Riscv Block BufCache.

(** Block [bno] now holds [d] and belongs to the transaction. *)
Definition v_log (bno : Z) (d : bytes) (v : bview) : bview :=
  View (bupd (v_look v) bno d) (v_disk v) (v_hist v) (v_own v) ({[bno]} ∪ v_pin v).

Class TxnDisk (T : Type) := {
  t_bread : Z -> Z -> K T Z;
  t_brelse : Z -> K T unit;
  t_data : T -> Z -> bytes;
  t_store : Z -> bytes -> K T unit;
  t_log_write : Z -> K T unit;
  t_initlog : Z -> Z -> Z -> K T unit;
  t_begin_op : K T unit;
  t_end_op : K T unit;

  tsim : Z -> Z -> T -> bview -> Prop;
  t_region : forall lo hi s v, tsim lo hi s v -> hi - lo <= LOGSIZE;
  t_bread_law : forall lo hi s v bno, tsim lo hi s v -> 0 <= bno < 2 ^ 32 -> free_block v bno -> room v bno ->
    exists b s', t_bread ROOTDEV bno s = Ret b s' /\ v_own v !! b = None /\ tsim lo hi s' (v_get b bno v);
  t_data_law : forall lo hi s v b bno, tsim lo hi s v -> v_own v !! b = Some bno -> t_data s b = v_look v bno;
  t_store_law : forall lo hi s v b bno d, tsim lo hi s v -> v_own v !! b = Some bno ->
    exists s', t_store b d s = Ret tt s' /\ tsim lo hi s' (v_store bno d v);
  t_brelse_law : forall lo hi s v b bno, tsim lo hi s v -> v_own v !! b = Some bno ->
    bno ∈ v_pin v \/ v_look v bno = v_disk v bno ->
    exists s', t_brelse b s = Ret tt s' /\ tsim lo hi s' (v_put b v);
  t_log_write_law : forall lo hi s v b bno, tsim lo hi s v -> v_own v !! b = Some bno ->
    0 <= bno < 2 ^ 31 -> bno < lo \/ hi <= bno -> Z.of_nat (size (v_pin v)) < hi - lo - 1 ->
    exists s', t_log_write b s = Ret tt s' /\ tsim lo hi s' (v_pinned ({[bno]} ∪ v_pin v) v);
  t_clean : forall lo hi s v bno, tsim lo hi s v -> free_block v bno -> bno ∉ v_pin v -> v_look v bno = v_disk v bno;
}.

Lemma size_img_le (m : gmap Z Z) : (size (map_img m : gset Z) <= size m)%nat.
Proof.
  induction m as [| i x m Hi IH] using map_ind; [by rewrite map_img_empty_L |].
  rewrite map_img_insert_notin_L, map_size_insert_None by done.
  rewrite size_union_alt, size_singleton.
  assert (size (map_img m ∖ {[x]} : gset Z) <= size (map_img m : gset Z))%nat by (apply subseteq_size; set_solver).
  lia.
Qed.

Lemma size_union_le (X Y : gset Z) : (size (X ∪ Y) <= size X + size Y)%nat.
Proof.
  rewrite size_union_alt. assert (size (Y ∖ X) <= size Y)%nat by (apply subseteq_size; set_solver). lia.
Qed.

(** A block that is read and put back leaves the view as it was. *)
Lemma v_put_get b bno v : v_own v !! b = None -> v_put b (v_get b bno v) = v.
Proof. intros H. unfold v_put, v_get. cbn. rewrite delete_insert_id by done. by destruct v. Qed.

(** [k] more buffers can be taken. *)
Definition roomy (k : Z) (v : bview) : Prop := Z.of_nat (size (v_pin v)) + Z.of_nat (size (v_own v)) + k <= NBUF.

Lemma roomy_room v bno : roomy 1 v -> room v bno.
Proof.
  intros H. right. unfold roomy in H. pose proof (size_img_le (v_own v)).
  pose proof (size_union_le (v_pin v) (map_img (v_own v))). lia.
Qed.

Lemma roomy_get k b bno v : v_own v !! b = None -> roomy (k + 1) v -> roomy k (v_get b bno v).
Proof. unfold roomy. cbn. intros H. rewrite map_size_insert_None by done. lia. Qed.

Lemma roomy_weaken k k' v : k' <= k -> roomy k v -> roomy k' v.
Proof. unfold roomy. lia. Qed.

Section laws.
Context {T : Type} `{TD : TxnDisk T} (lo hi : Z).

(** [k] more blocks can be logged. *)
Definition budget (k : Z) (v : bview) : Prop := Z.of_nat (size (v_pin v)) + k <= hi - lo - 1.

(** A block the file system may log. *)
Definition home (bno : Z) : Prop := 0 <= bno < 2 ^ 31 /\ (bno < lo \/ hi <= bno).

Lemma home_range bno : home bno -> 0 <= bno < 2 ^ 32.
Proof. intros [H _]. lia. Qed.

Lemma budget_log k bno d v : budget (k + 1) v -> budget k (v_log bno d v).
Proof.
  unfold budget. cbn. pose proof (size_union_le {[bno]} (v_pin v)) as H. rewrite size_singleton in H. lia.
Qed.

Lemma roomy_log k bno d v : roomy (k + 1) v -> roomy k (v_log bno d v).
Proof.
  unfold roomy. cbn. pose proof (size_union_le {[bno]} (v_pin v)) as H. rewrite size_singleton in H. lia.
Qed.

Lemma free_get b bno j v : free_block v j -> j <> bno -> v_own v !! b = None -> free_block (v_get b bno v) j.
Proof.
  intros H Hne Hb c. cbn. rewrite lookup_insert. case_decide; [congruence | apply H].
Qed.

(** The block can be put back without being lost. *)
Definition kept (v : bview) (bno : Z) : Prop := bno ∈ v_pin v \/ v_look v bno = v_disk v bno.

Lemma t_open t v bno :
  tsim lo hi t v -> 0 <= bno < 2 ^ 32 -> free_block v bno -> roomy 1 v ->
  exists b t', t_bread ROOTDEV bno t = Ret b t' /\ v_own v !! b = None /\ kept v bno /\
    tsim lo hi t' (v_get b bno v) /\ t_data t' b = v_look v bno.
Proof.
  intros Ht Hb Hf Hr. destruct (t_bread_law lo hi t v bno Ht Hb Hf (roomy_room v bno Hr)) as (b & t' & E & Ho & Ht').
  exists b, t'. split_and!; [done | done | | done |].
  - destruct (decide (bno ∈ v_pin v)); [by left | right; by eapply t_clean].
  - apply (t_data_law lo hi t' _ b bno Ht'). cbn. apply lookup_insert_eq.
Qed.

Lemma t_close t v b bno :
  tsim lo hi t (v_get b bno v) -> v_own v !! b = None -> kept v bno ->
  exists t', t_brelse b t = Ret tt t' /\ tsim lo hi t' v.
Proof.
  intros Ht Ho Hk. destruct (t_brelse_law lo hi t _ b bno Ht) as (t' & E & H); [cbn; apply lookup_insert_eq | done |].
  exists t'. rewrite v_put_get in H; done.
Qed.

(** Store into a buffer that is held, then [log_write]. *)
Lemma t_logged t v b bno d :
  tsim lo hi t (v_get b bno v) -> v_own v !! b = None -> home bno -> budget 1 v ->
  exists t1 t2, t_store b d t = Ret tt t1 /\ t_log_write b t1 = Ret tt t2 /\
    tsim lo hi t2 (v_get b bno (v_log bno d v)) /\ kept (v_log bno d v) bno.
Proof.
  intros Ht Ho [Hr Hh] Hb.
  destruct (t_store_law lo hi t _ b bno d Ht) as (t1 & E1 & H1); [cbn; apply lookup_insert_eq |].
  destruct (t_log_write_law lo hi t1 _ b bno H1) as (t2 & E2 & H2);
    [cbn; apply lookup_insert_eq | done | done | unfold budget in Hb; cbn; lia |].
  exists t1, t2. split_and!; [done | done | exact H2 | left; cbn; set_solver].
Qed.
End laws.
