(* ===== verification/LogTxn.v ===== *)
(** * The log implements the interface of the file system

    [lst S], the log over any buffer cache, inside a transaction, is a
    [TxnDisk]. *)

From S2P Require Import Prelude Riscv Spinlock Sleeplock Block BufCache Log LogProofs TxnDisk.

Section instance.
Context {S : Type} `{BC : BufCache S}.

(** A transaction is open and nothing else uses the log. *)
Record lsim (lo hi : Z) (s : lst S) (v : bview) : Prop := {
  ll_cache : bsim (ls_bc s) v;
  ll_start : log_start (ls_log s) = lo;
  ll_size : lo + log_size (ls_log s) = hi;
  ll_fits : hi - lo <= LOGSIZE /\ hi < 2 ^ 31;
  ll_open : 1 <= outstanding (ls_log s);
  ll_lock : log_lock ∉ ls_held s;
  ll_txn : exists bl, txn (ls_log s) v bl;
}.

(** The transaction only depends on the pins and on the clean blocks. *)
Lemma txn_view g v v' bl :
  txn g v bl -> v_pin v' = v_pin v ->
  (forall b, b ∉ bl -> free_block v' b -> v_look v' b = v_disk v' b) -> txn g v' bl.
Proof. intros [] Hp Hc. split; try done. congruence. Qed.

Lemma lsim_bc lo hi s v bc' v' :
  lsim lo hi s v -> bsim bc' v' -> v_pin v' = v_pin v ->
  (forall b, b ∉ v_pin v -> free_block v' b -> v_look v' b = v_disk v' b) ->
  lsim lo hi (Lst (ls_held s) (ls_woken s) (ls_log s) bc') v'.
Proof.
  intros [H1 H2 H3 H4 H5 H6 [bl H7]] Hb Hp Hc. split; try done. exists bl. eapply txn_view; [done | done |].
  intros b Hin. apply Hc. rewrite (tx_pin _ _ _ H7). set_solver.
Qed.

Lemma lsim_clean lo hi s v b : lsim lo hi s v -> free_block v b -> b ∉ v_pin v -> v_look v b = v_disk v b.
Proof.
  intros [_ _ _ _ _ _ [bl H]] Hf Hp. apply (tx_clean _ _ _ H); [| done].
  rewrite (tx_pin _ _ _ H) in Hp. set_solver.
Qed.

Lemma zoom_cache {A} (m : K S A) (s : lst S) a bc' :
  m (ls_bc s) = Ret a bc' -> zoom m s = Ret a (Lst (ls_held s) (ls_woken s) (ls_log s) bc').
Proof. intros E. unfold zoom. cbn. by rewrite E. Qed.

Lemma length_pins g v bl : txn g v bl -> length bl = size (v_pin v).
Proof. intros H. rewrite (tx_pin _ _ _ H), size_list_to_set; [done | apply (tx_nodup _ _ _ H)]. Qed.

#[export] Program Instance log_disk : TxnDisk (lst S) := {|
  t_bread dev bno := zoom (bread dev bno);
  t_brelse b := zoom (brelse b);
  t_data s b := b_data (ls_bc s) b;
  t_store b d := zoom (b_store b d);
  t_log_write := log_write;
  t_initlog := initlog;
  t_begin_op := begin_op;
  t_end_op := end_op;
  tsim := lsim;
|}.
Next Obligation. intros lo hi s v H. apply (ll_fits _ _ _ _ H). Qed.
Next Obligation.
  intros lo hi s v bno H Hr Hf Hroom.
  destruct (bread_law _ v bno (ll_cache _ _ _ _ H) Hr Hf Hroom) as (b & bc' & E & Ho & B).
  eexists b, _. split_and!; [by apply zoom_cache | done |]. apply (lsim_bc _ _ _ v); try done.
  intros c Hc Hfc. eapply (lsim_clean lo hi s v c); [done | | done].
  intros d Hd. cbn in *. destruct (decide (b = d)) as [-> |]; [congruence |].
  apply (Hfc d). cbn. by rewrite lookup_insert_ne.
Qed.
Next Obligation. intros lo hi s v b bno H Ho. by apply (data_law _ v b bno (ll_cache _ _ _ _ H)). Qed.
Next Obligation.
  intros lo hi s v b bno d H Ho.
  destruct (store_law _ v b bno d (ll_cache _ _ _ _ H) Ho) as (bc' & E & B).
  eexists. split; [by apply zoom_cache |]. apply (lsim_bc _ _ _ v); try done.
  intros c Hc Hfc. cbn. rewrite bupd_ne; [by eapply lsim_clean |]. intros ->. by apply (Hfc b).
Qed.
Next Obligation.
  intros lo hi s v b bno H Ho Hk.
  destruct (brelse_law _ v b bno (ll_cache _ _ _ _ H) Ho Hk) as (bc' & E & B).
  eexists. split; [by apply zoom_cache |]. apply (lsim_bc _ _ _ v); try done.
  intros c Hc Hfc. cbn in *. destruct (decide (c = bno)) as [-> |]; [by destruct Hk |].
  eapply (lsim_clean lo hi s v c); [done | | done]. intros d Hd.
  destruct (decide (d = b)) as [-> |]; [congruence |]. apply (Hfc d). cbn. by rewrite lookup_delete_ne.
Qed.
Next Obligation.
  intros lo hi s v b bno H Ho Hr Hh Hsz. destruct H as [H1 H2 H3 H4 H5 H6 [bl H7]].
  pose proof (length_pins _ _ _ H7) as Hl. destruct s as [h w g bc]. cbn in *.
  pose proof (log_write_ok h w g bc v bl b bno H7 H1 Ho H6 Hr ltac:(lia) ltac:(lia) ltac:(lia)) as Hw.
  cbv zeta in Hw. rewrite decide_False, decide_False in Hw by lia.
  destruct Hw as (g' & bc' & E & B & T & Eo & Es & Ez). exists (Lst h w g' bc'). split; [done |].
  assert (list_to_set (if decide (bno ∈ bl) then bl else bl ++ [bno]) = {[bno]} ∪ v_pin v) as Eq.
  { rewrite (tx_pin _ _ _ H7). case_decide; set_solver. }
  rewrite Eq in B, T. split; cbn; try done; try lia. by eexists.
Qed.
Next Obligation. intros lo hi s v bno H Hf Hp. by eapply lsim_clean. Qed.
End instance.

(** A transaction just begun on a freshly booted disk. *)
Definition new_log : logst := LogSt 2 30 1 0 ROOTDEV 0 (replicate 30 0).
Definition boot_view (d : gmap Z bytes) : bview :=
  let f bno := default zero_block (d !! bno) in View f f [] ∅ ∅.

Lemma new_txn {S} `{BC : BufCache S} d : tsim 2 32 (Lst ∅ [] new_log (b_boot d)) (boot_view d).
Proof.
  split; cbn; try done; try lia; [apply boot_law |]. exists []. split; cbn; try done.
  - split; cbn; try done. intros x Hx. set_solver.
  - constructor.
  - intros x Hx. set_solver.
Qed.
