(* ===== verification/Ring.v ===== *)
(** * Ring buffers

    The pipe, the console input and the UART output each keep a fixed array
    and free-running counters that index it modulo its size.  [ring_get data
    cap r n] are the [n] elements from counter [r] on. *)

From S2P Require Import Prelude.

Fixpoint ring_get (data : list Z) (cap r : Z) (n : nat) : list Z :=
  match n with
  | O => []
  | S n => nthZ 0 data (r mod cap) :: ring_get data cap (r + 1) n
  end.

Lemma length_ring_get data cap n : forall r, length (ring_get data cap r n) = n.
Proof. induction n as [| n IH]; intros r; cbn; [done | by rewrite IH]. Qed.

Lemma ring_get_app data cap n k : forall r,
  ring_get data cap r (n + k) = ring_get data cap r n ++ ring_get data cap (r + Z.of_nat n) k.
Proof.
  induction n as [| n IH]; intros r; cbn [ring_get Nat.add app].
  - by rewrite Z.add_0_r.
  - rewrite IH. do 3 f_equal. lia.
Qed.

(** The counter may wrap around at a multiple of the size. *)
Lemma ring_get_mod data cap m n : forall r, (cap | m) -> ring_get data cap (r mod m) n = ring_get data cap r n.
Proof.
  induction n as [| n IH]; intros r Hd; cbn; [done |].
  rewrite <- (IH (r mod m + 1)), <- (IH (r + 1)) by done.
  by rewrite Zplus_mod_idemp_l, Z.mod_mod_divide.
Qed.

Lemma ring_get_ext data data' cap n : forall r,
  (forall i, 0 <= i < Z.of_nat n -> nthZ 0 data ((r + i) mod cap) = nthZ 0 data' ((r + i) mod cap)) ->
  ring_get data cap r n = ring_get data' cap r n.
Proof.
  induction n as [| n IH]; intros r H; cbn; [done |]. f_equal.
  - specialize (H 0 ltac:(lia)). by rewrite Z.add_0_r in H.
  - apply IH. intros i Hi. specialize (H (i + 1) ltac:(lia)). by replace (r + 1 + i) with (r + (i + 1)) by lia.
Qed.

(** Storing at the end of a ring that is not full appends. *)
Lemma ring_push data cap r n x :
  Z.of_nat (length data) = cap -> 0 <= r -> Z.of_nat n < cap ->
  ring_get (updZ data ((r + Z.of_nat n) mod cap) x) cap r (n + 1) = ring_get data cap r n ++ [x].
Proof.
  intros Hl Hr Hn. rewrite ring_get_app. cbn [ring_get]. f_equal.
  - apply ring_get_ext. intros i Hi. apply nthZ_updZ_ne.
    intros E. assert ((r + Z.of_nat n - (r + i)) mod cap = 0) as E0
      by (rewrite Zminus_mod, E, Z.sub_diag; apply Z.mod_0_l; lia).
    rewrite Z.mod_small in E0; lia.
  - f_equal. apply nthZ_updZ_eq. rewrite Hl. apply Z.mod_pos_bound. lia.
Qed.
