(* ===== verification/Pipe.v ===== *)
(** * kernel/pipe.c: pipes

    A pipe is a 512-byte ring with free-running 32-bit counters.  The state
    holds the pipe, physical memory (the user buffers are reached through
    [copyin]/[copyout]) and the record of [wakeup] calls.

    [sleep] inside [pipewrite] comes back to the test of the [while] with the
    local counter [i] kept, so that the body returns either the result or the
    point where it sleeps ([PSleep]); a resumed call continues from there. *)

From S2P Require Import Prelude Riscv Spinlock Sleeplock Mem CString Kalloc Vm VmProofs VmUser VmCopy Ring.

Definition PIPESIZE : Z := 512.

Record pipe := Pipe {
  p_data : list Z;
  nread : Z;
  nwrite : Z;
  readopen : Z;
  writeopen : Z;
}.

Record pst := Pst { ps_woken : list Z; ps_pi : pipe; ps_pm : pm }.

#[export] Instance pst_pm : Lens pst pm.
Proof. refine {| lget := ps_pm; lset m s := Pst (ps_woken s) (ps_pi s) m |}; by try intros []. Defined.
#[export] Instance pst_waker : Waker pst := {|
  woken := ps_woken; add_woken c s := Pst (c :: ps_woken s) (ps_pi s) (ps_pm s) |}.

(** The channels [&pi->nread] and [&pi->nwrite]. *)
Definition nread_chan : Z := 0.
Definition nwrite_chan : Z := 1.

Inductive pres :=
| PDone (r : Z)
| PSleep (chan i : Z).

Definition set_pi (f : pipe -> pipe) : K pst unit :=
  kmod (fun s => Pst (ps_woken s) (f (ps_pi s)) (ps_pm s)).

(** [pi->data[pi->nwrite++ % PIPESIZE] = ch] *)
Definition push (ch : Z) (p : pipe) : pipe :=
  Pipe (updZ (p_data p) (nwrite p mod PIPESIZE) ch) (nread p) (u32 (nwrite p + 1)) (readopen p) (writeopen p).
(** [pi->nread++] *)
Definition pop (p : pipe) : pipe :=
  Pipe (p_data p) (u32 (nread p + 1)) (nwrite p) (readopen p) (writeopen p).

Section pipe.
Context `{L : Layout}.
Variable lk : lockid.        (* &pi->lock *)
Variable pi : Z.             (* the page of the pipe *)
Variable pagetable : Z.      (* myproc()->pagetable *)
Variable killed : bool.      (* killed(myproc()) *)

Definition pacquire : K pst unit := zoom (zoom (acquire lk)).
Definition prelease : K pst unit := zoom (zoom (release lk)).

Definition pipeinit : K pst unit :=
  set_pi (fun p => Pipe (p_data p) 0 0 1 1) >> zoom (zoom (initlock lk)).

Definition pipeclose (writable : bool) : K pst unit :=
  pacquire >>
  (if writable then
     set_pi (fun p => Pipe (p_data p) (nread p) (nwrite p) (readopen p) 0) >>
     wakeup_rec nread_chan
   else
     set_pi (fun p => Pipe (p_data p) (nread p) (nwrite p) 0 (writeopen p)) >>
     wakeup_rec nwrite_chan) >>
  p <- kgets ps_pi ;;
  if ((readopen p =? 0) && (writeopen p =? 0))%bool then
    prelease >> zoom (kfree pi)
  else prelease.

(** [while(i < n)], entered with the lock held. *)
Fixpoint pipewrite_loop (fuel : nat) (addr i n : Z) : K pst pres :=
  match fuel with
  | O => kfuel
  | S fuel =>
      if i <? n then
        p <- kgets ps_pi ;;
        if ((readopen p =? 0) || killed)%bool then prelease >> kret (PDone (-1))
        else if nwrite p =? u32 (nread p + PIPESIZE) then
          wakeup_rec nread_chan >> prelease >> kret (PSleep nwrite_chan i)
        else
          ' (r, ch) <- zoom (copyin pagetable (u64 (addr + i)) 1) ;;
          if r =? -1 then wakeup_rec nread_chan >> prelease >> kret (PDone i)
          else
            set_pi (push (nthZ 0 ch 0)) >>
            pipewrite_loop fuel addr (i + 1) n
      else wakeup_rec nread_chan >> prelease >> kret (PDone i)
  end.

(** A call that has stored [i] bytes already; [i] = 0 is the call itself. *)
Definition pipewrite (addr i n : Z) : K pst pres :=
  pacquire >> pipewrite_loop (S (Z.to_nat (n - i))) addr i n.

(** [for(i = 0; i < n; i++)] *)
Fixpoint piperead_loop (fuel : nat) (addr i n : Z) : K pst Z :=
  match fuel with
  | O => kfuel
  | S fuel =>
      if i <? n then
        p <- kgets ps_pi ;;
        if nread p =? nwrite p then kret i
        else
          let ch := nthZ 0 (p_data p) (nread p mod PIPESIZE) in
          set_pi pop >>
          r <- zoom (copyout pagetable (u64 (addr + i)) [ch]) ;;
          if r =? -1 then kret i
          else piperead_loop fuel addr (i + 1) n
      else kret i
  end.

Definition piperead (addr n : Z) : K pst pres :=
  pacquire >>
  p <- kgets ps_pi ;;
  if ((nread p =? nwrite p) && negb (writeopen p =? 0))%bool then
    if killed then prelease >> kret (PDone (-1))
    else prelease >> kret (PSleep nread_chan 0)
  else
    i <- piperead_loop (S (Z.to_nat n)) addr 0 n ;;
    wakeup_rec nwrite_chan >>
    prelease >>
    kret (PDone i).

(** ** Contents *)

Definition fill (p : pipe) : Z := u32 (nwrite p - nread p).
Definition contents (p : pipe) : list Z := ring_get (p_data p) PIPESIZE (nread p) (Z.to_nat (fill p)).

Record pipe_ok (p : pipe) : Prop := {
  po_data : length (p_data p) = 512%nat;
  po_read : 0 <= nread p < 2 ^ 32;
  po_write : 0 <= nwrite p < 2 ^ 32;
  po_fill : fill p <= PIPESIZE;
}.

Lemma length_contents p : length (contents p) = Z.to_nat (fill p).
Proof. apply length_ring_get. Qed.

Lemma pipe_full p : pipe_ok p -> (nwrite p =? u32 (nread p + PIPESIZE)) = (fill p =? PIPESIZE).
Proof.
  intros [_ Hr Hw Hf]. unfold fill, u32, PIPESIZE in *.
  apply eq_true_iff_eq. rewrite !Z.eqb_eq. dlia.
Qed.

Lemma pipe_empty p : pipe_ok p -> (nread p =? nwrite p) = (fill p =? 0).
Proof.
  intros [_ Hr Hw Hf]. unfold fill, u32 in *. apply eq_true_iff_eq. rewrite !Z.eqb_eq. dlia.
Qed.

Lemma push_ok p ch :
  pipe_ok p -> fill p < PIPESIZE ->
  pipe_ok (push ch p) /\ contents (push ch p) = contents p ++ [ch] /\ fill (push ch p) = fill p + 1.
Proof.
  intros [Hd Hr Hw Hf] Hlt. unfold PIPESIZE in *.
  assert (fill (push ch p) = fill p + 1) as Ef.
  { unfold fill, u32 in *. cbn [push nwrite nread]. unfold u32. dlia. }
  assert (0 <= fill p) as H0 by (unfold fill; pose proof (u32_range (nwrite p - nread p)); lia).
  split_and!; [split; cbn | | done].
  - by rewrite length_updZ.
  - done.
  - apply u32_range.
  - rewrite Ef. unfold PIPESIZE. lia.
  - unfold contents. rewrite Ef. replace (Z.to_nat (fill p + 1)) with (Z.to_nat (fill p) + 1)%nat by lia.
    cbn [push p_data nread]. rewrite <- (ring_push (p_data p) PIPESIZE (nread p) (Z.to_nat (fill p)) ch)
      by (unfold PIPESIZE; lia || (rewrite Hd; done)).
    do 2 f_equal. rewrite Z2Nat.id by lia. clear Ef. unfold fill, u32, PIPESIZE in *. dlia.
Qed.

Lemma pop_ok p :
  pipe_ok p -> 0 < fill p ->
  pipe_ok (pop p) /\ contents p = nthZ 0 (p_data p) (nread p mod PIPESIZE) :: contents (pop p) /\
  fill (pop p) = fill p - 1.
Proof.
  intros [Hd Hr Hw Hf] Hpos.
  assert (fill (pop p) = fill p - 1) as Ef.
  { unfold fill, u32 in *. cbn [pop nwrite nread]. unfold u32. dlia. }
  split_and!; [split; cbn; try done | | done].
  - apply u32_range.
  - rewrite Ef. lia.
  - unfold contents. rewrite Ef. replace (Z.to_nat (fill p)) with (S (Z.to_nat (fill p - 1))) by lia.
    cbn [ring_get pop p_data nread]. f_equal. unfold u32. rewrite ring_get_mod; [done |].
    exists (2 ^ 23). reflexivity.
Qed.

(** ** Writing *)

Lemma copyin_one s T a :
  pt_ok (pm_mem s) pagetable T -> 0 <= a -> umapped (pm_mem s) pagetable a ->
  copyin pagetable a 1 s = Ret (0, [uread (pm_mem s) pagetable a]) s.
Proof.
  intros P Ha Hm. unfold copyin. rewrite (copyin_loop_ok pagetable T s P); [done | done | lia | lia |].
  intros v Hv. by replace v with a by lia.
Qed.

Lemma prelease_ok w p h m fl : lk ∉ h ->
  prelease (Pst w p (Pm ({[lk]} ∪ h) m fl)) = Ret tt (Pst w p (Pm h m fl)).
Proof.
  intros H. unfold prelease, zoom. cbn [lget lset pst_pm ps_pm pm_locks pm_held]. by rewrite release_acquired.
Qed.

Lemma pacquire_ok w p h m fl : lk ∉ h ->
  pacquire (Pst w p (Pm h m fl)) = Ret tt (Pst w p (Pm ({[lk]} ∪ h) m fl)).
Proof. intros H. unfold pacquire, zoom. cbn [lget lset pst_pm ps_pm pm_locks pm_held]. by rewrite acquire_ok. Qed.

Lemma pipewrite_loop_ok T h m fl addr n :
  pt_ok m pagetable T -> lk ∉ h -> killed = false -> 0 <= addr -> addr + n <= MAXVA ->
  forall fuel i w p, pipe_ok p -> readopen p <> 0 -> 0 <= i <= n -> (Z.to_nat (n - i) < fuel)%nat ->
  (forall v, addr + i <= v < addr + n -> umapped m pagetable v) ->
  let k := Z.min (n - i) (PIPESIZE - fill p) in
  exists w' p', pipewrite_loop fuel addr i n (Pst w p (Pm ({[lk]} ∪ h) m fl)) =
      Ret (if n - i <=? PIPESIZE - fill p then PDone n else PSleep nwrite_chan (i + k)) (Pst w' p' (Pm h m fl)) /\
    pipe_ok p' /\ contents p' = contents p ++ ubytes m pagetable (addr + i) (Z.to_nat k) /\
    nread_chan ∈ w' /\ readopen p' = readopen p /\ writeopen p' = writeopen p.
Proof.
  intros P Hl Hk Ha HM. assert (MAXVA = 2 ^ 38) as HMv by reflexivity.
  induction fuel as [| fuel IH]; intros i w p Hok Hro Hi Hf Hm; [lia |]. cbn [pipewrite_loop]. cbv zeta.
  assert (0 <= fill p) as H0 by (unfold fill; pose proof (u32_range (nwrite p - nread p)); lia).
  pose proof (po_fill p Hok) as Hfl. destruct (i <? n) eqn:Ei; zbool.
  2: { replace n with i by lia. rewrite Z.sub_diag, Z.min_l by lia.
       replace (0 <=? PIPESIZE - fill p) with true by lia.
       unfold wakeup_rec. rewrite (kbind_of (kmod _) _ _ tt _ eq_refl). cbn [add_woken pst_waker ps_woken ps_pi ps_pm].
       rewrite (kbind_of _ _ _ _ _ (prelease_ok _ _ _ _ _ Hl)).
       eexists _, p. split_and!; [reflexivity | done | cbn; by rewrite app_nil_r | by left | done | done]. }
  rewrite (kbind_of (kgets _) _ _ _ _ eq_refl). cbn [ps_pi]. rewrite (proj2 (Z.eqb_neq _ _) Hro), Hk, pipe_full by done.
  cbn [orb]. destruct (fill p =? PIPESIZE) eqn:Ef; zbool.
  - replace (n - i <=? PIPESIZE - fill p) with false by lia. rewrite Z.min_r by lia.
    unfold wakeup_rec. rewrite (kbind_of (kmod _) _ _ tt _ eq_refl). cbn [add_woken pst_waker ps_woken ps_pi ps_pm].
    rewrite (kbind_of _ _ _ _ _ (prelease_ok _ _ _ _ _ Hl)). rewrite Ef, Z.sub_diag, Z.add_0_r.
    eexists _, p. split_and!; [reflexivity | done | cbn; by rewrite app_nil_r | by left | done | done].
  - rewrite u64_small by lia.
    erewrite kbind_of by (apply zoom_ret, (copyin_one _ T); [done | lia | apply Hm; lia]).
    change (0 =? -1) with false. cbv iota beta. cbn [pm_mem ps_pm lset lget pst_pm ps_woken ps_pi].
    change (0 =? -1) with false. cbv iota. set (ch := uread _ _ _). change (nthZ 0 [ch] 0) with ch.
    unfold set_pi. rewrite (kbind_of (kmod _) _ _ tt _ eq_refl). cbn [ps_woken ps_pi ps_pm lset pst_pm].
    destruct (push_ok p ch Hok ltac:(lia)) as (Hok' & Ec & Ef').
    destruct (IH (i + 1) w (push ch p) Hok' Hro ltac:(lia) ltac:(lia)) as (w' & p' & E & Hp' & Ec' & Hw & R1 & R2);
      [intros v Hv; apply Hm; lia |].
    exists w', p'. rewrite Ef' in E, Ec'. replace (n - (i + 1) <=? PIPESIZE - (fill p + 1)) with (n - i <=? PIPESIZE - fill p) in E
      by (apply eq_true_iff_eq; rewrite !Z.leb_le; lia).
    replace (i + 1 + Z.min (n - (i + 1)) (PIPESIZE - (fill p + 1))) with (i + Z.min (n - i) (PIPESIZE - fill p)) in E by lia.
    split_and!; [exact E | done | | done | done | done].
    rewrite Ec', Ec, <- app_assoc. f_equal.
    replace (Z.to_nat (Z.min (n - i) (PIPESIZE - fill p))) with (S (Z.to_nat (Z.min (n - (i + 1)) (PIPESIZE - (fill p + 1))))) by lia.
    cbn [ubytes app]. do 2 f_equal. lia.
Qed.

(** ** Reading *)

Lemma copyout_one s l T a ch :
  vm_inv s l pagetable T -> 0 <= a -> private (pm_mem s) pagetable l T a (a + 1) ->
  exists s', copyout pagetable a [ch] s = Ret 0 s' /\ copied pagetable s l T a [ch] s'.
Proof. intros I Ha Hp. apply copyout_loop_ok; [done | done | cbn; lia | done]. Qed.

Lemma piperead_loop_ok l T addr n :
  0 <= addr -> addr + n <= MAXVA ->
  forall fuel i w p s, vm_inv s l pagetable T -> pipe_ok p -> 0 <= i <= n -> (Z.to_nat (n - i) < fuel)%nat ->
  private (pm_mem s) pagetable l T (addr + i) (addr + n) ->
  let k := Z.min (n - i) (fill p) in
  exists p' s', piperead_loop fuel addr i n (Pst w p s) = Ret (i + k) (Pst w p' s') /\ pipe_ok p' /\
    contents p = take (Z.to_nat k) (contents p) ++ contents p' /\
    copied pagetable s l T (addr + i) (take (Z.to_nat k) (contents p)) s' /\
    readopen p' = readopen p /\ writeopen p' = writeopen p.
Proof.
  intros Ha HM. assert (MAXVA = 2 ^ 38) as HMv by reflexivity.
  induction fuel as [| fuel IH]; intros i w p s I Hok Hi Hf Hpr; [lia |]. cbn [piperead_loop]. cbv zeta.
  assert (0 <= fill p) as H0 by (unfold fill; pose proof (u32_range (nwrite p - nread p)); lia).
  destruct (i <? n) eqn:Ei; zbool.
  2: { rewrite Z.min_l by lia. replace (n - i) with 0 by lia. rewrite Z.add_0_r.
       exists p, s. split_and!; try done. by apply copied_nil. }
  rewrite (kbind_of (kgets _) _ _ _ _ eq_refl). cbn [ps_pi]. rewrite pipe_empty by done.
  destruct (fill p =? 0) eqn:Ef; zbool.
  { rewrite Ef, Z.min_r by lia. rewrite Z.add_0_r. exists p, s. split_and!; try done. by apply copied_nil. }
  destruct (pop_ok p Hok ltac:(lia)) as (Hok' & Ec & Ef'). set (ch := nthZ 0 (p_data p) _) in *.
  unfold set_pi. rewrite (kbind_of (kmod _) _ _ tt _ eq_refl). cbn [ps_woken ps_pi ps_pm].
  rewrite u64_small by lia.
  destruct (copyout_one s l T (addr + i) ch I ltac:(lia)) as (s1 & E1 & C1); [intros v Hv; apply Hpr; lia |].
  erewrite kbind_of by (apply zoom_ret, E1). cbn [lset pst_pm ps_woken ps_pi]. change (0 =? -1) with false. cbv iota.
  destruct (IH (i + 1) w (pop p) s1 (co_inv _ _ _ _ _ _ _ C1) Hok' ltac:(lia) ltac:(lia)) as (p' & s' & E & Hp' & Ec' & C2 & R1 & R2).
  { eapply private_leaf; [apply C1 |]. intros v Hv. apply Hpr. lia. }
  exists p', s'. rewrite Ef' in *.
  replace (i + 1 + Z.min (n - (i + 1)) (fill p - 1)) with (i + Z.min (n - i) (fill p)) in E by lia.
  replace (Z.to_nat (Z.min (n - i) (fill p))) with (S (Z.to_nat (Z.min (n - (i + 1)) (fill p - 1)))) by lia.
  rewrite Ec. cbn [take app]. split_and!; [exact E | done | by rewrite Ec' at 1 | | done | done].
  apply (copied_trans pagetable s l T (addr + i) [ch]) with (s1 := s1); [done |].
  cbn [length]. by replace (addr + i + Z.of_nat 1) with (addr + (i + 1)) by lia.
Qed.

(** The page tables do not depend on the locks held. *)
Lemma vm_inv_held h h' m fl l root T :
  vm_inv (Pm h m fl) l root T -> kmem_lock ∉ h' -> vm_inv (Pm h' m fl) l root T.
Proof. intros [K1 K2 K3 K4] H. by split. Qed.

(** C30: [pipewrite] of mapped user memory to a pipe whose read end is open.
    Started (or resumed after a sleep) with [i] of [n] bytes stored, it
    appends the next bytes of the user buffer, in order, behind what the pipe
    holds, until all [n] are stored, when it returns [n], or the pipe is
    full, when it wakes the readers and sleeps with the count of what it has
    stored.  The pipe never holds more than PIPESIZE bytes. *)
Theorem pipewrite_correct T h m fl addr i n w p :
  pt_ok m pagetable T -> lk ∉ h -> killed = false -> 0 <= addr -> addr + n <= MAXVA -> 0 <= i <= n ->
  pipe_ok p -> readopen p <> 0 -> (forall v, addr + i <= v < addr + n -> umapped m pagetable v) ->
  let k := Z.min (n - i) (PIPESIZE - fill p) in
  exists w' p', pipewrite addr i n (Pst w p (Pm h m fl)) =
      Ret (if n - i <=? PIPESIZE - fill p then PDone n else PSleep nwrite_chan (i + k)) (Pst w' p' (Pm h m fl)) /\
    pipe_ok p' /\ contents p' = contents p ++ ubytes m pagetable (addr + i) (Z.to_nat k) /\ nread_chan ∈ w'.
Proof.
  intros P Hl Hk Ha HM Hi Hok Hro Hm k. unfold pipewrite. rewrite (kbind_of _ _ _ _ _ (pacquire_ok _ _ _ _ _ Hl)).
  destruct (pipewrite_loop_ok T h m fl addr n P Hl Hk Ha HM (S (Z.to_nat (n - i))) i w p) as (w' & p' & E & H1 & H2 & H3 & _);
    try done; [lia |]. exists w', p'. done.
Qed.

(** C29: [piperead] into private user memory.  An empty pipe whose write end
    is open puts the reader to sleep; otherwise it returns the number of
    bytes it took, at most [n]: exactly the oldest bytes of the pipe, in
    order, now in the user buffer, with the rest left in the pipe (none means
    end of file), and it wakes the writers. *)
Theorem piperead_correct l T addr n w p s :
  vm_inv s l pagetable T -> lk <> kmem_lock -> lk ∉ pm_held s -> killed = false -> 0 <= addr -> addr + n <= MAXVA -> 0 <= n ->
  pipe_ok p -> private (pm_mem s) pagetable l T addr (addr + n) ->
  (if decide (fill p = 0 /\ writeopen p <> 0)
   then piperead addr n (Pst w p s) = Ret (PSleep nread_chan 0) (Pst w p s)
   else let k := Z.min n (fill p) in
     exists p' s', piperead addr n (Pst w p s) = Ret (PDone k) (Pst (nwrite_chan :: w) p' s') /\ pipe_ok p' /\
       contents p = take (Z.to_nat k) (contents p) ++ contents p' /\
       copied pagetable s l T addr (take (Z.to_nat k) (contents p)) s').
Proof.
  intros I Hlk Hl Hk Ha HM Hn Hok Hpr. destruct s as [h m fl]. cbn [pm_held] in Hl. unfold piperead.
  rewrite (kbind_of _ _ _ _ _ (pacquire_ok _ _ _ _ _ Hl)), (kbind_of (kgets _) _ _ _ _ eq_refl).
  cbn [ps_pi]. rewrite pipe_empty, Hk by done. case_decide as Hc.
  - destruct Hc as [-> Hw]. rewrite (proj2 (Z.eqb_neq _ _) Hw). cbn [negb andb Z.eqb].
    by rewrite (kbind_of _ _ _ _ _ (prelease_ok _ _ _ _ _ Hl)).
  - replace ((fill p =? 0) && negb (writeopen p =? 0))%bool with false
      by (symmetry; destruct (fill p =? 0) eqn:E1, (writeopen p =? 0) eqn:E2; zbool; try done; tauto).
    assert (vm_inv (Pm ({[lk]} ∪ h) m fl) l pagetable T) as I' by (apply (vm_inv_held h); [done |]; destruct I; cbn in *; set_solver).
    destruct (piperead_loop_ok l T addr n Ha HM (S (Z.to_nat n)) 0 w p _ I' Hok ltac:(lia) ltac:(lia)) as (p' & s' & E & Hp' & Ec & C & _).
    { by rewrite Z.add_0_r. }
    rewrite Z.sub_0_r, Z.add_0_l, ?Z.add_0_r in *. rewrite (kbind_of _ _ _ _ _ E).
    unfold wakeup_rec. rewrite (kbind_of (kmod _) _ _ tt _ eq_refl). cbn [add_woken pst_waker ps_woken ps_pi ps_pm].
    destruct s' as [h' m' fl']. pose proof (co_held _ _ _ _ _ _ _ C) as Eh. cbn in Eh. subst h'.
    rewrite (kbind_of _ _ _ _ _ (prelease_ok _ _ _ _ _ Hl)).
    eexists p', (Pm h m' fl'). split_and!; [reflexivity | done | done |].
    destruct C as [C1 C2 C3 C4]. split; try done. apply (vm_inv_held ({[lk]} ∪ h)); [done |]. destruct I as [_ _ _ K4]. done.
Qed.
End pipe.

#[local] Existing Instance vm_layout.

Definition wit_lock : lockid := ("pipe", 0).
Definition wit_pipe : pipe := Pipe (replicate 512 0) 0 0 1 1.
Definition wit_pipe1 : pipe := push 65 wit_pipe.

Lemma wit_pipe_ok : pipe_ok wit_pipe.
Proof. split; [reflexivity | cbn; lia | cbn; lia | vm_compute; discriminate]. Qed.

Lemma pipewrite_correct_witness :
  exists s w' p', pipewrite wit_lock wit_root false 0x5ffe 0 2 (Pst [] wit_pipe s) = Ret (PDone 2) (Pst w' p' s) /\
    contents p' = ubytes (pm_mem s) wit_root 0x5ffe 2.
Proof.
  destruct wit_private as (s & l & T & I & P & _). destruct s as [h m fl].
  destruct (pipewrite_correct wit_lock wit_root false T ∅ m fl 0x5ffe 0 2 [] wit_pipe) as (w' & p' & E & _ & Ec & _);
    [apply I | set_solver | reflexivity | lia | vm_compute; discriminate | lia | exact wit_pipe_ok | discriminate
    | intros v Hv; apply P; lia |].
  exists (Pm ∅ m fl), w', p'. split; [exact E | exact Ec].
Defined.

Lemma piperead_correct_witness :
  exists s p' s', piperead wit_lock wit_root false 0x5ffe 2 (Pst [] wit_pipe1 s) = Ret (PDone 1) (Pst [nwrite_chan] p' s') /\
    uread (pm_mem s') wit_root 0x5ffe = 65.
Proof.
  destruct wit_private as (s & l & T & I & P & _). destruct s as [h m fl].
  pose proof (piperead_correct wit_lock wit_root false l T 0x5ffe 2 [] wit_pipe1 (Pm ∅ m fl)
    (vm_inv_held h ∅ m fl l wit_root T I ltac:(set_solver)) ltac:(discriminate) ltac:(cbn; set_solver) eq_refl ltac:(lia)
    ltac:(vm_compute; discriminate) ltac:(lia) (proj1 (push_ok wit_pipe 65 wit_pipe_ok ltac:(vm_compute; reflexivity))) P) as H.
  rewrite decide_False in H by (intros [H0 _]; discriminate H0). cbv zeta in H.
  destruct H as (p' & s' & E & _ & _ & C). exists (Pm ∅ m fl), p', s'. split; [exact E |].
  rewrite (co_read _ _ _ _ _ _ _ C 0x5ffe); [reflexivity | vm_compute; split; congruence |].
  apply (P 0x5ffe). lia.
Defined.
