(* ===== verification/Uart.v ===== *)
(** * kernel/uart.c: the 16550a driver

    The device is outside the program: the values the driver will read from
    LSR and RHR are streams of the state ([u_lsr], [u_rhr], LSR reading as 0
    and RHR as 0 once they are exhausted), and what it writes to THR and to
    the control registers is recorded ([u_sent], [u_ctl]). *)

From S2P Require Import Prelude Riscv Spinlock Sleeplock Ring.

Definition UART_TX_BUF_SIZE : Z := 32.
Definition RHR : Z := 0.
Definition THR : Z := 0.
Definition IER : Z := 1.
Definition IER_RX_ENABLE : Z := Z.shiftl 1 0.
Definition IER_TX_ENABLE : Z := Z.shiftl 1 1.
Definition FCR : Z := 2.
Definition FCR_FIFO_ENABLE : Z := Z.shiftl 1 0.
Definition FCR_FIFO_CLEAR : Z := Z.shiftl 3 1.
Definition LCR : Z := 3.
Definition LCR_EIGHT_BITS : Z := Z.shiftl 3 0.
Definition LCR_BAUD_LATCH : Z := Z.shiftl 1 7.
Definition LSR : Z := 5.
Definition LSR_RX_READY : Z := Z.shiftl 1 0.
Definition LSR_TX_IDLE : Z := Z.shiftl 1 5.

Record ust := Ust {
  u_held : locks;
  u_woken : list Z;
  u_noff : Z;                  (* push_off nesting *)
  panicked : bool;             (* printf.c *)
  uart_tx_buf : list Z;
  uart_tx_w : Z;
  uart_tx_r : Z;
  u_lsr : list Z;
  u_rhr : list Z;
  u_sent : list Z;
  u_ctl : list (Z * Z);
}.

#[export] Instance ust_locks : Lens ust locks.
Proof.
  refine {| lget := u_held; lset h s := Ust h (u_woken s) (u_noff s) (panicked s) (uart_tx_buf s) (uart_tx_w s)
    (uart_tx_r s) (u_lsr s) (u_rhr s) (u_sent s) (u_ctl s) |}; by try intros [].
Defined.
#[export] Instance ust_waker : Waker ust := {|
  woken := u_woken;
  add_woken c s := Ust (u_held s) (c :: u_woken s) (u_noff s) (panicked s) (uart_tx_buf s) (uart_tx_w s)
    (uart_tx_r s) (u_lsr s) (u_rhr s) (u_sent s) (u_ctl s) |}.

Definition uart_tx_lock : lockid := ("uart", 0).
Definition uart_chan : Z := 0.   (* &uart_tx_r *)

(** [ReadReg(LSR)] *)
Definition read_lsr : K ust Z :=
  fun s => Ret (hd 0 (u_lsr s))
    (Ust (u_held s) (u_woken s) (u_noff s) (panicked s) (uart_tx_buf s) (uart_tx_w s) (uart_tx_r s)
       (tail (u_lsr s)) (u_rhr s) (u_sent s) (u_ctl s)).
(** [ReadReg(RHR)] *)
Definition read_rhr : K ust Z :=
  fun s => Ret (u8 (hd 0 (u_rhr s)))
    (Ust (u_held s) (u_woken s) (u_noff s) (panicked s) (uart_tx_buf s) (uart_tx_w s) (uart_tx_r s)
       (u_lsr s) (tail (u_rhr s)) (u_sent s) (u_ctl s)).
(** [WriteReg(THR, c)] *)
Definition write_thr (c : Z) : K ust unit :=
  kmod (fun s => Ust (u_held s) (u_woken s) (u_noff s) (panicked s) (uart_tx_buf s) (uart_tx_w s) (uart_tx_r s)
       (u_lsr s) (u_rhr s) (u_sent s ++ [u8 c]) (u_ctl s)).
(** [WriteReg] of a control register *)
Definition write_ctl (reg v : Z) : K ust unit :=
  kmod (fun s => Ust (u_held s) (u_woken s) (u_noff s) (panicked s) (uart_tx_buf s) (uart_tx_w s) (uart_tx_r s)
       (u_lsr s) (u_rhr s) (u_sent s) (u_ctl s ++ [(reg, v)])).
Definition set_tx (b : list Z) (w r : Z) : K ust unit :=
  kmod (fun s => Ust (u_held s) (u_woken s) (u_noff s) (panicked s) b w r
       (u_lsr s) (u_rhr s) (u_sent s) (u_ctl s)).
Definition add_noff (d : Z) : K ust unit :=
  kmod (fun s => Ust (u_held s) (u_woken s) (u_noff s + d) (panicked s) (uart_tx_buf s) (uart_tx_w s) (uart_tx_r s)
       (u_lsr s) (u_rhr s) (u_sent s) (u_ctl s)).

Definition uartinit : K ust unit :=
  write_ctl IER 0x00 >>
  write_ctl LCR LCR_BAUD_LATCH >>
  write_ctl 0 0x03 >>
  write_ctl 1 0x00 >>
  write_ctl LCR LCR_EIGHT_BITS >>
  write_ctl FCR (Z.lor FCR_FIFO_ENABLE FCR_FIFO_CLEAR) >>
  write_ctl IER (Z.lor IER_TX_ENABLE IER_RX_ENABLE) >>
  zoom (initlock uart_tx_lock).

(** [while(1)]: at most the 32 buffered bytes are sent. *)
Fixpoint uartstart_loop (fuel : nat) : K ust unit :=
  match fuel with
  | O => kfuel
  | S fuel =>
      s <- kget ;;
      if uart_tx_w s =? uart_tx_r s then kret tt else
      l <- read_lsr ;;
      if Z.land l LSR_TX_IDLE =? 0 then kret tt else
      let c := nthZ 0 (uart_tx_buf s) (uart_tx_r s mod UART_TX_BUF_SIZE) in
      set_tx (uart_tx_buf s) (uart_tx_w s) (u64 (uart_tx_r s + 1)) >>
      wakeup_rec uart_chan >>
      write_thr c >>
      uartstart_loop fuel
  end.

Definition uartstart : K ust unit := uartstart_loop 33.

(** A full buffer puts the caller to sleep; it comes back to the [while]. *)
Definition uartputc (c : Z) : K ust unit :=
  zoom (acquire uart_tx_lock) >>
  s <- kget ;;
  if panicked s then kfuel else
  if uart_tx_w s =? u64 (uart_tx_r s + UART_TX_BUF_SIZE) then
    zoom (release uart_tx_lock) >> ksleep uart_chan
  else
    set_tx (updZ (uart_tx_buf s) (uart_tx_w s mod UART_TX_BUF_SIZE) (u8 c)) (u64 (uart_tx_w s + 1)) (uart_tx_r s) >>
    uartstart >>
    zoom (release uart_tx_lock).

(** [while((ReadReg(LSR) & LSR_TX_IDLE) == 0);]: it reads LSR as long as the
    device keeps it busy. *)
Fixpoint spin_idle (fuel : nat) : K ust unit :=
  match fuel with
  | O => kfuel
  | S fuel =>
      l <- read_lsr ;;
      if Z.land l LSR_TX_IDLE =? 0 then spin_idle fuel else kret tt
  end.

Definition uartputc_sync (c : Z) : K ust unit :=
  add_noff 1 >>
  s <- kget ;;
  if panicked s then kfuel else
  spin_idle (S (length (u_lsr s))) >>
  write_thr c >>
  add_noff (-1).

(** -1 when no input is waiting. *)
Definition uartgetc : K ust Z :=
  l <- read_lsr ;;
  if negb (Z.land l 0x01 =? 0) then read_rhr else kret (-1).

(** The second half of [uartintr]: send buffered characters. *)
Definition uartintr_tx : K ust unit :=
  zoom (acquire uart_tx_lock) >>
  uartstart >>
  zoom (release uart_tx_lock).

(** ** The transmit ring *)

Definition tx_fill (s : ust) : Z := u64 (uart_tx_w s - uart_tx_r s).
Definition tx_pending (s : ust) : list Z :=
  ring_get (uart_tx_buf s) UART_TX_BUF_SIZE (uart_tx_r s) (Z.to_nat (tx_fill s)).

Record uart_ok (s : ust) : Prop := {
  uo_buf : length (uart_tx_buf s) = 32%nat;
  uo_bytes : bytes_ok (uart_tx_buf s);
  uo_w : 0 <= uart_tx_w s < 2 ^ 64;
  uo_r : 0 <= uart_tx_r s < 2 ^ 64;
  uo_fill : tx_fill s <= UART_TX_BUF_SIZE;
  uo_lock : uart_tx_lock ∉ u_held s;
}.

(** What [uartstart] may do: move bytes from the front of the ring to THR. *)
Definition sends (s s' : ust) : Prop :=
  length (uart_tx_buf s') = 32%nat /\ bytes_ok (uart_tx_buf s') /\
  0 <= uart_tx_w s' < 2 ^ 64 /\ 0 <= uart_tx_r s' < 2 ^ 64 /\ tx_fill s' <= tx_fill s /\
  u_held s' = u_held s /\ panicked s' = panicked s /\
  u_sent s' ++ tx_pending s' = u_sent s ++ tx_pending s.

Lemma uartstart_loop_ok : forall fuel s,
  length (uart_tx_buf s) = 32%nat -> bytes_ok (uart_tx_buf s) -> 0 <= uart_tx_w s < 2 ^ 64 -> 0 <= uart_tx_r s < 2 ^ 64 ->
  (Z.to_nat (tx_fill s) < fuel)%nat ->
  exists s', uartstart_loop fuel s = Ret tt s' /\ sends s s'.
Proof.
  induction fuel as [| fuel IH]; intros s Hb Hby Hw Hr Hf; [lia |]. cbn [uartstart_loop].
  rewrite (kbind_of kget _ _ _ _ eq_refl). destruct (uart_tx_w s =? uart_tx_r s) eqn:E; zbool.
  { exists s. split; [done |]. repeat split; try done; lia. }
  rewrite (kbind_of read_lsr _ _ _ _ eq_refl). case_if.
  { eexists. split; [reflexivity |]. repeat split; cbn; try done; unfold tx_fill; cbn; lia. }
  set (c := nthZ 0 (uart_tx_buf s) _). unfold set_tx, wakeup_rec, write_thr. kred.
  cbn [add_woken ust_waker u_held u_woken u_noff panicked uart_tx_buf uart_tx_w uart_tx_r u_lsr u_rhr u_sent u_ctl].
  set (s1 := Ust _ _ _ _ _ _ _ _ _ _ _).
  assert (0 < tx_fill s /\ tx_fill s1 = tx_fill s - 1) as [Hpos Ef].
  { unfold tx_fill, s1, u64 in *. cbn. unfold u64. dlia. }
  assert (tx_pending s = c :: tx_pending s1) as Ep.
  { unfold tx_pending. rewrite Ef. replace (Z.to_nat (tx_fill s)) with (S (Z.to_nat (tx_fill s - 1))) by lia.
    cbn [ring_get]. f_equal. unfold s1. cbn. unfold u64. rewrite ring_get_mod; [done |]. exists (2 ^ 59). reflexivity. }
  assert (u8 c = c) as Ec.
  { apply u8_small. unfold c, nthZ. replace (_ <? 0) with false by (unfold UART_TX_BUF_SIZE; dlia).
    apply (Forall_nth byte_ok 0); [done |]. rewrite Hb. unfold UART_TX_BUF_SIZE. dlia. }
  destruct (IH s1) as (s' & E' & (S1 & S2 & S3 & S4 & S5 & S6 & S7 & S8)); try done.
  - unfold s1. cbn. apply u64_range.
  - lia.
  - exists s'. split; [exact E' |]. repeat split; try done; try lia.
    rewrite S8, Ep. unfold s1 at 1. cbn. rewrite Ec, <- app_assoc. done.
Qed.

(** ** The driver as seen by its callers *)

Inductive uart_op := UPut (c : Z) | UIntr.

Definition run_uart (o : uart_op) : K ust unit :=
  match o with UPut c => uartputc c | UIntr => uartintr_tx end.

(** The bytes an operation that returned has accepted. *)
Definition accepted (o : uart_op) : list Z := match o with UPut c => [u8 c] | UIntr => [] end.

Lemma uartputc_cases c s :
  uart_ok s -> panicked s = false ->
  (tx_fill s = UART_TX_BUF_SIZE /\ uartputc c s = Asleep uart_chan s) \/
  (tx_fill s < UART_TX_BUF_SIZE /\ exists s', uartputc c s = Ret tt s' /\ uart_ok s' /\ panicked s' = false /\
    u_sent s' ++ tx_pending s' = u_sent s ++ tx_pending s ++ [u8 c]).
Proof.
  intros [Hb Hby Hw Hr Hf Hl] Hp. unfold uartputc. erewrite kbind_of by (apply zoom_acquire; exact Hl).
  rewrite (kbind_of kget _ _ _ _ eq_refl). cbn [panicked lset ust_locks uart_tx_w uart_tx_r uart_tx_buf]. rewrite Hp.
  assert (0 <= tx_fill s) as H0 by (unfold tx_fill; pose proof (u64_range (uart_tx_w s - uart_tx_r s)); lia).
  unfold UART_TX_BUF_SIZE in *.
  assert ((uart_tx_w s =? u64 (uart_tx_r s + 32)) = (tx_fill s =? 32)) as ->.
  { apply eq_true_iff_eq. rewrite !Z.eqb_eq. unfold tx_fill, u64 in *. dlia. }
  destruct (tx_fill s =? 32) eqn:E; zbool.
  - left. split; [done |]. erewrite kbind_of by (apply zoom_release; [exact Hl | done]). unfold ksleep.
    destruct s. cbn in *. by subst.
  - right. split; [lia |]. unfold set_tx. rewrite (kbind_of (kmod _) _ _ tt _ eq_refl).
    cbn [u_held u_woken u_noff panicked uart_tx_buf uart_tx_w uart_tx_r u_lsr u_rhr u_sent u_ctl lset ust_locks].
    set (s1 := Ust _ _ _ _ _ _ _ _ _ _ _).
    assert (tx_fill s1 = tx_fill s + 1) as Ef by (unfold tx_fill, s1, u64 in *; cbn; unfold u64; dlia).
    assert (tx_pending s1 = tx_pending s ++ [u8 c]) as Ep.
    { unfold tx_pending. rewrite Ef. replace (Z.to_nat (tx_fill s + 1)) with (Z.to_nat (tx_fill s) + 1)%nat by lia.
      unfold s1. cbn [uart_tx_buf uart_tx_r]. unfold UART_TX_BUF_SIZE.
      rewrite <- (ring_push (uart_tx_buf s) 32 (uart_tx_r s) (Z.to_nat (tx_fill s)) (u8 c)) by (rewrite ?Hb; lia).
      do 2 f_equal. rewrite Z2Nat.id by lia. clear Ef. unfold tx_fill, u64 in *. dlia. }
    destruct (uartstart_loop_ok 33 s1) as (s2 & E2 & (S1 & S2 & S3 & S4 & S5 & S6 & S7 & S8)).
    + unfold s1. cbn. by rewrite length_updZ.
    + unfold s1. cbn. unfold updZ. case_if; [done |]. apply Forall_insert; [done | apply u8_range].
    + apply u64_range.
    + done.
    + lia.
    + unfold uartstart. rewrite (kbind_of _ _ _ _ _ E2).
      erewrite zoom_release; [| exact Hl | exact S6].
      eexists. split; [reflexivity |]. split_and!; [split; cbn; try done | by cbn; rewrite S7 |].
      * unfold UART_TX_BUF_SIZE, tx_fill in *. cbn. lia.
      * etransitivity; [exact S8 |]. rewrite Ep. done.
Qed.

Lemma uartintr_tx_ok s :
  uart_ok s -> exists s', uartintr_tx s = Ret tt s' /\ uart_ok s' /\ panicked s' = panicked s /\
    u_sent s' ++ tx_pending s' = u_sent s ++ tx_pending s.
Proof.
  intros [Hb Hby Hw Hr Hf Hl]. unfold uartintr_tx. erewrite kbind_of by (apply zoom_acquire; exact Hl).
  set (s1 := lset _ s). unfold UART_TX_BUF_SIZE in Hf.
  destruct (uartstart_loop_ok 33 s1) as (s2 & E2 & (S1 & S2 & S3 & S4 & S5 & S6 & S7 & S8)); try done.
  { change (tx_fill s1) with (tx_fill s). lia. }
  unfold uartstart. rewrite (kbind_of _ _ _ _ _ E2). erewrite zoom_release; [| exact Hl | exact S6].
  eexists. split; [reflexivity |]. split_and!; [split; cbn; try done | done | exact S8].
  unfold UART_TX_BUF_SIZE. change (tx_fill s1) with (tx_fill s) in S5. unfold tx_fill in *. cbn. lia.
Qed.

(** A run of calls that all returned. *)
Inductive uart_run : ust -> list uart_op -> ust -> Prop :=
| ur_nil s : uart_run s [] s
| ur_cons s o s1 os s' : run_uart o s = Ret tt s1 -> uart_run s1 os s' -> uart_run s (o :: os) s'.

(** C31: the UART driver neither loses, duplicates nor reorders output.  In
    every run of [uartputc] calls and transmit interrupts, whatever LSR says,
    the bytes written to THR followed by the bytes still buffered are the
    bytes accepted, in order, after those of the start; at most
    UART_TX_BUF_SIZE bytes are ever buffered. *)
Theorem uart_fifo s os s' :
  uart_ok s -> panicked s = false -> uart_run s os s' ->
  uart_ok s' /\ u_sent s' ++ tx_pending s' = u_sent s ++ tx_pending s ++ concat (map accepted os).
Proof.
  intros Hok Hp H. induction H as [s | s o s1 os s' E _ IH].
  { split; [done |]. by rewrite app_nil_r. }
  assert (uart_ok s1 /\ panicked s1 = false /\ u_sent s1 ++ tx_pending s1 = u_sent s ++ tx_pending s ++ accepted o) as (Hok1 & Hp1 & E1).
  { destruct o as [c |]; cbn in E |- *.
    - destruct (uartputc_cases c s Hok Hp) as [[_ E'] | (_ & s2 & E' & H1 & H2 & H3)]; [congruence |].
      rewrite E' in E. injection E as ->. done.
    - destruct (uartintr_tx_ok s Hok) as (s2 & E' & H1 & H2 & H3). rewrite E' in E. injection E as ->.
      split_and!; [done | congruence | by rewrite app_nil_r]. }
  destruct (IH Hok1 Hp1) as [Hok' E2]. split; [done |]. cbn [map concat].
  rewrite E2, (app_assoc (u_sent s1)), E1, <- !app_assoc. done.
Qed.

Definition wit_uart : ust := Ust ∅ [] 0 false (replicate 32 0) 0 0 [32; 0; 32] [] [] [].

Lemma uart_fifo_witness : exists s', uart_run wit_uart [UPut 104; UPut 105; UIntr] s' /\
  u_sent s' ++ tx_pending s' = [104; 105].
Proof.
  assert (exists s', uart_run wit_uart [UPut 104; UPut 105; UIntr] s') as (s' & R).
  { eexists. repeat (eapply ur_cons; [vm_compute; reflexivity |]). apply ur_nil. }
  exists s'. split; [exact R |].
  apply (uart_fifo wit_uart [UPut 104; UPut 105; UIntr] s'); [| reflexivity | exact R].
  split; [reflexivity | by apply (bool_decide_unpack _); vm_compute | cbn; lia | cbn; lia | vm_compute; discriminate | set_solver].
Defined.
