(* ===== verification/Console.v ===== *)
(** * kernel/console.c: console input and output

    The console keeps a 128-byte ring with three free-running counters: [r]
    (next byte to read), [w] (end of the committed lines) and [e] (end of the
    line being edited).  Also here: [either_copyout] and [either_copyin] of
    kernel/proc.c, through which the console reaches user or kernel memory,
    and [uartintr] of kernel/uart.c, which feeds it. *)

From S2P Require Import Prelude Riscv Spinlock Sleeplock Mem CString Kalloc Vm Ring Uart.

Definition BACKSPACE : Z := 0x100.
Definition INPUT_BUF_SIZE : Z := 128.
Definition Ctrl (x : Z) : Z := x - 64.   (* C(x) *)
Definition nl : Z := 10.

Record cst := Cst {
  c_uart : ust;
  c_buf : list Z;
  c_r : Z;
  c_w : Z;
  c_e : Z;
  c_pm : pm;
}.

#[export] Instance cst_uart : Lens cst ust.
Proof. refine {| lget := c_uart; lset u s := Cst u (c_buf s) (c_r s) (c_w s) (c_e s) (c_pm s) |}; by try intros []. Defined.
#[export] Instance cst_pm : Lens cst pm.
Proof. refine {| lget := c_pm; lset m s := Cst (c_uart s) (c_buf s) (c_r s) (c_w s) (c_e s) m |}; by try intros []. Defined.
#[export] Instance cst_waker : Waker cst := {|
  woken s := u_woken (c_uart s);
  add_woken c s := Cst (add_woken c (c_uart s)) (c_buf s) (c_r s) (c_w s) (c_e s) (c_pm s) |}.

Definition cons_lock : lockid := ("cons", 0).
Definition cons_chan : Z := 1.   (* &cons.r *)

Definition set_cons (b : list Z) (r w e : Z) : K cst unit :=
  kmod (fun s => Cst (c_uart s) b r w e (c_pm s)).

Definition consputc (c : Z) : K cst unit :=
  if c =? BACKSPACE then
    zoom (uartputc_sync 8) >> zoom (uartputc_sync 32) >> zoom (uartputc_sync 8)
  else zoom (uartputc_sync c).

(** A read that has to wait sleeps with what is left to read. *)
Inductive cres :=
| CDone (r : Z)
| CSleep (dst n : Z).

Section console.
Context `{L : Layout}.
Variable pagetable : Z.           (* myproc()->pagetable *)
Variable killed : bool.           (* killed(myproc()) *)
Variable procdump : K cst unit.   (* proc.c: prints the process table *)

Definition either_copyout (user_dst : bool) (dst : Z) (src : bytes) : K pm Z :=
  if user_dst then copyout pagetable dst src
  else set_mem (fun m => wrbytes m dst src) >> kret 0.

Definition either_copyin (user_src : bool) (src len : Z) : K pm (Z * bytes) :=
  if user_src then copyin pagetable src len
  else b <- kgets (fun s => rdbytes (pm_mem s) src (Z.to_nat len)) ;; kret (0, b).

Definition cacquire : K cst unit := zoom (T := ust) (zoom (acquire cons_lock)).
Definition crelease : K cst unit := zoom (T := ust) (zoom (release cons_lock)).

(** [for(i = 0; i < n; i++)] *)
Fixpoint consolewrite_loop (fuel : nat) (user_src : bool) (src i n : Z) : K cst Z :=
  match fuel with
  | O => kfuel
  | S fuel =>
      if i <? n then
        ' (r, c) <- zoom (either_copyin user_src (u64 (src + i)) 1) ;;
        if r =? -1 then kret i
        else zoom (uartputc (nthZ 0 c 0)) >> consolewrite_loop fuel user_src src (i + 1) n
      else kret i
  end.

Definition consolewrite (user_src : bool) (src n : Z) : K cst Z :=
  consolewrite_loop (S (Z.to_nat n)) user_src src 0 n.

(** [while(n > 0)]; [target] is the length asked for. *)
Fixpoint consoleread_loop (fuel : nat) (user_dst : bool) (target dst n : Z) : K cst cres :=
  match fuel with
  | O => kfuel
  | S fuel =>
      if 0 <? n then
        s <- kget ;;
        if c_r s =? c_w s then
          if killed then crelease >> kret (CDone (-1))
          else crelease >> kret (CSleep dst n)
        else
          let c := nthZ 0 (c_buf s) (c_r s mod INPUT_BUF_SIZE) in
          set_cons (c_buf s) (u32 (c_r s + 1)) (c_w s) (c_e s) >>
          if c =? Ctrl 68 then
            kwhen (n <? target) (set_cons (c_buf s) (c_r s) (c_w s) (c_e s)) >>
            crelease >> kret (CDone (target - n))
          else
            r <- zoom (either_copyout user_dst dst [c]) ;;
            if r =? -1 then crelease >> kret (CDone (target - n))
            else if c =? nl then crelease >> kret (CDone (target - (n - 1)))
            else consoleread_loop fuel user_dst target (u64 (dst + 1)) (n - 1)
      else crelease >> kret (CDone (target - n))
  end.

(** A read of [target] bytes of which [n] are left; the call itself has
    [n] = [target]. *)
Definition consoleread (user_dst : bool) (target dst n : Z) : K cst cres :=
  cacquire >> consoleread_loop (S (Z.to_nat n)) user_dst target dst n.

(** Case C('U'): [while(cons.e != cons.w && cons.buf[(cons.e-1) % ...] != '\n')] *)
Fixpoint kill_line (fuel : nat) : K cst unit :=
  match fuel with
  | O => kfuel
  | S fuel =>
      s <- kget ;;
      if (negb (c_e s =? c_w s) && negb (nthZ 0 (c_buf s) (u32 (c_e s - 1) mod INPUT_BUF_SIZE) =? nl))%bool then
        set_cons (c_buf s) (c_r s) (c_w s) (u32 (c_e s - 1)) >>
        consputc BACKSPACE >>
        kill_line fuel
      else kret tt
  end.

Definition consoleintr (c : Z) : K cst unit :=
  cacquire >>
  s <- kget ;;
  (if c =? Ctrl 80 then procdump
   else if c =? Ctrl 85 then kill_line (S (Z.to_nat INPUT_BUF_SIZE))
   else if ((c =? Ctrl 72) || (c =? 0x7f))%bool then
     kwhen (negb (c_e s =? c_w s))
       (set_cons (c_buf s) (c_r s) (c_w s) (u32 (c_e s - 1)) >> consputc BACKSPACE)
   else
     kwhen (negb (c =? 0) && (u32 (c_e s - c_r s) <? INPUT_BUF_SIZE))%bool
       (let c := if c =? 13 then nl else c in
        consputc c >>
        let e := u32 (c_e s + 1) in
        let b := updZ (c_buf s) (c_e s mod INPUT_BUF_SIZE) (u8 c) in
        set_cons b (c_r s) (c_w s) e >>
        kwhen ((c =? nl) || (c =? Ctrl 68) || (u32 (e - c_r s) =? INPUT_BUF_SIZE))%bool
          (set_cons b (c_r s) e e >> wakeup_rec cons_chan))) >>
  crelease.

(** [while(1)] of [uartintr], as long as the device has input. *)
Fixpoint uartintr_rx (fuel : nat) : K cst unit :=
  match fuel with
  | O => kfuel
  | S fuel =>
      c <- zoom uartgetc ;;
      if c =? -1 then kret tt else consoleintr c >> uartintr_rx fuel
  end.

Definition uartintr : K cst unit :=
  n <- kgets (fun s => length (u_lsr (c_uart s))) ;;
  uartintr_rx (S (S n)) >>
  zoom uartintr_tx.

Definition consoleinit : K cst unit :=
  zoom (T := ust) (zoom (initlock cons_lock)) >> zoom uartinit.

(** ** The line discipline, abstractly *)

(** Committed bytes and the line being edited. *)
Definition lines : Type := list Z * list Z.

Definition line_spec (c : Z) (st : lines) : lines :=
  let '(done, edit) := st in
  if c =? Ctrl 80 then st
  else if c =? Ctrl 85 then (done, [])
  else if ((c =? Ctrl 72) || (c =? 0x7f))%bool then (done, removelast edit)
  else if ((c =? 0) || (INPUT_BUF_SIZE <=? Z.of_nat (length done + length edit)))%bool then st
  else
    let c := if c =? 13 then nl else c in
    if ((c =? nl) || (c =? Ctrl 68) || (Z.of_nat (length done + length edit) + 1 =? INPUT_BUF_SIZE))%bool
    then (done ++ edit ++ [c], [])
    else (done, edit ++ [c]).

Definition n_done (s : cst) : nat := Z.to_nat (u32 (c_w s - c_r s)).
Definition n_edit (s : cst) : nat := Z.to_nat (u32 (c_e s - c_w s)).
Definition cons_lines (s : cst) : lines :=
  (ring_get (c_buf s) INPUT_BUF_SIZE (c_r s) (n_done s), ring_get (c_buf s) INPUT_BUF_SIZE (c_w s) (n_edit s)).

Record cons_ok (s : cst) : Prop := {
  ck_buf : length (c_buf s) = 128%nat;
  ck_r : 0 <= c_r s < 2 ^ 32;
  ck_w : 0 <= c_w s < 2 ^ 32;
  ck_e : 0 <= c_e s < 2 ^ 32;
  ck_fill : u32 (c_w s - c_r s) + u32 (c_e s - c_w s) <= INPUT_BUF_SIZE;
  ck_line : nl ∉ (cons_lines s).2;
  ck_panic : panicked (c_uart s) = false;
  ck_lock : cons_lock ∉ u_held (c_uart s);
}.

(** The next [k] reads of LSR find the transmitter idle. *)
Definition idle (k : nat) (u : ust) : Prop :=
  (k <= length (u_lsr u))%nat /\ Forall (fun l => Z.land l LSR_TX_IDLE <> 0) (take k (u_lsr u)).

Lemma uartputc_sync_ok c k u :
  idle (S k) u -> panicked u = false ->
  exists u', uartputc_sync c u = Ret tt u' /\ idle k u' /\ panicked u' = false /\ u_held u' = u_held u.
Proof.
  intros [Hlen Hid] Hp. destruct u as [h w nf p b tw tr lsr rhr snt ctl]. cbn [panicked u_lsr u_held] in *. subst p.
  destruct lsr as [| l lsr]; [cbn in Hlen; lia |]. cbn in Hid. inversion_clear Hid as [| ? ? Hl Hid'].
  unfold uartputc_sync, add_noff. rewrite (kbind_of (kmod _) _ _ tt _ eq_refl), (kbind_of kget _ _ _ _ eq_refl).
  cbn [panicked u_lsr length spin_idle].
  rewrite kbind_assoc, (kbind_of read_lsr _ _ _ _ eq_refl). cbn [hd u_lsr]. rewrite (proj2 (Z.eqb_neq _ _) Hl).
  eexists. split; [reflexivity |]. cbn in *. split_and!; try done. split; cbn [u_lsr]; [lia | done].
Qed.

Lemma idle_le k k' u : (k <= k')%nat -> idle k' u -> idle k u.
Proof.
  intros Hk [Hl Hi]. split; [lia |]. replace k with (k `min` k')%nat in * by lia.
  rewrite <- take_take. by apply Forall_take.
Qed.

(** Echoing changes nothing but the UART. *)
Lemma consputc_ok c k s :
  idle (3 + k) (c_uart s) -> panicked (c_uart s) = false ->
  exists u, consputc c s = Ret tt (lset u s) /\ idle k u /\ panicked u = false /\ u_held u = u_held (c_uart s).
Proof.
  intros Hi Hp. unfold consputc. destruct (c =? BACKSPACE).
  - destruct (uartputc_sync_ok 8 _ _ Hi Hp) as (u1 & E1 & Hi1 & Hp1 & Hh1).
    erewrite kbind_of by (apply (zoom_ret (S := cst)); exact E1).
    destruct (uartputc_sync_ok 32 _ _ Hi1 Hp1) as (u2 & E2 & Hi2 & Hp2 & Hh2).
    erewrite kbind_of by (apply (zoom_ret (S := cst)); exact E2).
    destruct (uartputc_sync_ok 8 _ _ Hi2 Hp2) as (u3 & E3 & Hi3 & Hp3 & Hh3).
    erewrite zoom_ret by exact E3. exists u3. split_and!; try done. congruence.
  - destruct (uartputc_sync_ok c (2 + k) _ Hi Hp) as (u1 & E1 & Hi1 & Hp1 & Hh1).
    exists u1. erewrite zoom_ret by exact E1. split_and!; try done. eapply idle_le; [| done]. lia.
Qed.

(** The counters. *)
Section counters.
Context (b : list Z) (r w e : Z) (Hr : 0 <= r < 2 ^ 32) (Hw : 0 <= w < 2 ^ 32) (He : 0 <= e < 2 ^ 32).
Context (Hf : u32 (w - r) + u32 (e - w) <= INPUT_BUF_SIZE).

Lemma fill_er : u32 (e - r) = u32 (w - r) + u32 (e - w).
Proof. unfold u32, INPUT_BUF_SIZE in *. dlia. Qed.

Lemma edit_empty : (e =? w) = (Z.to_nat (u32 (e - w)) =? 0)%nat.
Proof.
  apply eq_true_iff_eq. rewrite Z.eqb_eq, Nat.eqb_eq. unfold u32, INPUT_BUF_SIZE in *. dlia.
Qed.

Lemma edit_dec : e <> w -> u32 (u32 (e - 1) - w) = u32 (e - w) - 1 /\ 0 < u32 (e - w).
Proof. unfold u32, INPUT_BUF_SIZE in *. dlia. Qed.

Lemma edit_inc : u32 (w - r) + u32 (e - w) < INPUT_BUF_SIZE -> u32 (u32 (e + 1) - w) = u32 (e - w) + 1.
Proof. unfold u32, INPUT_BUF_SIZE in *. dlia. Qed.

Lemma last_edit : e <> w ->
  ring_get b INPUT_BUF_SIZE w (Z.to_nat (u32 (e - w))) =
  ring_get b INPUT_BUF_SIZE w (Z.to_nat (u32 (u32 (e - 1) - w))) ++ [nthZ 0 b (u32 (e - 1) mod INPUT_BUF_SIZE)].
Proof.
  intros Hne. destruct (edit_dec Hne) as [-> Hpos].
  replace (Z.to_nat (u32 (e - w))) with (Z.to_nat (u32 (e - w) - 1) + 1)%nat by lia.
  rewrite ring_get_app. cbn [ring_get]. do 3 f_equal. unfold u32, INPUT_BUF_SIZE in *. dlia.
Qed.
End counters.

Lemma crelease_ok u b r w e m h : cons_lock ∉ h -> u_held u = {[cons_lock]} ∪ h ->
  exists u', crelease (Cst u b r w e m) = Ret tt (Cst u' b r w e m) /\ u_held u' = h /\ panicked u' = panicked u /\ u_lsr u' = u_lsr u.
Proof.
  intros H E. exists (lset h u). split; [| done]. unfold crelease.
  rewrite (zoom_ret (S := cst) (T := ust) _ _ tt (lset h u)); [done |]. by apply zoom_release.
Qed.

(** Erasing one character. *)
Lemma erase_ok s :
  cons_ok s -> c_e s <> c_w s -> forall u, panicked u = false -> cons_lock ∉ u_held u ->
  let s' := Cst u (c_buf s) (c_r s) (c_w s) (u32 (c_e s - 1)) (c_pm s) in
  cons_ok s' /\ cons_lines s' = ((cons_lines s).1, removelast (cons_lines s).2) /\ (n_edit s' + 1 = n_edit s)%nat.
Proof.
  intros [K1 K2 K3 K4 K5 K6 K7 K8] Hne u Hp Hl s'.
  destruct (edit_dec (c_r s) (c_w s) (c_e s) K2 K3 K4 K5 Hne) as [Ed Hpos].
  pose proof (last_edit (c_buf s) (c_r s) (c_w s) (c_e s) K2 K3 K4 K5 Hne) as El.
  assert (cons_lines s' = ((cons_lines s).1, removelast (cons_lines s).2)) as Ec.
  { unfold cons_lines, n_done, n_edit. cbn. f_equal. rewrite El, removelast_last. done. }
  split_and!; [split; cbn; try done | done | unfold n_edit; cbn; lia].
  - apply u32_range.
  - lia.
  - change (nl ∉ (cons_lines s').2). rewrite Ec. cbn. intros Hin. apply K6. unfold cons_lines in *. cbn in *.
    unfold n_edit in *. rewrite El in Hin |- *. rewrite removelast_last in Hin. set_solver.
Qed.

(** A state with the console's buffer and counters of [s]. *)
Definition with_uart (u : ust) (s : cst) : cst := Cst u (c_buf s) (c_r s) (c_w s) (c_e s) (c_pm s).

Lemma cons_ok_uart s u : cons_ok s -> panicked u = false -> cons_lock ∉ u_held u -> cons_ok (with_uart u s).
Proof. intros [K1 K2 K3 K4 K5 K6 K7 K8] Hp Hl. by split. Qed.

(** The kill loop erases the line being edited. *)
Lemma kill_line_ok h : forall fuel s k u,
  cons_ok s -> cons_lock ∉ h -> u_held u = {[cons_lock]} ∪ h -> panicked u = false ->
  (n_edit s < fuel)%nat -> idle (3 * n_edit s + k) u ->
  exists u' s', kill_line fuel (with_uart u s) = Ret tt (with_uart u' s') /\ cons_ok s' /\
    u_held u' = u_held u /\ panicked u' = false /\ cons_lines s' = ((cons_lines s).1, []).
Proof.
  induction fuel as [| fuel IH]; intros s k u Hok Hh Hu Hp Hf Hi; [lia |]. pose proof Hok as [K1 K2 K3 K4 K5 K6 K7 K8].
  cbn [kill_line]. rewrite (kbind_of kget _ _ _ _ eq_refl). cbn [c_e c_w c_buf c_r with_uart].
  destruct (c_e s =? c_w s) eqn:E; cbn [negb andb]; zbool.
  { exists u, s. split_and!; try done. unfold cons_lines, n_edit. rewrite E, Z.sub_diag. done. }
  pose proof (last_edit (c_buf s) (c_r s) (c_w s) (c_e s) K2 K3 K4 K5 E) as El.
  destruct (nthZ 0 (c_buf s) (u32 (c_e s - 1) mod INPUT_BUF_SIZE) =? nl) eqn:En; zbool.
  { exfalso. apply K6. unfold cons_lines, n_edit. cbn. rewrite El, En. set_solver. }
  cbn [negb]. unfold set_cons. rewrite (kbind_of (kmod _) _ _ tt _ eq_refl). cbn [c_uart c_pm with_uart].
  destruct (erase_ok s Hok E (c_uart s) K7 K8) as (Hok1 & El1 & En1). set (s1 := Cst (c_uart s) _ _ _ _ _) in *.
  change (Cst u (c_buf s) (c_r s) (c_w s) (u32 (c_e s - 1)) (c_pm s)) with (with_uart u s1).
  destruct (consputc_ok BACKSPACE (3 * n_edit s1 + k) (with_uart u s1)) as (u1 & E1 & Hi1 & Hp1 & Hu1).
  { cbn [c_uart with_uart]. eapply idle_le; [| exact Hi]. lia. }
  { done. }
  rewrite (kbind_of _ _ _ _ _ E1). change (lset u1 (with_uart u s1)) with (with_uart u1 s1).
  cbn [c_uart with_uart] in Hu1.
  destruct (IH s1 k u1 Hok1 Hh) as (u' & s' & E' & Hok' & Hu' & Hp' & El'); [congruence | done | lia | done |].
  exists u', s'. split_and!; [exact E' | done | congruence | done |]. rewrite El', El1. done.
Qed.

Lemma length_cons_lines s : length (cons_lines s).1 = n_done s /\ length (cons_lines s).2 = n_edit s.
Proof. unfold cons_lines. cbn. by rewrite !length_ring_get. Qed.

(** Typing an ordinary character. *)
Lemma type_ok s c :
  cons_ok s -> 0 <= c < 256 -> u32 (c_w s - c_r s) + u32 (c_e s - c_w s) < INPUT_BUF_SIZE ->
  let b := updZ (c_buf s) (c_e s mod INPUT_BUF_SIZE) (u8 c) in let e := u32 (c_e s + 1) in
  ring_get b INPUT_BUF_SIZE (c_w s) (Z.to_nat (u32 (e - c_w s))) = (cons_lines s).2 ++ [c] /\
  ring_get b INPUT_BUF_SIZE (c_r s) (n_done s) = (cons_lines s).1 /\
  ring_get b INPUT_BUF_SIZE (c_r s) (Z.to_nat (u32 (e - c_r s))) = (cons_lines s).1 ++ (cons_lines s).2 ++ [c] /\
  u32 (e - c_w s) = u32 (c_e s - c_w s) + 1 /\ u32 (e - c_r s) = u32 (c_w s - c_r s) + u32 (c_e s - c_w s) + 1.
Proof.
  intros [K1 K2 K3 K4 K5 K6 K7 K8] Hc Hlt b e.
  assert (0 <= u32 (c_w s - c_r s) /\ 0 <= u32 (c_e s - c_w s)) as [P1 P2]
    by (pose proof (u32_range (c_w s - c_r s)); pose proof (u32_range (c_e s - c_w s)); lia).
  assert (u32 (e - c_w s) = u32 (c_e s - c_w s) + 1) as Ew by (by apply (edit_inc (c_r s))).
  assert (u32 (e - c_r s) = u32 (c_w s - c_r s) + u32 (c_e s - c_w s) + 1) as Er.
  { unfold e, u32, INPUT_BUF_SIZE in *. dlia. }
  assert (ring_get b INPUT_BUF_SIZE (c_r s) (n_done s + n_edit s + 1) = (cons_lines s).1 ++ (cons_lines s).2 ++ [c]) as Eall.
  { unfold b. rewrite u8_small by done.
    replace (c_e s mod INPUT_BUF_SIZE) with ((c_r s + Z.of_nat (n_done s + n_edit s)) mod INPUT_BUF_SIZE)
      by (unfold n_done, n_edit, u32, INPUT_BUF_SIZE in *; rewrite Nat2Z.inj_add, !Z2Nat.id by lia; dlia).
    rewrite ring_push by (unfold n_done, n_edit, INPUT_BUF_SIZE in *; lia || (rewrite K1; done)).
    rewrite ring_get_app, <- app_assoc. unfold cons_lines. cbn. do 2 f_equal.
    rewrite <- (ring_get_mod _ _ (2 ^ 32) _ (c_r s + _)) by (exists (2 ^ 25); reflexivity).
    f_equal. unfold n_done, u32, INPUT_BUF_SIZE in *. rewrite Z2Nat.id by lia. dlia. }
  rewrite <- Nat.add_assoc, ring_get_app in Eall.
  pose proof (length_cons_lines s) as [Ll _].
  apply app_inj_1 in Eall as [E1 E2]; [| by rewrite length_ring_get].
  split_and!; try done.
  - rewrite Ew, <- E2. replace (Z.to_nat (u32 (c_e s - c_w s) + 1)) with (n_edit s + 1)%nat by (unfold n_edit; lia).
    rewrite <- (ring_get_mod _ _ (2 ^ 32) _ (c_r s + _)) by (exists (2 ^ 25); reflexivity).
    f_equal. unfold n_done, u32, INPUT_BUF_SIZE in *. rewrite Z2Nat.id by lia. dlia.
  - rewrite Er. replace (Z.to_nat _) with (n_done s + (n_edit s + 1))%nat by (unfold n_done, n_edit; lia).
    by rewrite ring_get_app, E1, E2.
Qed.

Lemma cacquire_ok s : cons_lock ∉ u_held (c_uart s) ->
  cacquire s = Ret tt (with_uart (lset ({[cons_lock]} ∪ u_held (c_uart s)) (c_uart s)) s).
Proof.
  intros H. unfold cacquire. erewrite (zoom_ret (S := cst) (T := ust)); [reflexivity |].
  exact (zoom_acquire cons_lock (c_uart s) H).
Qed.

(** The body of [consoleintr] between acquire and release. *)
Definition intr_body (c : Z) (s : cst) : K cst unit :=
  if c =? Ctrl 80 then procdump
  else if c =? Ctrl 85 then kill_line (S (Z.to_nat INPUT_BUF_SIZE))
  else if ((c =? Ctrl 72) || (c =? 0x7f))%bool then
    kwhen (negb (c_e s =? c_w s))
      (set_cons (c_buf s) (c_r s) (c_w s) (u32 (c_e s - 1)) >> consputc BACKSPACE)
  else
    kwhen (negb (c =? 0) && (u32 (c_e s - c_r s) <? INPUT_BUF_SIZE))%bool
      (let c := if c =? 13 then nl else c in
       consputc c >>
       let e := u32 (c_e s + 1) in
       let b := updZ (c_buf s) (c_e s mod INPUT_BUF_SIZE) (u8 c) in
       set_cons b (c_r s) (c_w s) e >>
       kwhen ((c =? nl) || (c =? Ctrl 68) || (u32 (e - c_r s) =? INPUT_BUF_SIZE))%bool
         (set_cons b (c_r s) e e >> wakeup_rec cons_chan)).

Lemma intr_body_ok c s u h :
  (forall s, procdump s = Ret tt s) -> cons_ok s -> 0 <= c < 256 -> cons_lock ∉ h ->
  u_held u = {[cons_lock]} ∪ h -> panicked u = false -> idle 387 u ->
  exists u' s', intr_body c (with_uart u s) (with_uart u s) = Ret tt (with_uart u' s') /\ cons_ok s' /\
    u_held u' = u_held u /\ panicked u' = false /\ cons_lines s' = line_spec c (cons_lines s).
Proof.
  intros Hpd Hok Hc Hh Hu Hp Hi. pose proof Hok as [K1 K2 K3 K4 K5 K6 K7 K8].
  assert (0 <= u32 (c_w s - c_r s) /\ 0 <= u32 (c_e s - c_w s)) as [P1 P2]
    by (pose proof (u32_range (c_w s - c_r s)); pose proof (u32_range (c_e s - c_w s)); lia).
  pose proof (length_cons_lines s) as [Ll1 Ll2].
  unfold intr_body, line_spec. rewrite (surjective_pairing (cons_lines s)).
  destruct (c =? Ctrl 80); [exists u, s; by rewrite Hpd, <- surjective_pairing |].
  destruct (c =? Ctrl 85).
  { apply (kill_line_ok h _ s 3 u); try done; [unfold n_edit, INPUT_BUF_SIZE in *; lia |].
    eapply idle_le; [| exact Hi]. unfold n_edit, INPUT_BUF_SIZE in *. lia. }
  cbn [c_e c_w c_r c_buf with_uart].
  destruct ((c =? Ctrl 72) || (c =? 0x7f))%bool.
  { destruct (c_e s =? c_w s) eqn:E; cbn [negb kwhen]; zbool.
    - exists u, s. split_and!; try done. unfold cons_lines, n_edit. rewrite E, Z.sub_diag. done.
    - unfold set_cons. rewrite (kbind_of (kmod _) _ _ tt _ eq_refl). cbn [c_uart c_pm with_uart].
      destruct (erase_ok s Hok E (c_uart s) K7 K8) as (Hok1 & El1 & _). set (s1 := Cst (c_uart s) _ _ _ _ _) in *.
      change (Cst u (c_buf s) (c_r s) (c_w s) (u32 (c_e s - 1)) (c_pm s)) with (with_uart u s1).
      destruct (consputc_ok BACKSPACE 384 (with_uart u s1) Hi Hp) as (u1 & E1 & _ & Hp1 & Hu1).
      exists u1, s1. split_and!; [exact E1 | done | exact Hu1 | done | done]. }
  rewrite (fill_er (c_r s) (c_w s) (c_e s) K2 K3 K4 K5).
  replace (INPUT_BUF_SIZE <=? Z.of_nat (length (cons_lines s).1 + length (cons_lines s).2))
    with (negb (u32 (c_w s - c_r s) + u32 (c_e s - c_w s) <? INPUT_BUF_SIZE))
    by (rewrite Ll1, Ll2, Z.ltb_antisym, negb_involutive; f_equal; unfold n_done, n_edit; lia).
  destruct (c =? 0) eqn:E0; cbn [negb andb orb kwhen]; [exists u, s; by rewrite <- surjective_pairing |].
  destruct (_ <? INPUT_BUF_SIZE) eqn:Ef; cbn [negb andb orb kwhen]; zbool; [| exists u, s; by rewrite <- surjective_pairing].
  set (c' := if c =? 13 then nl else c).
  assert (0 <= c' < 256) as Hc' by (unfold c', nl; case_if; lia). clearbody c'. clear Hc E0.
  destruct (consputc_ok c' 384 (with_uart u s) Hi Hp) as (u1 & E1 & _ & Hp1 & Hu1).
  cbv zeta. rewrite (kbind_of _ _ _ _ _ E1). unfold set_cons. rewrite (kbind_of (kmod _) _ _ tt _ eq_refl).
  cbn [lset cst_uart c_uart c_pm with_uart] in *.
  destruct (type_ok s c' Hok Hc' Ef) as (T1 & T2 & T3 & T4 & T5).
  set (b := updZ _ _ _) in *. set (e := u32 (c_e s + 1)) in *.
  assert (length b = 128%nat) as Hb by (unfold b; by rewrite length_updZ).
  assert (0 <= e < 2 ^ 32) as He by apply u32_range.
  replace (Z.of_nat (length (cons_lines s).1 + length (cons_lines s).2) + 1) with (u32 (e - c_r s))
    by (rewrite T5, Ll1, Ll2; unfold n_done, n_edit; lia).
  destruct ((c' =? nl) || (c' =? Ctrl 68) || (u32 (e - c_r s) =? INPUT_BUF_SIZE))%bool eqn:Ecm; cbn [kwhen].
  - unfold set_cons. kred. eexists (add_woken cons_chan u1), (Cst (c_uart s) b (c_r s) e e (c_pm s)).
    assert (n_edit (Cst (c_uart s) b (c_r s) e e (c_pm s)) = 0%nat) as En by (unfold n_edit; cbn; by rewrite Z.sub_diag).
    assert (cons_lines (Cst (c_uart s) b (c_r s) e e (c_pm s)) = ((cons_lines s).1 ++ (cons_lines s).2 ++ [c'], [])) as El.
    { unfold cons_lines at 1. rewrite En. unfold n_done. cbn [c_buf c_r c_w ring_get]. by rewrite T3. }
    split_and!; [reflexivity | | done | done | done].
    split; cbn; try done; [rewrite T5, Z.sub_diag; change (u32 0) with 0; lia |].
    change (nl ∉ (cons_lines (Cst (c_uart s) b (c_r s) e e (c_pm s))).2). rewrite El. cbn. set_solver.
  - eexists u1, (Cst (c_uart s) b (c_r s) (c_w s) e (c_pm s)).
    assert (cons_lines (Cst (c_uart s) b (c_r s) (c_w s) e (c_pm s)) = ((cons_lines s).1, (cons_lines s).2 ++ [c'])) as El.
    { unfold cons_lines at 1. unfold n_done, n_edit. cbn [c_buf c_r c_w c_e]. f_equal; [exact T2 | exact T1]. }
    split_and!; [reflexivity | | done | done | done].
    split; cbn; try done; [lia |].
    change (nl ∉ (cons_lines (Cst (c_uart s) b (c_r s) (c_w s) e (c_pm s))).2). rewrite El. cbn. zbool. set_solver.
Qed.

(** C23: the console's line discipline.  With the transmitter idle for the
    echo, [consoleintr] returns, keeps the invariant of the input buffer (the
    counters stay ordered and within INPUT_BUF_SIZE of each other), and does
    to the committed bytes and to the line being edited exactly what
    [line_spec] says: backspace removes the last character of the line, ^U
    all of it, a newline, ^D or a full buffer commits it, CR counts as
    newline, and characters that do not fit are dropped. *)
Theorem consoleintr_refines c s :
  (forall s, procdump s = Ret tt s) -> cons_ok s -> 0 <= c < 256 -> idle 387 (c_uart s) ->
  exists s', consoleintr c s = Ret tt s' /\ cons_ok s' /\ cons_lines s' = line_spec c (cons_lines s).
Proof.
  intros Hpd Hok Hc Hi. pose proof (ck_lock s Hok) as Hl. pose proof (ck_panic s Hok) as Hp.
  unfold consoleintr. rewrite (kbind_of _ _ _ _ _ (cacquire_ok s Hl)), (kbind_of kget _ _ _ _ eq_refl).
  set (u := lset _ (c_uart s)).
  destruct (intr_body_ok c s u (u_held (c_uart s)) Hpd Hok Hc Hl eq_refl Hp Hi) as (u' & s' & E & Hok' & Hu' & Hp' & El).
  fold (intr_body c (with_uart u s)). rewrite (kbind_of _ _ _ _ _ E).
  destruct (crelease_ok u' (c_buf s') (c_r s') (c_w s') (c_e s') (c_pm s') (u_held (c_uart s)) Hl ltac:(by rewrite Hu'))
    as (u2 & E2 & Hh2 & Hp2 & _).
  exists (with_uart u2 s'). split_and!; [exact E2 | | exact El].
  apply cons_ok_uart; [done | congruence | by rewrite Hh2].
Qed.
End console.

Definition wit_cons : cst := Cst (Ust ∅ [] 0 false (replicate 32 0) 0 0 (replicate 400 32) [] [] []) (replicate 128 0) 0 0 0 (Pm ∅ ∅ 0).

Lemma consoleintr_refines_witness :
  exists s', consoleintr (kret tt) 104 wit_cons = Ret tt s' /\ cons_lines s' = ([], [104]).
Proof.
  destruct (consoleintr_refines (kret tt) 104 wit_cons) as (s' & E & _ & El).
  - intros s. reflexivity.
  - split; [reflexivity | cbn; lia | cbn; lia | cbn; lia | vm_compute; discriminate | cbn; set_solver | reflexivity | set_solver].
  - lia.
  - split; [apply Nat.leb_le; vm_compute; reflexivity | by apply (bool_decide_unpack _); vm_compute].
  - exists s'. split; [exact E | exact El].
Defined.
