(* ===== verification/Ulib.v ===== *)
(** * user/ulib.c: the C library of user programs

    Functions that write take and return the memory of the process; those
    that only read take the bytes behind the pointer by offset, as in
    [CString].  A scan for a NUL byte takes the number of bytes it may look
    at; [None] means that the string is longer.  The system calls ([read],
    [open], [fstat], [close]) are parameters: they are not in this file. *)

From S2P Require Import Prelude Mem CString.

Module Ulib.

(** [while((star s++ = star t++) != 0);] *)
Fixpoint strcpy_loop (m : mem) (s t : Z) (fuel : nat) : option mem :=
  match fuel with
  | O => None
  | S fuel =>
      let c := ld8 m t in
      let m := st8 m s c in
      if negb (c =? 0) then strcpy_loop m (s + 1) (t + 1) fuel else Some m
  end.

(** Returns [s], and the memory. *)
Definition strcpy (m : mem) (s t : Z) (fuel : nat) : option (Z * mem) :=
  m ← strcpy_loop m s t fuel; Some (s, m).

Fixpoint strcmp (p q : nat -> Z) (i : nat) (fuel : nat) : option Z :=
  match fuel with
  | O => None
  | S fuel =>
      if (negb (p i =? 0) && (p i =? q i))%bool
      then strcmp p q (S i) fuel
      else Some (u8 (p i) - u8 (q i))
  end.

Fixpoint strlen_loop (s : nat -> Z) (n fuel : nat) : option Z :=
  match fuel with
  | O => None
  | S fuel => if negb (s n =? 0) then strlen_loop s (S n) fuel else Some (u32 (Z.of_nat n))
  end.

Definition strlen (s : nat -> Z) (fuel : nat) : option Z := strlen_loop s 0 fuel.

(** [i] is a signed [int] compared with the unsigned [n]. *)
Fixpoint memset_from (m : mem) (cdst c i n : Z) (fuel : nat) : mem :=
  match fuel with
  | O => m
  | S fuel => if u32 i <? n then memset_from (st8 m (cdst + i) c) cdst c (i + 1) n fuel else m
  end.

Definition memset (m : mem) (dst c n : Z) : mem := memset_from m dst c 0 n (Z.to_nat n).

(** The offset of the first [c], or [-1] for the null pointer. *)
Fixpoint strchr (s : nat -> Z) (c : Z) (i : nat) (fuel : nat) : option Z :=
  match fuel with
  | O => None
  | S fuel =>
      if negb (s i =? 0) then
        if s i =? c then Some (Z.of_nat i) else strchr s c (S i) fuel
      else Some (-1)
  end.

Fixpoint atoi_loop (s : nat -> Z) (i : nat) (n : Z) (fuel : nat) : option Z :=
  match fuel with
  | O => None
  | S fuel =>
      if ((48 <=? s i) && (s i <=? 57))%bool
      then atoi_loop s (S i) (i32 (i32 (i32 (n * 10) + s i) - 48)) fuel
      else Some n
  end.

Definition atoi (s : nat -> Z) (fuel : nat) : option Z := atoi_loop s 0 0 fuel.

(** The direction of the copy depends on the order of the pointers only. *)
Definition memmove (m : mem) (dst src n : Z) : mem :=
  if dst <? src then copy_fwd m dst src (Z.to_nat n)
  else copy_bwd m (dst + n) (src + n) (Z.to_nat n).

Fixpoint memcmp (s1 s2 : nat -> Z) (i n : nat) : Z :=
  match n with
  | O => 0
  | S n => if negb (s1 i =? s2 i) then s1 i - s2 i else memcmp s1 s2 (S i) n
  end.

(** [n] is unsigned here and a signed [int] in [memmove]. *)
Definition memcpy (m : mem) (dst src n : Z) : mem := memmove m dst src (i32 n).

Section calls.
Context {S : Type}.
(** [read(fd, &c, 1)]: its result and, when that is 1, the byte. *)
Variable read1 : Z -> K S (Z * Z).
Variable open : Z -> Z -> K S Z.
Variable fstat : Z -> Z -> K S Z.
Variable close : Z -> K S Z.
(** The memory of the process. *)
Context `{HM : Lens S mem}.

Fixpoint gets_loop (fuel : nat) (buf max i : Z) : K S Z :=
  match fuel with
  | O => kfuel
  | Datatypes.S fuel =>
      if i + 1 <? max then
        ' (cc, c) <- read1 0 ;;
        if cc <? 1 then kret i
        else
          zoom (kmod (fun m => st8 m (buf + i) c)) >>
          if ((c =? 10) || (c =? 13))%bool then kret (i + 1)
          else gets_loop fuel buf max (i + 1)
      else kret i
  end.

Definition gets (buf max : Z) : K S Z :=
  i <- gets_loop (Datatypes.S (Z.to_nat max)) buf max 0 ;;
  zoom (kmod (fun m => st8 m (buf + i) 0)) >>
  kret buf.

Definition stat (n st : Z) : K S Z :=
  fd <- open n 0 ;;
  if fd <? 0 then kret (-1) else
  r <- fstat fd st ;;
  _ <- close fd ;;
  kret r.
End calls.

(** ** memmove *)

Lemma ld8_umemmove m d s n b :
  0 <= n ->
  ld8 (memmove m d s n) b = if decide (d <= b < d + n) then ld8 m (s + (b - d)) else ld8 m b.
Proof.
  intros Hn. unfold memmove. case_if; zbool.
  - rewrite ld8_copy_fwd by lia. repeat case_decide; try done; lia.
  - destruct (decide (s = d)) as [-> |].
    + replace (ld8 (copy_bwd m (d + n) (d + n) (Z.to_nat n)) b) with (ld8 m b).
      { case_decide; [f_equal; lia | done]. }
      clear -Hn. symmetry. generalize (d + n). generalize (Z.to_nat n) as k. clear d n Hn.
      intros k. revert m. induction k as [| k IH]; intros m e; [done |]. cbn [copy_bwd].
      rewrite IH, ld8_st8. case_decide; [| done]. subst. by rewrite u8_small by apply ld8_range.
    + rewrite ld8_copy_bwd by lia. repeat case_decide; try lia; try done. f_equal. lia.
Qed.

(** The user library's [memmove], which chooses the direction of the copy by
    comparing the pointers only, and the kernel's, which copies backwards
    only when the regions overlap, leave the same memory: the bytes of the
    source as they were before the call, whatever the overlap. *)
Theorem memmove_equiv m dst src n b :
  0 <= n ->
  ld8 (memmove m dst src n) b = ld8 (CString.memmove m dst src n) b /\
  (dst <= b < dst + n -> ld8 (memmove m dst src n) b = ld8 m (src + (b - dst))).
Proof.
  intros Hn. rewrite ld8_umemmove by done. split.
  - rewrite CString.ld8_memmove by done. done.
  - intros. by rewrite decide_True.
Qed.

Definition wit_mem : mem := wrbytes ∅ 100 [1; 2; 3; 4; 5].

Lemma memmove_equiv_witness :
  rdbytes (memmove wit_mem 101 100 4) 100 5 = [1; 1; 2; 3; 4] /\
  ld8 (memmove wit_mem 101 100 4) 103 = ld8 wit_mem 102.
Proof.
  split; [vm_compute; reflexivity |].
  apply (memmove_equiv wit_mem 101 100 4 103); lia.
Defined.
End Ulib.
