(* ===== verification/Printf.v ===== *)
(** * kernel/printf.c and user/printf.c: formatted output

    A format is its bytes up to the NUL.  The arguments behind [va_arg] are
    typed: [VInt] for the integers and pointers, [VStr] for a [char*], [None]
    being the null pointer; taking an argument that is not there, or of the
    other kind, is undefined in C and is the [Panic] of [va_arg] here.
    [printint] stores into a 16-byte array; a store outside it is undefined
    too. *)

From S2P Require Import Prelude Mem CString Spinlock Uart Console Ulib.

Definition chr (c : Z) : Z := u8 c.
Definition percent : Z := 37.

Inductive varg :=
| VInt (z : Z)
| VStr (s : option bytes).

Definition va_arg_int {S} (ap : list varg) : K S (Z * list varg) :=
  match ap with
  | VInt z :: ap => kret (z, ap)
  | _ => kpanic "undefined: va_arg"
  end.

Definition va_arg_str {S} (ap : list varg) : K S (option bytes * list varg) :=
  match ap with
  | VStr s :: ap => kret (s, ap)
  | _ => kpanic "undefined: va_arg"
  end.

(** [do { buf[i++] = digits[x % base]; } while((x /= base) != 0);] *)
Fixpoint digits_loop {S} (fuel : nat) (digits : bytes) (x base : Z) (buf : bytes) (i : Z) : K S (bytes * Z) :=
  match fuel with
  | O => kpanic "undefined: buf"
  | Datatypes.S fuel =>
      let buf := updZ buf i (nthZ 0 digits (x mod base)) in
      let x := x / base in
      if negb (x =? 0) then digits_loop fuel digits x base buf (i + 1) else kret (buf, i + 1)
  end.

(** [while(--i >= 0) putc(buf[i]);] *)
Fixpoint emit_down {S} (emit : Z -> K S unit) (buf : bytes) (i : nat) : K S unit :=
  match i with
  | O => kret tt
  | Datatypes.S i => emit (nthZ 0 buf (Z.of_nat i)) >> emit_down emit buf i
  end.

(** [for(; *s; s++) putc(...)] *)
Fixpoint emit_str {S} (emit : Z -> K S unit) (s : bytes) : K S unit :=
  match s with
  | [] => kret tt
  | c :: s => if c =? 0 then kret tt else emit c >> emit_str emit s
  end.

(** [for(i = 0; i < 16; i++, x <<= 4) putc(digits[x >> 60]);] *)
Fixpoint emit_hex {S} (emit : Z -> K S unit) (digits : bytes) (x : Z) (n : nat) : K S unit :=
  match n with
  | O => kret tt
  | Datatypes.S n => emit (nthZ 0 digits (Z.shiftr x 60)) >> emit_hex emit digits (u64 (Z.shiftl x 4)) n
  end.

Definition buf16 : bytes := replicate 16 0.

(** ** user/printf.c *)
Module User.

Definition digits : bytes := cstr "0123456789ABCDEF".

(** What the process has written: file descriptor and byte. *)
Definition out := list (Z * Z).

Definition putc (fd c : Z) : K out unit := kmod (fun o => o ++ [(fd, u8 c)]).

Definition printint (fd xx base : Z) (sgn : bool) : K out unit :=
  let neg := (sgn && (xx <? 0))%bool in
  let x := if neg then u32 (- xx) else u32 xx in
  ' (buf, i) <- digits_loop 16 digits x base buf16 0 ;;
  ' (buf, i) <- (if neg then
                   if i <? 16 then kret (updZ buf i 45, i + 1) else kpanic "undefined: buf"
                 else kret (buf, i)) ;;
  emit_down (putc fd) buf (Z.to_nat i).

Definition printptr (fd x : Z) : K out unit :=
  putc fd 48 >> putc fd 120 >> emit_hex (putc fd) digits x 16.

(** One character of a [%] sequence. *)
Definition conversion (fd c : Z) (ap : list varg) : K out (list varg) :=
  if c =? 100 then (* d *)
    ' (v, ap) <- va_arg_int ap ;; printint fd (i32 v) 10 true >> kret ap
  else if c =? 108 then (* l *)
    ' (v, ap) <- va_arg_int ap ;; printint fd (i32 (u64 v)) 10 false >> kret ap
  else if c =? 120 then (* x *)
    ' (v, ap) <- va_arg_int ap ;; printint fd (i32 v) 16 false >> kret ap
  else if c =? 112 then (* p *)
    ' (v, ap) <- va_arg_int ap ;; printptr fd (u64 v) >> kret ap
  else if c =? 115 then (* s *)
    ' (s, ap) <- va_arg_str ap ;; emit_str (putc fd) (default (cstr "(null)") s) >> kret ap
  else if c =? 99 then (* c *)
    ' (v, ap) <- va_arg_int ap ;; putc fd (u32 v) >> kret ap
  else if c =? percent then putc fd c >> kret ap
  else putc fd percent >> putc fd c >> kret ap.

(** [for(i = 0; fmt[i]; i++)] with its [state]. *)
Fixpoint vprintf_loop (fd : Z) (fmt : bytes) (state : Z) (ap : list varg) : K out unit :=
  match fmt with
  | [] => kret tt
  | f :: fmt =>
      if f =? 0 then kret tt else
      let c := Z.land f 0xff in
      if state =? 0 then
        if c =? percent then vprintf_loop fd fmt percent ap
        else putc fd c >> vprintf_loop fd fmt state ap
      else if state =? percent then
        ap <- conversion fd c ap ;; vprintf_loop fd fmt 0 ap
      else vprintf_loop fd fmt state ap
  end.

Definition vprintf (fd : Z) (fmt : bytes) (ap : list varg) : K out unit := vprintf_loop fd fmt 0 ap.
Definition fprintf (fd : Z) (fmt : bytes) (ap : list varg) : K out unit := vprintf fd fmt ap.
Definition printf (fmt : bytes) (ap : list varg) : K out unit := vprintf 1 fmt ap.
End User.

(** ** kernel/printf.c *)
Module Kernel.

Definition digits : bytes := cstr "0123456789abcdef".

Section body.
Context {S : Type}.
Variable consputc : Z -> K S unit.

Definition printint (xx base : Z) (sign : bool) : K S unit :=
  let sign := (sign && (xx <? 0))%bool in
  let x := if sign then u32 (- xx) else u32 xx in
  ' (buf, i) <- digits_loop 16 digits x base buf16 0 ;;
  ' (buf, i) <- (if sign then
                   if i <? 16 then kret (updZ buf i 45, i + 1) else kpanic "undefined: buf"
                 else kret (buf, i)) ;;
  emit_down consputc buf (Z.to_nat i).

Definition printptr (x : Z) : K S unit :=
  consputc 48 >> consputc 120 >> emit_hex consputc digits x 16.

(** The [switch]. *)
Definition conversion (c : Z) (ap : list varg) : K S (list varg) :=
  if c =? 100 then
    ' (v, ap) <- va_arg_int ap ;; printint (i32 v) 10 true >> kret ap
  else if c =? 120 then
    ' (v, ap) <- va_arg_int ap ;; printint (i32 v) 16 true >> kret ap
  else if c =? 112 then
    ' (v, ap) <- va_arg_int ap ;; printptr (u64 v) >> kret ap
  else if c =? 115 then
    ' (s, ap) <- va_arg_str ap ;; emit_str consputc (default (cstr "(null)") s) >> kret ap
  else if c =? percent then consputc percent >> kret ap
  else consputc percent >> consputc c >> kret ap.

(** [for(i = 0; (c = fmt[i] & 0xff) != 0; i++)] *)
Fixpoint printf_loop (fmt : bytes) (ap : list varg) : K S unit :=
  match fmt with
  | [] => kret tt
  | f :: fmt =>
      let c := Z.land f 0xff in
      if c =? 0 then kret tt
      else if negb (c =? percent) then consputc c >> printf_loop fmt ap
      else
        match fmt with
        | [] => kret tt
        | f :: fmt =>
            let c := Z.land f 0xff in
            if c =? 0 then kret tt
            else ap <- conversion c ap ;; printf_loop fmt ap
        end
  end.
End body.

(** The console, and [pr.locking]. *)
Record pst := Pst { p_cons : cst; pr_locking : bool }.

#[export] Instance pst_cons : Lens pst cst.
Proof. refine {| lget := p_cons; lset c s := Pst c (pr_locking s) |}; by try intros []. Defined.

Definition pr_lock : lockid := ("pr", 0).
Definition pr_acquire : K pst unit := zoom (T := cst) (zoom (T := ust) (zoom (acquire pr_lock))).
Definition pr_release : K pst unit := zoom (T := cst) (zoom (T := ust) (zoom (release pr_lock))).

(** [fmt] is [None] for the null pointer. *)
Definition printf (fmt : option bytes) (ap : list varg) : K pst unit :=
  locking <- kgets pr_locking ;;
  kwhen locking pr_acquire >>
  match fmt with
  | None => kpanic "null fmt"
  | Some fmt =>
      printf_loop (fun c => zoom (consputc c)) fmt ap >>
      kwhen locking pr_release
  end.

(** Up to the infinite loop that ends it. *)
Definition panic (s : bytes) : K pst unit :=
  kmod (fun st => Pst (p_cons st) false) >>
  printf (Some (cstr "panic: ")) [] >>
  printf (Some s) [] >>
  printf (Some [nl]) [] >>
  zoom (T := cst) (zoom (T := ust) (kmod (fun u =>
    Ust (u_held u) (u_woken u) (u_noff u) true (uart_tx_buf u) (uart_tx_w u)
      (uart_tx_r u) (u_lsr u) (u_rhr u) (u_sent u) (u_ctl u)))).

Definition printfinit : K pst unit :=
  zoom (T := cst) (zoom (T := ust) (zoom (initlock pr_lock))) >>
  kmod (fun st => Pst (p_cons st) true).
End Kernel.

(** ** Digits *)

(** The digits of [x], least significant first. *)
Fixpoint lsd (n : nat) (base x : Z) : list Z :=
  match n with
  | O => []
  | S n => x mod base :: (if x / base =? 0 then [] else lsd n base (x / base))
  end.

Definition horner (base : Z) (l : list Z) (a : Z) : Z := fold_left (fun n d => n * base + d) l a.

Lemma horner_lsd base n x :
  2 <= base -> 0 <= x < base ^ Z.of_nat n -> horner base (rev (lsd n base x)) 0 = x.
Proof.
  intros Hb. unfold horner. revert x. induction n as [| n IH]; intros x Hx; [cbn in *; lia |].
  rewrite Nat2Z.inj_succ, Z.pow_succ_r in Hx by lia.
  cbn [lsd rev]. rewrite fold_left_app. cbn [fold_left]. case_if; zbool; cbn [rev fold_left].
  - dlia.
  - rewrite IH; [dlia |]. split; [apply Z.div_pos; lia |]. apply Z.div_lt_upper_bound; lia.
Qed.

Lemma lsd_range base n x : 2 <= base -> Forall (fun d => 0 <= d < base) (lsd n base x).
Proof.
  intros Hb. revert x. induction n as [| n IH]; intros x; cbn [lsd]; [constructor |].
  constructor; [apply Z.mod_pos_bound; lia |]. case_if; auto.
Qed.

Lemma length_lsd base n x : (length (lsd n base x) <= n)%nat.
Proof.
  revert x. induction n as [| n IH]; intros x; cbn [lsd length]; [lia |].
  case_if; cbn [length]; [lia |]. specialize (IH (x / base)). lia.
Qed.

Lemma take_updZ_S (l : bytes) (i : nat) (v : Z) :
  (i < length l)%nat -> take (S i) (updZ l (Z.of_nat i) v) = take i l ++ [v].
Proof.
  intros Hi. unfold updZ. case_if; zbool; [lia |]. rewrite Nat2Z.id.
  rewrite (take_S_r _ _ v) by (apply list_lookup_insert_eq; lia). f_equal. by rewrite take_insert_ge by lia.
Qed.

Section digits.
Context {St : Type} (digits : bytes) (base : Z) (Hb : 2 <= base).

Lemma digits_loop_ok n fuel x buf i (s : St) :
  0 <= x < base ^ Z.of_nat n -> (0 < n <= fuel)%nat -> (i + n <= length buf)%nat ->
  exists buf', digits_loop fuel digits x base buf (Z.of_nat i) s =
      Ret (buf', Z.of_nat (i + length (lsd n base x))) s /\
    take (i + length (lsd n base x)) buf' = take i buf ++ map (nthZ 0 digits) (lsd n base x) /\
    length buf' = length buf.
Proof.
  revert fuel x buf i. induction n as [| n IH]; intros fuel x buf i Hx Hn Hl; [lia |].
  destruct fuel as [| fuel]; [lia |]. rewrite Nat2Z.inj_succ, Z.pow_succ_r in Hx by lia.
  cbn [digits_loop lsd]. destruct (x / base =? 0) eqn:E; cbn [negb length map]; zbool.
  - eexists. kred. split_and!; [do 2 f_equal; lia | | apply length_updZ].
    rewrite Nat.add_1_r. apply take_updZ_S. lia.
  - assert (0 < x / base < base ^ Z.of_nat n).
    { pose proof (Z.div_pos x base). split; [lia |]. apply Z.div_lt_upper_bound; lia. }
    assert (n <> 0%nat) by (intros ->; cbn in *; lia).
    destruct (IH fuel (x / base) (updZ buf (Z.of_nat i) (nthZ 0 digits (x mod base))) (S i)) as (b' & E1 & E2 & E3);
      [lia | lia | rewrite length_updZ; lia |].
    rewrite length_updZ in E3. exists b'. replace (Z.of_nat i + 1) with (Z.of_nat (S i)) by lia.
    rewrite <- Nat.add_succ_comm. split_and!; [exact E1 | | done].
    rewrite E2, take_updZ_S by lia. by rewrite <- app_assoc.
Qed.
End digits.

(** Emitting into a recorder. *)
Section record.
Context {St : Type} (emit : Z -> K St unit) (rec : St -> bytes -> St).
Context (Hrec0 : forall s, rec s [] = s) (Hrec : forall s a b, rec (rec s a) b = rec s (a ++ b)).
Context (Hemit : forall c s, emit c s = Ret tt (rec s [c])).

Lemma emit_down_rec buf i s :
  (i <= length buf)%nat -> emit_down emit buf i s = Ret tt (rec s (rev (take i buf))).
Proof using Hemit Hrec Hrec0.
  revert s. induction i as [| i IH]; intros s Hi; cbn [emit_down]; [by rewrite take_0, Hrec0 |].
  unfold kbind. rewrite Hemit, IH by lia. rewrite Hrec. do 2 f_equal.
  destruct (lookup_lt_is_Some_2 buf i ltac:(lia)) as [x Hx].
  rewrite (take_S_r _ _ _ Hx), rev_app_distr. cbn. f_equal.
  unfold nthZ. case_if; zbool; [lia |]. rewrite Nat2Z.id. by apply nth_lookup_Some.
Qed.

(** The number printed: an optional sign and the digits, most significant first. *)
Definition shown (digits : bytes) (base x : Z) (neg : bool) : bytes :=
  (if neg then [45] else []) ++ map (nthZ 0 digits) (rev (lsd 10 base x)).

Lemma emit_number digits base x (neg : bool) s :
  10 <= base -> 0 <= x < 2 ^ 32 ->
  kbind (digits_loop 16 digits x base buf16 0) (fun '(buf, i) =>
    kbind (if neg then if i <? 16 then kret (updZ buf i 45, i + 1) else kpanic "undefined: buf"
           else kret (buf, i)) (fun '(buf, i) => emit_down emit buf (Z.to_nat i))) s =
  Ret tt (rec s (shown digits base x neg)).
Proof using Hemit Hrec Hrec0.
  intros Hb Hx. assert (Hp : 2 ^ 32 <= base ^ 10) by (etrans; [| apply (Z.pow_le_mono_l 10 base 10); lia]; lia).
  destruct (digits_loop_ok digits base ltac:(lia) 10 16 x buf16 0 s) as (b & E1 & E2 & E3);
    [change (Z.of_nat 10) with 10; lia | lia | cbn; lia |].
  change (Z.of_nat 0) with 0 in E1. unfold kbind at 1. rewrite E1. cbn [Nat.add] in *. rewrite take_0 in E2. cbn [app] in E2.
  pose proof (length_lsd base 10 x) as Hl. change (length buf16) with 16%nat in E3. unfold shown.
  destruct neg.
  - unfold kbind. rewrite (proj2 (Z.ltb_lt _ _)) by lia. cbn [kret].
    replace (Z.to_nat (Z.of_nat (length (lsd 10 base x)) + 1)) with (S (length (lsd 10 base x))) by lia.
    rewrite emit_down_rec by (rewrite length_updZ; lia).
    rewrite take_updZ_S, E2, rev_app_distr, <- map_rev by lia. done.
  - unfold kbind. cbn [kret]. rewrite Nat2Z.id, emit_down_rec by lia. rewrite E2, map_rev. done.
Qed.
End record.

(** ** The user's recorder *)

Definition wrote (fd : Z) (o : User.out) (l : bytes) : User.out := o ++ map (fun c => (fd, u8 c)) l.

Lemma wrote_nil fd o : wrote fd o [] = o.
Proof. apply app_nil_r. Qed.

Lemma wrote_app fd o a b : wrote fd (wrote fd o a) b = wrote fd o (a ++ b).
Proof. unfold wrote. by rewrite map_app, <- app_assoc. Qed.

Lemma putc_wrote fd c o : User.putc fd c o = Ret tt (wrote fd o [c]).
Proof. done. Qed.

Lemma user_printint fd xx base (sgn : bool) o :
  10 <= base ->
  User.printint fd xx base sgn o =
    let neg := (sgn && (xx <? 0))%bool in
    Ret tt (wrote fd o (shown User.digits base (if neg then u32 (- xx) else u32 xx) neg)).
Proof.
  intros Hb. apply (emit_number _ (wrote fd)); auto using wrote_nil, wrote_app, putc_wrote.
  case_if; auto with word.
Qed.

Lemma kernel_printint fd xx base (sgn : bool) o :
  10 <= base ->
  Kernel.printint (User.putc fd) xx base sgn o =
    let neg := (sgn && (xx <? 0))%bool in
    Ret tt (wrote fd o (shown Kernel.digits base (if neg then u32 (- xx) else u32 xx) neg)).
Proof.
  intros Hb. apply (emit_number _ (wrote fd)); auto using wrote_nil, wrote_app, putc_wrote.
  case_if; auto with word.
Qed.

(** A decimal digit's character is the same in both tables. *)
Lemma digit10 d : 0 <= d < 10 -> nthZ 0 User.digits d = 48 + d /\ nthZ 0 Kernel.digits d = 48 + d.
Proof.
  intros. assert (Hd : d = 0 \/ d = 1 \/ d = 2 \/ d = 3 \/ d = 4 \/ d = 5 \/ d = 6 \/ d = 7 \/ d = 8 \/ d = 9) by lia.
  repeat destruct Hd as [-> | Hd]; [by split .. | by subst].
Qed.

Lemma map_digit10 l :
  Forall (fun d => 0 <= d < 10) l ->
  map (nthZ 0 User.digits) l = map (Z.add 48) l /\ map (nthZ 0 Kernel.digits) l = map (Z.add 48) l.
Proof.
  induction 1 as [| d l Hd _ [IH1 IH2]]; [done |]. destruct (digit10 d Hd) as [E1 E2].
  cbn [map]. by rewrite E1, E2, IH1, IH2.
Qed.

Lemma lsd10 x : Forall (fun d => 0 <= d < 10) (rev (lsd 10 10 x)).
Proof. apply Forall_rev, lsd_range. lia. Qed.

Lemma i32_step a d : i32 (i32 (i32 (i32 a * 10) + (48 + d)) - 48) = i32 (a * 10 + d).
Proof.
  destruct (i32_wrap a) as [k1 ->]. destruct (i32_wrap ((a + k1 * 2 ^ 32) * 10)) as [k2 ->].
  destruct (i32_wrap ((a + k1 * 2 ^ 32) * 10 + k2 * 2 ^ 32 + (48 + d))) as [k3 ->].
  apply (i32_cong _ _ (10 * k1 + k2 + k3)). ring.
Qed.

(** [atoi] evaluates the digits it is given, as a C [int]. *)
Lemma atoi_digits l pre fuel a :
  Forall (fun d => 0 <= d < 10) l -> (length l < fuel)%nat ->
  Ulib.atoi_loop (at_list (pre ++ map (Z.add 48) l)) (length pre) (i32 a) fuel = Some (i32 (horner 10 l a)).
Proof.
  intros Hl. revert pre fuel a. induction Hl as [| d l Hd _ IH]; intros pre fuel a Hf;
    (destruct fuel as [| fuel]; [cbn in Hf; lia |]); cbn [length map Ulib.atoi_loop horner fold_left] in *.
  - unfold at_list. rewrite app_nil_r, nth_overflow by lia. done.
  - assert (Hc : at_list (pre ++ 48 + d :: map (Z.add 48) l) (length pre) = 48 + d)
      by (unfold at_list; by rewrite nth_middle).
    rewrite Hc, (proj2 (Z.leb_le _ _)), (proj2 (Z.leb_le _ _)) by lia. cbn [andb]. rewrite i32_step.
    specialize (IH (pre ++ [48 + d]) fuel (a * 10 + d) ltac:(lia)).
    rewrite <- app_assoc, length_app, Nat.add_comm in IH. exact IH.
Qed.

(** Printing an [int] with [%d] and reading the digits back with [atoi] is the
    identity: [printint] in base 10 writes a minus sign exactly for a
    negative number, then at most ten digits, and [atoi] of those digits is
    the absolute value as an [int] (the least [int], whose absolute value
    does not fit, comes back as itself).  The 16-byte array of [printint]
    is never overrun. *)
Theorem printint_atoi fd xx o :
  - 2 ^ 31 <= xx < 2 ^ 31 ->
  exists ds,
    User.printint fd xx 10 true o = Ret tt (wrote fd o ((if xx <? 0 then [45] else []) ++ ds)) /\
    (0 < length ds <= 10)%nat /\
    Ulib.atoi (at_list ds) 11 = Some (i32 (Z.abs xx)).
Proof.
  intros Hx. exists (map (Z.add 48) (rev (lsd 10 10 (Z.abs xx)))).
  destruct (map_digit10 _ (lsd10 (Z.abs xx))) as [Hm _]. split_and!.
  - rewrite user_printint by lia. cbn [andb]. unfold shown. rewrite <- Hm. do 3 f_equal.
    case_if; zbool; rewrite u32_small by lia; do 4 f_equal; lia.
  - rewrite length_map, length_rev. cbn. lia.
  - rewrite length_map, length_rev. apply length_lsd.
  - unfold Ulib.atoi. change 0 with (i32 0) at 1.
    etrans; [apply (atoi_digits (rev (lsd 10 10 (Z.abs xx))) [] 11 0) |];
      [apply lsd10 | rewrite length_rev; pose proof (length_lsd 10 10 (Z.abs xx)); lia |].
    rewrite horner_lsd; [done | lia |]. change (10 ^ Z.of_nat 10) with 10000000000. lia.
Qed.

Lemma printint_atoi_witness :
  exists ds, User.printint 1 (-2147483648) 10 true [] = Ret tt (wrote 1 [] (45 :: ds)) /\
    Ulib.atoi (at_list ds) 11 = Some (-2147483648).
Proof.
  destruct (printint_atoi 1 (-2147483648) [] ltac:(lia)) as (ds & E & _ & H).
  exists ds. split; [exact E | exact H].
Defined.

(** ** Both scanners of a format *)

(** The conversions on which the two agree: [%x] prints a signed number in the
    kernel only, [%p] differs in the case of the digits, and only the user
    library knows [%l] and [%c]. *)
Definition shared_conv (c : Z) : bool := negb (existsb (Z.eqb c) [120; 112; 108; 99]).

Fixpoint shared_fmt (fmt : bytes) : bool :=
  match fmt with
  | [] => true
  | f :: fmt =>
      if f =? percent then
        match fmt with
        | [] => true
        | c :: fmt => shared_conv c && shared_fmt fmt
        end
      else shared_fmt fmt
  end.

Lemma land_byte c : byte_ok c -> Z.land c 0xff = c.
Proof. intros [H1 H2]. change 0xff with (Z.ones 8). rewrite Z.land_ones by lia. apply Z.mod_small. lia. Qed.

Lemma shown10 x neg : shown Kernel.digits 10 x neg = shown User.digits 10 x neg.
Proof. unfold shown. destruct (map_digit10 _ (lsd10 x)) as [E1 E2]. by rewrite E1, E2. Qed.

Lemma conversion_shared fd c ap o :
  shared_conv c = true -> Kernel.conversion (User.putc fd) c ap o = User.conversion fd c ap o.
Proof.
  unfold shared_conv. intros Hc. apply negb_true_iff in Hc. cbn in Hc.
  repeat (apply orb_false_iff in Hc; destruct Hc as [? Hc]).
  unfold Kernel.conversion, User.conversion. repeat (case_if; zbool; subst; try lia; try done).
  destruct ap as [| [v |] ap]; try done. unfold kbind, va_arg_int, kret.
  rewrite kernel_printint, user_printint by lia. cbv zeta. by rewrite shown10.
Qed.


Definition wit_fmt : bytes := cstr "pid %d: %s 100%% %z%".


(** [%l] takes a 64-bit argument but prints only its low 32 bits. *)
Theorem printf_long_truncates : User.vprintf 1 (cstr "%l") [VInt (2 ^ 32)] [] = Ret tt [(1, 48)].
Proof. vm_compute. reflexivity. Qed.
