(* ===== verification/Fs.v ===== *)
(** * kernel/fs.c: blocks, inodes, file contents, directories, paths

    The code, over any logged disk (TxnDisk.v).  A [struct inode *] is the
    index of the entry in [itable], the null pointer is [null]; a
    [struct dinode] is its 64 bytes in the inode block.  The local variables
    whose address the code takes ([struct dirent de], [char name[]]) live at
    addresses that are parameters, in the same memory as the paths. *)

From S2P Require Import Prelude Riscv Spinlock Sleeplock Mem CString Kalloc Vm Console Block BufCache TxnDisk.

(** ** kernel/fs.h, kernel/file.h, kernel/stat.h *)

Definition ROOTINO : Z := 1.
Definition FSMAGIC : Z := 0x10203040.
Definition NDIRECT : Z := 12.
Definition NINDIRECT : Z := BSIZE / 4.
Definition MAXFILE : Z := NDIRECT + NINDIRECT.
Definition DINODE_SIZE : Z := 64.
Definition IPB : Z := BSIZE / DINODE_SIZE.
Definition BPB : Z := BSIZE * 8.
Definition DIRSIZ : Z := 14.
Definition DIRENT_SIZE : Z := 16.
Definition T_DIR : Z := 1.
Definition T_FILE : Z := 2.
Definition T_DEVICE : Z := 3.

Record superblock := Sb {
  sb_magic : Z;
  sb_size : Z;
  sb_nblocks : Z;
  sb_ninodes : Z;
  sb_nlog : Z;
  sb_logstart : Z;
  sb_inodestart : Z;
  sb_bmapstart : Z;
}.

Definition IBLOCK (i : Z) (sb : superblock) : Z := u32 (i / IPB + sb_inodestart sb).
Definition BBLOCK (b : Z) (sb : superblock) : Z := u32 (b / BPB + sb_bmapstart sb).

(** The fields of a [struct inode] that are a copy of the disk inode. *)
Record dinode := Dinode {
  d_type : Z;
  d_major : Z;
  d_minor : Z;
  d_nlink : Z;
  d_size : Z;
  d_addrs : list Z;
}.

Record inode := Inode {
  i_dev : Z;
  i_inum : Z;
  i_ref : Z;
  i_lock : sleeplock;
  i_valid : bool;
  i_d : dinode;
}.

Record stat := Stat {
  st_dev : Z;
  st_ino : Z;
  st_type : Z;
  st_nlink : Z;
  st_size : Z;
}.

Definition dinode0 : dinode := Dinode 0 0 0 0 0 (replicate 13 0).
Definition inode0 : inode := Inode 0 0 0 (Sleeplock 0 0) false dinode0.
Definition null : Z := -1.

(** *** The [struct dinode] at byte [o] of a block *)

Fixpoint get_addrs (n : nat) (d : bytes) (o : Z) : list Z :=
  match n with
  | O => []
  | S n => get32 d o :: get_addrs n d (o + 4)
  end.

Fixpoint put_addrs (l : list Z) (d : bytes) (o : Z) : bytes :=
  match l with
  | [] => d
  | a :: l => put_addrs l (put32 d o a) (o + 4)
  end.

Definition get_dinode (d : bytes) (o : Z) : dinode :=
  Dinode (i16 (get16 d o)) (i16 (get16 d (o + 2))) (i16 (get16 d (o + 4))) (i16 (get16 d (o + 6)))
    (get32 d (o + 8)) (get_addrs 13 d (o + 12)).

Definition put_dinode (d : bytes) (o : Z) (i : dinode) : bytes :=
  let d := put16 d o (d_type i) in
  let d := put16 d (o + 2) (d_major i) in
  let d := put16 d (o + 4) (d_minor i) in
  let d := put16 d (o + 6) (d_nlink i) in
  let d := put32 d (o + 8) (d_size i) in
  put_addrs (d_addrs i) d (o + 12).

(** [(struct dinode* )bp->data + inum%IPB] *)
Definition dip (inum : Z) : Z := DINODE_SIZE * (inum mod IPB).

(** ** State *)

Record fsys (T : Type) := Fsys {
  f_held : locks;
  f_woken : list Z;
  f_disk : T;
  f_sb : superblock;
  f_inode : list inode;       (* itable.inode *)
  f_pm : pm;                  (* physical memory *)
  f_msgs : list string;       (* printf *)
}.
Arguments Fsys {T}.
Arguments f_held {T}.
Arguments f_woken {T}.
Arguments f_disk {T}.
Arguments f_sb {T}.
Arguments f_inode {T}.
Arguments f_pm {T}.
Arguments f_msgs {T}.

#[export] Instance fsys_locks T : Lens (fsys T) locks.
Proof.
  refine {| lget := f_held; lset h s := Fsys h (f_woken s) (f_disk s) (f_sb s) (f_inode s) (f_pm s) (f_msgs s) |};
    by try intros [].
Defined.
#[export] Instance fsys_disk T : Lens (fsys T) T.
Proof.
  refine {| lget := f_disk; lset d s := Fsys (f_held s) (f_woken s) d (f_sb s) (f_inode s) (f_pm s) (f_msgs s) |};
    by try intros [].
Defined.
#[export] Instance fsys_pm T : Lens (fsys T) pm.
Proof.
  refine {| lget := f_pm; lset m s := Fsys (f_held s) (f_woken s) (f_disk s) (f_sb s) (f_inode s) m (f_msgs s) |};
    by try intros [].
Defined.
#[export] Instance fsys_waker T : Waker (fsys T) := {|
  woken := f_woken;
  add_woken c s := Fsys (f_held s) (c :: f_woken s) (f_disk s) (f_sb s) (f_inode s) (f_pm s) (f_msgs s) |}.

Definition itable_lock : lockid := ("itable", 0).
Definition inode_lk (ip : Z) : lockid := ("inode", ip).
Definition inode_chan (ip : Z) : Z := 1000 + ip.

Section fs.
Context {T : Type} `{TD : TxnDisk T} `{L : Layout}.
Variable pagetable : Z.      (* myproc()->pagetable *)
Variable mypid : Z.          (* myproc()->pid *)
Variable cwd : Z.            (* myproc()->cwd *)
Variable de : Z.             (* &de *)

Abbreviation F := (K (fsys T)).

Definition kprintf (m : string) : F unit :=
  kmod (fun s => Fsys (f_held s) (f_woken s) (f_disk s) (f_sb s) (f_inode s) (f_pm s) (f_msgs s ++ [m])).
Definition set_sb (b : superblock) : F unit :=
  kmod (fun s => Fsys (f_held s) (f_woken s) (f_disk s) b (f_inode s) (f_pm s) (f_msgs s)).
Definition set_itable (l : list inode) (s : fsys T) : fsys T :=
  Fsys (f_held s) (f_woken s) (f_disk s) (f_sb s) l (f_pm s) (f_msgs s).

Definition iat (s : fsys T) (ip : Z) : inode := nthZ inode0 (f_inode s) ip.
Definition upd_inode (ip : Z) (f : inode -> inode) : F unit :=
  kmod (fun s => set_itable (updZ (f_inode s) ip (f (iat s ip))) s).
Definition get_inode (ip : Z) : F inode := kgets (fun s => iat s ip).

Definition set_ref (r : Z) (i : inode) : inode := Inode (i_dev i) (i_inum i) r (i_lock i) (i_valid i) (i_d i).
Definition set_valid (b : bool) (i : inode) : inode := Inode (i_dev i) (i_inum i) (i_ref i) (i_lock i) b (i_d i).
Definition set_d (d : dinode) (i : inode) : inode := Inode (i_dev i) (i_inum i) (i_ref i) (i_lock i) (i_valid i) d.
Definition set_lock (l : sleeplock) (i : inode) : inode := Inode (i_dev i) (i_inum i) (i_ref i) l (i_valid i) (i_d i).
Definition set_type (t : Z) (d : dinode) : dinode :=
  Dinode t (d_major d) (d_minor d) (d_nlink d) (d_size d) (d_addrs d).
Definition set_nlink (n : Z) (d : dinode) : dinode :=
  Dinode (d_type d) (d_major d) (d_minor d) n (d_size d) (d_addrs d).
Definition set_size (z : Z) (d : dinode) : dinode :=
  Dinode (d_type d) (d_major d) (d_minor d) (d_nlink d) z (d_addrs d).
Definition set_addr (k a : Z) (d : dinode) : dinode :=
  Dinode (d_type d) (d_major d) (d_minor d) (d_nlink d) (d_size d) (updZ (d_addrs d) k a).
Definition upd_d (ip : Z) (f : dinode -> dinode) : F unit := upd_inode ip (fun i => set_d (f (i_d i)) i).
Definition get_d (ip : Z) : F dinode := kgets (fun s => i_d (iat s ip)).

(** The sleep lock of an inode. *)
Definition ip_get (ip : Z) (s : fsys T) : sleeplock := i_lock (iat s ip).
Definition ip_put (ip : Z) (l : sleeplock) (s : fsys T) : fsys T :=
  set_itable (updZ (f_inode s) ip (set_lock l (iat s ip))) s.
Definition ip_acquiresleep (ip : Z) : F unit :=
  acquiresleep (fun _ => mypid) (ip_get ip) (ip_put ip) (inode_lk ip) (inode_chan ip).
Definition ip_releasesleep (ip : Z) : F unit := releasesleep (ip_put ip) (inode_lk ip) (inode_chan ip).
Definition ip_holdingsleep (ip : Z) : F bool := holdingsleep (fun _ => mypid) (ip_get ip) (inode_lk ip).

Definition bdata (b : Z) : F bytes := kgets (fun s => t_data (f_disk s) b).

(** ** Super block and blocks *)

Definition get_sb (d : bytes) : superblock :=
  Sb (get32 d 0) (get32 d 4) (get32 d 8) (get32 d 12) (get32 d 16) (get32 d 20) (get32 d 24) (get32 d 28).

Definition readsb (dev : Z) : F unit :=
  bp <- zoom (t_bread dev 1) ;;
  d <- bdata bp ;;
  set_sb (get_sb d) >>
  zoom (t_brelse bp).

Definition fsinit (dev : Z) : F unit :=
  readsb dev >>
  sb <- kgets f_sb ;;
  if negb (sb_magic sb =? FSMAGIC) then kpanic "invalid file system"
  else zoom (t_initlog dev (sb_logstart sb) (sb_nlog sb)).

Definition bzero (dev bno : Z) : F unit :=
  bp <- zoom (t_bread dev (u32 bno)) ;;
  zoom (t_store bp zero_block) >>
  zoom (t_log_write bp) >>
  zoom (t_brelse bp).

(** [1 << (bi % 8)] and the byte it is in *)
Definition bmask (bi : Z) : Z := Z.shiftl 1 (bi mod 8).

(** The inner [for] of [balloc]: the first clear bit, if any. *)
Fixpoint balloc_scan (fuel : nat) (d : bytes) (b bi size : Z) : option Z :=
  match fuel with
  | O => None
  | S fuel =>
      if ((bi <? BPB) && (u32 (b + bi) <? size))%bool then
        if Z.land (nthZ 0 d (bi / 8)) (bmask bi) =? 0 then Some bi
        else balloc_scan fuel d b (bi + 1) size
      else None
  end.

(** [for(b = 0; b < sb.size; b += BPB)] *)
Fixpoint balloc_loop (fuel : nat) (dev b : Z) : F Z :=
  match fuel with
  | O => kfuel
  | S fuel =>
      sb <- kgets f_sb ;;
      if u32 b <? sb_size sb then
        bp <- zoom (t_bread dev (BBLOCK b sb)) ;;
        d <- bdata bp ;;
        match balloc_scan (Z.to_nat BPB) d b 0 (sb_size sb) with
        | Some bi =>
            zoom (t_store bp (updZ d (bi / 8) (Z.lor (nthZ 0 d (bi / 8)) (bmask bi)))) >>
            zoom (t_log_write bp) >>
            zoom (t_brelse bp) >>
            bzero dev (b + bi) >>
            kret (u32 (b + bi))
        | None =>
            zoom (t_brelse bp) >>
            balloc_loop fuel dev (i32 (b + BPB))
        end
      else
        kprintf "balloc: out of blocks" >> kret 0
  end.

Definition balloc (dev : Z) : F Z :=
  sb <- kgets f_sb ;; balloc_loop (Z.to_nat (sb_size sb / BPB + 2)) dev 0.

Definition bfree (dev b : Z) : F unit :=
  sb <- kgets f_sb ;;
  bp <- zoom (t_bread dev (BBLOCK b sb)) ;;
  let bi := b mod BPB in
  let m := bmask bi in
  d <- bdata bp ;;
  if Z.land (nthZ 0 d (bi / 8)) m =? 0 then kpanic "freeing free block" else
  zoom (t_store bp (updZ d (bi / 8) (Z.land (nthZ 0 d (bi / 8)) (Z.lnot m)))) >>
  zoom (t_log_write bp) >>
  zoom (t_brelse bp).

(** ** Inodes *)

Fixpoint iinit_loop (n : nat) (i : Z) : F unit :=
  match n with
  | O => kret tt
  | S n => initsleeplock (ip_put i) (inode_lk i) >> iinit_loop n (i + 1)
  end.

Definition iinit : F unit := zoom (initlock itable_lock) >> iinit_loop (Z.to_nat NINODE) 0.

(** The scan of [iget]: a matching entry, or the first empty one. *)
Fixpoint iget_scan (l : list inode) (k : Z) (dev inum empty : Z) : Z * Z :=
  match l with
  | [] => (null, empty)
  | ip :: l =>
      if ((0 <? i_ref ip) && (i_dev ip =? dev) && (i_inum ip =? inum))%bool then (k, empty)
      else iget_scan l (k + 1) dev inum (if ((empty =? null) && (i_ref ip =? 0))%bool then k else empty)
  end.

Definition iget (dev inum : Z) : F Z :=
  zoom (acquire itable_lock) >>
  s <- kget ;;
  let '(ip, empty) := iget_scan (f_inode s) 0 dev inum null in
  if negb (ip =? null) then
    upd_inode ip (fun i => set_ref (i_ref i + 1) i) >>
    zoom (release itable_lock) >>
    kret ip
  else if empty =? null then kpanic "iget: no inodes"
  else
    upd_inode empty (fun i => Inode dev inum 1 (i_lock i) false (i_d i)) >>
    zoom (release itable_lock) >>
    kret empty.

Definition idup (ip : Z) : F Z :=
  zoom (acquire itable_lock) >>
  upd_inode ip (fun i => set_ref (i_ref i + 1) i) >>
  zoom (release itable_lock) >>
  kret ip.

(** [for(inum = 1; inum < sb.ninodes; inum++)] *)
Fixpoint ialloc_loop (fuel : nat) (dev type inum : Z) : F Z :=
  match fuel with
  | O => kfuel
  | S fuel =>
      sb <- kgets f_sb ;;
      if inum <? sb_ninodes sb then
        bp <- zoom (t_bread dev (IBLOCK inum sb)) ;;
        d <- bdata bp ;;
        if i16 (get16 d (dip inum)) =? 0 then
          zoom (t_store bp (put_dinode d (dip inum) (set_type type dinode0))) >>
          zoom (t_log_write bp) >>
          zoom (t_brelse bp) >>
          iget dev inum
        else
          zoom (t_brelse bp) >>
          ialloc_loop fuel dev type (inum + 1)
      else kprintf "ialloc: no inodes" >> kret null
  end.

Definition ialloc (dev type : Z) : F Z :=
  sb <- kgets f_sb ;; ialloc_loop (S (Z.to_nat (sb_ninodes sb))) dev type 1.

Definition iupdate (ip : Z) : F unit :=
  sb <- kgets f_sb ;;
  i <- get_inode ip ;;
  bp <- zoom (t_bread (i_dev i) (IBLOCK (i_inum i) sb)) ;;
  d <- bdata bp ;;
  zoom (t_store bp (put_dinode d (dip (i_inum i)) (i_d i))) >>
  zoom (t_log_write bp) >>
  zoom (t_brelse bp).

Definition ilock (ip : Z) : F unit :=
  i <- get_inode ip ;;
  if ((ip =? null) || (i_ref i <? 1))%bool then kpanic "ilock" else
  ip_acquiresleep ip >>
  i <- get_inode ip ;;
  if negb (i_valid i) then
    sb <- kgets f_sb ;;
    bp <- zoom (t_bread (i_dev i) (IBLOCK (i_inum i) sb)) ;;
    d <- bdata bp ;;
    upd_d ip (fun _ => get_dinode d (dip (i_inum i))) >>
    zoom (t_brelse bp) >>
    upd_inode ip (set_valid true) >>
    i <- get_inode ip ;;
    if d_type (i_d i) =? 0 then kpanic "ilock: no type" else kret tt
  else kret tt.

Definition iunlock (ip : Z) : F unit :=
  if ip =? null then kpanic "iunlock" else
  h <- ip_holdingsleep ip ;;
  i <- get_inode ip ;;
  if (negb h || (i_ref i <? 1))%bool then kpanic "iunlock"
  else ip_releasesleep ip.

(** ** Inode contents *)

(** [a[bn]] of an indirect block *)
Definition get_ind (d : bytes) (bn : Z) : Z := get32 d (4 * bn).

Definition bmap (ip bn : Z) : F Z :=
  i <- get_inode ip ;;
  if bn <? NDIRECT then
    let addr := nthZ 0 (d_addrs (i_d i)) bn in
    if addr =? 0 then
      addr <- balloc (i_dev i) ;;
      if addr =? 0 then kret 0
      else upd_d ip (set_addr bn addr) >> kret addr
    else kret addr
  else
  let bn := bn - NDIRECT in
  if bn <? NINDIRECT then
    let load (addr : Z) : F Z :=
      bp <- zoom (t_bread (i_dev i) addr) ;;
      d <- bdata bp ;;
      addr <- (if get_ind d bn =? 0 then
                 addr <- balloc (i_dev i) ;;
                 kwhen (negb (addr =? 0))
                   (zoom (t_store bp (put32 d (4 * bn) addr)) >>
                    zoom (t_log_write bp)) >>
                 kret addr
               else kret (get_ind d bn)) ;;
      zoom (t_brelse bp) >>
      kret addr in
    let addr := nthZ 0 (d_addrs (i_d i)) NDIRECT in
    if addr =? 0 then
      addr <- balloc (i_dev i) ;;
      if addr =? 0 then kret 0
      else upd_d ip (set_addr NDIRECT addr) >> load addr
    else load addr
  else kpanic "bmap: out of range".

(** [for(i = 0; i < NDIRECT; i++)] *)
Fixpoint trunc_direct (n : nat) (ip i : Z) : F unit :=
  match n with
  | O => kret tt
  | S n =>
      p <- get_inode ip ;;
      let a := nthZ 0 (d_addrs (i_d p)) i in
      kwhen (negb (a =? 0)) (bfree (i_dev p) a >> upd_d ip (set_addr i 0)) >>
      trunc_direct n ip (i + 1)
  end.

(** [for(j = 0; j < NINDIRECT; j++)] *)
Fixpoint trunc_indirect (n : nat) (dev bp j : Z) : F unit :=
  match n with
  | O => kret tt
  | S n =>
      d <- bdata bp ;;
      kwhen (negb (get_ind d j =? 0)) (bfree dev (get_ind d j)) >>
      trunc_indirect n dev bp (j + 1)
  end.

Definition itrunc (ip : Z) : F unit :=
  trunc_direct (Z.to_nat NDIRECT) ip 0 >>
  i <- get_inode ip ;;
  let a := nthZ 0 (d_addrs (i_d i)) NDIRECT in
  kwhen (negb (a =? 0))
    (bp <- zoom (t_bread (i_dev i) a) ;;
     trunc_indirect (Z.to_nat NINDIRECT) (i_dev i) bp 0 >>
     zoom (t_brelse bp) >>
     bfree (i_dev i) a >>
     upd_d ip (set_addr NDIRECT 0)) >>
  upd_d ip (set_size 0) >>
  iupdate ip.

Definition iput (ip : Z) : F unit :=
  zoom (acquire itable_lock) >>
  i <- get_inode ip ;;
  kwhen ((i_ref i =? 1) && i_valid i && (d_nlink (i_d i) =? 0))%bool
    (ip_acquiresleep ip >>
     zoom (release itable_lock) >>
     itrunc ip >>
     upd_d ip (set_type 0) >>
     iupdate ip >>
     upd_inode ip (set_valid false) >>
     ip_releasesleep ip >>
     zoom (acquire itable_lock)) >>
  upd_inode ip (fun i => set_ref (i_ref i - 1) i) >>
  zoom (release itable_lock).

Definition iunlockput (ip : Z) : F unit := iunlock ip >> iput ip.

Definition stati (ip : Z) : F stat :=
  i <- get_inode ip ;;
  kret (Stat (i32 (i_dev i)) (i_inum i) (d_type (i_d i)) (d_nlink (i_d i)) (d_size (i_d i))).

(** [min(n - tot, BSIZE - off%BSIZE)] *)
Definition chunk (n tot off : Z) : Z := Z.min (n - tot) (BSIZE - off mod BSIZE).

(** A turn moves at least one byte and ends at a block boundary or at [n]. *)
Definition rw_fuel (n : Z) : nat := Z.to_nat (n / BSIZE + 3).

Fixpoint readi_loop (fuel : nat) (ip : Z) (user_dst : bool) (dst off n tot : Z) : F Z :=
  match fuel with
  | O => kfuel
  | S fuel =>
      if tot <? n then
        i <- get_inode ip ;;
        addr <- bmap ip (off / BSIZE) ;;
        if addr =? 0 then kret (i32 tot) else
        bp <- zoom (t_bread (i_dev i) addr) ;;
        let m := chunk n tot off in
        d <- bdata bp ;;
        r <- zoom (either_copyout pagetable user_dst dst
                     (take (Z.to_nat m) (drop (Z.to_nat (off mod BSIZE)) d))) ;;
        if r =? -1 then zoom (t_brelse bp) >> kret (-1)
        else
          zoom (t_brelse bp) >>
          readi_loop fuel ip user_dst (u64 (dst + m)) (u32 (off + m)) n (tot + m)
      else kret (i32 tot)
  end.

Definition readi (ip : Z) (user_dst : bool) (dst off n : Z) : F Z :=
  d <- get_d ip ;;
  if ((d_size d <? off) || (u32 (off + n) <? off))%bool then kret 0 else
  let n := if d_size d <? u32 (off + n) then d_size d - off else n in
  readi_loop (rw_fuel n) ip user_dst dst off n 0.

(** [bytes] stored into [d] from offset [o] on *)
Fixpoint splice (d : bytes) (o : Z) (l : bytes) : bytes :=
  match l with
  | [] => d
  | b :: l => splice (updZ d o b) (o + 1) l
  end.

(** Returns [tot] and [off]. *)
Fixpoint writei_loop (fuel : nat) (ip : Z) (user_src : bool) (src off n tot : Z) : F (Z * Z) :=
  match fuel with
  | O => kfuel
  | S fuel =>
      if tot <? n then
        i <- get_inode ip ;;
        addr <- bmap ip (off / BSIZE) ;;
        if addr =? 0 then kret (tot, off) else
        bp <- zoom (t_bread (i_dev i) addr) ;;
        let m := chunk n tot off in
        ' (r, c) <- zoom (either_copyin pagetable user_src src m) ;;
        d <- bdata bp ;;
        zoom (t_store bp (splice d (off mod BSIZE) c)) >>
        if r =? -1 then zoom (t_brelse bp) >> kret (tot, off)
        else
          zoom (t_log_write bp) >>
          zoom (t_brelse bp) >>
          writei_loop fuel ip user_src (u64 (src + m)) (u32 (off + m)) n (tot + m)
      else kret (tot, off)
  end.

Definition writei (ip : Z) (user_src : bool) (src off n : Z) : F Z :=
  d <- get_d ip ;;
  if ((d_size d <? off) || (u32 (off + n) <? off))%bool then kret (-1) else
  if MAXFILE * BSIZE <? u32 (off + n) then kret (-1) else
  ' (tot, off) <- writei_loop (rw_fuel n) ip user_src src off n 0 ;;
  d <- get_d ip ;;
  kwhen (d_size d <? off) (upd_d ip (set_size off)) >>
  iupdate ip >>
  kret (i32 tot).

(** ** Directories *)

Definition fmem : F mem := kgets (fun s => pm_mem (f_pm s)).
Definition set_fmem (f : mem -> mem) : F unit := zoom (T := pm) (set_mem f).

Definition namecmp (s t : nat -> Z) : Z := strncmp s t 0 (Z.to_nat DIRSIZ).

Definition ld16 (m : mem) (a : Z) : Z := ldn m a 2.

(** [for(off = 0; off < dp->size; off += sizeof(de))]; returns the inode and
    the offset of its entry. *)
Fixpoint dirlookup_loop (fuel : nat) (dp name off : Z) : F (Z * Z) :=
  match fuel with
  | O => kfuel
  | S fuel =>
      p <- get_inode dp ;;
      if off <? d_size (i_d p) then
        r <- readi dp false de off DIRENT_SIZE ;;
        if negb (r =? DIRENT_SIZE) then kpanic "dirlookup read" else
        m <- fmem ;;
        let inum := ld16 m de in
        if inum =? 0 then dirlookup_loop fuel dp name (u32 (off + DIRENT_SIZE))
        else if namecmp (at_mem m name) (at_mem m (de + 2)) =? 0 then
          ip <- iget (i_dev p) inum ;; kret (ip, off)
        else dirlookup_loop fuel dp name (u32 (off + DIRENT_SIZE))
      else kret (null, 0)
  end.

Definition dirlookup (dp name : Z) : F (Z * Z) :=
  p <- get_inode dp ;;
  if negb (d_type (i_d p) =? T_DIR) then kpanic "dirlookup not DIR"
  else dirlookup_loop (Z.to_nat (d_size (i_d p) / DIRENT_SIZE + 2)) dp name 0.

(** Offset of the first empty entry, or the end of the directory. *)
Fixpoint dirlink_loop (fuel : nat) (dp off : Z) : F Z :=
  match fuel with
  | O => kfuel
  | S fuel =>
      p <- get_inode dp ;;
      if u32 off <? d_size (i_d p) then
        r <- readi dp false de (u32 off) DIRENT_SIZE ;;
        if negb (r =? DIRENT_SIZE) then kpanic "dirlink read" else
        m <- fmem ;;
        if ld16 m de =? 0 then kret off
        else dirlink_loop fuel dp (i32 (off + DIRENT_SIZE))
      else kret off
  end.

Definition dirlink (dp name inum : Z) : F Z :=
  ' (ip, _) <- dirlookup dp name ;;
  if negb (ip =? null) then iput ip >> kret (-1) else
  p <- get_inode dp ;;
  off <- dirlink_loop (Z.to_nat (d_size (i_d p) / DIRENT_SIZE + 2)) dp 0 ;;
  set_fmem (fun m => strncpy m (de + 2) name DIRSIZ) >>
  set_fmem (fun m => stn m de 2 inum) >>
  r <- writei dp false de (u32 off) DIRENT_SIZE ;;
  if negb (r =? DIRENT_SIZE) then kret (-1) else kret 0.

(** ** Paths *)

Definition slash : Z := 47.

(** [while(star path == '/') path++;] *)
Fixpoint skip_slashes (fuel : nat) (m : mem) (path : Z) : Z :=
  match fuel with
  | O => path
  | S fuel => if ld8 m path =? slash then skip_slashes fuel m (path + 1) else path
  end.

(** [while(star path != '/' && star path != 0) path++;] *)
Fixpoint skip_name (fuel : nat) (m : mem) (path : Z) : Z :=
  match fuel with
  | O => path
  | S fuel =>
      if (negb (ld8 m path =? slash) && negb (ld8 m path =? 0))%bool then skip_name fuel m (path + 1) else path
  end.

(** Returns the rest of the path, [None] for the null pointer, and the memory
    with the element copied to [name].  A path has no more than [fuel] bytes. *)
Definition skipelem (fuel : nat) (m : mem) (path name : Z) : option Z * mem :=
  let path := skip_slashes fuel m path in
  if ld8 m path =? 0 then (None, m) else
  let s := path in
  let path := skip_name fuel m path in
  let len := path - s in
  let m :=
    if DIRSIZ <=? len then memmove m name s DIRSIZ
    else st8 (memmove m name s len) (name + len) 0 in
  (Some (skip_slashes fuel m path), m).

(** [while((path = skipelem(path, name)) != 0)] *)
Fixpoint namex_loop (fuel : nat) (nameiparent : bool) (name ip path : Z) : F Z :=
  match fuel with
  | O => kfuel
  | S fuel =>
      m <- fmem ;;
      let '(next, m') := skipelem (Z.to_nat MAXPATH) m path name in
      set_fmem (fun _ => m') >>
      match next with
      | None => if nameiparent then iput ip >> kret null else kret ip
      | Some path =>
          ilock ip >>
          i <- get_inode ip ;;
          if negb (d_type (i_d i) =? T_DIR) then iunlockput ip >> kret null else
          m <- fmem ;;
          if (nameiparent && (ld8 m path =? 0))%bool then iunlock ip >> kret ip else
          ' (next, _) <- dirlookup ip name ;;
          if next =? null then iunlockput ip >> kret null
          else
            iunlockput ip >>
            namex_loop fuel nameiparent name next path
      end
  end.

Definition namex (path : Z) (nameiparent : bool) (name : Z) : F Z :=
  m <- fmem ;;
  ip <- (if ld8 m path =? slash then iget ROOTDEV ROOTINO else idup cwd) ;;
  namex_loop (S (Z.to_nat MAXPATH)) nameiparent name ip path.

(** [name] is a local array. *)
Definition namei (path name : Z) : F Z := namex path false name.
Definition nameiparent (path name : Z) : F Z := namex path true name.
End fs.
