(* ===== verification/FsBlocks.v ===== *)
(** * The block allocator of kernel/fs.c

    [balloc] and [bfree] against the free map they keep on disk: bit [b] of
    the bitmap says whether block [b] is in use. *)

From S2P Require Import Prelude Riscv Spinlock Sleeplock Kalloc Block BufCache TxnDisk Fs.

(** ** Bits of the map *)

Lemma bit_clear x k : 0 <= k -> (Z.land x (Z.shiftl 1 k) =? 0) = negb (Z.testbit x k).
Proof.
  intros Hk. rewrite Z.shiftl_1_l. destruct (Z.testbit x k) eqn:E; cbn [negb].
  - apply Z.eqb_neq. intros H. apply (f_equal (fun z => Z.testbit z k)) in H.
    rewrite Z.land_spec, Z.pow2_bits_true, E, Z.bits_0 in H by done. done.
  - apply Z.eqb_eq. apply Z.bits_inj'. intros n Hn. rewrite Z.land_spec, Z.bits_0.
    destruct (decide (n = k)) as [-> |]; [by rewrite E |]. by rewrite Z.pow2_bits_false, andb_false_r by done.
Qed.

(** Bit [bi] of a bitmap block. *)
Definition bit (d : bytes) (bi : Z) : bool := Z.testbit (nthZ 0 d (bi / 8)) (bi mod 8).

Lemma bmask_bit d bi : (Z.land (nthZ 0 d (bi / 8)) (bmask bi) =? 0) = negb (bit d bi).
Proof. apply bit_clear. apply Z.mod_pos_bound. lia. Qed.

Lemma bit_updZ d bi bj x :
  0 <= bi -> 0 <= bj -> bi / 8 < Z.of_nat (length d) ->
  bit (updZ d (bi / 8) x) bj = if bj / 8 =? bi / 8 then Z.testbit x (bj mod 8) else bit d bj.
Proof.
  intros. unfold bit. rewrite nthZ_updZ by (split; [apply Z.div_pos; lia | lia]). by case_if.
Qed.

Lemma same_bit bi bj : bj / 8 = bi / 8 -> bj mod 8 = bi mod 8 -> bi = bj.
Proof. intros. dlia. Qed.

Lemma bit_set d bi bj :
  0 <= bi -> 0 <= bj -> bi / 8 < Z.of_nat (length d) ->
  bit (updZ d (bi / 8) (Z.lor (nthZ 0 d (bi / 8)) (bmask bi))) bj = ((bj =? bi) || bit d bj)%bool.
Proof.
  intros. rewrite bit_updZ by done. pose proof (Z.mod_pos_bound bi 8 ltac:(lia)).
  pose proof (Z.mod_pos_bound bj 8 ltac:(lia)).
  destruct (bj / 8 =? bi / 8) eqn:E; zbool.
  - rewrite Z.lor_spec. unfold bmask. rewrite Z.shiftl_1_l, Z.pow2_bits_eqb, orb_comm by lia.
    unfold bit. rewrite E. f_equal. destruct (bi mod 8 =? bj mod 8) eqn:E2; zbool; symmetry.
    + apply Z.eqb_eq. symmetry. by apply same_bit.
    + apply Z.eqb_neq. congruence.
  - replace (bj =? bi) with false by (symmetry; apply Z.eqb_neq; congruence). done.
Qed.

Lemma bit_unset d bi bj :
  0 <= bi -> 0 <= bj -> bi / 8 < Z.of_nat (length d) ->
  bit (updZ d (bi / 8) (Z.land (nthZ 0 d (bi / 8)) (Z.lnot (bmask bi)))) bj = (negb (bj =? bi) && bit d bj)%bool.
Proof.
  intros. rewrite bit_updZ by done. pose proof (Z.mod_pos_bound bi 8 ltac:(lia)).
  pose proof (Z.mod_pos_bound bj 8 ltac:(lia)).
  destruct (bj / 8 =? bi / 8) eqn:E; zbool.
  - rewrite Z.land_spec, Z.lnot_spec by lia. unfold bmask. rewrite Z.shiftl_1_l, Z.pow2_bits_eqb, andb_comm by lia.
    unfold bit. rewrite E. do 2 f_equal. destruct (bi mod 8 =? bj mod 8) eqn:E2; zbool; symmetry.
    + apply Z.eqb_eq. symmetry. by apply same_bit.
    + apply Z.eqb_neq. congruence.
  - replace (bj =? bi) with false by (symmetry; apply Z.eqb_neq; congruence). done.
Qed.

(** ** The scan of one bitmap block *)

Lemma balloc_scan_ok size d b n bi :
  0 <= b -> 0 <= bi -> size < 2 ^ 31 -> b <= size -> bi + Z.of_nat n = BPB ->
  match balloc_scan n d b bi size with
  | Some k => bi <= k < BPB /\ b + k < size /\ bit d k = false /\ forall j, bi <= j < k -> bit d j = true
  | None => forall j, bi <= j < BPB -> b + j < size -> bit d j = true
  end.
Proof.
  intros Hb. revert bi. induction n as [| n IH]; intros bi Hbi Hs Hbs Hn; cbn [balloc_scan].
  { intros. lia. }
  assert (BPB = 8192) as E8 by reflexivity.
  rewrite u32_small by lia. case_if; zbool.
  - rewrite bmask_bit. destruct (bit d bi) eqn:Eb; cbn [negb].
    + specialize (IH (bi + 1) ltac:(lia) Hs Hbs ltac:(lia)).
      destruct (balloc_scan n d b (bi + 1) size) as [k |].
      * destruct IH as (H1 & H2 & H3 & H4). split_and!; [lia | lia | lia | done |].
        intros j Hj. destruct (decide (j = bi)) as [-> |]; [done | apply H4; lia].
      * intros j Hj1 Hj2. destruct (decide (j = bi)) as [-> |]; [done | apply IH; lia].
    + split_and!; [lia | lia | lia | done | intros; lia].
  - intros j Hj1 Hj2. destruct E; zbool; lia.
Qed.

(** ** Running disk operations inside the file system's state *)

Section disk.
Context {T : Type} `{TD : TxnDisk T}.

Definition put_disk (t : T) (s : fsys T) : fsys T :=
  Fsys (f_held s) (f_woken s) t (f_sb s) (f_inode s) (f_pm s) (f_msgs s).

Lemma zoom_disk {A} (m : K T A) s a t : m (f_disk s) = Ret a t -> zoom m s = Ret a (put_disk t s).
Proof. intros E. unfold zoom. cbn. by rewrite E. Qed.

Lemma put_disk_id s : put_disk (f_disk s) s = s.
Proof. by destruct s. Qed.

Lemma bdata_step {A} b (k : bytes -> K (fsys T) A) s : (d <- bdata b ;; k d) s = k (t_data (f_disk s) b) s.
Proof. done. Qed.
End disk.

(** Run the next disk operation of the goal, given its equation. *)
Ltac dstep E := erewrite kbind_of by (apply zoom_disk; exact E); cbn [put_disk f_disk f_sb f_inode f_pm f_held f_woken f_msgs].

(** ** The free map *)

Definition used (sb : superblock) (look : Z -> bytes) (b : Z) : bool := bit (look (BBLOCK b sb)) (b mod BPB).

Section alloc.
Context {T : Type} `{TD : TxnDisk T} (lo hi : Z).

(** Layout of the disk: log, then bitmap, then data, as mkfs makes it. *)
Record sb_ok (sb : superblock) : Prop := {
  sk_size : 0 < sb_size sb < 2 ^ 31 - 2 ^ 14;
  sk_log : 0 <= lo /\ hi <= sb_bmapstart sb;
  sk_bmap : 0 <= sb_bmapstart sb /\ sb_bmapstart sb + sb_size sb / BPB < sb_size sb;
}.

(** Blocks that hold the bitmap. *)
Definition bmap_block (sb : superblock) (b : Z) : Prop :=
  sb_bmapstart sb <= b <= sb_bmapstart sb + sb_size sb / BPB.

(** The map of a consistent file system: its blocks are whole, everything up
    to and including the bitmap is in use, and so is what this process has
    locked. *)
Record map_ok (sb : superblock) (v : bview) : Prop := {
  mk_len : forall b, bmap_block sb b -> length (v_look v b) = 1024%nat;
  mk_meta : forall b, 0 <= b <= sb_bmapstart sb + sb_size sb / BPB -> used sb (v_look v) b = true;
  mk_own : forall b bno, v_own v !! b = Some bno ->
    0 <= bno < sb_size sb /\ ~ bmap_block sb bno /\ used sb (v_look v) bno = true;
}.

Lemma BBLOCK_eq sb b : sb_ok sb -> 0 <= b < sb_size sb -> BBLOCK b sb = b / BPB + sb_bmapstart sb.
Proof.
  intros [] Hb. unfold BBLOCK. change BPB with 8192 in *. apply u32_small. dlia.
Qed.

Lemma BBLOCK_block sb b : sb_ok sb -> 0 <= b < sb_size sb -> bmap_block sb (BBLOCK b sb) /\ home lo hi (BBLOCK b sb).
Proof.
  intros H Hb. rewrite BBLOCK_eq by done. destruct H. unfold bmap_block, home. change BPB with 8192 in *.
  assert (b / 8192 <= sb_size sb / 8192) by (apply Z.div_le_mono; lia).
  pose proof (Z.div_pos b 8192). lia.
Qed.

Lemma bmap_free sb v b : map_ok sb v -> bmap_block sb b -> free_block v b.
Proof. intros H Hb c Hc. by destruct (mk_own _ _ H c b Hc) as (_ & ? & _). Qed.

(** A free block is a data block, and nobody has it locked. *)
Lemma free_data sb v b :
  sb_ok sb -> map_ok sb v -> 0 <= b < sb_size sb -> used sb (v_look v) b = false ->
  home lo hi b /\ ~ bmap_block sb b /\ free_block v b.
Proof.
  intros Hs H Hb Hu. assert (sb_bmapstart sb + sb_size sb / BPB < b).
  { apply Z.nle_gt. intros Hle. rewrite (mk_meta _ _ H b) in Hu; [done | lia]. }
  destruct Hs. pose proof (Z.div_pos (sb_size sb) BPB ltac:(lia) ltac:(done)). unfold home, bmap_block.
  split_and!; try lia. intros c Hc. destruct (mk_own _ _ H c b Hc) as (_ & _ & ?). congruence.
Qed.

Lemma log_release {A} (k : K (fsys T) A) s v b bno d :
  tsim lo hi (f_disk s) (v_get b bno v) -> v_own v !! b = None -> home lo hi bno -> budget lo hi 1 v ->
  exists t', tsim lo hi t' (v_log bno d v) /\
    (zoom (t_store b d) >> zoom (t_log_write b) >> zoom (t_brelse b)) s = Ret tt (put_disk t' s) /\
    (zoom (t_store b d) >> zoom (t_log_write b) >> zoom (t_brelse b) >> k) s = k (put_disk t' s).
Proof.
  intros Ht Ho Hh Hb. destruct (t_logged lo hi _ v b bno d Ht Ho Hh Hb) as (t1 & t2 & E1 & E2 & H2 & Hk).
  destruct (t_close lo hi t2 _ b bno H2) as (t3 & E3 & H3); [done | done |].
  exists t3. split; [done |]. split.
  - dstep E1. dstep E2. exact (zoom_disk _ (put_disk t2 s) _ _ E3).
  - dstep E1. dstep E2. by dstep E3.
Qed.

Lemma bzero_ok s v bno :
  tsim lo hi (f_disk s) v -> home lo hi bno -> free_block v bno -> roomy 1 v -> budget lo hi 1 v ->
  exists t', bzero ROOTDEV bno s = Ret tt (put_disk t' s) /\ tsim lo hi t' (v_log bno zero_block v).
Proof.
  intros Ht Hh Hf Hr Hb. unfold bzero. pose proof Hh as [Hr1 _]. rewrite u32_small by lia.
  destruct (t_open lo hi _ v bno Ht ltac:(lia) Hf Hr) as (b & t1 & E1 & Ho & _ & H1 & _).
  destruct (log_release (kret tt) (put_disk t1 s) v b bno zero_block H1 Ho Hh Hb) as (t2 & H2 & E2 & _).
  exists t2. split; [| done]. by dstep E1.
Qed.

(** What [balloc] does to the view when it finds block [b] free. *)
Definition v_alloc (sb : superblock) (b : Z) (v : bview) : bview :=
  let d := v_look v (BBLOCK b sb) in
  let bi := b mod BPB in
  v_log b zero_block (v_log (BBLOCK b sb) (updZ d (bi / 8) (Z.lor (nthZ 0 d (bi / 8)) (bmask bi))) v).

Definition out_of_blocks (t' : T) (s : fsys T) : fsys T :=
  Fsys (f_held s) (f_woken s) t' (f_sb s) (f_inode s) (f_pm s) (f_msgs s ++ ["balloc: out of blocks"%string]).

Lemma balloc_loop_ok fuel sb s v q :
  f_sb s = sb -> tsim lo hi (f_disk s) v -> sb_ok sb -> map_ok sb v -> roomy 2 v -> budget lo hi 2 v ->
  0 <= q -> q * BPB < sb_size sb + BPB -> sb_size sb < (q + Z.of_nat fuel - 1) * BPB ->
  (forall b, 0 <= b < q * BPB -> b < sb_size sb -> used sb (v_look v) b = true) ->
  (exists b t', balloc_loop fuel ROOTDEV (q * BPB) s = Ret b (put_disk t' s) /\ 0 <= b < sb_size sb /\
     used sb (v_look v) b = false /\ (forall b', 0 <= b' < b -> used sb (v_look v) b' = true) /\
     tsim lo hi t' (v_alloc sb b v)) \/
  (exists t', balloc_loop fuel ROOTDEV (q * BPB) s = Ret 0 (out_of_blocks t' s) /\
     (forall b, 0 <= b < sb_size sb -> used sb (v_look v) b = true) /\ tsim lo hi t' v).
Proof.
  revert s q. induction fuel as [| fuel IH]; intros s q Hsb Ht Hs Hm Hr Hbud Hq Hq2 Hf Hall.
  { change BPB with 8192 in *. lia. }
  pose proof (sk_size _ Hs) as Hsz. cbn [balloc_loop]. rewrite (kbind_of (kgets _) _ _ _ _ eq_refl), Hsb.
  rewrite u32_small by (change BPB with 8192 in *; lia).
  destruct (q * BPB <? sb_size sb) eqn:Elt; zbool.
  - assert (Hqb : 0 <= q * BPB < sb_size sb) by (change BPB with 8192 in *; lia).
    destruct (BBLOCK_block sb (q * BPB) Hs Hqb) as [Hbb Hh]. pose proof Hh as [Hhr _].
    destruct (t_open lo hi _ v (BBLOCK (q * BPB) sb) Ht ltac:(lia)) as (bp & t1 & E1 & Ho & Hk & H1 & Ed);
      [by eapply bmap_free | by eapply roomy_weaken; [| exact Hr] |].
    dstep E1. rewrite bdata_step. cbn [put_disk f_disk]. rewrite Ed.
    pose proof (balloc_scan_ok (sb_size sb) (v_look v (BBLOCK (q * BPB) sb)) (q * BPB) (Z.to_nat BPB) 0
      ltac:(lia) ltac:(lia) ltac:(lia) ltac:(lia) eq_refl) as Hscan.
    assert (Hused : forall j, 0 <= j < BPB -> q * BPB + j < sb_size sb ->
      BBLOCK (q * BPB + j) sb = BBLOCK (q * BPB) sb /\ (q * BPB + j) mod BPB = j).
    { intros j Hj Hlt. rewrite !BBLOCK_eq by (try done; lia). change BPB with 8192 in *. split; [f_equal |]; dlia. }
    destruct (balloc_scan _ _ _ _ _) as [bi |].
    + left. destruct Hscan as (Hbi & Hlt & Hclear & Hset). destruct (Hused bi Hbi Hlt) as [EB EM].
      assert (Hu : used sb (v_look v) (q * BPB + bi) = false) by (unfold used; by rewrite EB, EM).
      destruct (free_data sb v (q * BPB + bi) Hs Hm ltac:(lia) Hu) as (Hhome & Hnb & Hfree).
      edestruct (log_release (bzero ROOTDEV (q * BPB + bi) >> kret (u32 (q * BPB + bi))) (put_disk t1 s) v bp)
        as (t2 & H2 & _ & E2); [exact H1 | done | done | unfold budget in *; lia |]. rewrite E2.
      destruct (bzero_ok (put_disk t2 (put_disk t1 s)) _ (q * BPB + bi) H2 Hhome Hfree) as (t3 & E3 & H3);
        [by apply roomy_log | by apply budget_log |].
      rewrite (kbind_of _ _ _ _ _ E3), u32_small by lia.
      eexists _, t3. split_and!; [reflexivity | lia | lia | done | |].
      * intros b' Hb'. destruct (decide (b' < q * BPB)); [apply Hall; lia |].
        destruct (Hused (b' - q * BPB)) as [EB' EM']; [lia | lia |].
        replace (q * BPB + (b' - q * BPB)) with b' in * by lia.
        unfold used. rewrite EB', EM'. apply Hset. lia.
      * unfold v_alloc. rewrite EB, EM. exact H3.
    + destruct (t_close lo hi t1 v bp _ H1 Ho Hk) as (t2 & E2 & H2). dstep E2.
      rewrite i32_small by (change BPB with 8192 in *; lia).
      replace (q * BPB + BPB) with ((q + 1) * BPB) by lia.
      edestruct (IH (put_disk t2 (put_disk t1 s)) (q + 1)) as [(b & t' & E & Hrest) | (t' & E & Hrest)];
        try done; try lia.
      { intros b Hb Hlt. destruct (decide (b < q * BPB)); [apply Hall; lia |].
        destruct (Hused (b - q * BPB)) as [EB' EM']; [lia | lia |].
        replace (q * BPB + (b - q * BPB)) with b in * by lia.
        unfold used. rewrite EB', EM'. apply Hscan; lia. }
      * left. exists b, t'. split; [exact E | done].
      * right. exists t'. split; [exact E | done].
  - right. exists (f_disk s). split; [by destruct s |]. split; [| done]. intros b Hb. apply Hall; lia.
Qed.

(** ** Their effect on the map *)

Lemma bit_index b : 0 <= b mod BPB / 8 < 1024 /\ 0 <= b mod BPB.
Proof. change BPB with 8192. dlia. Qed.

(** Changing bit [b] of the map to [x]. *)
Definition marks (sb : superblock) (b : Z) (x : bool) (f f' : Z -> bytes) : Prop :=
  (forall b', 0 <= b' < sb_size sb -> used sb f' b' = if b' =? b then x else used sb f b') /\
  (forall j, bmap_block sb j -> length (f j) = 1024%nat -> length (f' j) = 1024%nat) /\
  (forall j, j <> BBLOCK b sb -> f' j = f j).

Lemma marks_of sb b x f g :
  sb_ok sb -> 0 <= b < sb_size sb -> length (f (BBLOCK b sb)) = 1024%nat -> length g = 1024%nat ->
  (forall bj, 0 <= bj -> bit g bj = if bj =? b mod BPB then x else bit (f (BBLOCK b sb)) bj) ->
  marks sb b x f (bupd f (BBLOCK b sb) g).
Proof.
  intros Hs Hb Hl Hg Hbit. split_and!.
  - intros b' Hb'. unfold used. destruct (decide (BBLOCK b' sb = BBLOCK b sb)) as [E | E].
    + rewrite E, bupd_eq, Hbit by apply bit_index. rewrite !BBLOCK_eq in E by done.
      destruct (b' mod BPB =? b mod BPB) eqn:Em, (b' =? b) eqn:Eb; zbool; try done.
      * exfalso. apply Eb. change BPB with 8192 in *. dlia.
      * congruence.
    + rewrite bupd_ne by done. replace (b' =? b) with false; [done |]. symmetry. apply Z.eqb_neq. congruence.
  - intros j Hj Hlj. unfold bupd. by case_decide.
  - intros j Hj. by apply bupd_ne.
Qed.

Lemma alloc_marks sb b v :
  sb_ok sb -> map_ok sb v -> 0 <= b < sb_size sb ->
  let d := v_look v (BBLOCK b sb) in let bi := b mod BPB in
  marks sb b true (v_look v) (bupd (v_look v) (BBLOCK b sb) (updZ d (bi / 8) (Z.lor (nthZ 0 d (bi / 8)) (bmask bi)))).
Proof.
  intros Hs Hm Hb. cbv zeta. pose proof (mk_len _ _ Hm _ (proj1 (BBLOCK_block sb b Hs Hb))) as Hl.
  destruct (bit_index b) as [Hi1 Hi2]. apply marks_of; try done; [by rewrite length_updZ |].
  intros bj Hj. rewrite bit_set by lia. by destruct (bj =? b mod BPB).
Qed.

Lemma free_marks sb b v :
  sb_ok sb -> map_ok sb v -> 0 <= b < sb_size sb ->
  let d := v_look v (BBLOCK b sb) in let bi := b mod BPB in
  marks sb b false (v_look v) (bupd (v_look v) (BBLOCK b sb) (updZ d (bi / 8) (Z.land (nthZ 0 d (bi / 8)) (Z.lnot (bmask bi))))).
Proof.
  intros Hs Hm Hb. cbv zeta. pose proof (mk_len _ _ Hm _ (proj1 (BBLOCK_block sb b Hs Hb))) as Hl.
  destruct (bit_index b) as [Hi1 Hi2]. apply marks_of; try done; [by rewrite length_updZ |].
  intros bj Hj. rewrite bit_unset by lia. by destruct (bj =? b mod BPB).
Qed.

(** The map stays consistent when bit [b], of a data block that nobody has
    locked, changes. *)
Lemma marks_map_ok sb b x v v' :
  sb_ok sb -> map_ok sb v -> 0 <= b < sb_size sb -> sb_bmapstart sb + sb_size sb / BPB < b -> free_block v b ->
  marks sb b x (v_look v) (v_look v') -> v_own v' = v_own v -> map_ok sb v'.
Proof.
  intros Hs Hm Hb Hd Hf (Hu & Hl & _) Ho. pose proof (sk_bmap _ Hs). split.
  - intros j Hj. apply Hl; [done | by apply (mk_len _ _ Hm)].
  - intros j Hj. rewrite Hu by lia. case_if; zbool; [lia | by apply (mk_meta _ _ Hm)].
  - intros c bno Hc. rewrite Ho in Hc. destruct (mk_own _ _ Hm c bno Hc) as (H1 & H2 & H3). split_and!; try done; try lia.
    rewrite Hu by done. case_if; zbool; [| done]. subst. by destruct (Hf c).
Qed.

Lemma used_bupd sb f j d b : sb_ok sb -> 0 <= b < sb_size sb -> ~ bmap_block sb j -> used sb (bupd f j d) b = used sb f b.
Proof.
  intros Hs Hb Hj. unfold used. rewrite bupd_ne; [done |]. intros <-. apply Hj. by apply BBLOCK_block.
Qed.

Lemma alloc_view sb b v :
  sb_ok sb -> map_ok sb v -> 0 <= b < sb_size sb -> used sb (v_look v) b = false ->
  let v' := v_alloc sb b v in
  map_ok sb v' /\ v_own v' = v_own v /\ v_look v' b = zero_block /\
  (forall b', 0 <= b' < sb_size sb -> used sb (v_look v') b' = ((b' =? b) || used sb (v_look v) b')%bool) /\
  (forall j, j <> b -> ~ bmap_block sb j -> v_look v' j = v_look v j).
Proof.
  intros Hs Hm Hb Hu v'. destruct (free_data sb v b Hs Hm Hb Hu) as (_ & Hnb & Hf).
  pose proof (alloc_marks sb b v Hs Hm Hb) as Hmk. cbv zeta in Hmk. destruct (BBLOCK_block sb b Hs Hb) as [Hbb _].
  set (f1 := bupd _ _ _) in Hmk. assert (Hl : v_look v' = bupd f1 b zero_block) by reflexivity.
  assert (Hd : sb_bmapstart sb + sb_size sb / BPB < b).
  { apply Z.nle_gt. intros Hle. rewrite (mk_meta _ _ Hm b) in Hu; [done | lia]. }
  assert (Hmk' : forall b', 0 <= b' < sb_size sb -> used sb (v_look v') b' = if b' =? b then true else used sb (v_look v) b').
  { intros b' Hb'. rewrite Hl, used_bupd by done. by apply Hmk. }
  split_and!.
  - pose proof (sk_bmap _ Hs). split.
    + intros j Hj. rewrite Hl, bupd_ne by (intros ->; done). apply Hmk; [done | by apply (mk_len _ _ Hm)].
    + intros j Hj. rewrite Hmk' by lia. case_if; [done | by apply (mk_meta _ _ Hm)].
    + intros c bno Hc. destruct (mk_own _ _ Hm c bno Hc) as (H1 & H2 & H3). split_and!; try done; try lia.
      rewrite Hmk' by done. by case_if.
  - done.
  - rewrite Hl. apply bupd_eq.
  - intros b' Hb'. rewrite Hmk' by done. by destruct (b' =? b).
  - intros j Hj Hnj. rewrite Hl, bupd_ne by done. apply Hmk. intros ->. done.
Qed.

Lemma balloc_ok s v :
  let sb := f_sb s in
  tsim lo hi (f_disk s) v -> sb_ok sb -> map_ok sb v -> roomy 2 v -> budget lo hi 2 v ->
  (exists b t', balloc ROOTDEV s = Ret b (put_disk t' s) /\ tsim lo hi t' (v_alloc sb b v) /\
     used sb (v_look v) b = false /\ (forall b', 0 <= b' < b -> used sb (v_look v) b' = true) /\
     0 <= b /\ sb_bmapstart sb + sb_size sb / BPB < b < sb_size sb) \/
  (exists t', balloc ROOTDEV s = Ret 0 (out_of_blocks t' s) /\ tsim lo hi t' v /\
     forall b, 0 <= b < sb_size sb -> used sb (v_look v) b = true).
Proof.
  intros sb Ht Hs Hm Hr Hb. unfold balloc. rewrite (kbind_of (kgets _) _ _ _ _ eq_refl). fold sb.
  pose proof (sk_size _ Hs) as Hsz.
  destruct (balloc_loop_ok (Z.to_nat (sb_size sb / BPB + 2)) sb s v 0 eq_refl Ht Hs Hm Hr Hb)
    as [(b & t' & E & Hrange & Hu & Hlow & Ht') | (t' & E & Hall & Ht')];
    [lia | change BPB with 8192; lia | change BPB with 8192; dlia | intros; lia | |].
  - left. exists b, t'. split_and!; try done; try lia.
    apply Z.nle_gt. intros Hle. rewrite (mk_meta _ _ Hm b) in Hu; [done | lia].
  - right. exists t'. done.
Qed.

(** C17: [balloc] returns the lowest free block, marked in the bitmap and zeroed,
    when there is one, and 0 with a message when there is none.  The block it
    returns was not in use and lies behind the bitmap, so it is none of the
    blocks of the log, the inodes or the map; the map changes in that bit
    only; no other block changes; everything it wrote is in the log. *)
Theorem balloc_correct s v :
  let sb := f_sb s in
  tsim lo hi (f_disk s) v -> sb_ok sb -> map_ok sb v -> roomy 2 v -> budget lo hi 2 v ->
  (exists b t' v', balloc ROOTDEV s = Ret b (put_disk t' s) /\ tsim lo hi t' v' /\ map_ok sb v' /\
     used sb (v_look v) b = false /\ (forall b', 0 <= b' < b -> used sb (v_look v) b' = true) /\
     sb_bmapstart sb + sb_size sb / BPB < b < sb_size sb /\
     (forall b', 0 <= b' < sb_size sb -> used sb (v_look v') b' = ((b' =? b) || used sb (v_look v) b')%bool) /\
     v_look v' b = zero_block /\ (forall j, j <> b -> ~ bmap_block sb j -> v_look v' j = v_look v j) /\
     v_own v' = v_own v /\ v_pin v' = {[b; BBLOCK b sb]} ∪ v_pin v) \/
  (exists t', balloc ROOTDEV s = Ret 0 (out_of_blocks t' s) /\ tsim lo hi t' v /\
     forall b, 0 <= b < sb_size sb -> used sb (v_look v) b = true).
Proof.
  intros sb Ht Hs Hm Hr Hb.
  destruct (balloc_ok s v Ht Hs Hm Hr Hb) as [(b & t' & E & Ht' & Hu & Hlow & Hb0 & Hb1) | H]; [left | by right]. fold sb in Hb1.
  destruct (alloc_view sb b v Hs Hm ltac:(lia) Hu) as (V1 & V2 & V3 & V4 & V5).
  exists b, t', (v_alloc sb b v). split_and!; try done; try lia.
  cbn. set_solver.
Qed.

(** What [bfree] does to the view. *)
Definition v_free (sb : superblock) (b : Z) (v : bview) : bview :=
  let d := v_look v (BBLOCK b sb) in
  let bi := b mod BPB in
  v_log (BBLOCK b sb) (updZ d (bi / 8) (Z.land (nthZ 0 d (bi / 8)) (Z.lnot (bmask bi)))) v.

(** [bfree] panics exactly when the block is already free; otherwise it
    clears the block's bit and changes nothing else. *)
Lemma bfree_ok s v b :
  let sb := f_sb s in
  tsim lo hi (f_disk s) v -> sb_ok sb -> map_ok sb v -> roomy 1 v -> budget lo hi 1 v ->
  0 <= b < sb_size sb ->
  if used sb (v_look v) b then
    exists t', bfree ROOTDEV b s = Ret tt (put_disk t' s) /\ tsim lo hi t' (v_free sb b v)
  else bfree ROOTDEV b s = Panic "freeing free block".
Proof.
  intros sb Ht Hs Hm Hr Hbud Hb. unfold bfree. rewrite (kbind_of (kgets _) _ _ _ _ eq_refl). fold sb.
  destruct (BBLOCK_block sb b Hs Hb) as [Hbb Hh]. pose proof Hh as [Hhr _].
  destruct (t_open lo hi _ v (BBLOCK b sb) Ht ltac:(lia)) as (bp & t1 & E1 & Ho & Hk & H1 & Ed);
    [by eapply bmap_free | done |].
  destruct (used sb (v_look v) b) eqn:Hu; unfold used in Hu.
  - edestruct (log_release (kret tt) (put_disk t1 s) v bp) as (t2 & H2 & E2 & _); [exact H1 | done | done | done |].
    exists t2. split; [| exact H2]. dstep E1. rewrite bdata_step. cbn [put_disk f_disk]. rewrite Ed, bmask_bit, Hu. exact E2.
  - dstep E1. rewrite bdata_step. cbn [put_disk f_disk]. by rewrite Ed, bmask_bit, Hu.
Qed.

Lemma free_view sb b v :
  sb_ok sb -> map_ok sb v -> 0 <= b < sb_size sb ->
  (forall b', 0 <= b' < sb_size sb -> used sb (v_look (v_free sb b v)) b' = (negb (b' =? b) && used sb (v_look v) b')%bool) /\
  (forall j, j <> BBLOCK b sb -> v_look (v_free sb b v) j = v_look v j) /\
  (sb_bmapstart sb + sb_size sb / BPB < b -> free_block v b -> map_ok sb (v_free sb b v)).
Proof.
  intros Hs Hm Hb. pose proof (free_marks sb b v Hs Hm Hb) as Hmk. cbv zeta in Hmk. split_and!.
  - intros b' Hb'. cbn [v_look v_log v_free]. rewrite (proj1 Hmk b' Hb'). by destruct (b' =? b).
  - intros j Hj. by apply Hmk.
  - intros Hd Hf. by apply (marks_map_ok sb b false v).
Qed.
End alloc.

(** ** Witnesses: a small file system on the cache of bio.c *)
From S2P Require Import Log BioProofs LogTxn.
From S2P Require Bio.

Definition wit_sb : superblock := Sb FSMAGIC 200 154 200 30 2 32 45.
Definition wit_bitmap : bytes := replicate 5 255 ++ [0x3f] ++ replicate 1018 0.
Definition wit_disk : gmap Z bytes := {[45 := wit_bitmap]}.
Definition wit_fs : fsys (lst Bio.bst) :=
  Fsys ∅ [] (Lst ∅ [] new_log (b_boot wit_disk)) wit_sb [] (Pm ∅ ∅ 0) [].

Lemma wit_sb_ok : sb_ok 2 32 wit_sb.
Proof. split; cbn; change (200 / BPB) with 0; lia. Qed.

Lemma wit_used b : 0 <= b < 46 -> used wit_sb (v_look (boot_view wit_disk)) b = true.
Proof.
  intros Hb. assert (Hall : forallb (used wit_sb (v_look (boot_view wit_disk))) (seqZ 0 46) = true) by (vm_compute; done).
  rewrite forallb_forall in Hall. apply Hall. apply list_elem_of_In, elem_of_seqZ. lia.
Qed.

Lemma wit_map_ok : map_ok wit_sb (boot_view wit_disk).
Proof.
  split.
  - intros b [H1 H2]. change (sb_bmapstart wit_sb + sb_size wit_sb / BPB) with 45 in H2. cbn in H1. assert (b = 45) as -> by lia. vm_compute. done.
  - intros b Hb. apply wit_used. change (sb_bmapstart wit_sb + sb_size wit_sb / BPB) with 45 in Hb. lia.
  - intros b bno Hb. cbn in Hb. by rewrite lookup_empty in Hb.
Qed.

Lemma balloc_correct_witness :
  exists s', balloc ROOTDEV wit_fs = Ret 46 s'.
Proof.
  destruct (balloc_correct 2 32 wit_fs (boot_view wit_disk) (new_txn wit_disk) wit_sb_ok wit_map_ok)
    as [(b & t' & v' & E & _ & _ & Hu & Hlow & [Hb _] & _) | (t' & _ & _ & Hall)].
  - vm_compute. discriminate.
  - vm_compute. discriminate.
  - exists (put_disk t' wit_fs). rewrite E. f_equal. change (sb_bmapstart (f_sb wit_fs) + sb_size (f_sb wit_fs) / BPB) with 45 in Hb.
    destruct (Z.lt_total b 46) as [Hlt | [Heq | Hgt]]; [lia | exact Heq |].
    specialize (Hlow 46 ltac:(lia)). vm_compute in Hlow. discriminate Hlow.
  - specialize (Hall 46 ltac:(cbn; lia)). vm_compute in Hall. discriminate Hall.
Defined.
