(* ===== verification/FsPath.v ===== *)
(** * Path names: [skipelem] of kernel/fs.c *)

From S2P Require Import Prelude Riscv Mem CString Fs.

(** The C string [p] is at [a]. *)
Fixpoint holds (m : mem) (a : Z) (p : bytes) : Prop :=
  match p with
  | [] => ld8 m a = 0
  | c :: p => ld8 m a = c /\ c <> 0 /\ holds m (a + 1) p
  end.

(** The pieces of a path between its slashes, and the ones that are not empty. *)
Fixpoint split (p : bytes) : list bytes :=
  match p with
  | [] => [[]]
  | c :: p =>
      if c =? slash then [] :: split p
      else match split p with
           | h :: t => (c :: h) :: t
           | [] => [[c]]
           end
  end.

Definition elements (p : bytes) : list bytes := filter (fun e => e <> []) (split p).

(** The first path element and what follows it, leading slashes removed. *)
Fixpoint drop_slashes (p : bytes) : bytes :=
  match p with
  | c :: p' => if c =? slash then drop_slashes p' else p
  | [] => []
  end.

Fixpoint span_name (p : bytes) : bytes * bytes :=
  match p with
  | c :: p' => if c =? slash then ([], p) else let '(e, r) := span_name p' in (c :: e, r)
  | [] => ([], [])
  end.

(** The name a directory is searched for: the bytes up to a NUL, 14 at most. *)
Fixpoint rd_name (n : nat) (m : mem) (a : Z) : bytes :=
  match n with
  | O => []
  | S n => if ld8 m a =? 0 then [] else ld8 m a :: rd_name n m (a + 1)
  end.

(** The names [namex] passes to [dirlookup], one after the other. *)
Fixpoint path_names (n fuel : nat) (m : mem) (path name : Z) : list bytes :=
  match n with
  | O => []
  | S n =>
      match skipelem fuel m path name with
      | (None, _) => []
      | (Some path', m') => rd_name (Z.to_nat DIRSIZ) m' name :: path_names n fuel m' path' name
      end
  end.

(** ** Splitting *)

Lemma split_nonempty p : split p <> [].
Proof. destruct p as [| c p]; cbn; [done |]. case_if; [done |]. by destruct (split p). Qed.

Lemma elements_slash c p : c = slash -> elements (c :: p) = elements p.
Proof. intros ->. unfold elements. cbn. done. Qed.

Lemma elements_drop p : elements (drop_slashes p) = elements p.
Proof.
  induction p as [| c p IH]; [done |]. cbn [drop_slashes]. case_if; zbool; [| done].
  subst. by rewrite IH, elements_slash.
Qed.

Lemma split_span p :
  split p = (span_name p).1 :: match (span_name p).2 with [] => [] | _ :: r => split r end.
Proof.
  induction p as [| c p IH]; [done |]. cbn. case_if; [done |].
  destruct (span_name p) as [e r]. cbn in *. by rewrite IH.
Qed.

Lemma span_head p : match (span_name p).2 with [] => True | c :: _ => c = slash end.
Proof.
  induction p as [| c p IH]; [done |]. cbn. case_if; zbool; [done |]. by destruct (span_name p).
Qed.

Lemma elements_span p :
  p <> [] -> hd 0 p <> slash ->
  elements p = (span_name p).1 :: elements (drop_slashes (span_name p).2).
Proof.
  intros Hp Hh. unfold elements at 1. rewrite split_span. destruct p as [| c p]; [done |]. cbn in Hh.
  pose proof (span_head (c :: p)) as Hs. cbn in *. destruct (c =? slash) eqn:E; zbool; [done |].
  destruct (span_name p) as [e r]. cbn in *. rewrite decide_True by done. f_equal.
  destruct r as [| c1 r]; [done |]. subst c1. cbn. change (elements r = elements (drop_slashes r)). by rewrite elements_drop.
Qed.

Lemma drop_slashes_head p : drop_slashes p = [] \/ hd 0 (drop_slashes p) <> slash.
Proof. induction p as [| c p IH]; cbn; [by left |]. case_if; zbool; [done | by right]. Qed.

Lemma length_drop_slashes p : (length (drop_slashes p) <= length p)%nat.
Proof. induction p as [| c p IH]; cbn; [done |]. case_if; cbn; lia. Qed.

Lemma span_app p : (span_name p).1 ++ (span_name p).2 = p.
Proof. induction p as [| c p IH]; cbn; [done |]. case_if; [done |]. destruct (span_name p). cbn in *. congruence. Qed.

(** ** The scans *)

Lemma holds_ext m m' a p :
  (forall b, a <= b <= a + Z.of_nat (length p) -> ld8 m' b = ld8 m b) -> holds m a p -> holds m' a p.
Proof.
  revert a. induction p as [| c p IH]; intros a H; cbn [holds length] in *.
  - intros <-. apply H. lia.
  - intros (H1 & H2 & H3). split_and!; [| done |]; [rewrite H by lia; done |]. apply IH; [| done]. intros. apply H. lia.
Qed.

Lemma holds_app m a e r : holds m a (e ++ r) -> holds m (a + Z.of_nat (length e)) r.
Proof.
  revert a. induction e as [| c e IH]; intros a; cbn [app holds length].
  - by rewrite Z.add_0_r.
  - intros (_ & _ & H). apply IH in H. replace (a + Z.of_nat (S (length e))) with (a + 1 + Z.of_nat (length e)) by lia. done.
Qed.

Lemma holds_nth m a p i : holds m a p -> (i < length p)%nat -> ld8 m (a + Z.of_nat i) = nth i p 0 /\ nth i p 0 <> 0.
Proof.
  revert a i. induction p as [| c p IH]; intros a i H Hi; cbn in Hi; [lia |].
  destruct H as (H1 & H2 & H3). destruct i as [| i]; [by rewrite Z.add_0_r |].
  replace (a + Z.of_nat (S i)) with (a + 1 + Z.of_nat i) by lia. apply IH; [done | lia].
Qed.

Lemma skip_slashes_ok fuel m a p :
  holds m a p -> (length p < fuel)%nat ->
  skip_slashes fuel m a = a + Z.of_nat (length p - length (drop_slashes p)) /\
  holds m (skip_slashes fuel m a) (drop_slashes p).
Proof.
  revert fuel a. induction p as [| c p IH]; intros fuel a H Hf; (destruct fuel as [| fuel]; [cbn in Hf; lia |]);
    cbn [skip_slashes drop_slashes length] in *.
  - rewrite H. change (0 =? slash) with false. cbv iota. split; [lia | done].
  - destruct H as (H1 & H2 & H3). rewrite H1. case_if.
    + destruct (IH fuel (a + 1) H3 ltac:(lia)) as [E1 Hh]. split; [| done].
      rewrite E1. pose proof (length_drop_slashes p). lia.
    + cbn [length]. split; [lia | by split_and!].
Qed.

Lemma skip_name_ok fuel m a p :
  holds m a p -> (length p < fuel)%nat ->
  skip_name fuel m a = a + Z.of_nat (length (span_name p).1) /\ holds m (skip_name fuel m a) (span_name p).2.
Proof.
  revert fuel a. induction p as [| c p IH]; intros fuel a H Hf; (destruct fuel as [| fuel]; [cbn in Hf; lia |]);
    cbn [skip_name span_name length] in *.
  - cbn [holds] in H. rewrite H. change (0 =? slash) with false. cbn. split; [lia | done].
  - pose proof H as (H1 & H2 & H3). rewrite H1. replace (c =? 0) with false by (symmetry; apply Z.eqb_neq; lia).
    destruct (c =? slash) eqn:E; cbn [negb andb].
    + cbn. split; [lia | by split_and!].
    + destruct (IH fuel (a + 1) H3 ltac:(lia)) as [E1 Hh]. destruct (span_name p) as [e r]. cbn in *.
      split; [lia | done].
Qed.

Lemma rd_name_ok n m a l :
  (forall i, (i < length l)%nat -> ld8 m (a + Z.of_nat i) = nth i l 0 /\ nth i l 0 <> 0) ->
  length l = n \/ (length l < n)%nat /\ ld8 m (a + Z.of_nat (length l)) = 0 -> rd_name n m a = l.
Proof.
  revert a l. induction n as [| n IH]; intros a l Hl Hend; cbn [rd_name].
  - destruct l; [done | cbn in Hend; lia].
  - destruct l as [| c l]; cbn [length] in *.
    + rewrite Z.add_0_r in Hend. destruct Hend as [? | [_ ->]]; [lia | done].
    + destruct (Hl 0%nat ltac:(lia)) as [H1 H2]. rewrite Z.add_0_r in H1. cbn in H1, H2.
      replace (ld8 m a =? 0) with false by (symmetry; apply Z.eqb_neq; lia). rewrite H1. f_equal. apply IH.
      * intros i Hi. destruct (Hl (S i) ltac:(lia)) as [H3 H4]. cbn [nth] in H3, H4. split; [| done].
        rewrite <- H3. f_equal. lia.
      * destruct Hend as [? | [? Hz]]; [left; lia | right; split; [lia |]]. rewrite <- Hz. f_equal. lia.
Qed.

Definition name_end (name : Z) : Z := name + DIRSIZ.

(** Where the array [name] is does not overlap the path. *)
Definition apart (name path : Z) (p : bytes) : Prop :=
  name_end name <= path \/ path + Z.of_nat (length p) < name.

Lemma skipelem_ok fuel m path name p :
  holds m path p -> (length p < fuel)%nat -> apart name path p ->
  match drop_slashes p with
  | [] => skipelem fuel m path name = (None, m)
  | p1 => let '(e, q) := span_name p1 in let r := drop_slashes q in
      exists m', skipelem fuel m path name = (Some (path + Z.of_nat (length p - length r)), m') /\
        holds m' (path + Z.of_nat (length p - length r)) r /\ rd_name (Z.to_nat DIRSIZ) m' name = take 14 e /\
        same_outside name (name_end name) m m'
  end.
Proof.
  intros Hp Hf Ha. unfold skipelem. destruct (skip_slashes_ok fuel m path p Hp Hf) as [E1 H1].
  pose proof (length_drop_slashes p) as Hl1. destruct (drop_slashes p) as [| c p1] eqn:Ed.
  { cbn in H1. by rewrite H1. }
  set (p2 := c :: p1) in *. rewrite E1 in *. set (s := path + Z.of_nat (length p - length p2)) in *.
  assert (Hc : (ld8 m s =? 0) = false) by (destruct H1 as (Hc & Hc0 & _); apply Z.eqb_neq; congruence). rewrite Hc.
  destruct (skip_name_ok fuel m s p2 H1 ltac:(lia)) as [E2 H2]. pose proof (span_app p2) as Happ.
  destruct (span_name p2) as [e q] eqn:Esp. cbn [Datatypes.fst snd] in *. rewrite E2 in *.
  replace (s + Z.of_nat (length e) - s) with (Z.of_nat (length e)) by lia.
  assert (Hle : (length e + length q = length p2)%nat) by (rewrite <- Happ, length_app; lia).
  set (m' := if DIRSIZ <=? _ then _ else _).
  assert (Hm' : forall b, ld8 m' b =
    if decide (name <= b < name + Z.min 14 (Z.of_nat (length e))) then ld8 m (s + (b - name))
    else if decide (b = name + Z.of_nat (length e) /\ (length e < 14)%nat) then 0 else ld8 m b).
  { intros b. subst m'. change DIRSIZ with 14. case_if; zbool.
    - rewrite ld8_memmove by lia. repeat case_decide; try lia; done.
    - rewrite ld8_st8, ld8_memmove by lia. repeat case_decide; try lia; try done. }
  assert (Hout : same_outside name (name_end name) m m').
  { intros b Hb. unfold name_end in Hb. change DIRSIZ with 14 in Hb. rewrite Hm'. by repeat case_decide; try lia. }
  assert (Hq : holds m' (s + Z.of_nat (length e)) q).
  { eapply holds_ext; [| exact H2]. intros b Hb. apply Hout. unfold apart in Ha. lia. }
  destruct (skip_slashes_ok fuel m' _ q Hq ltac:(lia)) as [E3 H3]. pose proof (length_drop_slashes q).
  exists m'. replace (path + Z.of_nat (length p - length (drop_slashes q))) with (skip_slashes fuel m' (s + Z.of_nat (length e))) by lia.
  split_and!; try done. change (Z.to_nat DIRSIZ) with 14%nat.
  assert (He : holds m s (e ++ q)) by (by rewrite Happ). apply rd_name_ok.
  - intros i Hi. rewrite length_take in Hi. rewrite Hm', decide_True by lia.
    destruct (holds_nth m s (e ++ q) i He) as [Hn1 Hn2]; [rewrite length_app; lia |].
    rewrite app_nth1 in Hn1, Hn2 by lia. rewrite nth_firstn, (proj2 (Nat.ltb_lt _ _)) by lia. replace (s + (name + Z.of_nat i - name)) with (s + Z.of_nat i) by lia. done.
  - rewrite length_take. destruct (decide (length e < 14)%nat); [right | left; lia]. split; [lia |].
    rewrite Hm', decide_False, decide_True by lia. done.
Qed.

(** C38: Repeated [skipelem] splits a path into its elements: the names that
    [namex] looks up are, in order, the non-empty pieces of the path between
    slashes, each cut to DIRSIZ bytes, whatever leading, repeated or trailing
    slashes the path has, and the loop ends after the last of them. *)
Theorem skipelem_splits n fuel m path name p :
  holds m path p -> (length p < fuel)%nat -> (length p < n)%nat -> apart name path p ->
  path_names n fuel m path name = map (take (Z.to_nat DIRSIZ)) (elements p).
Proof.
  revert m path p. induction n as [| n IH]; intros m path p Hp Hf Hn Ha; [lia |]. cbn [path_names]. pose proof (skipelem_ok fuel m path name p Hp Hf Ha) as Hs.
  rewrite <- (elements_drop p). pose proof (length_drop_slashes p). destruct (drop_slashes_head p) as [E | Hh].
  { rewrite E in *. by rewrite Hs. }
  destruct (drop_slashes p) as [| c p1] eqn:Ed; [by rewrite Hs |]. rewrite elements_span by done.
  pose proof (span_app (c :: p1)) as Happ. apply (f_equal length) in Happ. rewrite length_app in Happ.
  assert (He : (span_name (c :: p1)).1 <> []).
  { cbn in Hh |- *. destruct (c =? slash) eqn:E; zbool; [done |]. by destruct (span_name p1). }
  destruct (span_name (c :: p1)) as [e q] eqn:Esp. cbn [Datatypes.fst snd] in *.
  pose proof (length_drop_slashes q). destruct e as [| c' e]; [done |]. cbn [length] in Happ, H.
  destruct Hs as (m' & -> & Hr & -> & _). cbn [map]. f_equal.
  apply IH; [done | lia | lia | unfold apart in *; lia].
Qed.

Definition wit_path : bytes := cstr "//usr/a_very_long_file_name//x/".

Lemma skipelem_splits_witness :
  let m := wrbytes ∅ 100 (wit_path ++ [0]) in
  path_names 128 128 m 100 300 = [cstr "usr"; cstr "a_very_long_fi"; cstr "x"].
Proof.
  intros m. rewrite (skipelem_splits 128 128 m 100 300 wit_path).
  - vm_compute. reflexivity.
  - repeat (split; [vm_compute; reflexivity | split; [vm_compute; discriminate |]]). vm_compute. reflexivity.
  - cbn. lia.
  - cbn. lia.
  - right. cbn. lia.
Defined.
