(* ===== verification/FsInode.v ===== *)
(** * Inodes: their copy on disk and their table in memory *)

From S2P Require Import Prelude Riscv Spinlock Sleeplock Kalloc Block BufCache TxnDisk Fs FsBlocks.

(** ** The bytes of a [struct dinode] *)

Record dinode_ok (i : dinode) : Prop := {
  do_type : - 2 ^ 15 <= d_type i < 2 ^ 15;
  do_major : - 2 ^ 15 <= d_major i < 2 ^ 15;
  do_minor : - 2 ^ 15 <= d_minor i < 2 ^ 15;
  do_nlink : - 2 ^ 15 <= d_nlink i < 2 ^ 15;
  do_size : 0 <= d_size i < 2 ^ 32;
  do_addrs : length (d_addrs i) = 13%nat;
  do_addr : Forall (fun a => 0 <= a < 2 ^ 32) (d_addrs i);
}.

Lemma length_put_addrs l : forall d o, length (put_addrs l d o) = length d.
Proof. induction l as [| a l IH]; intros d o; cbn; [done |]. by rewrite IH, length_put32. Qed.

Lemma getn_put_addrs l : forall d o o' k,
  o' + Z.of_nat k <= o \/ o + 4 * Z.of_nat (length l) <= o' -> getn (put_addrs l d o) o' k = getn d o' k.
Proof.
  induction l as [| a l IH]; intros d o o' k H; cbn [put_addrs length] in *; [done |].
  rewrite IH by lia. apply getn_putn_ne. lia.
Qed.

Lemma get_addrs_ext n : forall d d' o,
  (forall o', o <= o' -> o' + 4 <= o + 4 * Z.of_nat n -> get32 d o' = get32 d' o') -> get_addrs n d o = get_addrs n d' o.
Proof.
  induction n as [| n IH]; intros d d' o H; cbn [get_addrs]; [done |]. f_equal; [apply H; lia |].
  apply IH. intros. apply H; lia.
Qed.

Lemma get_put_addrs l : forall d o,
  0 <= o -> o + 4 * Z.of_nat (length l) <= Z.of_nat (length d) -> Forall (fun a => 0 <= a < 2 ^ 32) l ->
  get_addrs (length l) (put_addrs l d o) o = l.
Proof.
  induction l as [| a l IH]; intros d o Ho Hl Hf; cbn [put_addrs get_addrs length] in *; [done |].
  apply Forall_cons in Hf as [Ha Hf]. f_equal.
  - unfold get32. rewrite getn_put_addrs by lia. fold (get32 (put32 d o a) o).
    rewrite get32_put32_eq by lia. by apply u32_small.
  - apply IH; [lia | rewrite length_put32; lia | done].
Qed.

Lemma length_put_dinode d o i : length (put_dinode d o i) = length d.
Proof. unfold put_dinode. by rewrite length_put_addrs, length_put32, !length_put16. Qed.

Lemma i16_u16 z : - 2 ^ 15 <= z < 2 ^ 15 -> i16 (u16 z) = z.
Proof.
  intros H. unfold i16, u16. rewrite Z.add_mod_idemp_l by lia. rewrite Z.mod_small; lia.
Qed.

(** Reading one field back through the later stores. *)
Ltac field_back :=
  unfold get16, get32;
  repeat (rewrite getn_put_addrs by lia);
  unfold put16, put32;
  repeat (rewrite getn_putn_ne by lia);
  rewrite getn_putn_eq by (rewrite ?length_putn; lia).

Lemma get_put_dinode d o i :
  dinode_ok i -> 0 <= o -> o + 64 <= Z.of_nat (length d) -> get_dinode (put_dinode d o i) o = i.
Proof.
  intros [Ht Hma Hmi Hn Hs Hl Ha] Ho Hd. destruct i as [t ma mi n z addrs]. cbn in *.
  unfold get_dinode, put_dinode. cbn [d_type d_major d_minor d_nlink d_size d_addrs]. f_equal.
  1-4: field_back; by apply i16_u16.
  - field_back. change (256 ^ Z.of_nat 4) with (2 ^ 32). by apply Z.mod_small.
  - rewrite <- Hl. apply get_put_addrs; [lia | rewrite length_put32, !length_put16; lia | done].
Qed.

Lemma getn_put_dinode d o i o' k :
  length (d_addrs i) = 13%nat -> o' + Z.of_nat k <= o \/ o + 64 <= o' ->
  getn (put_dinode d o i) o' k = getn d o' k.
Proof.
  intros Hl H. unfold put_dinode, put16, put32. rewrite getn_put_addrs by lia.
  by repeat (rewrite getn_putn_ne by lia).
Qed.

(** The other inodes of the block are left alone. *)
Lemma get_put_dinode_ne d o o' i :
  length (d_addrs i) = 13%nat -> o' + 64 <= o \/ o + 64 <= o' ->
  get_dinode (put_dinode d o i) o' = get_dinode d o'.
Proof.
  intros Hl H. unfold get_dinode, get16, get32. rewrite !getn_put_dinode by (done || lia). f_equal.
  apply get_addrs_ext. intros. unfold get32. apply getn_put_dinode; [done | lia].
Qed.

Lemma dip_range inum : 0 <= dip inum /\ dip inum + 64 <= 1024 /\ dip inum = 64 * (inum mod 16).
Proof. unfold dip. change DINODE_SIZE with 64. change IPB with 16. dlia. Qed.

(** ** [iupdate] and [ilock] *)

Section inode.
Context {T : Type} `{TD : TxnDisk T} `{L : Layout} (lo hi : Z) (mypid : Z).

(** Where inode [inum] is on disk. *)
Definition disk_inode (sb : superblock) (v : bview) (inum : Z) : dinode :=
  get_dinode (v_look v (IBLOCK inum sb)) (dip inum).

(** A table entry for inode [inum] of the disk, with its block in reach. *)
Record entry_ok (s : fsys T) (v : bview) (ip : Z) : Prop := {
  eo_range : 0 <= ip < Z.of_nat (length (f_inode s));
  eo_dev : i_dev (iat s ip) = ROOTDEV;
  eo_home : home lo hi (IBLOCK (i_inum (iat s ip)) (f_sb s));
  eo_free : free_block v (IBLOCK (i_inum (iat s ip)) (f_sb s));
  eo_block : length (v_look v (IBLOCK (i_inum (iat s ip)) (f_sb s))) = 1024%nat;
}.

Definition v_iupdate (sb : superblock) (v : bview) (inum : Z) (d : dinode) : bview :=
  v_log (IBLOCK inum sb) (put_dinode (v_look v (IBLOCK inum sb)) (dip inum) d) v.

Lemma iupdate_ok s v ip :
  tsim lo hi (f_disk s) v -> entry_ok s v ip -> roomy 1 v -> budget lo hi 1 v ->
  exists t', iupdate ip s = Ret tt (put_disk t' s) /\
    tsim lo hi t' (v_iupdate (f_sb s) v (i_inum (iat s ip)) (i_d (iat s ip))).
Proof.
  intros Ht [H1 H2 H3 H4 H5] Hr Hb. unfold iupdate. rewrite (kbind_of (kgets _) _ _ _ _ eq_refl).
  unfold get_inode. rewrite (kbind_of (kgets _) _ _ _ _ eq_refl), H2.
  destruct (t_open lo hi _ v _ Ht (home_range lo hi _ H3) H4 Hr) as (bp & t1 & E1 & Ho & _ & Ht1 & Ed). dstep E1.
  rewrite bdata_step. cbn [put_disk f_disk]. rewrite Ed.
  edestruct (log_release lo hi (kret tt) (put_disk t1 s) v bp) as (t2 & Ht2 & E2 & _); [exact Ht1 | done | done | done |].
  exists t2. split; [exact E2 | exact Ht2].
Qed.

Lemma v_iupdate_same sb v inum d :
  dinode_ok d -> length (v_look v (IBLOCK inum sb)) = 1024%nat -> disk_inode sb (v_iupdate sb v inum d) inum = d.
Proof.
  intros Hd Hl. unfold disk_inode, v_iupdate. cbn. rewrite bupd_eq. destruct (dip_range inum).
  apply get_put_dinode; [done | lia | rewrite Hl; lia].
Qed.

Lemma v_iupdate_other sb v inum inum' d :
  dinode_ok d -> 0 <= inum -> 0 <= inum' -> inum <> inum' ->
  0 <= sb_inodestart sb -> inum / 16 + sb_inodestart sb < 2 ^ 32 -> inum' / 16 + sb_inodestart sb < 2 ^ 32 ->
  disk_inode sb (v_iupdate sb v inum d) inum' = disk_inode sb v inum'.
Proof.
  intros Hd H1 H2 Hne Hs Hi Hi'. unfold disk_inode, v_iupdate. cbn.
  destruct (decide (IBLOCK inum' sb = IBLOCK inum sb)) as [E |]; [| by rewrite bupd_ne].
  rewrite E, bupd_eq. apply get_put_dinode_ne; [apply (do_addrs _ Hd) |].
  unfold IBLOCK in E. change IPB with 16 in E. rewrite !u32_small in E by (split; [dlia | done]).
  destruct (dip_range inum) as (_ & _ & ->), (dip_range inum') as (_ & _ & ->). dlia.
Qed.

(** An unlocked inode is locked by one call. *)
Lemma ip_acquiresleep_free (s : fsys T) ip :
  inode_lk ip ∉ f_held s -> locked (i_lock (iat s ip)) = 0 ->
  ip_acquiresleep mypid ip s = Ret tt (ip_put ip (Sleeplock 1 mypid) s).
Proof.
  intros Hl Hf. unfold ip_acquiresleep, acquiresleep. erewrite kbind_of by (by apply zoom_acquire).
  rewrite (kbind_of (kgets _) _ _ _ _ eq_refl). unfold ip_get, iat in *. cbn. rewrite Hf. cbn.
  erewrite zoom_release; [reflexivity | exact Hl | done].
Qed.

(** Table lookups after an update of entry [ip]. *)
Lemma iat_set ip f (s : fsys T) :
  0 <= ip < Z.of_nat (length (f_inode s)) -> iat (set_itable (updZ (f_inode s) ip f) s) ip = f.
Proof. intros H. unfold iat, set_itable. cbn. by apply nthZ_updZ_eq. Qed.

(** [ilock] of an entry that has to be read from disk. *)
Lemma ilock_load s v ip :
  tsim lo hi (f_disk s) v -> entry_ok s v ip -> roomy 1 v ->
  1 <= i_ref (iat s ip) -> i_valid (iat s ip) = false -> locked (i_lock (iat s ip)) = 0 -> inode_lk ip ∉ f_held s ->
  let d := disk_inode (f_sb s) v (i_inum (iat s ip)) in
  let e := Inode (i_dev (iat s ip)) (i_inum (iat s ip)) (i_ref (iat s ip)) (Sleeplock 1 mypid) true d in
  if d_type d =? 0 then ilock mypid ip s = Panic "ilock: no type"
  else exists t', ilock mypid ip s = Ret tt (put_disk t' (set_itable (updZ (f_inode s) ip e) s)) /\ tsim lo hi t' v.
Proof.
  intros Ht [H1 H2 H3 H4 H5] Hr Href Hv Hlk Hh d e. unfold ilock, get_inode.
  assert (Hcond : ((ip =? null) || (i_ref (iat s ip) <? 1))%bool = false).
  { apply orb_false_iff. unfold null. split; [apply Z.eqb_neq | apply Z.ltb_ge]; lia. }
  rewrite (kbind_of (kgets _) _ _ _ _ eq_refl). rewrite Hcond.
  rewrite (kbind_of _ _ _ _ _ (ip_acquiresleep_free s ip Hh Hlk)).
  rewrite (kbind_of (kgets _) _ _ _ _ eq_refl). unfold ip_put. rewrite iat_set by done. cbn [set_lock i_valid]. rewrite Hv. cbn [negb].
  rewrite (kbind_of (kgets _) _ _ _ _ eq_refl). cbn [set_itable f_sb i_dev i_inum set_lock]. rewrite H2.
  destruct (t_open lo hi _ v _ Ht (home_range lo hi _ H3) H4 Hr) as (bp & t1 & E1 & Ho & Hk & Ht1 & Ed). dstep E1.
  rewrite bdata_step. cbn [put_disk f_disk]. rewrite Ed. fold (disk_inode (f_sb s) v (i_inum (iat s ip))). fold d.
  unfold upd_d, upd_inode. rewrite (kbind_of (kmod _) _ _ tt _ eq_refl).
  destruct (t_close lo hi t1 v bp _ Ht1 Ho Hk) as (t2 & E2 & Ht2). dstep E2.
  rewrite (kbind_of (kmod _) _ _ tt _ eq_refl), (kbind_of (kgets _) _ _ _ _ eq_refl).
  unfold put_disk, set_itable, iat. cbn [f_inode f_sb f_disk f_pm f_msgs f_held f_woken].
  rewrite !nthZ_updZ_eq by (rewrite ?length_updZ; done). cbn [set_valid set_d set_lock i_d i_dev i_inum i_ref i_lock i_valid].
  destruct (d_type d =? 0); [done |]. exists t2. split; [| done].
  unfold kret, e. by rewrite !updZ_updZ.
Qed.

(** C19: What [iupdate] writes, [ilock] reads: when the table entry has been
    recycled in between and its fields are stale, locking the inode again
    restores every field that [iupdate] saved, and every other inode on the
    disk still has the contents it had. *)
Theorem iupdate_ilock s v ip :
  let i := iat s ip in let sb := f_sb s in
  tsim lo hi (f_disk s) v -> entry_ok s v ip -> roomy 2 v -> budget lo hi 1 v ->
  dinode_ok (i_d i) -> d_type (i_d i) <> 0 -> inode_lk ip ∉ f_held s ->
  0 <= sb_inodestart sb -> 0 <= i_inum i -> i_inum i / IPB + sb_inodestart sb < 2 ^ 32 ->
  exists t1 v1, iupdate ip s = Ret tt (put_disk t1 s) /\ tsim lo hi t1 v1 /\
    (forall j, 0 <= j -> j <> i_inum i -> j / IPB + sb_inodestart sb < 2 ^ 32 -> disk_inode sb v1 j = disk_inode sb v j) /\
    forall ref stale, 1 <= ref ->
    let s1 := set_itable (updZ (f_inode s) ip (Inode (i_dev i) (i_inum i) ref (Sleeplock 0 0) false stale)) (put_disk t1 s) in
    exists s2, ilock mypid ip s1 = Ret tt s2 /\ i_d (iat s2 ip) = i_d i /\ i_valid (iat s2 ip) = true /\
      i_lock (iat s2 ip) = Sleeplock 1 mypid /\ i_ref (iat s2 ip) = ref.
Proof.
  intros i sb Ht He Hr Hb Hd Hty Hlk Hs Hn Hblk. change IPB with 16 in *. pose proof He as [H1 H2 H3 H4 H5].
  destruct (iupdate_ok s v ip Ht He (roomy_weaken 2 1 v ltac:(lia) Hr) Hb) as (t1 & E1 & Ht1).
  exists t1, (v_iupdate sb v (i_inum i) (i_d i)). split_and!; [exact E1 | exact Ht1 | |].
  { intros j Hj Hne Hjb. by apply v_iupdate_other. }
  intros ref stale Href s1. assert (Hi : iat s1 ip = Inode (i_dev i) (i_inum i) ref (Sleeplock 0 0) false stale).
  { unfold s1. unfold iat, set_itable. cbn. by apply nthZ_updZ_eq. }
  assert (He1 : entry_ok s1 (v_iupdate sb v (i_inum i) (i_d i)) ip).
  { split; rewrite ?Hi; try done; [cbn; by rewrite length_updZ |]. cbn. by rewrite bupd_eq, length_put_dinode. }
  pose proof (ilock_load s1 _ ip Ht1 He1) as Hil. rewrite Hi in Hil. cbv zeta in Hil. cbn [i_dev i_inum i_ref i_lock i_valid locked] in Hil.
  change (f_sb s1) with sb in Hil. rewrite v_iupdate_same in Hil by done.
  fold i in Hil. rewrite (proj2 (Z.eqb_neq _ _) Hty) in Hil.
  destruct Hil as (t2 & E2 & _); [apply roomy_log; by eapply roomy_weaken; [| exact Hr] | done.. |].
  eexists. split; [exact E2 |]. change (f_inode (put_disk t1 s)) with (f_inode s). unfold iat, put_disk, set_itable, s1. cbn.
  by rewrite !nthZ_updZ_eq by (rewrite ?length_updZ; done).
Qed.
End inode.

(** ** The inode table *)

Definition matches (dev inum : Z) (i : inode) : bool := ((i_dev i =? dev) && (i_inum i =? inum))%bool.

(** The references the table records for an inode. *)
Definition refs (l : list inode) (dev inum : Z) : Z :=
  foldr (fun i r => (if matches dev inum i then i_ref i else 0) + r) 0 l.

(** Reference counts are not negative, and an inode has at most one entry in use. *)
Record table_ok (l : list inode) : Prop := {
  to_ref : forall k, 0 <= i_ref (nthZ inode0 l k);
  to_unique : forall j k, 0 < i_ref (nthZ inode0 l j) -> 0 < i_ref (nthZ inode0 l k) ->
    i_dev (nthZ inode0 l j) = i_dev (nthZ inode0 l k) -> i_inum (nthZ inode0 l j) = i_inum (nthZ inode0 l k) -> j = k;
}.

Lemma iget_scan_ok l : forall k dev inum empty,
  0 <= k ->
  let '(ip, e) := iget_scan l k dev inum empty in
  (ip = null /\ (forall j, 0 <= j < Z.of_nat (length l) -> 0 < i_ref (nthZ inode0 l j) -> matches dev inum (nthZ inode0 l j) = false) /\
     (e = null -> empty = null /\ forall j, 0 <= j < Z.of_nat (length l) -> i_ref (nthZ inode0 l j) <> 0) /\
     (e <> null -> e = empty \/ k <= e < k + Z.of_nat (length l) /\ i_ref (nthZ inode0 l (e - k)) = 0)) \/
  (k <= ip < k + Z.of_nat (length l) /\ 0 < i_ref (nthZ inode0 l (ip - k)) /\ matches dev inum (nthZ inode0 l (ip - k)) = true).
Proof.
  induction l as [| i l IH]; intros k dev inum empty Hk; cbn [iget_scan].
  - left. split_and!; [done | intros; cbn in *; lia | |].
    + intros ->. split; [done |]. intros; cbn in *; lia.
    + by left.
  - destruct ((0 <? i_ref i) && (i_dev i =? dev) && (i_inum i =? inum))%bool eqn:E; cbn [length].
    { right. zbool. rewrite Z.sub_diag, nthZ_hd. unfold matches. split; [lia |]. split; [lia |].
      apply andb_true_iff. split; by apply Z.eqb_eq. }
    set (e0 := if ((empty =? null) && (i_ref i =? 0))%bool then k else empty).
    specialize (IH (k + 1) dev inum e0 ltac:(lia)).
    destruct (iget_scan l (k + 1) dev inum e0) as [ip e].
    destruct IH as [(H1 & H2 & H3 & H4) | (H1 & H2 & H3)].
    + left. split_and!; [done | | |].
      * intros j Hj Hr. destruct (decide (j = 0)) as [-> |].
        -- rewrite nthZ_hd in *. unfold matches. rewrite <- andb_assoc in E. by rewrite (proj2 (Z.ltb_lt _ _) Hr) in E.
        -- rewrite nthZ_cons in * by lia. apply H2; [lia | done].
      * intros He. destruct (H3 He) as [H5 H6]. subst e0. case_if; zbool.
        -- exfalso. unfold null in H5. lia.
        -- split; [done |]. intros j Hj. destruct (decide (j = 0)) as [-> |].
           ++ rewrite nthZ_hd. subst empty. destruct E0; zbool; done.
           ++ rewrite nthZ_cons by lia. apply H6. lia.
      * intros He. destruct (H4 He) as [H5 | (H5 & H6)].
        -- subst e0. case_if; zbool; [| by left]. right. subst. split; [lia |]. by rewrite Z.sub_diag, nthZ_hd.
        -- right. split; [lia |]. rewrite nthZ_cons by lia. by replace (e - k - 1) with (e - (k + 1)) by lia.
    + right. split; [lia |]. rewrite nthZ_cons by lia. by replace (ip - k - 1) with (ip - (k + 1)) by lia.
Qed.

Lemma refs_updZ l : forall k i dev inum,
  0 <= k < Z.of_nat (length l) ->
  refs (updZ l k i) dev inum =
    refs l dev inum - (if matches dev inum (nthZ inode0 l k) then i_ref (nthZ inode0 l k) else 0)
    + (if matches dev inum i then i_ref i else 0).
Proof.
  induction l as [| x l IH]; intros k i dev inum Hk; cbn [length] in Hk; [lia |].
  destruct (decide (k = 0)) as [-> |].
  { rewrite nthZ_hd. change (updZ (x :: l) 0 i) with (i :: l). cbn [refs foldr]. lia. }
  rewrite nthZ_cons by lia.
  replace (updZ (x :: l) k i) with (x :: updZ l (k - 1) i).
  - cbn [refs foldr]. fold (refs (updZ l (k - 1) i) dev inum). fold (refs l dev inum). rewrite IH by lia. lia.
  - unfold updZ. do 2 case_if; zbool; try lia. replace (Z.to_nat k) with (S (Z.to_nat (k - 1))) by lia. done.
Qed.

Lemma refs_nonneg l dev inum : (forall k, 0 <= i_ref (nthZ inode0 l k)) -> 0 <= refs l dev inum.
Proof.
  induction l as [| i l IH]; intros H; cbn [refs foldr]; [lia |]. fold (refs l dev inum).
  pose proof (H 0) as H0. rewrite nthZ_hd in H0.
  assert (0 <= refs l dev inum).
  { apply IH. intros k. destruct (decide (0 <= k)) as [Hk |].
    - specialize (H (k + 1)). rewrite nthZ_cons in H by lia. by replace (k + 1 - 1) with k in H by lia.
    - unfold nthZ. case_if; zbool; [cbn; lia | lia]. }
  case_if; lia.
Qed.

Lemma refs_zero l dev inum :
  (forall k, 0 <= i_ref (nthZ inode0 l k)) ->
  (forall j, 0 <= j < Z.of_nat (length l) -> 0 < i_ref (nthZ inode0 l j) -> matches dev inum (nthZ inode0 l j) = false) ->
  refs l dev inum = 0.
Proof.
  induction l as [| i l IH]; intros Hr H; cbn [refs foldr]; [done |]. fold (refs l dev inum). rewrite IH.
  - pose proof (Hr 0) as H0. pose proof (H 0 ltac:(cbn; lia)) as H1. rewrite nthZ_hd in H0, H1.
    destruct (matches dev inum i) eqn:E; [| lia]. destruct (decide (i_ref i = 0)); [lia |].
    specialize (H1 ltac:(lia)). done.
  - intros k. destruct (decide (0 <= k)) as [Hk |].
    + specialize (Hr (k + 1)). rewrite nthZ_cons in Hr by lia. by replace (k + 1 - 1) with k in Hr by lia.
    + unfold nthZ. case_if; zbool; [cbn; lia | lia].
  - intros j Hj Hp. specialize (H (j + 1) ltac:(cbn; lia)). rewrite nthZ_cons in H by lia.
    replace (j + 1 - 1) with j in H by lia. auto.
Qed.

Lemma matches_true dev inum i : matches dev inum i = true <-> i_dev i = dev /\ i_inum i = inum.
Proof. unfold matches. rewrite andb_true_iff, !Z.eqb_eq. done. Qed.

(** Changing the count of an entry in use, or taking over an unused one. *)
Lemma table_ok_upd l k i :
  table_ok l -> 0 <= k < Z.of_nat (length l) -> 0 <= i_ref i ->
  (forall j, j <> k -> 0 < i_ref (nthZ inode0 l j) -> matches (i_dev i) (i_inum i) (nthZ inode0 l j) = false) ->
  table_ok (updZ l k i).
Proof.
  intros [H1 H2] Hk Hi Hu. split.
  - intros j. rewrite nthZ_updZ by done. by case_if.
  - intros a b. rewrite !nthZ_updZ by done. destruct (a =? k) eqn:Ea, (b =? k) eqn:Eb; zbool; subst; try done; auto.
    + intros _ Hb E3 E4. specialize (Hu b Eb Hb). by rewrite (proj2 (matches_true _ _ _)) in Hu.
    + intros Ha _ E3 E4. specialize (Hu a Ea Ha). by rewrite (proj2 (matches_true _ _ _)) in Hu.
Qed.

Section table.
Context {T : Type} `{TD : TxnDisk T}.

(** C25: [iget] returns the table entry of the inode it is asked for, its
    reference count one higher and no other count changed.  An inode with
    references keeps its entry and the entry's contents; an inode without
    takes over an unused entry, marked not valid.  The table never has two
    entries in use for one inode.  [iget] panics only when every entry is in
    use and none is for this inode. *)
Theorem iget_correct (s : fsys T) dev inum :
  itable_lock ∉ f_held s -> table_ok (f_inode s) ->
  (exists ip l', iget dev inum s = Ret ip (set_itable l' s) /\ table_ok l' /\
     0 <= ip < Z.of_nat (length (f_inode s)) /\
     l' = updZ (f_inode s) ip
       (if decide (0 < refs (f_inode s) dev inum) then set_ref (i_ref (iat s ip) + 1) (iat s ip)
        else Inode dev inum 1 (i_lock (iat s ip)) false (i_d (iat s ip))) /\
     i_dev (nthZ inode0 l' ip) = dev /\ i_inum (nthZ inode0 l' ip) = inum /\
     forall d n, refs l' d n = refs (f_inode s) d n + if decide (d = dev /\ n = inum) then 1 else 0) \/
  (iget dev inum s = Panic "iget: no inodes" /\ refs (f_inode s) dev inum = 0 /\
     forall j, 0 <= j < Z.of_nat (length (f_inode s)) -> 0 < i_ref (iat s j)).
Proof.
  intros Hl Ht. pose proof Ht as [H1 H2]. unfold iget. erewrite kbind_of by (by apply zoom_acquire).
  rewrite (kbind_of kget _ _ _ _ eq_refl). cbn [f_inode lset fsys_locks].
  pose proof (iget_scan_ok (f_inode s) 0 dev inum null ltac:(lia)) as Hs.
  destruct (iget_scan (f_inode s) 0 dev inum null) as [ip e].
  destruct Hs as [(-> & Hno & He & He2) | (Hip & Hp & Hm)].
  - pose proof (refs_zero _ dev inum H1 Hno) as Hz. change (negb (null =? null)) with false. cbv iota.
    destruct (e =? null) eqn:Ee; zbool.
    + right. destruct (He Ee) as [_ Hall]. split_and!; [done | done |]. intros j Hj. specialize (H1 j). specialize (Hall j Hj).
      unfold iat. lia.
    + left. destruct (He2 Ee) as [-> | (Hr & Hz')]; [done |]. rewrite Z.sub_0_r in Hz'.
      exists e. eexists. split; [| split; [| split; [lia | split; [rewrite decide_False by lia; reflexivity |]]]].
      * unfold upd_inode. rewrite (kbind_of (kmod _) _ _ tt _ eq_refl).
        erewrite kbind_of; [reflexivity |]. erewrite zoom_release; [reflexivity | exact Hl | done].
      * apply table_ok_upd; cbn; [done | lia | lia |]. intros j Hj Hp. destruct (decide (0 <= j < Z.of_nat (length (f_inode s)))); [auto |].
        unfold nthZ in Hp. case_if; [cbn in Hp; lia |]. rewrite nth_overflow in Hp by lia. cbn in Hp. lia.
      * unfold iat. rewrite !nthZ_updZ_eq by lia. cbn. split_and!; [done.. |]. intros d n. rewrite refs_updZ by lia.
        cbn [i_ref]. rewrite Hz'. unfold matches. cbn [i_dev i_inum].
        destruct (decide (d = dev /\ n = inum)) as [[-> ->] | Hne].
        -- rewrite !Z.eqb_refl. cbn. case_if; lia.
        -- replace ((dev =? d) && (inum =? n))%bool with false; [case_if; lia |].
           symmetry. apply not_true_iff_false. rewrite andb_true_iff, !Z.eqb_eq. intros [-> ->]. apply Hne. done.
  - left. rewrite Z.sub_0_r in *. rewrite Z.add_0_l in Hip.
    replace (ip =? null) with false by (symmetry; apply Z.eqb_neq; unfold null; lia). cbn [negb].
    apply matches_true in Hm as [Hm1 Hm2].
    assert (Hrefs : 0 < refs (f_inode s) dev inum).
    { pose proof (refs_updZ (f_inode s) ip (set_ref 0 (nthZ inode0 (f_inode s) ip)) dev inum ltac:(lia)) as E.
      rewrite (proj2 (matches_true _ _ _)) in E by done. rewrite (proj2 (matches_true dev inum (set_ref _ _))) in E by done.
      cbn in E. assert (0 <= refs (updZ (f_inode s) ip (set_ref 0 (nthZ inode0 (f_inode s) ip))) dev inum); [| lia].
      apply refs_nonneg. intros k. rewrite nthZ_updZ by lia. case_if; [cbn; lia | done]. }
    exists ip. eexists. split; [| split; [| split; [lia | split; [rewrite decide_True by lia; reflexivity |]]]].
    + unfold upd_inode. rewrite (kbind_of (kmod _) _ _ tt _ eq_refl).
      erewrite kbind_of; [reflexivity |]. erewrite zoom_release; [reflexivity | exact Hl | done].
    + unfold iat. cbn [f_inode]. apply table_ok_upd; cbn; [done | lia | lia |].
      intros j Hj Hpj. apply not_true_iff_false. intros [E1 E2]%matches_true. apply Hj, H2; congruence.
    + unfold iat. rewrite !nthZ_updZ_eq by lia. cbn. split_and!; [done.. |]. intros d n. rewrite refs_updZ by lia.
      unfold matches. cbn [i_dev i_inum i_ref set_ref]. rewrite Hm1, Hm2.
      destruct (decide (d = dev /\ n = inum)) as [[-> ->] | Hne]; [rewrite !Z.eqb_refl; cbn; lia |].
      replace ((dev =? d) && (inum =? n))%bool with false; [lia |].
      symmetry. apply not_true_iff_false. rewrite andb_true_iff, !Z.eqb_eq. intros [-> ->]. by apply Hne.
Qed.
End table.

(** ** Witnesses *)
From S2P Require Import Log BioProofs LogTxn.
From S2P Require Bio.

Definition wit_root_inode : inode :=
  Inode ROOTDEV ROOTINO 1 (Sleeplock 0 0) true (Dinode T_DIR 0 0 1 512 (60 :: replicate 12 0)).
Definition wit_table : list inode := wit_root_inode :: replicate 49 inode0.
Definition wit_fs2 : fsys (lst Bio.bst) := set_itable wit_table wit_fs.

Lemma wit_entry_ok : entry_ok 2 32 wit_fs2 (boot_view wit_disk) 0.
Proof.
  split; [vm_compute; split; [discriminate | reflexivity] | reflexivity | | |].
  - vm_compute. split; [split; [discriminate | reflexivity] | right; discriminate].
  - intros b. cbn. by rewrite lookup_empty.
  - vm_compute. reflexivity.
Qed.

Lemma iupdate_ilock_witness :
  exists t1, iupdate 0 wit_fs2 = Ret tt (put_disk t1 wit_fs2) /\
    exists s2, ilock 7 0 (set_itable (updZ wit_table 0 (Inode 1 1 1 (Sleeplock 0 0) false dinode0)) (put_disk t1 wit_fs2)) = Ret tt s2 /\
      i_d (iat s2 0) = i_d wit_root_inode.
Proof.
  destruct (iupdate_ilock 2 32 7 wit_fs2 (boot_view wit_disk) 0) as (t1 & v1 & E & _ & _ & H).
  - exact (new_txn wit_disk).
  - exact wit_entry_ok.
  - vm_compute. discriminate.
  - vm_compute. discriminate.
  - change (i_d (iat wit_fs2 0)) with (i_d wit_root_inode).
    split; [unfold T_DIR; cbn; unfold T_DIR; lia .. | reflexivity | repeat constructor; lia].
  - vm_compute. discriminate.
  - set_solver.
  - vm_compute. discriminate.
  - vm_compute. discriminate.
  - vm_compute. reflexivity.
  - exists t1. split; [exact E |]. destruct (H 1 dinode0 ltac:(lia)) as (s2 & E2 & Hd & _). exists s2. split; [exact E2 | exact Hd].
Defined.

Lemma wit_table_ok : table_ok wit_table.
Proof.
  assert (Hc : forall k, nthZ inode0 wit_table k = if k =? 0 then wit_root_inode else inode0).
  { intros k. case_if; zbool; [subst; reflexivity |]. destruct (decide (0 < k)).
    - unfold wit_table. rewrite nthZ_cons by lia. unfold nthZ. case_if; [done |]. apply nth_replicate.
    - unfold nthZ. case_if; zbool; [done | lia]. }
  split; [intros k; rewrite Hc; case_if; cbn; lia |]. intros j k. rewrite !Hc.
  destruct (j =? 0) eqn:Ej, (k =? 0) eqn:Ek; zbool; cbn; lia.
Qed.

Lemma iget_correct_witness :
  iget ROOTDEV ROOTINO wit_fs2 =
    Ret 0 (set_itable (updZ wit_table 0 (set_ref 2 wit_root_inode)) wit_fs2) /\
  refs wit_table ROOTDEV ROOTINO = 1 /\
  exists ip l', iget ROOTDEV 5 wit_fs2 = Ret ip (set_itable l' wit_fs2) /\ refs l' ROOTDEV 5 = 1.
Proof.
  split; [vm_compute; reflexivity |]. split; [vm_compute; reflexivity |].
  destruct (iget_correct wit_fs2 ROOTDEV 5 ltac:(set_solver) wit_table_ok)
    as [(ip & l' & E & _ & _ & _ & _ & _ & H) | (_ & _ & H)].
  - exists ip, l'. split; [exact E |]. rewrite H. vm_compute. reflexivity.
  - specialize (H 1 ltac:(cbn; lia)). vm_compute in H. discriminate H.
Defined.
