(* ===== verification/FsFile.v ===== *)
(** * The blocks of a file: bmap

    A file is the twelve direct addresses of its inode, and the addresses in
    the indirect block.  [bmap] of kernel/fs.c finds the address of a block and
    allocates what is missing; a block that has no address yet reads as
    zeros, so that allocating one does not change the file. *)

From S2P Require Import Prelude Riscv Spinlock Sleeplock Kalloc Block BufCache TxnDisk Fs FsBlocks FsInode.

Definition ind_addr (d : dinode) : Z := nthZ 0 (d_addrs d) NDIRECT.

(** Address of block [bn] of the file, 0 if it has none. *)
Definition baddr (d : dinode) (look : Z -> bytes) (bn : Z) : Z :=
  if bn <? NDIRECT then nthZ 0 (d_addrs d) bn
  else if ind_addr d =? 0 then 0 else get_ind (look (ind_addr d)) (bn - NDIRECT).

Definition fblock (d : dinode) (look : Z -> bytes) (bn : Z) : bytes :=
  if baddr d look bn =? 0 then zero_block else look (baddr d look bn).

(** The byte at offset [o]. *)
Definition fbyte (d : dinode) (look : Z -> bytes) (o : Z) : Z := nthZ 0 (fblock d look (o / BSIZE)) (o mod BSIZE).

#[global] Arguments ind_addr : simpl never.
#[global] Arguments baddr : simpl never.
#[global] Arguments fblock : simpl never.
#[global] Arguments fbyte : simpl never.

(** A block behind the bitmap, in use. *)
Record data_block (sb : superblock) (look : Z -> bytes) (a : Z) : Prop := {
  db_range : 0 < a /\ sb_bmapstart sb + sb_size sb / BPB < a < sb_size sb;
  db_used : used sb look a = true;
  db_len : length (look a) = 1024%nat;
}.

(** A consistent file: addresses of distinct data blocks, and no hole below
    its size. *)
Record file_ok (sb : superblock) (d : dinode) (look : Z -> bytes) : Prop := {
  fo_inode : dinode_ok d;
  fo_size : d_size d <= MAXFILE * BSIZE;
  fo_ind : ind_addr d <> 0 -> data_block sb look (ind_addr d);
  fo_blk : forall bn, 0 <= bn < MAXFILE -> baddr d look bn <> 0 -> data_block sb look (baddr d look bn);
  fo_ne : forall bn, 0 <= bn < MAXFILE -> baddr d look bn <> 0 -> baddr d look bn <> ind_addr d;
  fo_inj : forall bn bn', 0 <= bn < MAXFILE -> 0 <= bn' < MAXFILE ->
    baddr d look bn <> 0 -> baddr d look bn = baddr d look bn' -> bn = bn';
  fo_full : forall bn, 0 <= bn -> bn * BSIZE < d_size d -> baddr d look bn <> 0;
}.

(** The inode of a file without contents. *)
Definition empty_inode (d : dinode) : dinode :=
  Dinode (d_type d) (d_major d) (d_minor d) (d_nlink d) 0 (replicate 13 0).

Lemma file_ok_empty sb d look : dinode_ok d -> file_ok sb (empty_inode d) look.
Proof.
  intros []. assert (forall bn, baddr (empty_inode d) look bn = 0) as Hb.
  { intros bn. unfold baddr. case_if; [| done]. unfold nthZ. case_if; [done |]. cbn [empty_inode d_addrs]. apply nth_replicate. }
  split.
  - split; try done. by repeat constructor.
  - done.
  - done.
  - intros bn _. by rewrite Hb.
  - intros bn _. by rewrite Hb.
  - intros bn bn' _ _. by rewrite Hb.
  - intros bn H1 H2. cbn in H2. unfold BSIZE in H2. lia.
Qed.

Definition file_block (d : dinode) (look : Z -> bytes) (a : Z) : Prop :=
  a <> 0 /\ (a = ind_addr d \/ exists bn, 0 <= bn < MAXFILE /\ a = baddr d look bn).

(** The file still has its addresses, what it has got was free, and the blocks
    of nobody else have changed. *)
Record fgrows (sb : superblock) (d : dinode) (look : Z -> bytes) (d' : dinode) (look' : Z -> bytes) : Prop := {
  gr_ok : file_ok sb d' look';
  gr_inode : d' = Dinode (d_type d) (d_major d) (d_minor d) (d_nlink d) (d_size d) (d_addrs d');
  gr_addr : forall bn, 0 <= bn < MAXFILE -> baddr d look bn <> 0 -> baddr d' look' bn = baddr d look bn;
  gr_ind : ind_addr d <> 0 -> ind_addr d' = ind_addr d;
  gr_used : forall a, 0 <= a < sb_size sb -> used sb look a = true -> used sb look' a = true;
  gr_fresh : forall a, file_block d' look' a -> file_block d look a \/ used sb look a = false;
  gr_frame : forall a, 0 <= a < sb_size sb -> used sb look a = true -> ~ bmap_block sb a -> ~ file_block d look a ->
    look' a = look a;
}.

Lemma fgrows_refl sb d look : file_ok sb d look -> fgrows sb d look d look.
Proof. intros H. split; try done; [by destruct d | by left]. Qed.

Lemma file_block_data sb d look a : file_ok sb d look -> file_block d look a -> data_block sb look a.
Proof.
  intros H [Hne [-> | (bn & Hbn & ->)]]; [by apply (fo_ind _ _ _ H) | by apply (fo_blk _ _ _ H)].
Qed.

Lemma fgrows_trans sb d look d1 look1 d2 look2 :
  fgrows sb d look d1 look1 -> fgrows sb d1 look1 d2 look2 -> fgrows sb d look d2 look2.
Proof.
  intros [A1 A2 A3 A4 A5 A6 A7] [B1 B2 B3 B4 B5 B6 B7]. split; try done.
  - rewrite B2, A2. done.
  - intros bn Hbn Hne. rewrite B3, A3; try done. by rewrite A3.
  - intros Hne. rewrite B4, A4; try done. by rewrite A4.
  - eauto.
  - intros a Ha. destruct (B6 a Ha) as [Hf | Hu]; [by apply A6 |].
    right. destruct (used sb look a) eqn:E; [| done].
    destruct (file_block_data _ _ _ _ B1 Ha) as [Hr _ _].
    rewrite (A5 a ltac:(lia) E) in Hu. done.
  - intros a Hr Hu Hb Hf. rewrite B7, A7; try done; [by apply A5 |].
    intros Hf1. destruct (A6 a Hf1) as [| Hu']; [done | congruence].
Qed.

(** ** One more block *)

(** The addresses of [d'] are those of [d] and, in one place where there was
    none, [b]: a block that was free and is now in use and zero. *)
Record adds (sb : superblock) (b : Z) (d : dinode) (look : Z -> bytes) (d' : dinode) (look' : Z -> bytes) : Prop := {
  ad_new : 0 < b /\ sb_bmapstart sb + sb_size sb / BPB < b < sb_size sb /\ used sb look b = false;
  ad_zero : look' b = zero_block;
  ad_used : forall a, 0 <= a < sb_size sb -> used sb look' a = ((a =? b) || used sb look a)%bool;
  ad_inode : dinode_ok d' /\ d' = Dinode (d_type d) (d_major d) (d_minor d) (d_nlink d) (d_size d) (d_addrs d');
  ad_ind : ind_addr d' = ind_addr d \/
    (ind_addr d = 0 /\ ind_addr d' = b /\ forall bn, 0 <= bn < MAXFILE -> baddr d' look' bn = baddr d look bn);
  ad_addr : forall bn, 0 <= bn < MAXFILE ->
    baddr d' look' bn = baddr d look bn \/
    (baddr d look bn = 0 /\ baddr d' look' bn = b /\ ind_addr d' = ind_addr d /\
     forall j, 0 <= j < MAXFILE -> j <> bn -> baddr d' look' j = baddr d look j);
  ad_len : ind_addr d <> 0 -> length (look' (ind_addr d)) = 1024%nat;
  ad_look : forall a, 0 <= a < sb_size sb -> used sb look a = true -> ~ bmap_block sb a ->
    (a = ind_addr d -> a = 0) -> look' a = look a;
}.

Lemma data_not_bmap sb look a : data_block sb look a -> ~ bmap_block sb a.
Proof. intros [] []. lia. Qed.

Section adds.
Context (sb : superblock) (b : Z) (d : dinode) (look : Z -> bytes) (d' : dinode) (look' : Z -> bytes).
Hypothesis F : file_ok sb d look.
Hypothesis A : adds sb b d look d' look'.

Lemma adds_old a : data_block sb look a -> a <> b /\ data_block sb look' a /\ (a <> ind_addr d -> look' a = look a).
Proof.
  intros H. pose proof H as [H1 H2 H3]. destruct A as [(B0 & B1 & B2) A2 A3 _ _ _ A7 A8].
  split; [intros ->; congruence |]. assert (a <> ind_addr d -> look' a = look a) as Hl.
  { intros Hne. apply A8; try done; [lia | by eapply data_not_bmap]. }
  split; [| done]. split; [done | rewrite A3, H2 by lia; by rewrite orb_true_r |].
  destruct (decide (a = ind_addr d)) as [-> | Hne]; [apply A7; lia | by rewrite Hl].
Qed.

Lemma adds_new : b <> 0 /\ data_block sb look' b.
Proof.
  destruct A as [(B0 & B1 & B2) A2 A3 _ _ _ A7 A8]. split.
  - lia.
  - split; [done | rewrite A3 by lia; by rewrite Z.eqb_refl | by rewrite A2].
Qed.

Lemma adds_file_ok : file_ok sb d' look'.
Proof.
  destruct A as [(B0 & B1 & B2) A2 A3 [A4 A4'] A5 A6 A7 A8].
  pose proof adds_new as [Hb0 Hbn]. split.
  - done.
  - rewrite A4'. apply (fo_size _ _ _ F).
  - intros Hne. destruct A5 as [E | (_ & -> & _)]; [| done]. rewrite E in *. by apply adds_old, (fo_ind _ _ _ F).
  - intros bn Hr Hne. destruct (A6 bn Hr) as [E | (_ & -> & _)]; [| done]. rewrite E in *. by apply adds_old, (fo_blk _ _ _ F).
  - intros bn Hr Hne. destruct (A6 bn Hr) as [E | (_ & -> & -> & _)].
    + rewrite E in *. pose proof (fo_blk _ _ _ F bn Hr Hne) as Hd.
      destruct A5 as [-> | (_ & -> & _)]; [by apply (fo_ne _ _ _ F) | by apply adds_old].
    + intros Eb. destruct (adds_old (ind_addr d)) as [Hx _]; [apply (fo_ind _ _ _ F) |]; congruence.
  - intros bn bn' Hr Hr' Hne Heq. destruct (A6 bn Hr) as [E | (_ & E & _ & Ho)], (A6 bn' Hr') as [E' | (_ & E' & _ & Ho')].
    + rewrite E, E' in *. by apply (fo_inj _ _ _ F).
    + rewrite E, E' in *. destruct (adds_old _ (fo_blk _ _ _ F bn Hr Hne)). congruence.
    + destruct (decide (bn' = bn)) as [| Hx]; [done |]. rewrite (Ho bn') in * by done.
      destruct (adds_old (baddr d look bn')) as [? _]; [apply (fo_blk _ _ _ F); congruence | congruence].
    + destruct (decide (bn' = bn)) as [| Hx]; [done |]. rewrite (Ho bn') in * by done.
      destruct (adds_old (baddr d look bn')) as [? _]; [apply (fo_blk _ _ _ F); congruence | congruence].
  - intros bn Hr Hlt. rewrite A4' in Hlt. cbn in Hlt. pose proof (fo_size _ _ _ F).
    assert (0 <= bn < MAXFILE) as Hbn' by (unfold BSIZE in *; lia).
    pose proof (fo_full _ _ _ F bn Hr Hlt). destruct (A6 bn Hbn') as [-> | (_ & -> & _)]; done.
Qed.

Lemma adds_fblock bn : 0 <= bn < MAXFILE -> fblock d' look' bn = fblock d look bn.
Proof.
  intros Hbn. destruct adds_new as [Hb0 _]. unfold fblock. destruct (ad_addr _ _ _ _ _ _ A bn Hbn) as [-> | (-> & -> & _)].
  - case_if; [done |]. zbool. apply adds_old; [by apply (fo_blk _ _ _ F) | by apply (fo_ne _ _ _ F)].
  - rewrite (proj2 (Z.eqb_neq _ _) Hb0). apply (ad_zero _ _ _ _ _ _ A).
Qed.

Lemma adds_grows : fgrows sb d look d' look'.
Proof.
  destruct adds_new as [Hb0 _]. pose proof A as [(B0 & B1 & B2) A2 A3 [A4 A4'] A5 A6 A7 A8].
  split; try done.
  - apply adds_file_ok.
  - intros bn Hbn Hne. destruct (A6 bn Hbn) as [| (? & _)]; congruence.
  - intros Hne. destruct A5 as [| (? & _)]; congruence.
  - intros a Ha Hu. rewrite A3, Hu by done. by rewrite orb_true_r.
  - intros a [Hne [Ha | (bn & Hbn & Ha)]].
    + destruct A5 as [E | (_ & E & _)]; [left; split; [done | left; congruence] | right; congruence].
    + destruct (A6 bn Hbn) as [E | (_ & E & _)]; [left; split; [done | right; exists bn; split; congruence] | right; congruence].
  - intros a Ha Hu Hnb Hnf. apply A8; try done. intros E. destruct (decide (a = 0)); [done |]. destruct Hnf. split; [done | by left].
Qed.
End adds.

Lemma getn_zero n : forall o, getn zero_block o n = 0.
Proof.
  induction n as [| n IH]; intros o; cbn; [done |]. rewrite IH. unfold nthZ, zero_block.
  case_if; [done |]. by rewrite nth_replicate.
Qed.

Lemma ind_set_addr k b d : 0 <= k < NDIRECT -> ind_addr (set_addr k b d) = ind_addr d.
Proof. intros H. unfold ind_addr. cbn [set_addr d_addrs]. apply nthZ_updZ_ne. lia. Qed.

Section slots.
Context (lo hi : Z) (sb : superblock) (b : Z) (d : dinode) (v : bview).
Hypothesis S : sb_ok lo hi sb.
Hypothesis M : map_ok sb v.
Hypothesis F : file_ok sb d (v_look v).
Hypothesis B : 0 < b /\ sb_bmapstart sb + sb_size sb / BPB < b < sb_size sb /\ used sb (v_look v) b = false.

Lemma dinode_set_addr k : 0 <= k <= NDIRECT -> dinode_ok (set_addr k b d).
Proof.
  intros Hk. destruct (fo_inode _ _ _ F) as [D1 D2 D3 D4 D5 D6 D7]. pose proof (sk_size _ _ _ S).
  split; try done; cbn; [by rewrite length_updZ |].
  unfold updZ. case_if; [done |]. apply Forall_insert; [done | lia].
Qed.

Let look := v_look v.
Let look' := v_look (v_alloc sb b v).

Lemma alloc_look a :
  0 <= a < sb_size sb -> used sb look a = true -> ~ bmap_block sb a -> look' a = look a.
Proof.
  intros Ha Hu Hnb. destruct (alloc_view lo hi sb b v S M ltac:(lia) ltac:(apply B)) as (_ & _ & _ & _ & V5).
  apply V5; [| done]. intros ->. destruct B as (_ & _ & ?). unfold look in Hu. congruence.
Qed.

Lemma alloc_ind : ind_addr d <> 0 -> look' (ind_addr d) = look (ind_addr d).
Proof.
  intros Hne. pose proof (fo_ind _ _ _ F Hne) as Hd. pose proof Hd as [H1 H2 _].
  apply alloc_look; [lia | done | by eapply data_not_bmap].
Qed.

(** A direct address. *)
Lemma baddr_direct k bn :
  0 <= k < NDIRECT -> 0 <= bn -> baddr (set_addr k b d) look' bn = if bn =? k then b else baddr d look bn.
Proof.
  intros Hk Hbn. pose proof (do_addrs _ (fo_inode _ _ _ F)) as D6. unfold baddr. rewrite ind_set_addr by done.
  cbn [set_addr d_addrs]. unfold NDIRECT in *. destruct (bn <? 12) eqn:E1; zbool.
  - apply nthZ_updZ; lia.
  - replace (bn =? k) with false by lia. case_if; [done |]. zbool. by rewrite alloc_ind.
Qed.

(** The address of the indirect block. *)
Lemma baddr_indirect bn :
  ind_addr d = 0 -> 0 <= bn -> baddr (set_addr NDIRECT b d) look' bn = baddr d look bn.
Proof.
  intros H0 Hbn. pose proof (do_addrs _ (fo_inode _ _ _ F)) as D6. unfold baddr.
  assert (ind_addr (set_addr NDIRECT b d) = b) as ->.
  { unfold ind_addr. cbn [set_addr d_addrs]. apply nthZ_updZ_eq. rewrite D6. done. }
  rewrite H0. cbn [set_addr d_addrs]. case_if; zbool; [by apply nthZ_updZ_ne; lia |].
  replace (b =? 0) with false by lia. unfold look'. 
  destruct (alloc_view lo hi sb b v S M ltac:(lia) ltac:(apply B)) as (_ & _ & -> & _). apply getn_zero.
Qed.

Lemma adds_slot k :
  0 <= k <= NDIRECT -> nthZ 0 (d_addrs d) k = 0 -> adds sb b d look (set_addr k b d) look'.
Proof.
  intros Hk H0. pose proof (do_addrs _ (fo_inode _ _ _ F)) as D6.
  destruct (alloc_view lo hi sb b v S M ltac:(lia) ltac:(apply B)) as (V1 & V2 & V3 & V4 & V5).
  split; try done.
  - by split; [apply dinode_set_addr |].
  - destruct (decide (k = NDIRECT)) as [-> | Hne]; [right | left; apply ind_set_addr; lia].
    split_and!; [done | unfold ind_addr; cbn [set_addr d_addrs]; apply nthZ_updZ_eq; by rewrite D6 |].
    intros bn Hbn. apply baddr_indirect; [done | lia].
  - intros bn Hbn. destruct (decide (k = NDIRECT)) as [-> | Hne]; [left; apply baddr_indirect; [done | lia] |].
    rewrite baddr_direct by lia. case_if; zbool; [right | by left]. subst bn. split_and!; try done.
    + unfold baddr. by replace (k <? NDIRECT) with true by lia.
    + apply ind_set_addr; lia.
    + intros j Hj Hne'. rewrite baddr_direct by lia. by rewrite (proj2 (Z.eqb_neq _ _) Hne').
  - intros Hne. rewrite alloc_ind by done. by apply (fo_ind _ _ _ F).
  - intros a Ha Hu Hnb _. by apply alloc_look.
Qed.

(** An address in the indirect block. *)
Let look2 bn := bupd look' (ind_addr d) (put32 (look (ind_addr d)) (4 * (bn - NDIRECT)) b).

Lemma baddr_entry bn j :
  ind_addr d <> 0 -> NDIRECT <= bn < MAXFILE -> 0 <= j < MAXFILE ->
  baddr d (look2 bn) j = if j =? bn then b else baddr d look j.
Proof.
  intros Hne Hbn Hj. pose proof (db_len _ _ _ (fo_ind _ _ _ F Hne)) as Hlen. fold look in Hlen. pose proof (sk_size _ _ _ S).
  change MAXFILE with 268 in *. unfold baddr, NDIRECT in *.
  destruct (j <? 12) eqn:E1; zbool; [by replace (j =? bn) with false by lia |].
  rewrite (proj2 (Z.eqb_neq _ _) Hne). unfold look2, get_ind, NDIRECT. rewrite bupd_eq. case_if; zbool.
  - subst j. rewrite get32_put32_eq by lia. apply u32_small. lia.
  - rewrite get32_put32_ne by lia. done.
Qed.

Lemma adds_entry bn :
  ind_addr d <> 0 -> NDIRECT <= bn < MAXFILE -> baddr d look bn = 0 -> adds sb b d look d (look2 bn).
Proof.
  intros Hne Hbn H0. pose proof (fo_ind _ _ _ F Hne) as Hd. pose proof (data_not_bmap _ _ _ Hd) as Hnb.
  destruct (alloc_view lo hi sb b v S M ltac:(lia) ltac:(apply B)) as (V1 & V2 & V3 & V4 & V5).
  assert (b <> ind_addr d) as Hbi by (intros ->; destruct Hd as [_ Hu _], B as (_ & _ & ?); congruence).
  split; try done.
  - unfold look2. by rewrite bupd_ne.
  - intros a Ha. unfold look2. rewrite (used_bupd lo hi) by done. by apply V4.
  - split; [apply (fo_inode _ _ _ F) | by destruct d].
  - by left.
  - intros j Hj. rewrite baddr_entry by done. case_if; zbool; [right | by left]. subst j. split_and!; try done.
    intros j Hj' Hne'. rewrite baddr_entry by done. by rewrite (proj2 (Z.eqb_neq _ _) Hne').
  - intros _. unfold look2. rewrite bupd_eq, length_put32. apply Hd.
  - intros a Ha Hu Hna Hai. unfold look2. rewrite bupd_ne; [by apply alloc_look |]. intros ->. by apply Hne, Hai.
Qed.
End slots.

(** ** [bmap] *)

(** The blocks of the bitmap, and the indirect block if there is one. *)
Definition bitmaps (sb : superblock) : gset Z := list_to_set (seqZ (sb_bmapstart sb) (sb_size sb / BPB + 1)).
Definition indset (d : dinode) : gset Z := if decide (ind_addr d = 0) then ∅ else {[ind_addr d]}.

Lemma elem_of_bitmaps lo hi sb a : sb_ok lo hi sb -> a ∈ bitmaps sb <-> bmap_block sb a.
Proof.
  intros [H1 _ _]. unfold bitmaps, bmap_block. rewrite elem_of_list_to_set, elem_of_seqZ.
  change BPB with 8192. assert (0 <= sb_size sb / 8192) by (apply Z.div_pos; lia). lia.
Qed.

Section bmap.
Context {T : Type} `{TD : TxnDisk T} (lo hi : Z).

(** Inode [ip] of the table is a consistent file, and the process has no buffer
    locked. *)
Record fs_ok (s : fsys T) (v : bview) (ip : Z) : Prop := {
  fk_sim : tsim lo hi (f_disk s) v;
  fk_sb : sb_ok lo hi (f_sb s);
  fk_map : map_ok (f_sb s) v;
  fk_own : v_own v = ∅;
  fk_ip : 0 <= ip < Z.of_nat (length (f_inode s));
  fk_dev : i_dev (iat s ip) = ROOTDEV;
  fk_file : file_ok (f_sb s) (i_d (iat s ip)) (v_look v);
}.

Definition with_file (s : fsys T) (ip : Z) (d : dinode) (t : T) (ms : list string) : fsys T :=
  Fsys (f_held s) (f_woken s) t (f_sb s) (updZ (f_inode s) ip (set_d d (iat s ip))) (f_pm s) ms.

Lemma with_file_same s ip t ms :
  with_file s ip (i_d (iat s ip)) t ms = Fsys (f_held s) (f_woken s) t (f_sb s) (f_inode s) (f_pm s) ms.
Proof.
  unfold with_file. replace (set_d (i_d (iat s ip)) (iat s ip)) with (iat s ip) by (by destruct (iat s ip)).
  unfold iat. by rewrite updZ_nthZ.
Qed.

Lemma iat_with_file s ip d t ms :
  0 <= ip < Z.of_nat (length (f_inode s)) -> iat (with_file s ip d t ms) ip = set_d d (iat s ip).
Proof. intros H. unfold iat at 1. cbn. by apply nthZ_updZ_eq. Qed.

Lemma with_file_twice s ip d t ms d' t' ms' :
  0 <= ip < Z.of_nat (length (f_inode s)) ->
  with_file (with_file s ip d t ms) ip d' t' ms' = with_file s ip d' t' ms'.
Proof.
  intros H. unfold with_file at 1. rewrite iat_with_file by done. cbn. by rewrite updZ_updZ.
Qed.

(** A step of the file [ip] that logs the blocks of [X] besides bitmap and indirect
    block. *)
Record bstep (s : fsys T) (v : bview) (ip : Z) (X : gset Z) (s' : fsys T) (v' : bview) : Prop := {
  bs_state : s' = with_file s ip (i_d (iat s' ip)) (f_disk s') (f_msgs s');
  bs_ok : fs_ok s' v' ip;
  bs_grows : fgrows (f_sb s) (i_d (iat s ip)) (v_look v) (i_d (iat s' ip)) (v_look v');
  bs_pin : v_pin v' ⊆ v_pin v ∪ bitmaps (f_sb s) ∪ indset (i_d (iat s' ip)) ∪ X;
}.

Lemma indset_grows sb d look d' look' : fgrows sb d look d' look' -> indset d ⊆ indset d'.
Proof. intros H. unfold indset. destruct (decide (ind_addr d = 0)) as [| Hne]; [set_solver |]. rewrite (gr_ind _ _ _ _ _ H Hne). by rewrite decide_False. Qed.

Lemma bstep_sb s v ip X s' v' : bstep s v ip X s' v' -> f_sb s' = f_sb s /\ length (f_inode s') = length (f_inode s) /\ f_pm s' = f_pm s.
Proof. intros [-> _ _ _]. cbn. by rewrite length_updZ. Qed.

Lemma bstep_trans s v ip X Y s1 v1 s2 v2 :
  fs_ok s v ip -> bstep s v ip X s1 v1 -> bstep s1 v1 ip Y s2 v2 -> bstep s v ip (X ∪ Y) s2 v2.
Proof.
  intros Hok A B. destruct (bstep_sb _ _ _ _ _ _ A) as (Esb & _). destruct A as [A1 A2 A3 A4], B as [B1 B2 B3 B4].
  rewrite Esb in *. split; [| done | by eapply fgrows_trans | pose proof (indset_grows _ _ _ _ _ B3); set_solver].
  rewrite B1 at 1. rewrite A1 at 1. apply with_file_twice, Hok.
Qed.

Lemma bstep_refl s v ip : fs_ok s v ip -> bstep s v ip ∅ s v.
Proof.
  intros H. split; [rewrite with_file_same; by destruct s | done | by apply fgrows_refl, H | set_solver].
Qed.

Definition same_blocks (d : dinode) (v : bview) (d' : dinode) (v' : bview) : Prop :=
  forall bn, 0 <= bn < MAXFILE -> fblock d' (v_look v') bn = fblock d (v_look v) bn.

Definition full (sb : superblock) (v : bview) : Prop := forall b, 0 <= b < sb_size sb -> used sb (v_look v) b = true.

Lemma out_of_blocks_step s v ip t :
  fs_ok s v ip -> tsim lo hi t v -> bstep s v ip ∅ (out_of_blocks t s) v.
Proof.
  intros [H1 H2 H3 H4 H5 H6 H7] Ht.
  split; [exact (eq_sym (with_file_same s ip t _)) | split; done | by apply fgrows_refl | set_solver].
Qed.

(** An address of the inode that is missing. *)
Lemma slot_step {A} s v ip k (c0 : K (fsys T) A) (c : Z -> K (fsys T) A) :
  let d := i_d (iat s ip) in
  fs_ok s v ip -> 0 <= k <= NDIRECT -> nthZ 0 (d_addrs d) k = 0 -> roomy 2 v -> budget lo hi 2 v ->
  let m := addr <- balloc ROOTDEV ;; if addr =? 0 then c0 else upd_d ip (set_addr k addr) >> c addr in
  (exists s', m s = c0 s' /\ bstep s v ip ∅ s' v /\ i_d (iat s' ip) = d /\ full (f_sb s) v) \/
  (exists b s' v', m s = c b s' /\ bstep s v ip {[b]} s' v' /\ same_blocks d v (i_d (iat s' ip)) v' /\
     b <> 0 /\ nthZ 0 (d_addrs (i_d (iat s' ip))) k = b /\ v_pin v' = {[b; BBLOCK b (f_sb s)]} ∪ v_pin v).
Proof.
  intros d Hok Hk H0 Hr Hb m. pose proof Hok as [H1 H2 H3 H4 H5 H6 H7].
  destruct (balloc_ok lo hi s v H1 H2 H3 Hr Hb) as [(b & t' & E & Ht & Hu & _ & Hb0 & Hb1) | (t' & E & Ht & Hfull)].
  - right. assert (0 < b) as Hpos.
    { destruct (sk_bmap _ _ _ H2), (sk_size _ _ _ H2). pose proof (Z.div_pos (sb_size (f_sb s)) BPB ltac:(lia) ltac:(done)). lia. }
    pose proof (adds_slot lo hi (f_sb s) b d v H2 H3 H7 ltac:(done) k Hk H0) as Hadd.
    destruct (alloc_view lo hi (f_sb s) b v H2 H3 ltac:(lia) Hu) as (V1 & V2 & _ & _ & _).
    set (s' := with_file s ip (set_addr k b d) t' (f_msgs s)).
    assert (iat s' ip = set_d (set_addr k b d) (iat s ip)) as Ei by (by apply iat_with_file).
    exists b, s', (v_alloc (f_sb s) b v). rewrite Ei. cbn [set_d i_d]. split_and!.
    + unfold m. rewrite (kbind_of _ _ _ _ _ E). by replace (b =? 0) with false by lia.
    + split; rewrite ?Ei; cbn [set_d i_d]; [done | | by eapply adds_grows |].
      * split; rewrite ?Ei; try done; [cbn; by rewrite length_updZ |].
        by eapply adds_file_ok.
      * cbn. pose proof (proj2 (elem_of_bitmaps lo hi (f_sb s) _ H2) (proj1 (BBLOCK_block lo hi (f_sb s) b H2 ltac:(lia)))).
        set_solver.
    + intros bn Hbn. by eapply adds_fblock.
    + lia.
    + cbn [set_addr d_addrs]. apply nthZ_updZ_eq. pose proof (do_addrs _ (fo_inode _ _ _ H7)) as D6. fold d in D6.
      unfold NDIRECT in Hk. lia.
    + cbn. set_solver.
  - left. exists (out_of_blocks t' s). split_and!; [| by apply out_of_blocks_step | done | done].
    unfold m. by rewrite (kbind_of _ _ _ _ _ E).
Qed.

Lemma data_home sb look a : sb_ok lo hi sb -> data_block sb look a -> home lo hi a.
Proof.
  intros [H1 H2 H3] [Hr _ _]. unfold home. pose proof (Z.div_pos (sb_size sb) BPB ltac:(lia) ltac:(done)). lia.
Qed.

(** Logging a block outside the bitmap leaves the map as it is. *)
Lemma map_ok_log sb v a x : sb_ok lo hi sb -> map_ok sb v -> ~ bmap_block sb a -> map_ok sb (v_log a x v).
Proof.
  intros Hs [M1 M2 M3] Ha. pose proof (sk_bmap _ _ _ Hs). split; cbn.
  - intros b Hb. rewrite bupd_ne by (by intros ->). by apply M1.
  - intros b Hb. rewrite (used_bupd lo hi) by (done || lia). by apply M2.
  - intros b bno Hb. destruct (M3 b bno Hb) as (? & ? & ?). by rewrite (used_bupd lo hi).
Qed.

(** What [bmap] does with the indirect block at [addr]. *)
Definition load (bn addr : Z) : K (fsys T) Z :=
  bp <- zoom (t_bread ROOTDEV addr) ;;
  d <- bdata bp ;;
  addr <- (if get_ind d bn =? 0 then
             addr <- balloc ROOTDEV ;;
             kwhen (negb (addr =? 0))
               (zoom (t_store bp (put32 d (4 * bn) addr)) >>
                zoom (t_log_write bp)) >>
             kret addr
           else kret (get_ind d bn)) ;;
  zoom (t_brelse bp) >>
  kret addr.

(** The bitmap is not among the blocks of a file, so it can be read while the
    indirect block is locked. *)
Lemma map_ok_get sb v bp a :
  map_ok sb v -> v_own v = ∅ -> 0 <= a < sb_size sb -> ~ bmap_block sb a -> used sb (v_look v) a = true ->
  map_ok sb (v_get bp a v).
Proof.
  intros [M1 M2 M3] Ho Ha Hn Hu. split; [done | done |]. intros c bno. cbn. rewrite Ho.
  intros [[_ <-] | [_ Hc]]%lookup_insert_Some; [done | by rewrite lookup_empty in Hc].
Qed.

Lemma put_disk_step s v ip t : fs_ok s v ip -> tsim lo hi t v -> bstep s v ip ∅ (put_disk t s) v.
Proof.
  intros [H1 H2 H3 H4 H5 H6 H7] Ht. split; [exact (eq_sym (with_file_same s ip t _)) | split; done | by apply fgrows_refl | set_solver].
Qed.

Lemma alloc_entry s v ip b bn :
  let d := i_d (iat s ip) in
  let v' := v_log (ind_addr d) (put32 (v_look v (ind_addr d)) (4 * (bn - NDIRECT)) b) (v_alloc (f_sb s) b v) in
  fs_ok s v ip -> NDIRECT <= bn < MAXFILE -> ind_addr d <> 0 -> baddr d (v_look v) bn = 0 ->
  0 < b /\ sb_bmapstart (f_sb s) + sb_size (f_sb s) / BPB < b < sb_size (f_sb s) /\ used (f_sb s) (v_look v) b = false ->
  fgrows (f_sb s) d (v_look v) d (v_look v') /\ map_ok (f_sb s) v' /\ same_blocks d v d v' /\
  baddr d (v_look v') bn = b /\ v_pin v' ⊆ v_pin v ∪ bitmaps (f_sb s) ∪ indset d ∪ {[b]}.
Proof.
  intros d v' [H1 H2 H3 H4 H5 H6 H7] Hbn Hne H0 HB.
  pose proof (adds_entry lo hi (f_sb s) b d v H2 H3 H7 HB bn Hne Hbn H0) as Hadd.
  destruct (alloc_view lo hi (f_sb s) b v H2 H3 ltac:(lia) ltac:(apply HB)) as (V1 & _).
  split_and!.
  - by eapply adds_grows.
  - apply map_ok_log; [done | done | by eapply data_not_bmap, (fo_ind _ _ _ H7)].
  - intros j Hj. by eapply adds_fblock.
  - unfold v'. cbn [v_look v_log]. rewrite (baddr_entry lo hi (f_sb s)) by (done || unfold NDIRECT in *; lia).
    by rewrite Z.eqb_refl.
  - pose proof (proj2 (elem_of_bitmaps lo hi (f_sb s) _ H2) (proj1 (BBLOCK_block lo hi (f_sb s) b H2 ltac:(lia)))).
    unfold indset. rewrite decide_False by done. cbn. set_solver.
Qed.

Lemma load_ok s v ip bn :
  let d := i_d (iat s ip) in
  fs_ok s v ip -> NDIRECT <= bn < MAXFILE -> ind_addr d <> 0 -> roomy 3 v -> budget lo hi 3 v ->
  exists a s' v', load (bn - NDIRECT) (ind_addr d) s = Ret a s' /\ bstep s v ip {[a]} s' v' /\
    same_blocks d v (i_d (iat s' ip)) v' /\ a = baddr (i_d (iat s' ip)) (v_look v') bn /\ (a = 0 -> full (f_sb s) v').
Proof.
  intros d Hok Hbn Hne Hr Hb. pose proof Hok as [H1 H2 H3 H4 H5 H6 H7].
  pose proof (fo_ind _ _ _ H7 Hne) as Hd. fold d in Hd.
  pose proof (data_home _ _ _ H2 Hd) as Hh.
  assert (forall a, free_block v a) as Hfree by (intros a c; by rewrite H4, lookup_empty).
  unfold load. destruct (t_open lo hi _ v (ind_addr d) H1 (home_range _ _ _ Hh) (Hfree _)) as (bp & t1 & E1 & Ho & Hkept & Ht1 & Ed);
    [by eapply roomy_weaken; [| exact Hr] |].
  dstep E1. rewrite bdata_step. cbn [put_disk f_disk]. rewrite Ed.
  assert (baddr d (v_look v) bn = get_ind (v_look v (ind_addr d)) (bn - NDIRECT)) as Ea.
  { unfold baddr. replace (bn <? NDIRECT) with false by lia. by rewrite (proj2 (Z.eqb_neq _ _) Hne). }
  rewrite <- Ea. destruct (baddr d (v_look v) bn =? 0) eqn:E0; zbool.
  - assert (map_ok (f_sb s) (v_get bp (ind_addr d) v)) as Hmg.
    { apply map_ok_get; [done | done | destruct Hd; lia | by eapply data_not_bmap | apply Hd]. }
    destruct (balloc_ok lo hi (put_disk t1 s) _ Ht1 H2 Hmg)
      as [(b & t2 & E2 & Ht2 & Hu & _ & Hb0 & Hb1) | (t2 & E2 & Ht2 & Hfull)];
      [apply roomy_get; [done | exact Hr] | by unfold budget in *; cbn; lia | |].
    + cbn [put_disk f_sb] in Ht2, Hu, Hb1.
      assert (0 < b) as Hpos.
      { destruct (sk_bmap _ _ _ H2), (sk_size _ _ _ H2). pose proof (Z.div_pos (sb_size (f_sb s)) BPB ltac:(lia) ltac:(done)). lia. }
      destruct (alloc_entry s v ip b bn Hok Hbn Hne E0 ltac:(done)) as (G1 & G2 & G3 & G4 & G5).
      change (tsim lo hi t2 (v_get bp (ind_addr d) (v_alloc (f_sb s) b v))) in Ht2.
      edestruct (t_logged lo hi t2 (v_alloc (f_sb s) b v) bp (ind_addr d)) as (t3 & t4 & E3 & E4 & Ht4 & Hk4);
        [exact Ht2 | done | done | by repeat apply budget_log |].
      destruct (t_close lo hi t4 _ bp _ Ht4 Ho Hk4) as (t5 & E5 & Ht5).
      eexists b, (put_disk t5 s), _. split_and!; [| | exact G3 | done | lia].
      * rewrite kbind_assoc, (kbind_of _ _ _ _ _ E2). replace (b =? 0) with false by lia. cbn [negb kwhen].
        rewrite !kbind_assoc. dstep E3. dstep E4. rewrite (kbind_of (kret _) _ _ _ _ eq_refl). by dstep E5.
      * split; [exact (eq_sym (with_file_same s ip t5 _)) | | exact G1 | exact G5].
        split; try done. apply G1.
    + destruct (t_close lo hi t2 v bp _ Ht2 Ho Hkept) as (t3 & E3 & Ht3).
      exists 0, (put_disk t3 (out_of_blocks t2 (put_disk t1 s))), v. split_and!.
      * rewrite kbind_assoc, (kbind_of _ _ _ _ _ E2). erewrite kbind_of by (cbn; reflexivity). by dstep E3.
      * destruct (out_of_blocks_step s v ip t3 Hok Ht3) as [P1 P2 P3 P4]. split; try done. set_solver.
      * done.
      * done.
      * done.
  - destruct (t_close lo hi t1 v bp _ Ht1 Ho Hkept) as (t2 & E2 & Ht2).
    exists (baddr d (v_look v) bn), (put_disk t2 s), v. rewrite (kbind_of (kret _) _ _ _ _ eq_refl).
    split_and!; [by dstep E2 | | done | done | done].
    destruct (put_disk_step s v ip t2 Hok Ht2) as [P1 P2 P3 P4]. split; try done. set_solver.
Qed.

Lemma bstep_weaken s v ip X Y s' v' : bstep s v ip X s' v' -> X ⊆ Y -> bstep s v ip Y s' v'.
Proof. intros [H1 H2 H3 H4] HXY. split; try done. set_solver. Qed.

(** [bmap] returns the address of block [bn], which it allocates if it has to;
    it returns 0 only when no block of the disk is free.  The file reads as before, and
    every other file. *)
Lemma bmap_ok s v ip bn :
  let d := i_d (iat s ip) in
  fs_ok s v ip -> 0 <= bn < MAXFILE -> roomy 5 v -> budget lo hi 5 v ->
  exists a s' v', bmap ip bn s = Ret a s' /\ bstep s v ip {[a]} s' v' /\
    same_blocks d v (i_d (iat s' ip)) v' /\ a = baddr (i_d (iat s' ip)) (v_look v') bn /\ (a = 0 -> full (f_sb s) v').
Proof.
  intros d Hok Hbn Hr Hb. pose proof Hok as [H1 H2 H3 H4 H5 H6 H7].
  unfold bmap, get_inode. rewrite (kbind_of (kgets _) _ _ _ _ eq_refl), H6. fold d.
  destruct (bn <? NDIRECT) eqn:Ed; zbool.
  - assert (baddr d (v_look v) bn = nthZ 0 (d_addrs d) bn) as Ea.
    { unfold baddr. by replace (bn <? NDIRECT) with true by lia. }
    destruct (nthZ 0 (d_addrs d) bn =? 0) eqn:E0; zbool.
    + destruct (slot_step s v ip bn (kret 0) kret Hok ltac:(lia) E0)
        as [(s' & E & B & Ei & Hf) | (b & s' & v' & E & B & Hsame & Hb0 & Eb & _)];
        [by eapply roomy_weaken; [| exact Hr] | unfold budget in *; lia | |].
      * exists 0, s', v. rewrite E, Ei. split_and!; [done | apply (bstep_weaken _ _ _ ∅); [exact B | set_solver] | done | fold d; congruence | done].
      * exists b, s', v'. rewrite E. split_and!; [done | done | done | | by intros].
        unfold baddr. by replace (bn <? NDIRECT) with true by lia.
    + exists (nthZ 0 (d_addrs d) bn), s, v.
      split_and!; [done | apply (bstep_weaken _ _ _ ∅); [by apply bstep_refl | set_solver] | done | done | done].
  - replace (bn - NDIRECT <? NINDIRECT) with true by (change MAXFILE with (NDIRECT + NINDIRECT) in Hbn; lia).
    fold (ind_addr d). destruct (ind_addr d =? 0) eqn:E0; zbool.
    + destruct (slot_step s v ip NDIRECT (kret 0) (load (bn - NDIRECT)) Hok ltac:(done) E0)
        as [(s' & E & B & Ei & Hf) | (b & s1 & v1 & E & B & Hsame & Hb0 & Eb & Ep)];
        [by eapply roomy_weaken; [| exact Hr] | unfold budget in *; lia | |].
      * exists 0, s', v. rewrite Ei. split_and!; [exact E | apply (bstep_weaken _ _ _ ∅); [exact B | set_solver] | done | | done].
        fold d. unfold baddr. replace (bn <? NDIRECT) with false by lia. by rewrite E0.
      * change (ind_addr (i_d (iat s1 ip)) = b) in Eb. destruct (bstep_sb _ _ _ _ _ _ B) as (Esb & _ & _).
        assert (Z.of_nat (size (v_pin v1)) <= 2 + Z.of_nat (size (v_pin v))) as Hsz.
        { rewrite Ep. pose proof (size_union_le {[b; BBLOCK b (f_sb s)]} (v_pin v)).
          pose proof (size_union_le {[b]} {[BBLOCK b (f_sb s)]}) as Hs2. rewrite !size_singleton in Hs2. lia. }
        pose proof (bs_ok _ _ _ _ _ _ B) as Hok1.
        destruct (load_ok s1 v1 ip bn Hok1 ltac:(lia) ltac:(congruence)) as (a & s' & v' & E' & B' & Hsame' & Ha & Hfull);
          [unfold roomy in *; rewrite (fk_own _ _ _ Hok1); rewrite H4 in Hr; lia | unfold budget in *; lia |].
        exists a, s', v'. rewrite Eb in E'. split_and!; [exact (eq_trans E E') | | | done | by rewrite <- Esb].
        -- pose proof (bstep_trans _ _ _ _ _ _ _ _ _ Hok B B') as [T1 T2 T3 T4]. split; try done.
           assert (b ∈ indset (i_d (iat s' ip))); [| set_solver].
           apply (indset_grows _ _ _ _ _ (bs_grows _ _ _ _ _ _ B')). unfold indset. rewrite Eb, decide_False by done. set_solver.
        -- intros j Hj. rewrite Hsame' by done. by apply Hsame.
    + destruct (load_ok s v ip bn Hok ltac:(lia) E0) as (a & s' & v' & E & Hrest);
        [by eapply roomy_weaken; [| exact Hr] | unfold budget in *; lia |].
      exists a, s', v'. split; [exact E | exact Hrest].
Qed.
End bmap.
