(* ===== verification/FsData.v ===== *)
(** * The contents of a file: readi and writei

    A file is a sequence of bytes.  [writei] of kernel/fs.c replaces a range of it and
    makes it longer, [readi] copies a range out; both go block by block through
    [bmap], from or to kernel memory or the memory of a process. *)

From S2P Require Import Prelude Riscv Spinlock Mem CString Sleeplock Kalloc Vm VmProofs VmUser VmCopy Block BufCache.
From S2P Require Import TxnDisk Console Fs FsBlocks FsInode FsFile.

(** ** Bytes of a block *)

Lemma length_splice l : forall d o, length (splice d o l) = length d.
Proof. induction l as [| b l IH]; intros d o; cbn; [done |]. by rewrite IH, length_updZ. Qed.

Lemma nthZ_splice l : forall d o i,
  0 <= o -> o + Z.of_nat (length l) <= Z.of_nat (length d) ->
  nthZ 0 (splice d o l) i = if decide (o <= i < o + Z.of_nat (length l)) then nthZ 0 l (i - o) else nthZ 0 d i.
Proof.
  induction l as [| b l IH]; intros d o i Ho Hl; cbn [splice length] in *.
  { by rewrite decide_False by lia. }
  rewrite IH by (rewrite ?length_updZ; lia). destruct (decide (i = o)) as [-> | Hne].
  - rewrite decide_False, decide_True by lia. rewrite nthZ_updZ_eq by lia. by rewrite Z.sub_diag.
  - destruct (decide (o + 1 <= i < _)).
    + rewrite decide_True by lia. rewrite nthZ_cons by lia. f_equal. lia.
    + rewrite decide_False by lia. by apply nthZ_updZ_ne.
Qed.

Lemma nthZ_app {A} (d : A) a b i :
  nthZ d (a ++ b) i = if i <? Z.of_nat (length a) then nthZ d a i else nthZ d b (i - Z.of_nat (length a)).
Proof.
  unfold nthZ. destruct (i <? Z.of_nat (length a)) eqn:E; zbool.
  - case_if; zbool; [done |]. apply app_nth1. lia.
  - replace (i <? 0) with false by lia. replace (_ <? 0) with false by lia. rewrite app_nth2 by lia. f_equal. lia.
Qed.

(** ** A block of the file is written *)

Section views.
Context (lo hi : Z) (sb : superblock) (d : dinode) (look : Z -> bytes) (a : Z) (x : bytes).
Hypothesis S : sb_ok lo hi sb.
Hypothesis F : file_ok sb d look.
Hypothesis N : ~ bmap_block sb a.
Hypothesis I : ind_addr d <> 0 -> a <> ind_addr d.

Lemma baddr_upd bn : baddr d (bupd look a x) bn = baddr d look bn.
Proof.
  unfold baddr. case_if; [done |]. case_if; [done |]. zbool. rewrite bupd_ne; [done |]. intros Ea. by apply I.
Qed.

Lemma data_block_upd b : length x = 1024%nat -> data_block sb look b -> data_block sb (bupd look a x) b.
Proof.
  intros Hx [H1 H2 H3]. split; [done | by rewrite (used_bupd lo hi) by (done || lia) |].
  unfold bupd. by case_decide.
Qed.

Lemma file_ok_upd : length x = 1024%nat -> file_ok sb d (bupd look a x).
Proof.
  intros Hx. destruct F as [F1 F2 F3 F4 F5 F6 F7]. split; try done.
  - intros Hne. by apply data_block_upd, F3.
  - intros bn Hbn. rewrite baddr_upd. intros Hne. by apply data_block_upd, F4.
  - intros bn Hbn. rewrite baddr_upd. by apply F5.
  - intros bn bn' Hbn Hbn'. rewrite !baddr_upd. by apply F6.
  - intros bn Hbn. rewrite baddr_upd. by apply F7.
Qed.

Lemma fblock_upd bn :
  fblock d (bupd look a x) bn = if decide (baddr d look bn <> 0 /\ baddr d look bn = a) then x else fblock d look bn.
Proof.
  unfold fblock. rewrite baddr_upd. destruct (baddr d look bn =? 0) eqn:E; zbool.
  - by rewrite decide_False by tauto.
  - unfold bupd. destruct (decide (baddr d look bn = a)) as [Ea | Ea].
    + by rewrite decide_True by done.
    + by rewrite decide_False by tauto.
Qed.
End views.

(** Block [bn] of the file gets the bytes [x]. *)
Lemma write_block lo hi sb d look bn x :
  let a := baddr d look bn in
  sb_ok lo hi sb -> file_ok sb d look -> 0 <= bn < MAXFILE -> a <> 0 -> length x = 1024%nat ->
  fgrows sb d look d (bupd look a x) /\
  (forall j, 0 <= j < MAXFILE -> fblock d (bupd look a x) j = if j =? bn then x else fblock d look j).
Proof.
  intros a Hs Hf Hbn Ha Hx. pose proof (fo_blk _ _ _ Hf bn Hbn Ha) as Hd. pose proof (data_not_bmap _ _ _ Hd) as Hnb.
  pose proof (fo_ne _ _ _ Hf bn Hbn Ha) as Hi. split.
  - split; [by apply (file_ok_upd lo hi) | by destruct d | by intros; apply baddr_upd | done | | |].
    + intros b Hb Hu. by rewrite (used_bupd lo hi).
    + intros b [Hne [Hb | (j & Hj & Hb)]]; left; split; try done; [by left | right]. exists j.
      by rewrite baddr_upd in Hb.
    + intros b Hb Hu _ Hnf. apply bupd_ne. intros ->. apply Hnf. split; [done | right; by exists bn].
  - intros j Hj. rewrite fblock_upd by done. destruct (j =? bn) eqn:E; zbool.
    + subst j. by rewrite decide_True.
    + rewrite decide_False; [done |]. intros [Hne Heq]. by apply E, (fo_inj _ _ _ Hf).
Qed.

(** ** The other end of a copy *)

Section ends.
Context `{L : Layout} (pagetable : Z).

(** The [n] bytes at [src] of the kernel or of the process. *)
Definition source (m : mem) (user : bool) (src n : Z) : bytes :=
  if user then ubytes m pagetable src (Z.to_nat n) else rdbytes m src (Z.to_nat n).

Definition readable (s : pm) (user : bool) (src n : Z) : Prop :=
  0 <= src /\ src + n < 2 ^ 64 /\
  (user = true -> (exists T, pt_ok (pm_mem s) pagetable T) /\ forall v, src <= v < src + n -> umapped (pm_mem s) pagetable v).

Lemma length_source m user src n : 0 <= n -> Z.of_nat (length (source m user src n)) = n.
Proof. intros Hn. unfold source. case_if; rewrite ?length_ubytes, ?length_rdbytes; lia. Qed.

Lemma source_app m user src k n :
  0 <= k <= n -> source m user src n = source m user src k ++ source m user (src + k) (n - k).
Proof.
  intros H. unfold source. replace (Z.to_nat n) with (Z.to_nat k + Z.to_nat (n - k))%nat by lia.
  case_if; [rewrite ubytes_app | rewrite rdbytes_app]; by rewrite Z2Nat.id by lia.
Qed.

Lemma readable_sub s user src k n j :
  readable s user src n -> 0 <= k -> 0 <= j -> k + j <= n -> readable s user (src + k) j.
Proof.
  intros (H1 & H2 & H3) Hk Hj Hn. split_and!; [lia | lia |]. intros Hu. destruct (H3 Hu) as [HT Hv].
  split; [done |]. intros v Hv'. apply Hv. lia.
Qed.

Lemma either_copyin_ok s user src n :
  readable s user src n -> 0 <= n -> either_copyin pagetable user src n s = Ret (0, source (pm_mem s) user src n) s.
Proof.
  intros (H1 & H2 & H3) Hn. unfold either_copyin, source. destruct user; [| done].
  destruct (H3 eq_refl) as [[T HT] Hv]. unfold copyin. by rewrite (copyin_loop_ok pagetable T s HT) by (done || lia).
Qed.

(** The [n] bytes at [dst] can be written: anywhere in the kernel, or in pages
    that belong to the process alone. *)
Definition writable (s : pm) (l : list Z) (T : gmap Z nat) (user : bool) (dst n : Z) : Prop :=
  0 <= dst /\ dst + n < 2 ^ 64 /\
  (user = true -> vm_inv s l pagetable T /\ private (pm_mem s) pagetable l T dst (dst + n)).

Definition delivered (s : pm) (l : list Z) (T : gmap Z nat) (user : bool) (dst : Z) (b : bytes) (s' : pm) : Prop :=
  if user then copied pagetable s l T dst b s'
  else s' = Pm (pm_held s) (wrbytes (pm_mem s) dst b) (freelist s).

Lemma wrbytes_app m a b : forall d, wrbytes m d (a ++ b) = wrbytes (wrbytes m d a) (d + Z.of_nat (length a)) b.
Proof.
  revert m. induction a as [| x a IH]; intros m d; cbn [app wrbytes length]; [by rewrite Z.add_0_r |].
  rewrite IH. f_equal. lia.
Qed.

Lemma delivered_app s l T user dst a b s1 s2 :
  delivered s l T user dst a s1 -> delivered s1 l T user (dst + Z.of_nat (length a)) b s2 ->
  delivered s l T user dst (a ++ b) s2.
Proof.
  unfold delivered. destruct user; [apply copied_trans |]. intros -> ->. cbn. by rewrite wrbytes_app.
Qed.

Lemma delivered_nil s l T user dst n : writable s l T user dst n -> delivered s l T user dst [] s.
Proof.
  intros (_ & _ & H). unfold delivered. destruct user; [by apply copied_nil, H | by destruct s].
Qed.

Lemma writable_sub s l T user dst k n j :
  writable s l T user dst n -> 0 <= k -> 0 <= j -> k + j <= n -> writable s l T user (dst + k) j.
Proof.
  intros (H1 & H2 & H3) Hk Hj Hn. split_and!; [lia | lia |]. intros Hu. destruct (H3 Hu) as [HT Hv].
  split; [done |]. intros v Hv'. apply Hv. lia.
Qed.

Lemma delivered_writable s l T user dst b s' dst' n :
  delivered s l T user dst b s' -> writable s l T user dst' n -> writable s' l T user dst' n.
Proof.
  unfold delivered. intros H (H1 & H2 & H3). split_and!; [done | done |]. intros ->. destruct (H3 eq_refl) as [Hv Hp].
  split; [apply H |]. eapply private_leaf; [apply H | exact Hp].
Qed.

Lemma either_copyout_ok s l T user dst b :
  writable s l T user dst (Z.of_nat (length b)) ->
  exists s', either_copyout pagetable user dst b s = Ret 0 s' /\ delivered s l T user dst b s'.
Proof.
  intros (H1 & H2 & H3). unfold either_copyout, delivered. destruct user; [| by eexists].
  destruct (H3 eq_refl) as [Hv Hp]. apply copyout_loop_ok; [done | done | lia | done].
Qed.
End ends.

(** ** Ranges of a file *)

Definition fbytes (d : dinode) (look : Z -> bytes) (off n : Z) : bytes := fbyte d look <$> seqZ off n.

Definition contents (d : dinode) (look : Z -> bytes) : bytes := fbytes d look 0 (d_size d).

Lemma length_fbytes d look off n : length (fbytes d look off n) = Z.to_nat n.
Proof. unfold fbytes. by rewrite length_fmap, length_seqZ. Qed.

Lemma fbytes_app d look off k n :
  0 <= k <= n -> fbytes d look off n = fbytes d look off k ++ fbytes d look (off + k) (n - k).
Proof.
  intros H. unfold fbytes. rewrite <- fmap_app. f_equal. replace n with (k + (n - k)) at 1 by lia. apply seqZ_app; lia.
Qed.

Lemma nthZ_fbytes d look off n i : 0 <= i < n -> nthZ 0 (fbytes d look off n) i = fbyte d look (off + i).
Proof.
  intros H. unfold nthZ. replace (i <? 0) with false by lia. apply nth_lookup_Some. unfold fbytes.
  rewrite list_lookup_fmap, (lookup_seqZ_lt off n) by lia. cbn. do 2 f_equal. lia.
Qed.

Lemma chunk_facts n tot off :
  tot < n -> 0 <= off ->
  let m := chunk n tot off in
  0 < m <= n - tot /\ off mod BSIZE + m <= BSIZE /\ (m < n - tot -> (off + m) mod BSIZE = 0) /\
  (forall i, 0 <= i < m -> (off + i) / BSIZE = off / BSIZE /\ (off + i) mod BSIZE = off mod BSIZE + i).
Proof.
  intros H1 H2. cbv zeta. unfold chunk, BSIZE. split_and!; [dlia | dlia | dlia | dlia |].
  intros i Hi. dlia.
Qed.

Lemma contents_range d look off n :
  0 <= off <= d_size d -> 0 <= n ->
  take (Z.to_nat n) (drop (Z.to_nat off) (contents d look)) = fbytes d look off (Z.min n (d_size d - off)).
Proof.
  intros Ho Hn. unfold contents. rewrite (fbytes_app d look 0 off (d_size d)) by lia.
  rewrite drop_app_length' by (by rewrite length_fbytes). rewrite Z.add_0_l.
  rewrite (fbytes_app d look off (Z.min n (d_size d - off)) (d_size d - off)) by lia.
  destruct (decide (n <= d_size d - off)).
  - rewrite Z.min_l by lia. apply take_app_length'. by rewrite length_fbytes.
  - rewrite Z.min_r by lia. rewrite Z.sub_diag, app_nil_r. apply take_ge. rewrite length_fbytes. lia.
Qed.

(** How many blocks a range of [n] bytes touches. *)
Definition nblk (off n : Z) : Z := if n <=? 0 then 0 else (off + n - 1) / BSIZE - off / BSIZE + 1.

Lemma nblk_chunk n tot off :
  tot < n -> 0 <= off -> nblk (off + chunk n tot off) (n - (tot + chunk n tot off)) = nblk off (n - tot) - 1.
Proof.
  intros H1 H2. destruct (chunk_facts n tot off H1 H2) as (Hm & Hfit & Hnext & _).
  unfold nblk. replace (n - tot <=? 0) with false by lia. set (m := chunk n tot off) in *.
  destruct (decide (m < n - tot)) as [Hlt | Hge].
  - replace (_ <=? 0) with false by lia. specialize (Hnext Hlt). clearbody m. unfold BSIZE in *. dlia.
  - replace (_ <=? 0) with true by lia. clearbody m. unfold BSIZE in *. dlia.
Qed.

Lemma nblk_fuel off n : 0 <= off -> 0 <= n -> 0 <= nblk off n < Z.of_nat (rw_fuel n).
Proof.
  intros H1 H2. unfold nblk, rw_fuel. rewrite Z2Nat.id by (unfold BSIZE; dlia). case_if; zbool; unfold BSIZE; dlia.
Qed.

(** The bytes of one chunk. *)
Lemma fbytes_chunk d look off m :
  0 <= off -> 0 <= m -> off mod BSIZE + m <= BSIZE -> length (fblock d look (off / BSIZE)) = 1024%nat ->
  fbytes d look off m = take (Z.to_nat m) (drop (Z.to_nat (off mod BSIZE)) (fblock d look (off / BSIZE))).
Proof.
  intros Ho Hm Hfit Hlen. assert (0 <= off mod BSIZE) by (apply Z.mod_pos_bound; done).
  apply (nthZ_ext 0).
  { rewrite length_fbytes, length_take, length_drop. unfold BSIZE in *. lia. }
  intros i. rewrite length_fbytes. intros Hi. rewrite nthZ_fbytes by lia. unfold fbyte, nthZ.
  assert ((off + i) / BSIZE = off / BSIZE /\ (off + i) mod BSIZE = off mod BSIZE + i) as [-> ->] by (unfold BSIZE in *; dlia).
  replace (i <? 0) with false by lia. replace (_ <? 0) with false by lia.
  rewrite List.nth_firstn, List.nth_skipn. replace (_ <? _)%nat with true by (symmetry; apply Nat.ltb_lt; lia).
  f_equal. lia.
Qed.

(** ** [readi] *)

Section readi.
Context {T : Type} `{TD : TxnDisk T} `{L : Layout} (lo hi : Z) (pagetable : Z).

Lemma free_all (s : fsys T) v ip a : fs_ok lo hi s v ip -> free_block v a.
Proof. intros H c. by rewrite (fk_own _ _ _ _ _ H), lookup_empty. Qed.

Lemma fs_ok_disk (s : fsys T) v ip t p :
  fs_ok lo hi s v ip -> tsim lo hi t v ->
  fs_ok lo hi (Fsys (f_held s) (f_woken s) t (f_sb s) (f_inode s) p (f_msgs s)) v ip.
Proof. intros [H1 H2 H3 H4 H5 H6 H7] Ht. by split. Qed.

(** A block of the file can be read. *)
Lemma file_open s v ip bn :
  let a := baddr (i_d (iat s ip)) (v_look v) bn in
  fs_ok lo hi s v ip -> 0 <= bn < MAXFILE -> a <> 0 -> roomy 1 v ->
  exists b t', t_bread ROOTDEV a (f_disk s) = Ret b t' /\ v_own v !! b = None /\ kept v a /\
    tsim lo hi t' (v_get b a v) /\ t_data t' b = v_look v a.
Proof.
  intros a Hok Hbn Ha Hr. pose proof Hok as [H1 H2 _ _ _ _ H7].
  apply t_open; [done | by eapply home_range, data_home, (fo_blk _ _ _ H7) | by eapply free_all | done].
Qed.

(** A block that has an address is found without an allocation. *)
Lemma bmap_found s v ip bn :
  let a := baddr (i_d (iat s ip)) (v_look v) bn in
  fs_ok lo hi s v ip -> 0 <= bn < MAXFILE -> a <> 0 -> roomy 1 v ->
  exists t, bmap ip bn s = Ret a (put_disk t s) /\ tsim lo hi t v.
Proof.
  intros a Hok Hbn Ha Hr. pose proof Hok as [H1 H2 _ _ _ H6 H7].
  unfold bmap, get_inode. rewrite (kbind_of (kgets _) _ _ _ _ eq_refl), H6.
  unfold a, baddr in *. destruct (bn <? NDIRECT) eqn:Ed; zbool.
  - rewrite (proj2 (Z.eqb_neq _ _) Ha). exists (f_disk s). by rewrite put_disk_id.
  - replace (bn - NDIRECT <? NINDIRECT) with true by (change MAXFILE with (NDIRECT + NINDIRECT) in Hbn; lia).
    fold (ind_addr (i_d (iat s ip))). destruct (ind_addr (i_d (iat s ip)) =? 0) eqn:E0; zbool; [done |].
    pose proof (data_home lo hi _ _ _ H2 (fo_ind _ _ _ H7 E0)) as Hh.
    destruct (t_open lo hi _ v _ H1 (home_range _ _ _ Hh) (free_all s v ip _ Hok) Hr) as (bp & t1 & E1 & Ho & Hk & Ht1 & Edat).
    destruct (t_close lo hi t1 v bp _ Ht1 Ho Hk) as (t2 & E2 & Ht2).
    exists t2. split; [| done]. dstep E1. rewrite bdata_step. cbn [put_disk f_disk]. rewrite Edat.
    rewrite (proj2 (Z.eqb_neq _ _) Ha), (kbind_of (kret _) _ _ _ _ eq_refl). by dstep E2.
Qed.

Definition put_mem (t : T) (p : pm) (s : fsys T) : fsys T :=
  Fsys (f_held s) (f_woken s) t (f_sb s) (f_inode s) p (f_msgs s).

Lemma zoom_pm {A} (m : K pm A) (s : fsys T) a p : m (f_pm s) = Ret a p -> zoom m s = Ret a (put_mem (f_disk s) p s).
Proof. intros E. unfold zoom. cbn. by rewrite E. Qed.

Lemma readi_loop_ok l Tb fuel : forall s v ip user dst off n tot,
  let d := i_d (iat s ip) in
  fs_ok lo hi s v ip -> roomy 1 v -> 0 <= off -> 0 <= tot <= n -> n < 2 ^ 31 -> off + (n - tot) <= d_size d ->
  writable pagetable (f_pm s) l Tb user dst (n - tot) ->
  nblk off (n - tot) < Z.of_nat fuel ->
  exists t' p', readi_loop pagetable fuel ip user dst off n tot s = Ret n (put_mem t' p' s) /\ tsim lo hi t' v /\
    delivered pagetable (f_pm s) l Tb user dst (fbytes d (v_look v) off (n - tot)) p'.
Proof.
  induction fuel as [| fuel IH]; intros s v ip user dst off n tot d Hok Hr Hoff Htot Hn Hsz Hw Hf.
  { pose proof (nblk_fuel off (n - tot)). lia. }
  cbn [readi_loop]. destruct (tot <? n) eqn:Elt; zbool.
  2: { replace tot with n in * by lia. rewrite i32_small by lia. exists (f_disk s), (f_pm s).
       split_and!; [by destruct s | apply Hok |]. rewrite Z.sub_diag in *. by eapply delivered_nil. }
  pose proof Hok as [H1 H2 _ _ _ H6 H7]. destruct (chunk_facts n tot off Elt Hoff) as (Hm & Hfit & Hnext & Hin).
  set (m := chunk n tot off) in *. pose proof (fo_size _ _ _ H7) as Hmax. fold d in Hmax.
  assert (0 <= off / BSIZE < MAXFILE) as Hbn by (unfold BSIZE in *; dlia).
  assert (baddr d (v_look v) (off / BSIZE) <> 0) as Ha.
  { apply (fo_full _ _ _ H7); [lia |]. fold d. unfold BSIZE in *. dlia. }
  unfold get_inode. rewrite (kbind_of (kgets _) _ _ _ _ eq_refl), H6.
  destruct (bmap_found s v ip (off / BSIZE) Hok Hbn Ha Hr) as (t1 & E1 & Ht1). fold d in E1.
  rewrite (kbind_of _ _ _ _ _ E1), (proj2 (Z.eqb_neq _ _) Ha).
  destruct (file_open (put_disk t1 s) v ip (off / BSIZE)) as (bp & t2 & E2 & Ho & Hk & Ht2 & Ed);
    [by apply (fs_ok_disk s) | done | done | done |].
  change (i_d (iat (put_disk t1 s) ip)) with d in *.
  dstep E2. rewrite bdata_step. cbn [put_disk f_disk]. rewrite Ed.
  assert (fblock d (v_look v) (off / BSIZE) = v_look v (baddr d (v_look v) (off / BSIZE))) as Eb.
  { unfold fblock. by rewrite (proj2 (Z.eqb_neq _ _) Ha). }
  rewrite <- Eb, <- fbytes_chunk; [| done | lia | done | rewrite Eb; by apply (fo_blk _ _ _ H7)].
  edestruct (either_copyout_ok pagetable (f_pm s) l Tb user dst (fbytes d (v_look v) off m)) as (p1 & E3 & Hd1).
  { rewrite length_fbytes, Z2Nat.id by lia. rewrite <- (Z.add_0_r dst). eapply writable_sub; [exact Hw | lia..]. }
  erewrite kbind_of by (apply zoom_pm; exact E3). cbn [put_mem put_disk f_disk f_sb f_inode f_pm f_held f_woken f_msgs].
  destruct (t_close lo hi t2 v bp _ Ht2 Ho Hk) as (t3 & E4 & Ht3). change (0 =? -1) with false. cbv iota.
  dstep E4. destruct Hw as (Hw1 & Hw2 & Hw3).
  rewrite (u64_small (dst + m)), (u32_small (off + m)) by (change (MAXFILE * BSIZE) with 274432 in Hmax; lia).
  destruct (IH (put_mem t3 p1 s) v ip user (dst + m) (off + m) n (tot + m)) as (t' & p' & E & Ht' & Hd');
    [by apply (fs_ok_disk s) | done | lia | lia | done | change (i_d (iat (put_mem t3 p1 s) ip)) with d; lia | | |].
  { eapply delivered_writable; [exact Hd1 |]. eapply writable_sub; [by split_and! | lia..]. }
  { pose proof (nblk_chunk n tot off Elt Hoff) as Hnb. fold m in Hnb. lia. }
  exists t', p'. split_and!; [exact E | done |]. rewrite (fbytes_app d (v_look v) off m) by lia.
  eapply delivered_app; [exact Hd1 |]. rewrite length_fbytes, Z2Nat.id by lia.
  replace (n - tot - m) with (n - (tot + m)) by lia. exact Hd'.
Qed.

(** C12: [readi] on a consistent file, into kernel memory or into pages of the process:
    it returns the number of bytes of the file in the range asked for (0 when the
    offset is behind the end or the range wraps around), and the destination, and nothing
    else, has these bytes; it allocates nothing and logs nothing. *)
Theorem readi_correct l Tb s v ip user dst off n :
  let d := i_d (iat s ip) in
  let c := take (Z.to_nat n) (drop (Z.to_nat off) (contents d (v_look v))) in
  fs_ok lo hi s v ip -> roomy 1 v -> 0 <= off < 2 ^ 32 -> 0 <= n < 2 ^ 32 ->
  writable pagetable (f_pm s) l Tb user dst (Z.of_nat (length c)) ->
  if decide (off + n < 2 ^ 32) then
    exists t' p', readi pagetable ip user dst off n s = Ret (Z.of_nat (length c)) (put_mem t' p' s) /\
      tsim lo hi t' v /\ delivered pagetable (f_pm s) l Tb user dst c p'
  else readi pagetable ip user dst off n s = Ret 0 s.
Proof.
  intros d c Hok Hr Hoff Hn Hw. unfold readi, get_d. rewrite (kbind_of (kgets _) _ _ _ _ eq_refl). fold d.
  pose proof (fk_file _ _ _ _ _ Hok) as Hf. pose proof (fo_size _ _ _ Hf) as Hmax. fold d in Hmax.
  change (MAXFILE * BSIZE) with 274432 in Hmax. pose proof (do_size _ (fo_inode _ _ _ Hf)) as Hsz. fold d in Hsz.
  case_decide as Hwrap.
  2: { replace (u32 (off + n) <? off) with true; [by rewrite orb_true_r |].
       symmetry. apply Z.ltb_lt. unfold u32. replace (off + n) with (off + n - 2 ^ 32 + 1 * 2 ^ 32) by lia.
       rewrite Z_mod_plus_full, Z.mod_small; lia. }
  rewrite u32_small by lia. replace (off + n <? off) with false by lia. rewrite orb_false_r.
  destruct (d_size d <? off) eqn:E; zbool.
  - assert (c = []) as Ec.
    { apply nil_length_inv. unfold c, contents. rewrite length_take, length_drop, length_fbytes. lia. }
    rewrite Ec in *. exists (f_disk s), (f_pm s). split_and!; [by destruct s | apply Hok | by eapply delivered_nil].
  - assert (c = fbytes d (v_look v) off (Z.min n (d_size d - off))) as Ec by (apply contents_range; lia).
    assert ((if d_size d <? off + n then d_size d - off else n) = Z.min n (d_size d - off)) as -> by (case_if; zbool; lia).
    set (n' := Z.min n (d_size d - off)) in *. assert (0 <= n' /\ n' <= d_size d - off) as [Hn1 Hn2] by (unfold n'; lia).
    clearbody n'. rewrite Ec in *. rewrite length_fbytes, Z2Nat.id in * by lia.
    pose proof (readi_loop_ok l Tb (rw_fuel n') s v ip user dst off n' 0) as H. rewrite Z.sub_0_r in H.
    apply H; try done; try lia; [fold d; lia | apply nblk_fuel; lia].
Qed.
End readi.

(** ** [writei] *)

(** The addresses of the blocks of a range. *)
Definition fblocks (d : dinode) (look : Z -> bytes) (off n : Z) : gset Z :=
  list_to_set (baddr d look <$> seqZ (off / BSIZE) (nblk off n)).

Lemma fblocks_chunk d look n tot off :
  tot < n -> 0 <= off ->
  fblocks d look off (n - tot) =
    {[baddr d look (off / BSIZE)]} ∪ fblocks d look (off + chunk n tot off) (n - (tot + chunk n tot off)).
Proof.
  intros H1 H2. unfold fblocks. rewrite (nblk_chunk n tot off H1 H2).
  destruct (chunk_facts n tot off H1 H2) as (Hm & Hfit & Hnext & _). set (m := chunk n tot off) in *.
  assert (1 <= nblk off (n - tot)) as Hnb.
  { unfold nblk. case_if; zbool; [lia |]. unfold BSIZE. dlia. }
  rewrite (seqZ_cons (off / BSIZE)) by lia. rewrite fmap_cons, list_to_set_cons.
  replace (Z.pred (nblk off (n - tot))) with (nblk off (n - tot) - 1) by lia.
  destruct (decide (m < n - tot)) as [Hlt | Hge].
  - specialize (Hnext Hlt). replace ((off + m) / BSIZE) with (Z.succ (off / BSIZE)); [done |].
    clearbody m. unfold BSIZE in *. dlia.
  - assert (nblk off (n - tot) = 1) as ->; [| done].
    unfold nblk. case_if; zbool; [lia |]. clearbody m. unfold BSIZE in *. dlia.
Qed.

Lemma fblocks_upd d look off n a x :
  (ind_addr d <> 0 -> a <> ind_addr d) -> fblocks d (bupd look a x) off n = fblocks d look off n.
Proof. intros H. unfold fblocks. f_equal. apply list_fmap_ext. intros i bn _. by apply baddr_upd. Qed.

Lemma size_list_to_set_le (l : list Z) : (size (list_to_set l : gset Z) <= length l)%nat.
Proof.
  induction l as [| x l IH]; cbn; [by rewrite size_empty |].
  pose proof (size_union_le {[x]} (list_to_set l)) as H. rewrite size_singleton in H. lia.
Qed.

Lemma size_fblocks d look off n : 0 <= off -> 0 <= n -> Z.of_nat (size (fblocks d look off n)) <= nblk off n.
Proof.
  intros H1 H2. unfold fblocks. pose proof (nblk_fuel off n H1 H2).
  pose proof (size_list_to_set_le (baddr d look <$> seqZ (off / BSIZE) (nblk off n))) as H'.
  rewrite length_fmap, length_seqZ in H'. lia.
Qed.

Lemma size_indset d : (size (indset d) <= 1)%nat.
Proof. unfold indset. case_decide; [by rewrite size_empty; lia | by rewrite size_singleton]. Qed.

Section writei.
Context {T : Type} `{TD : TxnDisk T} `{L : Layout} (lo hi : Z) (pagetable : Z).

Definition small (k : Z) (P : gset Z) : Prop := Z.of_nat (size P) + k <= Z.min (hi - lo - 1) NBUF.

(** With the pinned blocks inside [P] and the indirect block there are buffers and log left. *)
Lemma small_room (s : fsys T) v ip d k P :
  fs_ok lo hi s v ip -> small (k + 1) P -> v_pin v ⊆ P ∪ indset d -> roomy k v /\ budget lo hi k v.
Proof.
  intros Hok Hs Hp. pose proof (subseteq_size _ _ Hp). pose proof (size_union_le P (indset d)). pose proof (size_indset d).
  unfold small in Hs. unfold roomy, budget. rewrite (fk_own _ _ _ _ _ Hok), map_size_empty. lia.
Qed.

Lemma small_add k P a : small (k + 1) P -> small k (P ∪ {[a]}).
Proof. unfold small. pose proof (size_union_le P {[a]}) as H. rewrite size_singleton in H. lia. Qed.

(** One turn, after [bmap] has found block [bn]. *)
Lemma write_turn {A} s v ip bn user src m o (k : K (fsys T) A) (k0 : K (fsys T) A) :
  let a := baddr (i_d (iat s ip)) (v_look v) bn in
  let c := source pagetable (pm_mem (f_pm s)) user src m in
  let x := splice (v_look v a) o c in
  fs_ok lo hi s v ip -> 0 <= bn < MAXFILE -> a <> 0 -> readable pagetable (f_pm s) user src m -> 0 <= m ->
  roomy 1 v -> budget lo hi 1 v ->
  exists t, tsim lo hi t (v_log a x v) /\
    (bp <- zoom (t_bread ROOTDEV a) ;;
     ' (r, c) <- zoom (either_copyin pagetable user src m) ;;
     d <- bdata bp ;;
     zoom (t_store bp (splice d o c)) >>
     if r =? -1 then zoom (t_brelse bp) >> k0
     else zoom (t_log_write bp) >> zoom (t_brelse bp) >> k) s = k (put_disk t s).
Proof.
  intros a c x Hok Hbn Ha Hrd Hm Hr Hb. pose proof Hok as [H1 H2 _ _ _ _ H7].
  destruct (file_open lo hi s v ip bn Hok Hbn Ha Hr) as (bp & t1 & E1 & Ho & Hk & Ht1 & Ed).
  destruct (log_release lo hi k (put_disk t1 s) v bp a x Ht1 Ho) as (t2 & Ht2 & _ & E2);
    [by eapply data_home, (fo_blk _ _ _ H7) | done |].
  exists t2. split; [done |]. dstep E1.
  assert (zoom (either_copyin pagetable user src m) (put_disk t1 s) = Ret (0, c) (put_disk t1 s)) as E3.
  { exact (zoom_pm _ (put_disk t1 s) _ _ (either_copyin_ok pagetable (f_pm s) user src m Hrd Hm)). }
  rewrite (kbind_of _ _ _ _ _ E3). cbv beta iota. rewrite bdata_step. cbn [put_disk f_disk]. rewrite Ed. exact E2.
Qed.

Lemma turn_step s v ip bn x t :
  let d := i_d (iat s ip) in let a := baddr d (v_look v) bn in
  fs_ok lo hi s v ip -> 0 <= bn < MAXFILE -> a <> 0 -> length x = 1024%nat -> tsim lo hi t (v_log a x v) ->
  bstep lo hi s v ip {[a]} (put_disk t s) (v_log a x v).
Proof.
  intros d a Hok Hbn Ha Hx Ht. pose proof Hok as [H1 H2 H3 H4 H5 H6 H7].
  destruct (write_block lo hi (f_sb s) d (v_look v) bn x H2 H7 Hbn Ha Hx) as [G _].
  split; [exact (eq_sym (with_file_same s ip t _)) | | exact G | cbn; set_solver].
  split; try done; [| apply G]. apply (map_ok_log lo hi); [done | done |]. by eapply data_not_bmap, (fo_blk _ _ _ H7).
Qed.

(** What a turn does to the bytes of the file. *)
Lemma turn_bytes s v ip off c o :
  let d := i_d (iat s ip) in let a := baddr d (v_look v) (off / BSIZE) in
  fs_ok lo hi s v ip -> 0 <= off < MAXFILE * BSIZE -> a <> 0 -> off mod BSIZE + Z.of_nat (length c) <= BSIZE ->
  0 <= o < MAXFILE * BSIZE ->
  fbyte d (bupd (v_look v) a (splice (v_look v a) (off mod BSIZE) c)) o =
    if decide (off <= o < off + Z.of_nat (length c)) then nthZ 0 c (o - off) else fbyte d (v_look v) o.
Proof.
  intros d a Hok Hoff Ha Hfit Ho. pose proof Hok as [_ H2 _ _ _ _ H7].
  assert (0 <= off / BSIZE < MAXFILE) as Hbn by (unfold BSIZE in *; dlia).
  assert (0 <= o / BSIZE < MAXFILE) as Hbo by (unfold BSIZE in *; dlia).
  pose proof (db_len _ _ _ (fo_blk _ _ _ H7 (off / BSIZE) Hbn Ha)) as Hlen.
  destruct (write_block lo hi (f_sb s) d (v_look v) (off / BSIZE) (splice (v_look v a) (off mod BSIZE) c) H2 H7 Hbn Ha) as [_ W];
    [by rewrite length_splice |].
  unfold fbyte. fold a in W. rewrite W by done. destruct (o / BSIZE =? off / BSIZE) eqn:E; zbool.
  - fold d in Hlen. fold a in Hlen. rewrite nthZ_splice by (unfold BSIZE in *; dlia).
    rewrite E. unfold fblock. fold a. rewrite (proj2 (Z.eqb_neq _ _) Ha).
    destruct (decide (off <= o < _)).
    + rewrite decide_True by (unfold BSIZE in *; dlia). f_equal. unfold BSIZE in *; dlia.
    + by rewrite decide_False by (unfold BSIZE in *; dlia).
  - rewrite decide_False by (unfold BSIZE in *; dlia). done.
Qed.

Lemma fbyte_same d v d' v' o : same_blocks d v d' v' -> 0 <= o < MAXFILE * BSIZE -> fbyte d' (v_look v') o = fbyte d (v_look v) o.
Proof. intros H Ho. unfold fbyte. rewrite H; [done |]. unfold BSIZE in *; dlia. Qed.

(** A turn of the loop: it ends there when the disk is full. *)
Lemma writei_turn fuel s v ip user src off n tot P :
  let m := chunk n tot off in let d := i_d (iat s ip) in let c := source pagetable (pm_mem (f_pm s)) user src m in
  fs_ok lo hi s v ip -> 0 <= off -> tot < n -> off + (n - tot) <= MAXFILE * BSIZE ->
  readable pagetable (f_pm s) user src (n - tot) ->
  bitmaps (f_sb s) ⊆ P -> v_pin v ⊆ P ∪ indset d -> small 7 P ->
  exists s' v', let d' := i_d (iat s' ip) in let a := baddr d' (v_look v') (off / BSIZE) in
  bstep lo hi s v ip {[a]} s' v' /\
  if decide (a = 0) then
    writei_loop pagetable (S fuel) ip user src off n tot s = Ret (tot, off) s' /\ same_blocks d v d' v' /\ full (f_sb s) v'
  else
    writei_loop pagetable (S fuel) ip user src off n tot s =
      writei_loop pagetable fuel ip user (src + m) (off + m) n (tot + m) s' /\
    forall o, 0 <= o < MAXFILE * BSIZE ->
      fbyte d' (v_look v') o = if decide (off <= o < off + m) then nthZ 0 c (o - off) else fbyte d (v_look v) o.
Proof.
  intros m d c Hok Hoff Hlt Hmax Hrd HB Hpin Hsm. destruct (chunk_facts n tot off Hlt Hoff) as (Hm & Hfit & _ & _). fold m in Hm, Hfit.
  assert (0 <= off / BSIZE < MAXFILE) as Hbn by (unfold BSIZE in *; dlia).
  destruct (small_room s v ip d 5 P Hok) as [Hr Hb]; [unfold small in *; lia | done |].
  destruct (bmap_ok lo hi s v ip (off / BSIZE) Hok Hbn Hr Hb) as (a & s1 & v1 & E1 & B1 & Hsame & Ha & Hfull).
  destruct (bstep_sb _ _ _ _ _ _ _ _ B1) as (Esb & _ & Epm). pose proof (bs_ok _ _ _ _ _ _ _ _ B1) as Hok1.
  pose proof (indset_grows _ _ _ _ _ (bs_grows _ _ _ _ _ _ _ _ B1)) as Hind. pose proof (bs_pin _ _ _ _ _ _ _ _ B1) as Hp1.
  cbn [writei_loop]. replace (tot <? n) with true by lia. unfold get_inode.
  rewrite (kbind_of (kgets _) _ _ _ _ eq_refl), (fk_dev _ _ _ _ _ Hok), (kbind_of _ _ _ _ _ E1).
  destruct (a =? 0) eqn:E0; zbool.
  { exists s1, v1. cbv zeta. rewrite <- Ha. rewrite decide_True by done. split_and!; [done | done | done | by apply Hfull]. }
  destruct (small_room s1 v1 ip (i_d (iat s1 ip)) 1 (P ∪ {[a]}) Hok1) as [Hr1 Hb1];
    [apply small_add; unfold small in *; lia | set_solver |].
  assert (readable pagetable (f_pm s1) user src m) as Hrd1.
  { rewrite Epm, <- (Z.add_0_r src). eapply readable_sub; [exact Hrd | lia..]. }
  edestruct (fun k k0 => write_turn (A := Z * Z) s1 v1 ip (off / BSIZE) user src m (off mod BSIZE) k k0 Hok1 Hbn) as (t & Ht & E2);
    [congruence | done | lia | done | done |].
  rewrite <- Ha in Ht, E2. rewrite E2. clear E2. rewrite Epm in Ht. fold c in Ht.
  set (x := splice _ _ c) in Ht. set (d1 := i_d (iat s1 ip)) in *.
  pose proof (fk_file _ _ _ _ _ Hok1) as Hf1. fold d1 in Hf1.
  assert (a <> ind_addr d1) as Hne by (rewrite Ha; apply (fo_ne _ _ _ Hf1); [done | congruence]).
  assert (length x = 1024%nat) as Hx.
  { unfold x. rewrite length_splice, Ha. apply (fo_blk _ _ _ Hf1); [done | congruence]. }
  assert (bstep lo hi s1 v1 ip {[a]} (put_disk t s1) (v_log a x v1)) as B2.
  { rewrite Ha. apply turn_step; try done; fold d1; congruence. }
  exists (put_disk t s1), (v_log a x v1). cbv zeta. change (i_d (iat (put_disk t s1) ip)) with d1. cbn [v_look v_log].
  rewrite baddr_upd, <- Ha, decide_False by done. split; [| split].
  - eapply bstep_weaken; [by eapply bstep_trans | set_solver].
  - change (MAXFILE * BSIZE) with 274432 in Hmax. destruct Hrd as (Hs1 & Hs2 & _). fold m.
    by rewrite u64_small, u32_small by lia.
  - intros o Ho. assert (Z.of_nat (length c) = m) as Hlc by (apply length_source; lia).
    pose proof (turn_bytes s1 v1 ip off c o Hok1) as W. cbv zeta in W. fold d1 in W. rewrite <- Ha, Hlc in W.
    fold x in W. rewrite W by (done || lia). rewrite (fbyte_same d v d1 v1 o Hsame Ho). done.
Qed.

Lemma writei_loop_ok fuel : forall s v ip user src off n tot P,
  fs_ok lo hi s v ip -> 0 <= off -> 0 <= tot <= n -> off + (n - tot) <= MAXFILE * BSIZE ->
  readable pagetable (f_pm s) user src (n - tot) -> nblk off (n - tot) < Z.of_nat fuel ->
  bitmaps (f_sb s) ⊆ P -> v_pin v ⊆ P ∪ indset (i_d (iat s ip)) -> small (nblk off (n - tot) + 6) P ->
  exists k s' v', let d := i_d (iat s ip) in let d' := i_d (iat s' ip) in
    writei_loop pagetable fuel ip user src off n tot s = Ret (tot + k, off + k) s' /\ 0 <= k <= n - tot /\
    bstep lo hi s v ip (fblocks d' (v_look v') off (n - tot)) s' v' /\ (k < n - tot -> full (f_sb s) v') /\
    (forall o, off <= o < off + k -> baddr d' (v_look v') (o / BSIZE) <> 0) /\
    (forall o, 0 <= o < MAXFILE * BSIZE -> fbyte d' (v_look v') o =
       if decide (off <= o < off + k) then nthZ 0 (source pagetable (pm_mem (f_pm s)) user src k) (o - off)
       else fbyte d (v_look v) o).
Proof.
  induction fuel as [| fuel IH]; intros s v ip user src off n tot P Hok Hoff Htot Hmax Hrd Hf HB Hpin Hsm.
  { pose proof (nblk_fuel off (n - tot)). lia. }
  destruct (decide (tot < n)) as [Elt | Elt].
  2: { exists 0, s, v. cbn [writei_loop]. replace (tot <? n) with false by lia. replace tot with n in * by lia.
       rewrite !Z.add_0_r, Z.sub_diag in *. cbv zeta. split_and!; [done | lia | lia | | lia | lia |].
       - apply (bstep_weaken lo hi _ _ _ ∅); [by apply bstep_refl | set_solver].
       - intros o Ho. by rewrite decide_False by lia. }
  destruct (chunk_facts n tot off Elt Hoff) as (Hm & _). pose proof (nblk_chunk n tot off Elt Hoff) as Hnb.
  pose proof (fun d look => fblocks_chunk d look n tot off Elt Hoff) as Hfb.
  destruct (writei_turn fuel s v ip user src off n tot P) as (s1 & v1 & B1 & Hturn); try done.
  { pose proof (nblk_fuel (off + chunk n tot off) (n - (tot + chunk n tot off)) ltac:(lia) ltac:(lia)). unfold small in *. lia. }
  set (m := chunk n tot off) in *. set (a := baddr _ _ _) in *. destruct (decide (a = 0)) as [E0 | E0].
  { destruct Hturn as (E & Hsame & Hfull). exists 0, s1, v1. rewrite !Z.add_0_r. cbv zeta.
    split_and!; [exact E | lia | lia | | done | lia |].
    - eapply bstep_weaken; [exact B1 |]. rewrite Hfb. set_solver.
    - intros o Ho. rewrite decide_False by lia. by apply fbyte_same. }
  destruct Hturn as (E & Hbytes). destruct (bstep_sb _ _ _ _ _ _ _ _ B1) as (Esb & _ & Epm).
  pose proof (indset_grows _ _ _ _ _ (bs_grows _ _ _ _ _ _ _ _ B1)) as Hind. pose proof (bs_pin _ _ _ _ _ _ _ _ B1) as Hp1.
  destruct (IH s1 v1 ip user (src + m) (off + m) n (tot + m) (P ∪ {[a]})) as (k & s' & v' & E' & Hk & B' & Hfull & Hal & Hby);
    rewrite ?Esb, ?Epm; try lia; [apply B1 | | set_solver | set_solver | |].
  { eapply readable_sub; [exact Hrd | lia..]. }
  { apply small_add. unfold small in *. lia. }
  assert (baddr (i_d (iat s' ip)) (v_look v') (off / BSIZE) = a) as Ea.
  { apply (gr_addr _ _ _ _ _ (bs_grows _ _ _ _ _ _ _ _ B')); [unfold BSIZE in *; dlia | done]. }
  exists (m + k), s', v'. cbv zeta in *. split_and!; try lia.
  - rewrite E, E'. do 2 f_equal; lia.
  - eapply bstep_weaken; [eapply bstep_trans; [exact Hok | exact B1 | exact B'] |]. rewrite Hfb, Ea. done.
  - intros Hlt. rewrite <- Esb. apply Hfull. lia.
  - intros o Ho. destruct (decide (o < off + m)); [| apply Hal; lia].
    destruct (chunk_facts n tot off Elt Hoff) as (_ & _ & _ & Hin). fold m in Hin.
    destruct (Hin (o - off) ltac:(lia)) as [Eo _]. replace (off + (o - off)) with o in Eo by lia. by rewrite Eo, Ea.
  - intros o Ho. rewrite Hby, Hbytes, (source_app _ _ _ _ m (m + k)) by (done || lia).
    replace (m + k - m) with k by lia. rewrite nthZ_app, length_source by lia.
    destruct (decide (off + m <= o < off + m + k)).
    + rewrite decide_True by lia. replace (o - off <? m) with false by lia. rewrite Epm. f_equal. lia.
    + destruct (decide (off <= o < off + m)).
      * rewrite decide_True by lia. by replace (o - off <? m) with true by lia.
      * by rewrite decide_False by lia.
Qed.

(** ** The file as a sequence of bytes *)

Lemma fbytes_ext d look d' look' off n :
  (forall o, off <= o < off + n -> fbyte d' look' o = fbyte d look o) -> fbytes d' look' off n = fbytes d look off n.
Proof. intros H. unfold fbytes. apply list_fmap_ext. intros i o [-> Hi]%lookup_seqZ. apply H. lia. Qed.

(** Replacing the bytes from [off] on, as [writei] does. *)
Lemma contents_write d look d' look' off data :
  let k := Z.of_nat (length data) in
  0 <= off <= d_size d -> d_size d' = Z.max (d_size d) (off + k) ->
  (forall o, 0 <= o < d_size d' -> fbyte d' look' o =
     if decide (off <= o < off + k) then nthZ 0 data (o - off) else fbyte d look o) ->
  contents d' look' = take (Z.to_nat off) (contents d look) ++ data ++ drop (Z.to_nat (off + k)) (contents d look).
Proof.
  intros k Hoff Hsz H. unfold contents at 1. rewrite (fbytes_app d' look' 0 off) by lia.
  rewrite (fbytes_app d' look' (0 + off) k) by lia. rewrite Z.add_0_l. f_equal; [| f_equal].
  - unfold contents. rewrite (fbytes_app d look 0 off (d_size d)) by lia.
    rewrite take_app_length' by (by rewrite length_fbytes).
    apply fbytes_ext. intros o Ho. rewrite H by lia. by rewrite decide_False by lia.
  - apply (nthZ_ext 0); [rewrite length_fbytes; lia |]. intros i. rewrite length_fbytes. intros Hi.
    rewrite nthZ_fbytes, H, decide_True by lia. f_equal. lia.
  - destruct (decide (off + k <= d_size d)).
    + rewrite Z.max_l in Hsz by lia. unfold contents. rewrite (fbytes_app d look 0 (off + k) (d_size d)) by lia.
      rewrite drop_app_length' by (rewrite length_fbytes; lia). rewrite Z.add_0_l, Hsz.
      replace (d_size d - off - k) with (d_size d - (off + k)) by lia.
      apply fbytes_ext. intros o Ho. rewrite H by lia. by rewrite decide_False by lia.
    + rewrite drop_ge by (unfold contents; rewrite length_fbytes; lia).
      apply nil_length_inv. rewrite length_fbytes. lia.
Qed.

(** A file none of whose blocks changes. *)
Lemma file_frame sb d look look' :
  file_ok sb d look ->
  (forall a, file_block d look a -> look' a = look a /\ used sb look' a = true) ->
  file_ok sb d look' /\ contents d look' = contents d look.
Proof.
  intros [F1 F2 F3 F4 F5 F6 F7] H.
  assert (forall bn, baddr d look' bn = baddr d look bn) as Eb.
  { intros bn. unfold baddr. case_if; [done |]. case_if; [done |]. zbool.
    destruct (H (ind_addr d)) as [-> _]; [split; [done | by left] | done]. }
  assert (forall a, file_block d look a -> data_block sb look a -> data_block sb look' a) as Hdb.
  { intros a Hf [H1 H2 H3]. destruct (H a Hf) as [E Hu]. split; [done | done | by rewrite E]. }
  split.
  - split; try done.
    + intros Hne. apply Hdb; [split; [done | by left] | by apply F3].
    + intros bn Hbn. rewrite Eb. intros Hne. apply Hdb; [split; [done | right; by exists bn] | by apply F4].
    + intros bn Hbn. rewrite Eb. by apply F5.
    + intros bn bn' Hbn Hbn'. rewrite !Eb. by apply F6.
    + intros bn Hbn. rewrite Eb. by apply F7.
  - unfold contents. apply fbytes_ext. intros o Ho. unfold fbyte, fblock. rewrite Eb. case_if; [done |]. zbool.
    destruct (H (baddr d look (o / BSIZE))) as [-> _]; [| done]. split; [done | right].
    exists (o / BSIZE). split; [unfold BSIZE in *; dlia | done].
Qed.

(** A longer file, when it has the blocks. *)
Lemma file_ok_size sb d look z :
  file_ok sb d look -> d_size d <= z <= MAXFILE * BSIZE ->
  (forall o, d_size d <= o < z -> baddr d look (o / BSIZE) <> 0) -> file_ok sb (set_size z d) look.
Proof.
  intros [[] F2 F3 F4 F5 F6 F7] Hz Hal. change (MAXFILE * BSIZE) with 274432 in *. split; try done.
  - split; try done. cbn. lia.
  - apply Hz.
  - intros bn Hbn Hlt. cbn in Hlt. change (baddr (set_size z d) look bn) with (baddr d look bn).
    destruct (decide (bn * BSIZE < d_size d)); [by apply F7 |].
    replace bn with (bn * BSIZE / BSIZE) by (apply Z.div_mul; done). apply Hal. lia.
Qed.

(** The block of the inode is in front of the bitmap. *)
Record iblock_ok (sb : superblock) (v : bview) (inum : Z) : Prop := {
  ib_range : 0 <= IBLOCK inum sb < sb_bmapstart sb;
  ib_home : home lo hi (IBLOCK inum sb);
  ib_len : length (v_look v (IBLOCK inum sb)) = 1024%nat;
}.

(** [data] has been written at [off], and the blocks of the log are those of [n]
    bytes from there on, the bitmap, the indirect block and the inode's. *)
Record written (s : fsys T) (v : bview) (ip off n : Z) (data : bytes) (s' : fsys T) (v' : bview) : Prop := {
  wr_state : s' = with_file s ip (i_d (iat s' ip)) (f_disk s') (f_msgs s');
  wr_ok : fs_ok lo hi s' v' ip;
  wr_contents : let c := contents (i_d (iat s ip)) (v_look v) in
    contents (i_d (iat s' ip)) (v_look v') =
      take (Z.to_nat off) c ++ data ++ drop (Z.to_nat (off + Z.of_nat (length data))) c;
  wr_disk : disk_inode (f_sb s) v' (i_inum (iat s ip)) = i_d (iat s' ip);
  wr_others : forall d, file_ok (f_sb s) d (v_look v) ->
    (forall a, file_block d (v_look v) a -> ~ file_block (i_d (iat s ip)) (v_look v) a) ->
    file_ok (f_sb s) d (v_look v') /\ contents d (v_look v') = contents d (v_look v);
  wr_log : v_pin v' ⊆ v_pin v ∪ bitmaps (f_sb s) ∪ indset (i_d (iat s' ip)) ∪
    fblocks (i_d (iat s' ip)) (v_look v') off n ∪ {[IBLOCK (i_inum (iat s ip)) (f_sb s)]};
}.

(** The inode's block is not one of the file's. *)
Lemma iblock_not_file sb d look v inum a :
  sb_ok lo hi sb -> file_ok sb d look -> iblock_ok sb v inum -> file_block d look a -> a <> IBLOCK inum sb.
Proof.
  intros [H1 _ _] Hf [Hi _ _] Ha ->. destruct (file_block_data _ _ _ _ Hf Ha) as [Hr _ _].
  pose proof (Z.div_pos (sb_size sb) BPB ltac:(lia) ltac:(done)). lia.
Qed.

(** The end of [writei]: the size, and the copy of the inode on disk. *)
Lemma iupdate_end {A} s v ip z (c : K (fsys T) A) :
  let d := set_size (Z.max (d_size (i_d (iat s ip))) z) (i_d (iat s ip)) in
  let inum := i_inum (iat s ip) in
  fs_ok lo hi s v ip -> iblock_ok (f_sb s) v inum -> roomy 1 v -> budget lo hi 1 v -> file_ok (f_sb s) d (v_look v) ->
  exists t, (d <- get_d ip ;; kwhen (d_size d <? z) (upd_d ip (set_size z)) >> iupdate ip >> c) s =
      c (with_file s ip d t (f_msgs s)) /\
    tsim lo hi t (v_iupdate (f_sb s) v inum d).
Proof.
  intros d inum Hok [I1 I2 I3] Hr Hb Hf. pose proof Hok as [H1 H2 H3 H4 H5 H6 H7]. set (i := iat s ip) in *.
  unfold get_d. rewrite (kbind_of (kgets _) _ _ _ _ eq_refl).
  assert (kwhen (d_size (i_d i) <? z) (upd_d ip (set_size z)) s = Ret tt (with_file s ip d (f_disk s) (f_msgs s))) as E.
  { unfold d. destruct (d_size (i_d i) <? z) eqn:E; zbool; cbn [kwhen].
    - rewrite Z.max_r by lia. by destruct s.
    - rewrite Z.max_l by lia. replace (set_size _ (i_d i)) with (i_d i) by (by destruct (i_d i)).
      unfold i. rewrite with_file_same. by destruct s. }
  rewrite (kbind_of _ _ _ _ _ E). set (s1 := with_file _ _ _ _ _).
  assert (iat s1 ip = set_d d i) as Ei by (by apply iat_with_file).
  destruct (iupdate_ok lo hi s1 v ip) as (t & E1 & Ht); [done | | done | done |].
  { split; rewrite ?Ei; try done; [cbn; by rewrite length_updZ | by eapply free_all]. }
  rewrite Ei in Ht. exists t. split; [exact (kbind_of _ _ _ _ _ E1) | exact Ht].
Qed.

Lemma iblock_kept s v ip X s1 v1 :
  fs_ok lo hi s v ip -> bstep lo hi s v ip X s1 v1 -> iblock_ok (f_sb s) v (i_inum (iat s ip)) ->
  iblock_ok (f_sb s) v1 (i_inum (iat s ip)).
Proof.
  intros [H1 H2 H3 H4 H5 H6 H7] [_ _ G _] HI. pose proof HI as [I1 I2 I3]. split; [done | done |].
  pose proof (sk_bmap _ _ _ H2). pose proof (sk_size _ _ _ H2).
  pose proof (Z.div_pos (sb_size (f_sb s)) BPB ltac:(lia) ltac:(done)).
  rewrite (gr_frame _ _ _ _ _ G); [done | lia | apply (mk_meta _ _ H3); lia | unfold bmap_block; lia |].
  intros Hf. by apply (iblock_not_file _ _ _ v (i_inum (iat s ip)) _ H2 H7 HI Hf).
Qed.

(** From the end of the loop to the end of [writei]. *)
Lemma written_end s v ip off n data s1 v1 t :
  let k := Z.of_nat (length data) in let sb := f_sb s in let inum := i_inum (iat s ip) in
  let d := i_d (iat s ip) in let d1 := i_d (iat s1 ip) in let d2 := set_size (Z.max (d_size d1) (off + k)) d1 in
  fs_ok lo hi s v ip -> iblock_ok sb v inum -> bstep lo hi s v ip (fblocks d1 (v_look v1) off n) s1 v1 ->
  0 <= off <= d_size d -> off + k <= MAXFILE * BSIZE -> file_ok sb d2 (v_look v1) ->
  (forall o, 0 <= o < MAXFILE * BSIZE -> fbyte d1 (v_look v1) o =
     if decide (off <= o < off + k) then nthZ 0 data (o - off) else fbyte d (v_look v) o) ->
  tsim lo hi t (v_iupdate sb v1 inum d2) ->
  written s v ip off n data (with_file s1 ip d2 t (f_msgs s1)) (v_iupdate sb v1 inum d2).
Proof.
  intros k sb inum d d1 d2 Hok HI HB Hoff Hk Hf2 Hby Ht. pose proof (iblock_kept _ _ _ _ _ _ Hok HB HI) as HI1.
  pose proof HI as [I1 I2 I3]. pose proof HI1 as [_ _ J3]. fold sb inum in I1, I2, I3, J3, HI1.
  destruct (bstep_sb _ _ _ _ _ _ _ _ HB) as (Esb & Elen & Epm). pose proof Hok as [H1 H2 H3 H4 H5 H6 H7].
  pose proof HB as [S1 [K1 K2 K3 K4 K5 K6 K7] G Gp].
  assert (iat (with_file s1 ip d2 t (f_msgs s1)) ip = set_d d2 (iat s1 ip)) as Ei by (by apply iat_with_file).
  assert (~ bmap_block sb (IBLOCK inum sb)) as Hnb by (unfold bmap_block; lia).
  assert (forall d' look a, file_ok sb d' look -> file_block d' look a -> a <> IBLOCK inum sb) as HIB.
  { intros d' look a Hf Ha. exact (iblock_not_file sb d' look v inum a H2 Hf HI Ha). }
  assert (ind_addr d2 <> 0 -> IBLOCK inum sb <> ind_addr d2) as Hind.
  { intros Hne He. by apply (HIB d2 (v_look v1) (ind_addr d2)); [| split; [| left] |]. }
  assert (iat s1 ip = set_d d1 (iat s ip)) as Ei1 by (unfold d1; rewrite S1 at 1; by apply iat_with_file).
  assert (f_sb (with_file s1 ip d2 t (f_msgs s1)) = f_sb s) as Es by exact Esb. rewrite Esb in K3.
  split; rewrite ?Ei; cbn [set_d i_d].
  - rewrite S1 at 1. by rewrite with_file_twice.
  - split; rewrite ?Ei; cbn [set_d i_d i_dev]; rewrite ?Es; try done.
    + by apply (map_ok_log lo hi).
    + cbn. by rewrite length_updZ.
    + apply (file_ok_upd lo hi); [done | done | done | done |]. by rewrite length_put_dinode.
  - apply contents_write; [done | |].
    + unfold d2. cbn [set_size d_size]. unfold d1. by rewrite (gr_inode _ _ _ _ _ G).
    + intros o Ho. pose proof (fo_size _ _ _ Hf2). rewrite <- Hby by lia. unfold fbyte at 1. cbn [v_look v_log v_iupdate].
      rewrite fblock_upd by done. rewrite decide_False; [done |]. intros [Hne He]. refine (HIB _ _ _ Hf2 _ He).
      split; [done | right; exists (o / BSIZE)]. split; [unfold BSIZE in *; dlia | done].
  - apply v_iupdate_same; [apply (fo_inode _ _ _ Hf2) | done].
  - intros d' Hd' Hdis. apply file_frame; [done |]. intros a Ha.
    pose proof (file_block_data _ _ _ _ Hd' Ha) as Hdb. pose proof Hdb as [Ha1 Ha2 _]. pose proof (data_not_bmap _ _ _ Hdb).
    pose proof (HIB _ _ _ Hd' Ha). cbn [v_look v_log v_iupdate].
    rewrite (used_bupd lo hi), bupd_ne by (done || lia).
    split; [apply (gr_frame _ _ _ _ _ G); try done; [lia | by apply Hdis] | apply (gr_used _ _ _ _ _ G); [lia | done]].
  - cbn [v_pin v_log v_iupdate v_look]. rewrite fblocks_upd by done. change (indset d2) with (indset d1).
    change (fblocks d2) with (fblocks d1). fold inum sb. set_solver.
Qed.

(** The rest of [writei] after its loop has written [data]. *)
Lemma writei_finish s v ip off n data s1 v1 :
  let k := Z.of_nat (length data) in let d := i_d (iat s ip) in let d1 := i_d (iat s1 ip) in
  fs_ok lo hi s v ip -> iblock_ok (f_sb s) v (i_inum (iat s ip)) -> small (nblk off n + 6) (v_pin v ∪ bitmaps (f_sb s)) ->
  0 <= off <= d_size d -> k <= n -> off + n <= MAXFILE * BSIZE ->
  bstep lo hi s v ip (fblocks d1 (v_look v1) off n) s1 v1 ->
  (forall o, off <= o < off + k -> baddr d1 (v_look v1) (o / BSIZE) <> 0) ->
  (forall o, 0 <= o < MAXFILE * BSIZE -> fbyte d1 (v_look v1) o =
     if decide (off <= o < off + k) then nthZ 0 data (o - off) else fbyte d (v_look v) o) ->
  exists s' v', (d <- get_d ip ;; kwhen (d_size d <? off + k) (upd_d ip (set_size (off + k))) >>
      iupdate ip >> kret (i32 k)) s1 = Ret k s' /\
    written s v ip off n data s' v' /\ (full (f_sb s) v1 -> full (f_sb s) v').
Proof.
  intros k d d1 Hok HI Hsm Hoff Hk Hmax B Hal Hby. change (MAXFILE * BSIZE) with 274432 in Hmax.
  pose proof (bs_ok _ _ _ _ _ _ _ _ B) as Hok1. pose proof (bs_grows _ _ _ _ _ _ _ _ B) as G.
  destruct (bstep_sb _ _ _ _ _ _ _ _ B) as (Esb & _ & _).
  assert (d_size d1 = d_size d) as Esz by (unfold d1; by rewrite (gr_inode _ _ _ _ _ G)).
  assert (i_inum (iat s1 ip) = i_inum (iat s ip)) as Einum.
  { rewrite (bs_state _ _ _ _ _ _ _ _ B), iat_with_file; [done | apply Hok]. }
  assert (file_ok (f_sb s) (set_size (Z.max (d_size d1) (off + k)) d1) (v_look v1)) as Hf2.
  { pose proof (fo_size _ _ _ (fk_file _ _ _ _ _ Hok)) as Hm. fold d in Hm. change (MAXFILE * BSIZE) with 274432 in Hm.
    apply file_ok_size; [rewrite <- Esb; apply Hok1 | change (MAXFILE * BSIZE) with 274432; lia |].
    intros o Ho. apply Hal. lia. }
  destruct (small_room s1 v1 ip d1 1 (v_pin v ∪ bitmaps (f_sb s) ∪ fblocks d1 (v_look v1) off n) Hok1) as [Hr1 Hb1].
  { pose proof (size_fblocks d1 (v_look v1) off n ltac:(lia) ltac:(lia)).
    pose proof (size_union_le (v_pin v ∪ bitmaps (f_sb s)) (fblocks d1 (v_look v1) off n)). unfold small in *. lia. }
  { pose proof (bs_pin _ _ _ _ _ _ _ _ B). set_solver. }
  destruct (iupdate_end s1 v1 ip (off + k) (kret (i32 k)) Hok1) as (t & E & Ht); rewrite ?Esb, ?Einum; try done.
  { exact (iblock_kept _ _ _ _ _ _ Hok B HI). }
  rewrite Esb, Einum in Ht. fold d1 in E, Ht. eexists _, _. split_and!; [rewrite E; by rewrite i32_small by lia | | ].
  - apply written_end; try done. change (MAXFILE * BSIZE) with 274432. lia.
  - intros Hfull b Hb. cbn. rewrite (used_bupd lo hi); [by apply Hfull | apply Hok | done |].
    destruct HI as [I1 _ _]. unfold bmap_block. lia.
Qed.

(** C8: [writei] on a consistent file, from kernel memory or from the memory of the process, with
    room in the log and the cache for the blocks of the range: an offset behind the
    end, a range that wraps around or one that is longer than a file can be gives -1
    and changes nothing.  Otherwise the loop ends, and as many bytes as [writei]
    returns have replaced those of the file from [off] on, which is longer if need be;
    it returns less than [n] only when no block of the disk is free.  The inode on disk
    is the new one; the addresses are still distinct data blocks without holes;
    every file that shares no block with this one has the contents it had; and nothing is logged
    but the blocks of the range, the indirect block, the bitmap and the block of the inode. *)
Theorem writei_correct s v ip user src off n :
  let d := i_d (iat s ip) in
  fs_ok lo hi s v ip -> iblock_ok (f_sb s) v (i_inum (iat s ip)) -> 0 <= off < 2 ^ 32 -> 0 <= n < 2 ^ 32 ->
  readable pagetable (f_pm s) user src n -> small (nblk off n + 6) (v_pin v ∪ bitmaps (f_sb s)) ->
  if decide (off <= d_size d /\ off + n <= MAXFILE * BSIZE) then
    exists k s' v', writei pagetable ip user src off n s = Ret k s' /\ 0 <= k <= n /\ (k < n -> full (f_sb s) v') /\
      written s v ip off n (source pagetable (pm_mem (f_pm s)) user src k) s' v'
  else writei pagetable ip user src off n s = Ret (-1) s.
Proof.
  intros d Hok HI Hoff Hn Hrd Hsm. unfold writei.
  assert (get_d ip s = Ret d s) as Eg by done. rewrite (kbind_of _ _ _ _ _ Eg).
  change (MAXFILE * BSIZE) with 274432 in *. case_decide as Hc.
  2: { destruct (d_size d <? off) eqn:E1; zbool; [done |]. destruct (decide (off + n < 2 ^ 32)).
       - rewrite u32_small by lia. by replace (off + n <? off) with false by lia; replace (274432 <? off + n) with true by lia.
       - replace (u32 (off + n) <? off) with true; [done |].
         symmetry. apply Z.ltb_lt. unfold u32. replace (off + n) with (off + n - 2 ^ 32 + 1 * 2 ^ 32) by lia.
         rewrite Z_mod_plus_full, Z.mod_small; lia. }
  destruct Hc as [Hc1 Hc2]. rewrite u32_small by lia.
  replace (d_size d <? off) with false by lia. replace (off + n <? off) with false by lia.
  replace (274432 <? off + n) with false by lia. cbn [orb].
  pose proof (nblk_fuel off n ltac:(lia) ltac:(lia)) as Hfuel.
  destruct (writei_loop_ok (rw_fuel n) s v ip user src off n 0 (v_pin v ∪ bitmaps (f_sb s)))
    as (k & s1 & v1 & E & Hk & B & Hfull & Hal & Hby); rewrite ?Z.sub_0_r; try done; try lia; try set_solver.
  rewrite Z.sub_0_r, Z.add_0_l in *. cbv zeta in *. rewrite (kbind_of _ _ _ _ _ E). cbv beta iota.
  pose proof (writei_finish s v ip off n (source pagetable (pm_mem (f_pm s)) user src k) s1 v1) as Hfin.
  cbv zeta in Hfin. rewrite length_source in Hfin by lia.
  destruct Hfin as (s' & v' & E' & Hw & Hf); try done; try lia; [fold d; lia |].
  exists k, s', v'. split_and!; [exact E' | lia | lia | by intros; apply Hf, Hfull | done].
Qed.
End writei.

(** ** Witnesses: a new file on the disk of a small file system *)
From S2P Require Import Log BioProofs LogTxn.
From S2P Require Bio.

Definition wit_file : inode := Inode ROOTDEV 2 1 (Sleeplock 1 7) true (Dinode T_FILE 0 0 1 0 (replicate 13 0)).
Definition wit_fs3 : fsys (lst Bio.bst) := set_itable (updZ wit_table 0 wit_file) wit_fs.

Lemma wit_file_ok : file_ok wit_sb (i_d wit_file) (v_look (boot_view wit_disk)).
Proof.
  apply (file_ok_empty wit_sb (i_d wit_file)). split; [cbn; unfold T_FILE; lia.. | done | by repeat constructor].
Qed.

Lemma wit_fs_ok : fs_ok 2 32 wit_fs3 (boot_view wit_disk) 0.
Proof.
  split; [exact (new_txn wit_disk) | exact wit_sb_ok | exact wit_map_ok | done | vm_compute; split; [discriminate | reflexivity] | done |].
  exact wit_file_ok.
Qed.

Definition wit_layout3 : Layout := {| kend := 0x80100000; etext := 0x80008000; trampoline := 0x80007000 |}.

(** 1500 bytes of kernel memory fill two blocks. *)
Lemma writei_correct_witness :
  exists k s' v', writei 0 0 false 0x80200000 0 1500 wit_fs3 = Ret k s' /\
    written 2 32 wit_fs3 (boot_view wit_disk) 0 0 1500 (source 0 ∅ false 0x80200000 k) s' v'.
Proof.
  pose proof (writei_correct (L := wit_layout3) 2 32 0 wit_fs3 (boot_view wit_disk) 0 false 0x80200000 0 1500 wit_fs_ok) as H.
  cbv zeta in H. rewrite decide_True in H by (vm_compute; split; discriminate).
  destruct H as (k & s' & v' & E & _ & _ & Hw).
  - split; [vm_compute; split; [discriminate | reflexivity] | | vm_compute; reflexivity].
    vm_compute. split; [split; [discriminate | reflexivity] | right; discriminate].
  - lia.
  - lia.
  - split_and!; [lia | lia | discriminate].
  - vm_compute. discriminate.
  - exists k, s', v'. split; [exact E | exact Hw].
Defined.

(** A file of one block, 60. *)
Definition wit_disk_of (b : bytes) : gmap Z bytes :=
  {[45 := replicate 5 255 ++ [0x3f; 0; 0x10] ++ replicate 1016 0; 60 := b]}.
Definition wit_inode_of (ty sz : Z) : inode :=
  Inode ROOTDEV 2 1 (Sleeplock 1 7) true (Dinode ty 0 0 1 sz (60 :: replicate 12 0)).
Definition wit_fs_of (b : bytes) (ty sz : Z) (m : mem) : fsys (lst Bio.bst) :=
  Fsys ∅ [] (Lst ∅ [] new_log (b_boot (wit_disk_of b))) wit_sb [wit_inode_of ty sz] (Pm ∅ m 0) [].

Lemma wit_map_of b : map_ok wit_sb (boot_view (wit_disk_of b)).
Proof.
  split.
  - intros j [H1 H2]. change (sb_bmapstart wit_sb + sb_size wit_sb / BPB) with 45 in H2. cbn in H1.
    assert (j = 45) as -> by lia. vm_compute. done.
  - change (sb_bmapstart wit_sb + sb_size wit_sb / BPB) with 45. intros j Hj.
    assert (forallb (used wit_sb (v_look (boot_view (wit_disk_of b)))) (seqZ 0 46) = true) as Hall by (vm_compute; done).
    rewrite forallb_forall in Hall. apply Hall, list_elem_of_In, elem_of_seqZ. lia.
  - intros c bno Hc. cbn in Hc. by rewrite lookup_empty in Hc.
Qed.

Lemma wit_file_of b ty sz :
  length b = 1024%nat -> - 2 ^ 15 <= ty < 2 ^ 15 -> 0 <= sz <= 1024 ->
  file_ok wit_sb (i_d (wit_inode_of ty sz)) (v_look (boot_view (wit_disk_of b))).
Proof.
  intros Hlen Hty Hsz. set (d := i_d (wit_inode_of ty sz)). set (look := v_look (boot_view (wit_disk_of b))).
  assert (forall bn, 0 <= bn -> baddr d look bn = if bn =? 0 then 60 else 0) as Hb.
  { intros bn Hbn. unfold baddr. destruct (bn =? 0) eqn:E; zbool; [by subst |]. case_if; [| done].
    unfold d. cbn [wit_inode_of i_d d_addrs]. rewrite nthZ_cons by lia. unfold nthZ. case_if; [done |]. apply nth_replicate. }
  split.
  - split; [cbn; lia.. | done | by repeat constructor].
  - unfold d. cbn [wit_inode_of i_d d_size]. change (MAXFILE * BSIZE) with 274432. lia.
  - done.
  - intros bn H1. rewrite Hb by lia. case_if; [| done]. intros _.
    split; [change (sb_bmapstart wit_sb + sb_size wit_sb / BPB) with 45; cbn; lia | vm_compute; reflexivity | exact Hlen].
  - intros bn H1. rewrite Hb by lia. case_if; done.
  - intros bn bn' H1 H2. rewrite !Hb by lia. destruct (bn =? 0) eqn:E1, (bn' =? 0) eqn:E2; zbool; try done. by subst.
  - intros bn H1 H2. rewrite Hb by lia. unfold d in H2. cbn in H2. unfold BSIZE in H2. by replace (bn =? 0) with true by lia.
Qed.

Lemma wit_fs_ok_of b ty sz m :
  length b = 1024%nat -> - 2 ^ 15 <= ty < 2 ^ 15 -> 0 <= sz <= 1024 ->
  fs_ok 2 32 (wit_fs_of b ty sz m) (boot_view (wit_disk_of b)) 0.
Proof.
  intros H1 H2 H3.
  split; [exact (new_txn _) | exact wit_sb_ok | apply wit_map_of | done | done | done | by apply wit_file_of].
Qed.

(** 512 bytes of it. *)
Definition wit_fs4 : fsys (lst Bio.bst) := wit_fs_of (replicate 1024 7) T_FILE 512 ∅.
Abbreviation wit_view4 := (boot_view (wit_disk_of (replicate 1024 7))).

Lemma wit_fs_ok4 : fs_ok 2 32 wit_fs4 wit_view4 0.
Proof. apply wit_fs_ok_of; [done | unfold T_FILE; lia | lia]. Qed.

Lemma readi_correct_witness :
  exists t p, readi 0 0 false 0x80200000 500 100 wit_fs4 = Ret 12 (put_mem t p wit_fs4) /\
    p = Pm ∅ (wrbytes ∅ 0x80200000 (replicate 12 7)) 0.
Proof.
  pose proof (readi_correct (L := wit_layout3) 2 32 0 [] ∅ wit_fs4 wit_view4 0 false 0x80200000 500 100 wit_fs_ok4) as H.
  cbv zeta in H. rewrite decide_True in H by lia.
  assert (take (Z.to_nat 100) (drop (Z.to_nat 500) (contents (i_d (iat wit_fs4 0)) (v_look wit_view4))) = replicate 12 7)
    as E by (vm_compute; done).
  rewrite E in H. destruct H as (t & p & E1 & _ & Hd).
  - vm_compute. discriminate.
  - lia.
  - lia.
  - split_and!; [lia | cbn; lia | discriminate].
  - exists t, p. split; [exact E1 | exact Hd].
Defined.
