(* ===== verification/FsTrunc.v ===== *)
(** * itrunc

    Freeing a file: [itrunc] of kernel/fs.c gives back every block of the file and
    nothing else, within the log space of the bitmap and one inode. *)

From S2P Require Import Prelude Riscv Spinlock Mem CString Sleeplock Kalloc Vm VmProofs VmUser VmCopy Block BufCache.
From S2P Require Import TxnDisk Console Fs FsBlocks FsInode FsFile FsData.

(** ** A list of blocks is freed *)

Definition v_frees (sb : superblock) (l : list Z) (v : bview) : bview := foldl (fun v b => v_free sb b v) v l.

(** Distinct data blocks in use that nobody has locked. *)
Definition freeable (sb : superblock) (v : bview) (l : list Z) : Prop :=
  NoDup l /\ forall b, b ∈ l ->
    0 < b /\ sb_bmapstart sb + sb_size sb / BPB < b < sb_size sb /\ used sb (v_look v) b = true /\ free_block v b.

Lemma v_frees_get sb l bp a v : v_frees sb l (v_get bp a v) = v_get bp a (v_frees sb l v).
Proof. revert v. induction l as [| b l IH]; intros v; [done |]. exact (IH (v_free sb b v)). Qed.

Section trunc.
Context {T : Type} `{TD : TxnDisk T} (lo hi : Z).

Lemma freeable_cons sb v b l :
  sb_ok lo hi sb -> map_ok sb v -> freeable sb v (b :: l) -> map_ok sb (v_free sb b v) /\ freeable sb (v_free sb b v) l.
Proof.
  intros Hs Hm [[Hni Hnd]%NoDup_cons H]. destruct (H b) as (B1 & B2 & B3 & B4); [set_solver |].
  destruct (free_view lo hi sb b v Hs Hm ltac:(lia)) as (V1 & V2 & V3). split; [apply V3; [lia | done] |].
  split; [done |]. intros c Hc. destruct (H c) as (C1 & C2 & C3 & C4); [set_solver |].
  split_and!; [done | lia | lia | | done]. rewrite V1, C3 by lia.
  rewrite (proj2 (Z.eqb_neq c b)); [done |]. by intros ->.
Qed.

(** The bitmap without the blocks of [l]; nothing else changes. *)
Lemma frees_view sb l : forall v,
  sb_ok lo hi sb -> map_ok sb v -> freeable sb v l ->
  let v' := v_frees sb l v in
  map_ok sb v' /\
  (forall b, 0 <= b < sb_size sb -> used sb (v_look v') b = (bool_decide (b ∉ l) && used sb (v_look v) b)%bool) /\
  (forall j, ~ bmap_block sb j -> v_look v' j = v_look v j) /\
  v_own v' = v_own v /\ v_disk v' = v_disk v /\ v_pin v ⊆ v_pin v' ⊆ v_pin v ∪ bitmaps sb.
Proof.
  induction l as [| b l IH]; intros v Hs Hm Hf; cbv zeta.
  { cbn. split_and!; try done; try set_solver. }
  change (v_frees sb (b :: l) v) with (v_frees sb l (v_free sb b v)).
  destruct (freeable_cons sb v b l Hs Hm Hf) as [Hm1 Hf1]. destruct Hf as [_ Hf].
  destruct (Hf b) as (B1 & B2 & _); [set_solver |]. destruct (BBLOCK_block lo hi sb b Hs ltac:(lia)) as [Hbb _].
  destruct (free_view lo hi sb b v Hs Hm ltac:(lia)) as (V1 & V2 & _).
  destruct (IH (v_free sb b v) Hs Hm1 Hf1) as (I1 & I2 & I3 & I4 & I5 & I6 & I7). split_and!; try done.
  - intros c Hc. rewrite I2, V1 by done. destruct (c =? b) eqn:E; zbool.
    + subst c. rewrite (bool_decide_eq_false_2 (b ∉ b :: l)) by set_solver. by rewrite andb_false_r.
    + rewrite (bool_decide_ext (c ∉ b :: l) (c ∉ l)) by set_solver. done.
  - intros j Hj. rewrite I3, V2; [done | by intros -> | done].
  - etrans; [| exact I6]. cbn. set_solver.
  - pose proof (proj2 (elem_of_bitmaps lo hi sb _ Hs) Hbb). etrans; [exact I7 |]. cbn. set_solver.
Qed.

(** Buffers and log enough for one more block. *)
Definition room_in (P : gset Z) (v : bview) : Prop :=
  v_pin v ⊆ P /\ (size (v_own v) <= 1)%nat /\ small lo hi 3 P.

Lemma room_in_spec P v : room_in P v -> roomy 1 v /\ budget lo hi 1 v.
Proof.
  intros (H1 & H2 & H3). pose proof (subseteq_size _ _ H1). unfold small in H3. unfold roomy, budget. lia.
Qed.

Lemma bfree_run s v b l P :
  tsim lo hi (f_disk s) v -> sb_ok lo hi (f_sb s) -> map_ok (f_sb s) v -> freeable (f_sb s) v (b :: l) ->
  bitmaps (f_sb s) ⊆ P -> room_in P v ->
  exists t, bfree ROOTDEV b s = Ret tt (put_disk t s) /\ tsim lo hi t (v_free (f_sb s) b v) /\
    room_in P (v_free (f_sb s) b v).
Proof.
  intros Ht Hs Hm [_ Hf] HP Hr. destruct (Hf b) as (B1 & B2 & B3 & _); [set_solver |]. destruct (room_in_spec P v Hr) as [Hr1 Hb1].
  pose proof (bfree_ok lo hi s v b Ht Hs Hm Hr1 Hb1 ltac:(lia)) as H. cbv zeta in H. rewrite B3 in H.
  destruct H as (t & E & Ht'). exists t. split_and!; [done | done |].
  pose proof (proj2 (elem_of_bitmaps lo hi _ _ Hs) (proj1 (BBLOCK_block lo hi _ b Hs ltac:(lia)))).
  destruct Hr as (R1 & R2 & R3). split_and!; [cbn; set_solver | done | done].
Qed.

(** ** The two loops *)

Definition nonzero (l : list Z) : list Z := filter (fun a => a <> 0) l.

Lemma trunc_indirect_ok n : forall s v bp a j D P,
  let l := nonzero (get_ind D <$> seqZ j (Z.of_nat n)) in
  tsim lo hi (f_disk s) (v_get bp a v) -> v_look v a = D -> ~ bmap_block (f_sb s) a ->
  sb_ok lo hi (f_sb s) -> map_ok (f_sb s) (v_get bp a v) -> freeable (f_sb s) (v_get bp a v) l ->
  bitmaps (f_sb s) ⊆ P -> room_in P (v_get bp a v) ->
  exists t, trunc_indirect n ROOTDEV bp j s = Ret tt (put_disk t s) /\
    tsim lo hi t (v_get bp a (v_frees (f_sb s) l v)).
Proof.
  induction n as [| n IH]; intros s v bp a j D P l Ht HD Ha Hs Hm Hf HP Hr.
  { exists (f_disk s). by rewrite put_disk_id. }
  cbn [trunc_indirect]. rewrite bdata_step.
  rewrite (t_data_law lo hi _ _ bp a Ht) by (cbn; apply lookup_insert_eq). cbn [v_get v_look]. rewrite HD.
  unfold l in *. clear l. rewrite Nat2Z.inj_succ, seqZ_cons in * by lia. rewrite fmap_cons in *.
  replace (Z.pred (Z.succ (Z.of_nat n))) with (Z.of_nat n) in * by lia. unfold nonzero in *.
  destruct (get_ind D j =? 0) eqn:E; zbool; cbn [negb kwhen].
  - rewrite filter_cons_False in * by tauto. apply (IH s v bp a (Z.succ j) D P); done.
  - rewrite filter_cons_True in * by done. set (b := get_ind D j) in *. set (l := filter _ _) in *.
    destruct (bfree_run s _ b l P Ht Hs Hm Hf HP Hr) as (t & E1 & Ht1 & Hr1). rewrite (kbind_of _ _ _ _ _ E1).
    destruct (freeable_cons _ _ b l Hs Hm Hf) as [Hm1 Hf1].
    destruct (IH (put_disk t s) (v_free (f_sb s) b v) bp a (Z.succ j) D P) as (t' & E' & Ht'); try done.
    { destruct Hf as [_ Hf]. destruct (Hf b) as (B1 & B2 & _); [set_solver |].
      destruct (free_view lo hi (f_sb s) b _ Hs Hm ltac:(lia)) as (_ & V2 & _).
      rewrite <- HD. apply (V2 a). intros ->. apply Ha. apply (BBLOCK_block lo hi); [done | lia]. }
    exists t'. split; [exact E' | exact Ht'].
Qed.

Definition set_addrs (l : list Z) (d : dinode) : dinode :=
  Dinode (d_type d) (d_major d) (d_minor d) (d_nlink d) (d_size d) l.

Lemma addrs_next i x (r : list Z) : updZ (replicate i 0 ++ x :: r) (Z.of_nat i) 0 = replicate (S i) 0 ++ r.
Proof.
  unfold updZ. case_if; zbool; [lia |]. rewrite Nat2Z.id, insert_app_r_alt by (by rewrite length_replicate).
  rewrite length_replicate, Nat.sub_diag, replicate_S_end, <- app_assoc. done.
Qed.

Lemma trunc_direct_ok n : forall s v ip i A P,
  let d := i_d (iat s ip) in let l := nonzero (take n (drop i A)) in
  0 <= ip < Z.of_nat (length (f_inode s)) -> i_dev (iat s ip) = ROOTDEV ->
  (i + n = 12)%nat -> length A = 13%nat -> d_addrs d = replicate i 0 ++ drop i A ->
  tsim lo hi (f_disk s) v -> sb_ok lo hi (f_sb s) -> map_ok (f_sb s) v -> freeable (f_sb s) v l ->
  bitmaps (f_sb s) ⊆ P -> room_in P v ->
  exists t, trunc_direct n ip (Z.of_nat i) s =
      Ret tt (with_file s ip (set_addrs (replicate 12 0 ++ drop 12 A) d) t (f_msgs s)) /\
    tsim lo hi t (v_frees (f_sb s) l v).
Proof.
  induction n as [| n IH]; intros s v ip i A P d l Hip Hdev Hin HA Hd Ht Hs Hm Hf HP Hr.
  { exists (f_disk s). split; [| done]. replace 12%nat with i by lia. rewrite <- Hd.
    replace (set_addrs (d_addrs d) d) with d by (by destruct d). unfold d. rewrite with_file_same. by destruct s. }
  cbn [trunc_direct]. unfold get_inode. rewrite (kbind_of (kgets _) _ _ _ _ eq_refl), Hdev. fold d.
  destruct (lookup_lt_is_Some_2 A i ltac:(lia)) as [x Hx]. pose proof (drop_S A x i Hx) as Hdrop.
  unfold l in *. clear l. rewrite Hdrop in Hd, Hf |- *. cbn [take] in Hf |- *. unfold nonzero in *.
  assert (nthZ 0 (d_addrs d) (Z.of_nat i) = x) as ->.
  { rewrite Hd, nthZ_app, length_replicate. replace (Z.of_nat i <? Z.of_nat i) with false by lia. by rewrite Z.sub_diag. }
  replace (Z.of_nat i + 1) with (Z.of_nat (S i)) by lia.
  destruct (x =? 0) eqn:E; zbool; cbn [negb kwhen].
  - rewrite filter_cons_False in * by tauto. rewrite (kbind_of (kret _) _ _ _ _ eq_refl).
    apply (IH s v ip (S i) A P); try done; [lia |]. fold d. rewrite Hd, E. by rewrite replicate_S_end, <- app_assoc.
  - rewrite filter_cons_True in * by done. set (l := filter _ _) in *.
    destruct (bfree_run s _ x l P Ht Hs Hm Hf HP Hr) as (t & E1 & Ht1 & Hr1).
    rewrite kbind_assoc, (kbind_of _ _ _ _ _ E1).
    destruct (freeable_cons _ _ x l Hs Hm Hf) as [Hm1 Hf1].
    set (s1 := with_file s ip (set_addr (Z.of_nat i) 0 d) t (f_msgs s)).
    assert (iat s1 ip = set_d (set_addr (Z.of_nat i) 0 d) (iat s ip)) as Ei by (by apply iat_with_file).
    destruct (IH s1 (v_free (f_sb s) x v) ip (S i) A P) as (t' & E' & Ht'); rewrite ?Ei; try done; try lia.
    { cbn. by rewrite length_updZ. }
    { cbn [set_d set_addr i_d d_addrs]. rewrite Hd. apply addrs_next. }
    exists t'. split; [| exact Ht']. rewrite Ei in E'. unfold s1 in E'. rewrite with_file_twice in E' by done. exact E'.
Qed.

(** ** The blocks of a file, in the order in which [itrunc] frees them *)

Definition file_list (d : dinode) (look : Z -> bytes) : list Z :=
  nonzero (baddr d look <$> seqZ 0 MAXFILE) ++ nonzero [ind_addr d].

Lemma elem_of_nonzero l a : a ∈ nonzero l <-> a <> 0 /\ a ∈ l.
Proof. unfold nonzero. by rewrite list_elem_of_filter. Qed.

Lemma elem_of_file_list d look a : a ∈ file_list d look <-> file_block d look a.
Proof.
  unfold file_list, file_block. rewrite elem_of_app, !elem_of_nonzero, list_elem_of_fmap, list_elem_of_singleton.
  split.
  - intros [[H (bn & -> & Hbn%elem_of_seqZ)] | [H ->]]; (split; [done |]); [right; exists bn; split; [lia | done] | by left].
  - intros [H [-> | (bn & Hbn & ->)]]; [right; done |]. left. split; [done |]. exists bn. split; [done |]. apply elem_of_seqZ. lia.
Qed.

Lemma NoDup_nonzero (f : Z -> Z) l :
  NoDup l -> (forall x y, x ∈ l -> y ∈ l -> f x <> 0 -> f x = f y -> x = y) -> NoDup (nonzero (f <$> l)).
Proof.
  induction l as [| x l IH]; intros Hnd Hinj; [constructor |]. apply NoDup_cons in Hnd as [Hx Hnd].
  rewrite fmap_cons. unfold nonzero. assert (NoDup (nonzero (f <$> l))) as Hl.
  { apply IH; [done |]. intros y z Hy Hz. apply Hinj; set_solver. }
  destruct (decide (f x <> 0)) as [Hne | Hne]; [| by rewrite filter_cons_False].
  rewrite filter_cons_True by done. constructor; [| done]. intros [_ (y & Hy & Hyl)%list_elem_of_fmap]%elem_of_nonzero.
  apply Hx. rewrite (Hinj x y); set_solver.
Qed.

Lemma file_freeable sb d v : file_ok sb d (v_look v) -> v_own v = ∅ -> freeable sb v (file_list d (v_look v)).
Proof.
  intros Hf Ho. split.
  - unfold file_list. apply NoDup_app. split_and!.
    + apply NoDup_nonzero; [apply NoDup_seqZ |]. intros x y Hx%elem_of_seqZ Hy%elem_of_seqZ. apply (fo_inj _ _ _ Hf); lia.
    + intros a [Hne (bn & -> & Hbn%elem_of_seqZ)%list_elem_of_fmap]%elem_of_nonzero [_ Ha%list_elem_of_singleton]%elem_of_nonzero.
      revert Ha. apply (fo_ne _ _ _ Hf); [lia | done].
    + apply NoDup_filter, NoDup_singleton.
  - intros b Hb%elem_of_file_list. destruct (file_block_data _ _ _ _ Hf Hb) as [H1 H2 _].
    split_and!; [lia | lia | lia | done |]. intros c. by rewrite Ho, lookup_empty.
Qed.

(** The list as the loops run over it. *)
Lemma file_list_direct d look : length (d_addrs d) = 13%nat -> take 12 (d_addrs d) = baddr d look <$> seqZ 0 12.
Proof.
  intros H. destruct (d_addrs d) as [| a0 l] eqn:E; [done |].
  do 12 (destruct l as [| ? l]; [done |]). destruct l; [| done].
  cbn -[baddr]. unfold baddr. by rewrite E.
Qed.

Lemma file_list_indirect d look :
  ind_addr d <> 0 -> baddr d look <$> seqZ 12 256 = get_ind (look (ind_addr d)) <$> seqZ 0 256.
Proof.
  intros Hne. change (seqZ 12 256) with (seqZ (12 + 0) 256). rewrite <- (fmap_add_seqZ 12 0 256), <- list_fmap_compose.
  apply list_fmap_ext. intros i x [-> Hi]%lookup_seqZ. cbn [compose]. unfold baddr.
  replace (_ <? NDIRECT) with false by (unfold NDIRECT; lia). rewrite (proj2 (Z.eqb_neq _ _) Hne). f_equal. unfold NDIRECT. lia.
Qed.

Lemma file_list_split d look :
  length (d_addrs d) = 13%nat ->
  file_list d look = nonzero (take 12 (d_addrs d)) ++
    (if decide (ind_addr d = 0) then [] else nonzero (get_ind (look (ind_addr d)) <$> seqZ 0 256) ++ [ind_addr d]).
Proof.
  intros H. unfold file_list, nonzero. change (seqZ 0 MAXFILE) with (seqZ 0 (12 + 256)). rewrite seqZ_app by lia.
  rewrite fmap_app, filter_app, <- app_assoc, <- file_list_direct by done. f_equal.
  destruct (decide (ind_addr d = 0)) as [E | E].
  - rewrite filter_cons_False by tauto. rewrite filter_nil, app_nil_r.
    apply nil_length_inv. destruct (filter _ _) as [| x l] eqn:Ef; [done |].
    assert (x ∈ filter (fun a => a <> 0) (baddr d look <$> seqZ (0 + 12) 256)) as Hx by (rewrite Ef; set_solver).
    apply list_elem_of_filter in Hx as [Hne (bn & -> & Hbn%elem_of_seqZ)%list_elem_of_fmap].
    destruct Hne. unfold baddr. replace (bn <? NDIRECT) with false by (unfold NDIRECT; lia). by rewrite E.
  - rewrite filter_cons_True, filter_nil by done. by rewrite Z.add_0_l, file_list_indirect.
Qed.

Lemma freeable_app sb l' : forall l v,
  sb_ok lo hi sb -> map_ok sb v -> freeable sb v (l ++ l') -> freeable sb v l /\ freeable sb (v_frees sb l v) l'.
Proof.
  intros l. induction l as [| b l IH]; intros v Hs Hm Hf.
  { split; [| done]. split; [constructor | set_solver]. }
  destruct (freeable_cons sb v b (l ++ l') Hs Hm Hf) as [Hm1 Hf1]. destruct (IH _ Hs Hm1 Hf1) as [_ H2].
  split; [| exact H2]. destruct Hf as [Hnd Hf]. split; [| set_solver].
  apply (NoDup_app (b :: l)) in Hnd. apply Hnd.
Qed.

Lemma freeable_get sb v l bp a : freeable sb v l -> a ∉ l -> freeable sb (v_get bp a v) l.
Proof.
  intros [H1 H2] Ha. split; [done |]. intros b Hb. destruct (H2 b Hb) as (B1 & B2 & B3 & B4). split_and!; try done; try lia.
  intros c. cbn. intros [[_ <-] | [_ Hc]]%lookup_insert_Some; [done |]. by apply (B4 c).
Qed.

Lemma frees_room sb l v P :
  sb_ok lo hi sb -> map_ok sb v -> freeable sb v l -> bitmaps sb ⊆ P -> room_in P v -> room_in P (v_frees sb l v).
Proof.
  intros Hs Hm Hf HP (R1 & R2 & R3). destruct (frees_view sb l v Hs Hm Hf) as (_ & _ & _ & V4 & _ & _ & V6).
  split_and!; [set_solver | by rewrite V4 | done].
Qed.

(** The indirect block and what it lists. *)
Lemma trunc_ind s v ip P :
  let i := iat s ip in let a := ind_addr (i_d i) in let D := v_look v a in
  let l := nonzero (get_ind D <$> seqZ 0 256) ++ [a] in
  i_dev i = ROOTDEV -> tsim lo hi (f_disk s) v -> sb_ok lo hi (f_sb s) -> map_ok (f_sb s) v -> v_own v = ∅ ->
  freeable (f_sb s) v l -> bitmaps (f_sb s) ⊆ P -> small lo hi 3 P -> v_pin v ⊆ P ->
  exists t, (bp <- zoom (t_bread (i_dev i) a) ;;
      trunc_indirect (Z.to_nat NINDIRECT) (i_dev i) bp 0 >>
      zoom (t_brelse bp) >>
      bfree (i_dev i) a >>
      upd_d ip (set_addr NDIRECT 0)) s = Ret tt (with_file s ip (set_addr NDIRECT 0 (i_d i)) t (f_msgs s)) /\
    tsim lo hi t (v_frees (f_sb s) l v).
Proof.
  intros i a D l Hdev Ht Hs Hm Ho Hf HP Hsm Hpin. rewrite Hdev. set (l1 := nonzero _) in l.
  pose proof Hf as [Hnd Hfa]. destruct (Hfa a) as (A1 & A2 & A3 & A4); [set_solver |].
  assert (a ∉ l1) as Hna by (apply NoDup_app in Hnd; set_solver).
  assert (~ bmap_block (f_sb s) a) as Hnb by (unfold bmap_block; lia).
  assert (forall v', v_own v' = ∅ -> v_pin v' ⊆ P -> room_in P v') as Hroom.
  { intros v' Ho' Hp'. split_and!; [done | rewrite Ho', map_size_empty; lia | done]. }
  destruct (room_in_spec P v (Hroom v Ho Hpin)) as [Hr1 Hb1].
  destruct (freeable_app (f_sb s) [a] l1 v Hs Hm Hf) as [Hf1 Hf2].
  destruct (frees_view (f_sb s) l1 v Hs Hm Hf1) as (V1 & V2 & V3 & V4 & V5 & V6 & V7).
  destruct (t_open lo hi _ v a Ht) as (bp & t1 & E1 & Hob & Hk & Ht1 & _); [pose proof (sk_size _ _ _ Hs); lia | done | done |].
  dstep E1.
  destruct (trunc_indirect_ok (Z.to_nat NINDIRECT) (put_disk t1 s) v bp a 0 D P) as (t2 & E2 & Ht2); try done.
  { cbn [put_disk f_sb]. apply map_ok_get; try done. lia. }
  { by apply freeable_get. }
  { split_and!; [done | cbn; rewrite Ho; by rewrite insert_empty, map_size_singleton | done]. }
  rewrite (kbind_of _ _ _ _ _ E2).
  destruct (t_close lo hi t2 (v_frees (f_sb s) l1 v) bp a Ht2) as (t3 & E3 & Ht3).
  { by rewrite V4. }
  { destruct Hk as [Hk | Hk]; [left; by apply V6 | right; by rewrite V5, V3]. }
  dstep E3.
  destruct (bfree_run (put_disk t3 s) (v_frees (f_sb s) l1 v) a [] P) as (t4 & E4 & Ht4 & _); try done.
  { apply Hroom; [by rewrite V4 |]. etrans; [exact V7 | by apply union_least]. }
  erewrite kbind_of by exact E4. exists t4. split; [done |].
  unfold l, v_frees. rewrite foldl_app. exact Ht4.
Qed.

(** ** [itrunc] *)

(** The file is empty, its blocks are free, and everything else is as it was. *)
Record truncated (s : fsys T) (v : bview) (ip : Z) (s' : fsys T) (v' : bview) : Prop := {
  tr_state : s' = with_file s ip (empty_inode (i_d (iat s ip))) (f_disk s') (f_msgs s);
  tr_ok : fs_ok lo hi s' v' ip;
  tr_used : forall b, 0 <= b < sb_size (f_sb s) ->
    used (f_sb s) (v_look v') b = true <-> used (f_sb s) (v_look v) b = true /\ ~ file_block (i_d (iat s ip)) (v_look v) b;
  tr_disk : disk_inode (f_sb s) v' (i_inum (iat s ip)) = empty_inode (i_d (iat s ip));
  tr_others : forall d, file_ok (f_sb s) d (v_look v) ->
    (forall a, file_block d (v_look v) a -> ~ file_block (i_d (iat s ip)) (v_look v) a) ->
    file_ok (f_sb s) d (v_look v') /\ contents d (v_look v') = contents d (v_look v);
  tr_log : v_pin v' ⊆ v_pin v ∪ bitmaps (f_sb s) ∪ {[IBLOCK (i_inum (iat s ip)) (f_sb s)]};
}.

Lemma addrs_last A : length A = 13%nat -> drop 12 A = [nthZ 0 A NDIRECT].
Proof. destruct A as [| ? l]; [done |]. do 12 (destruct l as [| ? l]; [done |]). by destruct l. Qed.

(** Both loops. *)
Lemma trunc_blocks {A} s v ip P (c : K (fsys T) A) :
  let i := iat s ip in let d := i_d i in
  fs_ok lo hi s v ip -> bitmaps (f_sb s) ⊆ P -> small lo hi 3 P -> v_pin v ⊆ P ->
  exists t, (trunc_direct (Z.to_nat NDIRECT) ip 0 >>
      i <- get_inode ip ;;
      let a := nthZ 0 (d_addrs (i_d i)) NDIRECT in
      kwhen (negb (a =? 0))
        (bp <- zoom (t_bread (i_dev i) a) ;;
         trunc_indirect (Z.to_nat NINDIRECT) (i_dev i) bp 0 >>
         zoom (t_brelse bp) >>
         bfree (i_dev i) a >>
         upd_d ip (set_addr NDIRECT 0)) >>
      c) s = c (with_file s ip (set_addrs (replicate 13 0) d) t (f_msgs s)) /\
    tsim lo hi t (v_frees (f_sb s) (file_list d (v_look v)) v).
Proof.
  intros i d Hok HP Hsm Hpin. pose proof Hok as [H1 H2 H3 H4 H5 H6 H7]. pose proof (do_addrs _ (fo_inode _ _ _ H7)) as HA.
  pose proof (file_freeable (f_sb s) d v H7 H4) as Hfr. rewrite file_list_split in Hfr |- * by done.
  destruct (freeable_app (f_sb s) _ _ v H2 H3 Hfr) as [Hf1 Hf2].
  destruct (frees_view (f_sb s) _ v H2 H3 Hf1) as (V1 & _ & V3 & V4 & _ & _ & V7).
  destruct (trunc_direct_ok 12 s v ip 0 (d_addrs d) P) as (t1 & E1 & Ht1); try done.
  { split_and!; [done | rewrite H4, map_size_empty; lia | done]. }
  cbn [Z.of_nat drop] in E1. rewrite drop_0 in Ht1. set (l1 := nonzero (take 12 (d_addrs d))) in *.
  assert (drop 12 (d_addrs d) = [ind_addr d]) as Ed.
  { by apply addrs_last. }
  rewrite Ed in E1. change (i_d (iat s ip)) with d in E1. set (d1 := set_addrs (replicate 12 0 ++ [ind_addr d]) d) in *.
  rewrite (kbind_of _ _ _ _ _ E1). set (s1 := with_file s ip d1 t1 (f_msgs s)) in *.
  assert (iat s1 ip = set_d d1 i) as Ei by (by apply iat_with_file).
  unfold get_inode. rewrite (kbind_of (kgets _) _ _ _ _ eq_refl), Ei. cbn [set_d i_d i_dev].
  change (nthZ 0 (d_addrs d1) NDIRECT) with (ind_addr d). destruct (decide (ind_addr d = 0)) as [E0 | E0].
  - rewrite E0. exists t1. split; [| by rewrite app_nil_r]. erewrite kbind_of by (cbn; reflexivity). unfold s1, d1. by rewrite E0.
  - rewrite (proj2 (Z.eqb_neq _ _) E0). cbn [negb kwhen].
    assert (v_look (v_frees (f_sb s) l1 v) (ind_addr d) = v_look v (ind_addr d)) as ED.
    { apply V3. by eapply data_not_bmap, (fo_ind _ _ _ H7). }
    destruct (trunc_ind s1 (v_frees (f_sb s) l1 v) ip P) as (t & E & Ht); rewrite ?Ei; try done.
    + by rewrite V4.
    + change (f_sb s1) with (f_sb s). change (ind_addr (i_d (set_d d1 i))) with (ind_addr d). by rewrite ED.
    + etrans; [exact V7 | by apply union_least].
    + rewrite Ei in E, Ht. change (ind_addr (i_d (set_d d1 i))) with (ind_addr d) in E, Ht. cbn [set_d i_d i_dev] in E.
      exists t. split.
      * etrans; [exact (kbind_of _ _ _ _ _ E) |]. unfold s1. by rewrite with_file_twice by done.
      * rewrite ED in Ht. unfold v_frees in *. rewrite foldl_app. exact Ht.
Qed.

(** From the freed blocks to the inode on disk. *)
Lemma truncated_end s v ip t :
  let inum := i_inum (iat s ip) in let d := i_d (iat s ip) in
  let v1 := v_frees (f_sb s) (file_list d (v_look v)) v in let v2 := v_iupdate (f_sb s) v1 inum (empty_inode d) in
  fs_ok lo hi s v ip -> iblock_ok lo hi (f_sb s) v inum -> tsim lo hi t v2 ->
  truncated s v ip (with_file s ip (empty_inode d) t (f_msgs s)) v2.
Proof.
  intros inum d v1 v2 Hok HI Ht. pose proof Hok as [H1 H2 H3 H4 H5 H6 H7]. pose proof HI as [I1 I2 I3].
  destruct (frees_view (f_sb s) _ v H2 H3 (file_freeable _ _ _ H7 H4)) as (V1 & V2 & V3 & V4 & _ & _ & V7).
  fold d in V1, V2, V3, V4, V7. fold v1 in V1, V2, V3, V4, V7.
  assert (~ bmap_block (f_sb s) (IBLOCK inum (f_sb s))) as Hnb by (unfold bmap_block; lia).
  assert (iat (with_file s ip (empty_inode d) t (f_msgs s)) ip = set_d (empty_inode d) (iat s ip)) as Ei by (by apply iat_with_file).
  pose proof (file_ok_empty (f_sb s) d (v_look v2) (fo_inode _ _ _ H7)) as Hfe.
  split; rewrite ?Ei.
  - done.
  - split; rewrite ?Ei; try done; [by apply (map_ok_log lo hi) | exact (eq_trans V4 H4) | cbn; by rewrite length_updZ].
  - intros b Hb. cbn [v_look v_log v_iupdate v2]. rewrite (used_bupd lo hi), V2 by done.
    rewrite andb_true_iff, bool_decide_eq_true, elem_of_file_list. tauto.
  - apply v_iupdate_same; [apply (fo_inode _ _ _ Hfe) | by rewrite V3].
  - intros d' Hd' Hdis. apply file_frame; [done |]. intros a Ha.
    pose proof (file_block_data _ _ _ _ Hd' Ha) as Hdb. pose proof Hdb as [Ha1 Ha2 _]. pose proof (data_not_bmap _ _ _ Hdb).
    pose proof (iblock_not_file lo hi _ _ _ _ _ _ H2 Hd' HI Ha).
    cbn [v_look v_log v_iupdate v2]. rewrite (used_bupd lo hi), bupd_ne, V2, V3, Ha2 by (done || lia).
    split; [done |]. rewrite andb_true_r, bool_decide_eq_true, elem_of_file_list. by apply Hdis.
  - cbn [v_pin v_log v_iupdate v2]. fold inum. set_solver.
Qed.

(** C11: [itrunc] of a consistent file returns: it never frees a block twice, and
    afterwards exactly the blocks of the file, with its indirect block, have become free; the inode, in memory
    and on disk, has size 0 and no addresses; every other file has the contents it had;
    and whatever the size of the file, nothing is logged but the bitmap and the block of the
    inode. *)
Theorem itrunc_correct s v ip :
  fs_ok lo hi s v ip -> iblock_ok lo hi (f_sb s) v (i_inum (iat s ip)) -> small lo hi 3 (v_pin v ∪ bitmaps (f_sb s)) ->
  wp (itrunc ip) s (fun _ s' => exists v', truncated s v ip s' v').
Proof.
  intros Hok HI Hsm. pose proof Hok as [H1 H2 H3 H4 H5 H6 H7]. pose proof HI as [I1 I2 I3].
  destruct (trunc_blocks s v ip (v_pin v ∪ bitmaps (f_sb s)) (upd_d ip (set_size 0) >> iupdate ip) Hok) as (t & E & Ht);
    [set_solver | done | set_solver |].
  destruct (frees_view (f_sb s) _ v H2 H3 (file_freeable _ _ _ H7 H4)) as (V1 & V2 & V3 & V4 & _ & _ & V7).
  set (d := i_d (iat s ip)) in *. set (v1 := v_frees _ _ _) in *.
  set (s1 := with_file s ip (set_addrs (replicate 13 0) d) t (f_msgs s)) in *.
  set (s2 := with_file s ip (empty_inode d) t (f_msgs s)).
  assert (iat s2 ip = set_d (empty_inode d) (iat s ip)) as Ei by (by apply iat_with_file).
  assert (upd_d ip (set_size 0) s1 = Ret tt s2) as E2.
  { unfold upd_d, upd_inode, kmod, s1, s2. rewrite iat_with_file by done. unfold with_file, set_itable. cbn. by rewrite updZ_updZ. }
  assert (room_in (v_pin v ∪ bitmaps (f_sb s)) v1) as Hr by (split_and!; [done | rewrite V4, H4, map_size_empty; lia | done]).
  destruct (room_in_spec _ _ Hr) as [Hr1 Hb1].
  destruct (iupdate_ok lo hi s2 v1 ip) as (t' & E3 & Ht'); [done | | done | done |].
  { split; rewrite ?Ei; try done; [cbn; by rewrite length_updZ | intros c; by rewrite V4, H4, lookup_empty |].
    cbn [set_d i_inum]. change (f_sb s2) with (f_sb s). rewrite V3; [done |]. unfold bmap_block. lia. }
  apply (wp_of _ _ tt (put_disk t' s2)).
  - unfold itrunc. etrans; [exact E |]. rewrite (kbind_of _ _ _ _ _ E2). exact E3.
  - rewrite Ei in Ht'. eexists. by apply (truncated_end s v ip t').
Qed.
End trunc.

(** ** Witness: the file of 512 bytes *)
From S2P Require Import Log BioProofs LogTxn.
From S2P Require Bio.

Lemma itrunc_correct_witness :
  exists s' v', itrunc 0 wit_fs4 = Ret tt s' /\ truncated 2 32 wit_fs4 wit_view4 0 s' v' /\
    used wit_sb (v_look v') 60 = false.
Proof.
  pose proof (itrunc_correct 2 32 wit_fs4 wit_view4 0 wit_fs_ok4) as H.
  destruct (wp_inv _ _ _ (H
    ltac:(split; [vm_compute; split; [discriminate | reflexivity]
      | vm_compute; split; [split; [discriminate | reflexivity] | right; discriminate] | vm_compute; reflexivity])
    ltac:(vm_compute; discriminate))) as ([] & s' & E & v' & Ht).
  exists s', v'. split_and!; [exact E | exact Ht |]. apply not_true_iff_false.
  intros [_ Hn]%(tr_used _ _ _ _ _ _ _ Ht); [| vm_compute; split; [discriminate | reflexivity]].
  apply Hn. split; [done |]. right. exists 0. split; [change MAXFILE with 268; lia | reflexivity].
Defined.
