(* ===== verification/FsDir.v ===== *)
(** * Directories: dirlookup

    A directory is a file of 16-byte entries, an inode number and a name of at most 14 bytes;
    [dirlookup] of kernel/fs.c reads them one by one through [readi]. *)

From S2P Require Import Prelude Riscv Spinlock Mem CString Sleeplock Kalloc Vm VmProofs VmUser VmCopy Block BufCache.
From S2P Require Import TxnDisk Console Fs FsBlocks FsInode FsFile FsData.

(** Entry [k] of a directory with contents [c]. *)
Definition dent_inum (c : bytes) (k : Z) : Z := get16 c (DIRENT_SIZE * k).
Definition dent_name (c : bytes) (k : Z) : bytes :=
  cprefix (fun i => nthZ 0 c (DIRENT_SIZE * k + 2 + Z.of_nat i)) 0 (Z.to_nat DIRSIZ).

(** The first of the [n] entries from [k] on that is in use and has the name. *)
Fixpoint dir_find (nm c : bytes) (k : Z) (n : nat) : option Z :=
  match n with
  | O => None
  | S n =>
      if bool_decide (dent_inum c k <> 0 /\ dent_name c k = nm) then Some k else dir_find nm c (k + 1) n
  end.

(** What memory holds after the bytes of an entry have been copied there. *)
Lemma nthZ_byte l i : bytes_ok l -> 0 <= i < Z.of_nat (length l) -> byte_ok (nthZ 0 l i).
Proof.
  intros Hok Hi. unfold nthZ. replace (i <? 0) with false by lia.
  apply (proj1 (List.Forall_forall _ l) Hok), List.nth_In. lia.
Qed.

Lemma ld8_copied m a l o :
  bytes_ok l -> 0 <= o < Z.of_nat (length l) -> ld8 (wrbytes m a l) (a + o) = nthZ 0 l o.
Proof.
  intros Hok Ho. rewrite ld8_wrbytes, decide_True by lia. replace (a + o - a) with o by lia.
  pose proof (nthZ_byte l o Hok Ho) as H. unfold nthZ in *. replace (o <? 0) with false in * by lia. by apply u8_small.
Qed.

Section dir.
Context {T : Type} `{TD : TxnDisk T} `{L : Layout} (lo hi : Z) (pagetable : Z) (de : Z).

(** A read that the file has all bytes of, into the kernel. *)
Lemma readi_whole (s : fsys T) v ip dst off n :
  let d := i_d (iat s ip) in
  fs_ok lo hi s v ip -> roomy 1 v -> 0 <= off -> 0 <= n -> off + n <= d_size d -> 0 <= dst -> dst + n < 2 ^ 64 ->
  exists t, readi pagetable ip false dst off n s =
      Ret n (put_mem t (Pm (pm_held (f_pm s)) (wrbytes (pm_mem (f_pm s)) dst (fbytes d (v_look v) off n)) (freelist (f_pm s))) s) /\
    tsim lo hi t v.
Proof.
  intros d Hok Hr Hoff Hn Hsz Hd1 Hd2. pose proof (fk_file _ _ _ _ _ Hok) as Hf.
  pose proof (fo_size _ _ _ Hf) as Hmax. fold d in Hmax. change (MAXFILE * BSIZE) with 274432 in Hmax.
  unfold readi, get_d. rewrite (kbind_of (kgets _) _ _ _ _ eq_refl). fold d. rewrite u32_small by lia.
  replace (d_size d <? off) with false by lia. replace (off + n <? off) with false by lia.
  replace (d_size d <? off + n) with false by lia. cbn [orb].
  pose proof (readi_loop_ok lo hi pagetable [] ∅ (rw_fuel n) s v ip false dst off n 0) as H. rewrite Z.sub_0_r in H.
  destruct H as (t & p & E & Ht & Hdel); try done; try lia; [apply nblk_fuel; lia |].
  cbn [delivered] in Hdel. subst p. by exists t.
Qed.

(** The entry that is now at [de], and the name that has been looked for. *)
Lemma entry_read m d look k name :
  let c := contents d look in let m' := wrbytes m de (fbytes d look (DIRENT_SIZE * k) DIRENT_SIZE) in
  0 <= k -> DIRENT_SIZE * k + DIRENT_SIZE <= d_size d -> bytes_ok c -> name + DIRSIZ <= de \/ de + DIRENT_SIZE <= name ->
  ld16 m' de = dent_inum c k /\ same_outside de (de + DIRENT_SIZE) m m' /\
  (namecmp (at_mem m' name) (at_mem m' (de + 2)) =? 0) =
    bool_decide (dent_name c k = cprefix (at_mem m name) 0 (Z.to_nat DIRSIZ)).
Proof.
  intros c m' Hk Hsz Hok Hdis. unfold DIRENT_SIZE, DIRSIZ in *. set (l := fbytes d look (16 * k) 16) in *.
  assert (length l = 16%nat) as Hlen by (unfold l; by rewrite length_fbytes).
  assert (forall i, 0 <= i < 16 -> nthZ 0 l i = nthZ 0 c (16 * k + i)) as Hl.
  { intros i Hi. unfold l, c, contents. rewrite !nthZ_fbytes by lia. done. }
  assert (bytes_ok l) as Hlok.
  { apply List.Forall_forall. intros x Hx. apply (List.In_nth _ _ 0) in Hx as (i & Hi & <-).
    pose proof (Hl (Z.of_nat i) ltac:(lia)) as E. unfold nthZ at 1 in E. rewrite (proj2 (Z.ltb_ge _ _)), Nat2Z.id in E by lia.
    rewrite E. apply nthZ_byte; [done |]. unfold c, contents. rewrite length_fbytes. lia. }
  assert (forall i, 0 <= i < 16 -> ld8 m' (de + i) = nthZ 0 c (16 * k + i)) as Hld.
  { intros i Hi. unfold m'. rewrite ld8_copied by (done || lia). by apply Hl. }
  assert (same_outside de (de + 16) m m') as Hout.
  { intros b Hb. unfold m'. rewrite ld8_wrbytes, decide_False by lia. done. }
  split_and!; [| done |].
  - unfold ld16, dent_inum, get16, DIRENT_SIZE. cbn [ldn getn].
    pose proof (Hld 0 ltac:(lia)) as E0. rewrite !Z.add_0_r in E0. rewrite E0, (Hld 1) by lia. done.
  - assert (cprefix (at_mem m' (de + 2)) 0 14 = dent_name c k) as E1.
    { apply cprefix_ext. intros j Hj. change (Z.to_nat DIRSIZ) with 14%nat in Hj. unfold at_mem. replace (de + 2 + Z.of_nat j) with (de + (2 + Z.of_nat j)) by lia.
      rewrite Hld by lia. unfold DIRENT_SIZE. f_equal. lia. }
    assert (cprefix (at_mem m' name) 0 14 = cprefix (at_mem m name) 0 14) as E2.
    { apply cprefix_ext. intros j Hj. apply Hout. lia. }
    change (Z.to_nat 14) with 14%nat. rewrite <- E1, <- E2. unfold namecmp. change (Z.to_nat DIRSIZ) with 14%nat.
    destruct (strncmp _ _ 0 14 =? 0) eqn:E; zbool; symmetry.
    + apply bool_decide_eq_true_2. symmetry. by apply strncmp_eq0.
    + apply bool_decide_eq_false_2. intros H. apply E, strncmp_eq0. congruence.
Qed.

(** The buffer [de] on the stack, and the name elsewhere. *)
Record dir_args (name : Z) : Prop := {
  da_de : 0 <= de /\ de + DIRENT_SIZE < 2 ^ 64;
  da_name : name + DIRSIZ <= de \/ de + DIRENT_SIZE <= name;
}.

Lemma dirlookup_loop_ok n : forall fuel s v dp name k,
  let d := i_d (iat s dp) in let c := contents d (v_look v) in
  let nm := cprefix (at_mem (pm_mem (f_pm s)) name) 0 (Z.to_nat DIRSIZ) in
  fs_ok lo hi s v dp -> roomy 1 v -> bytes_ok c -> dir_args name -> 0 <= k ->
  DIRENT_SIZE * (k + Z.of_nat n) = d_size d -> (n < fuel)%nat ->
  exists t m', tsim lo hi t v /\ same_outside de (de + DIRENT_SIZE) (pm_mem (f_pm s)) m' /\
    let s' := put_mem t (Pm (pm_held (f_pm s)) m' (freelist (f_pm s))) s in
    dirlookup_loop pagetable de fuel dp name (DIRENT_SIZE * k) s =
      match dir_find nm c k n with
      | Some j => (ip <- iget ROOTDEV (dent_inum c j) ;; kret (ip, DIRENT_SIZE * j)) s'
      | None => Ret (null, 0) s'
      end.
Proof.
  induction n as [| n IH]; intros fuel s v dp name k d c nm Hok Hr Hc Ha Hk Hsz Hf; (destruct fuel as [| fuel]; [lia |]);
    cbn [dirlookup_loop dir_find]; unfold get_inode; rewrite (kbind_of (kgets _) _ _ _ _ eq_refl), (fk_dev _ _ _ _ _ Hok); fold d.
  { replace (DIRENT_SIZE * k <? d_size d) with false by lia. exists (f_disk s), (pm_mem (f_pm s)).
    split_and!; [apply Hok | done |]. cbv zeta. unfold put_mem. by destruct s as [? ? ? ? ? [] ?]. }
  pose proof (fo_size _ _ _ (fk_file _ _ _ _ _ Hok)) as Hmax. fold d in Hmax. change (MAXFILE * BSIZE) with 274432 in Hmax.
  pose proof Ha as [Ha1 Ha2]. unfold DIRENT_SIZE in *.
  replace (16 * k <? d_size d) with true by lia.
  destruct (readi_whole s v dp de (16 * k) 16 Hok Hr) as (t & E & Ht); [lia | lia | fold d; lia | lia | lia |]. fold d in E.
  rewrite (kbind_of _ _ _ _ _ E). change (negb (16 =? 16)) with false. cbv iota.
  set (m1 := wrbytes _ _ _) in *. set (s1 := put_mem _ _ s) in *.
  rewrite (kbind_of fmem _ s1 m1 s1 eq_refl).
  destruct (entry_read (pm_mem (f_pm s)) d (v_look v) k name Hk) as (R1 & R2 & R3); [unfold DIRENT_SIZE; lia | done | done |].
  unfold DIRENT_SIZE in R1, R2, R3. fold m1 c in R1, R2, R3. rewrite R1, R3. fold nm.
  assert (forall fuel', (n < fuel')%nat -> exists t m', tsim lo hi t v /\ same_outside de (de + 16) (pm_mem (f_pm s)) m' /\
    let s' := put_mem t (Pm (pm_held (f_pm s)) m' (freelist (f_pm s))) s in
    dirlookup_loop pagetable de fuel' dp name (u32 (16 * k + 16)) s1 =
      match dir_find nm c (k + 1) n with
      | Some j => (ip <- iget ROOTDEV (dent_inum c j) ;; kret (ip, 16 * j)) s'
      | None => Ret (null, 0) s'
      end) as Hnext.
  { intros fuel' Hf'. rewrite u32_small by lia. replace (16 * k + 16) with (16 * (k + 1)) by lia.
    destruct (IH fuel' s1 v dp name (k + 1)) as (t' & m' & Ht' & Ho' & E'); try done; try lia;
      [by apply (fs_ok_disk lo hi s) | change (i_d (iat s1 dp)) with d; lia |].
    assert (cprefix (at_mem m1 name) 0 (Z.to_nat DIRSIZ) = nm) as Enm.
    { apply cprefix_ext. intros j Hj. apply R2. change (Z.to_nat DIRSIZ) with 14%nat in Hj. unfold DIRSIZ in Ha2. lia. }
    change (pm_mem (f_pm s1)) with m1 in Ho', E'. rewrite Enm in E'.
    exists t', m'. split_and!; [done | intros b Hb; rewrite Ho' by done; by apply R2 | exact E']. }
  destruct (dent_inum c k =? 0) eqn:E0; zbool.
  - rewrite bool_decide_eq_false_2 by tauto. apply Hnext. lia.
  - destruct (decide (dent_name c k = nm)) as [En | En].
    + rewrite !bool_decide_eq_true_2 by done. by exists t, m1.
    + rewrite !bool_decide_eq_false_2 by tauto. apply Hnext. lia.
Qed.

(** C26: [dirlookup] in a consistent directory whose size is a whole number of entries: it
    does not panic, and what it does is [iget] of the number in the first entry that is in use and
    whose name is the one looked for, up to 14 bytes or a NUL, with the offset of this
    entry; when there is none it returns no inode.  Besides that it changes nothing but the
    buffer for an entry on the stack. *)
Theorem dirlookup_correct s v dp name :
  let d := i_d (iat s dp) in let c := contents d (v_look v) in
  let nm := cprefix (at_mem (pm_mem (f_pm s)) name) 0 (Z.to_nat DIRSIZ) in
  fs_ok lo hi s v dp -> roomy 1 v -> bytes_ok c -> dir_args name -> d_type d = T_DIR -> d_size d mod DIRENT_SIZE = 0 ->
  exists t m', tsim lo hi t v /\ same_outside de (de + DIRENT_SIZE) (pm_mem (f_pm s)) m' /\
    let s' := put_mem t (Pm (pm_held (f_pm s)) m' (freelist (f_pm s))) s in
    dirlookup pagetable de dp name s =
      match dir_find nm c 0 (Z.to_nat (d_size d / DIRENT_SIZE)) with
      | Some j => (ip <- iget ROOTDEV (dent_inum c j) ;; kret (ip, DIRENT_SIZE * j)) s'
      | None => Ret (null, 0) s'
      end.
Proof.
  intros d c nm Hok Hr Hc Ha Hty Hmod. pose proof (do_size _ (fo_inode _ _ _ (fk_file _ _ _ _ _ Hok))) as Hsz. fold d in Hsz.
  unfold dirlookup, get_inode. rewrite (kbind_of (kgets _) _ _ _ _ eq_refl). fold d. rewrite Hty. cbv iota zeta.
  assert (0 <= d_size d / DIRENT_SIZE) by (apply Z.div_pos; [lia | done]).
  destruct (dirlookup_loop_ok (Z.to_nat (d_size d / DIRENT_SIZE)) (Z.to_nat (d_size d / DIRENT_SIZE + 2)) s v dp name 0)
    as (t & m' & Ht & Ho & E); try done; try lia.
  { fold d. rewrite Z.add_0_l, Z2Nat.id by done. unfold DIRENT_SIZE in *. dlia. }
  exists t, m'. split_and!; [done | done |]. exact E.
Qed.
End dir.

(** ** Witness: a directory with a free entry and one named [.] *)
From S2P Require Import Log BioProofs LogTxn.
From S2P Require Bio.

Definition wit_dir : bytes := replicate 16 0 ++ [1; 0; 46] ++ replicate 1005 0.
Definition wit_fs5 : fsys (lst Bio.bst) := wit_fs_of wit_dir T_DIR 32 (wrbytes ∅ 1000 [46; 0]).

Lemma dirlookup_correct_witness :
  exists s', dirlookup 0 2000 0 1000 wit_fs5 = (ip <- iget ROOTDEV 1 ;; kret (ip, 16)) s'.
Proof.
  destruct (dirlookup_correct (L := wit_layout3) 2 32 0 2000 wit_fs5 (boot_view (wit_disk_of wit_dir)) 0 1000) as (t & m & _ & _ & E).
  - apply wit_fs_ok_of; [done | unfold T_DIR; lia | lia].
  - vm_compute. discriminate.
  - apply List.Forall_forall.
    assert (forallb (fun b => (0 <=? b) && (b <? 256))%bool (contents (i_d (iat wit_fs5 0)) (v_look (boot_view (wit_disk_of wit_dir)))) = true)
      as H by (vm_compute; reflexivity).
    rewrite forallb_forall in H. intros x Hx. specialize (H x Hx). unfold byte_ok. lia.
  - split; unfold DIRENT_SIZE, DIRSIZ; lia.
  - reflexivity.
  - reflexivity.
  - cbv zeta in E. rewrite E.
    assert (dir_find (cprefix (at_mem (pm_mem (f_pm wit_fs5)) 1000) 0 (Z.to_nat DIRSIZ))
      (contents (i_d (iat wit_fs5 0)) (v_look (boot_view (wit_disk_of wit_dir)))) 0
      (Z.to_nat (d_size (i_d (iat wit_fs5 0)) / DIRENT_SIZE)) = Some 1) as -> by (vm_compute; reflexivity).
    eexists. reflexivity.
Defined.
