(* ===== verification/Proc.v ===== *)
(** * kernel/proc.c: processes

    The process table, its locks, and every operation on it.  A
    [struct proc *] is the index in the table and [-1] the null pointer; the
    channels of [sleep] and [wakeup] are numbers, [proc_chan] for the ones
    that are pointers to processes.  [swtch], which is assembly, is a
    parameter: what happens until this process runs again (or, in
    [scheduler], until the chosen process gives the CPU back).  The file
    layer is reached through the class [FileOps]. *)

From S2P Require Import Prelude Riscv Spinlock Sleeplock Mem CString Kalloc Vm Block Uart Console Printf.

Inductive procstate := UNUSED | USED | SLEEPING | RUNNABLE | RUNNING | ZOMBIE.

#[export] Instance procstate_eq_dec : EqDecision procstate.
Proof. solve_decision. Defined.

Definition is_state (a b : procstate) : bool := bool_decide (a = b).

Record context := Context {
  ctx_ra : Z;
  ctx_sp : Z;
  ctx_s : list Z;   (* s0 to s11 *)
}.

Record proc := Proc {
  p_state : procstate;
  p_chan : Z;
  p_killed : Z;
  p_xstate : Z;
  p_pid : Z;
  p_parent : Z;
  p_kstack : Z;
  p_sz : Z;
  p_pagetable : Z;
  p_trapframe : Z;
  p_context : context;
  p_ofile : list Z;
  p_cwd : Z;
  p_name : bytes;
  p_trace_mask : Z;
}.

Definition nullp : Z := -1.
Definition context0 : context := Context 0 0 (replicate 12 0).
Definition proc0 : proc :=
  Proc UNUSED 0 0 0 0 nullp 0 0 0 0 context0 (replicate (Z.to_nat NOFILE) nullp) nullp (replicate 16 0) 0.

(** Setters, one per assignment of the code. *)
Definition set_state x p := Proc x (p_chan p) (p_killed p) (p_xstate p) (p_pid p) (p_parent p) (p_kstack p) (p_sz p)
  (p_pagetable p) (p_trapframe p) (p_context p) (p_ofile p) (p_cwd p) (p_name p) (p_trace_mask p).
Definition set_chan x p := Proc (p_state p) x (p_killed p) (p_xstate p) (p_pid p) (p_parent p) (p_kstack p) (p_sz p)
  (p_pagetable p) (p_trapframe p) (p_context p) (p_ofile p) (p_cwd p) (p_name p) (p_trace_mask p).
Definition set_killed x p := Proc (p_state p) (p_chan p) x (p_xstate p) (p_pid p) (p_parent p) (p_kstack p) (p_sz p)
  (p_pagetable p) (p_trapframe p) (p_context p) (p_ofile p) (p_cwd p) (p_name p) (p_trace_mask p).
Definition set_xstate x p := Proc (p_state p) (p_chan p) (p_killed p) x (p_pid p) (p_parent p) (p_kstack p) (p_sz p)
  (p_pagetable p) (p_trapframe p) (p_context p) (p_ofile p) (p_cwd p) (p_name p) (p_trace_mask p).
Definition set_pid x p := Proc (p_state p) (p_chan p) (p_killed p) (p_xstate p) x (p_parent p) (p_kstack p) (p_sz p)
  (p_pagetable p) (p_trapframe p) (p_context p) (p_ofile p) (p_cwd p) (p_name p) (p_trace_mask p).
Definition set_parent x p := Proc (p_state p) (p_chan p) (p_killed p) (p_xstate p) (p_pid p) x (p_kstack p) (p_sz p)
  (p_pagetable p) (p_trapframe p) (p_context p) (p_ofile p) (p_cwd p) (p_name p) (p_trace_mask p).
Definition set_kstack x p := Proc (p_state p) (p_chan p) (p_killed p) (p_xstate p) (p_pid p) (p_parent p) x (p_sz p)
  (p_pagetable p) (p_trapframe p) (p_context p) (p_ofile p) (p_cwd p) (p_name p) (p_trace_mask p).
Definition set_sz x p := Proc (p_state p) (p_chan p) (p_killed p) (p_xstate p) (p_pid p) (p_parent p) (p_kstack p) x
  (p_pagetable p) (p_trapframe p) (p_context p) (p_ofile p) (p_cwd p) (p_name p) (p_trace_mask p).
Definition set_pagetable x p := Proc (p_state p) (p_chan p) (p_killed p) (p_xstate p) (p_pid p) (p_parent p) (p_kstack p) (p_sz p)
  x (p_trapframe p) (p_context p) (p_ofile p) (p_cwd p) (p_name p) (p_trace_mask p).
Definition set_trapframe x p := Proc (p_state p) (p_chan p) (p_killed p) (p_xstate p) (p_pid p) (p_parent p) (p_kstack p) (p_sz p)
  (p_pagetable p) x (p_context p) (p_ofile p) (p_cwd p) (p_name p) (p_trace_mask p).
Definition set_context x p := Proc (p_state p) (p_chan p) (p_killed p) (p_xstate p) (p_pid p) (p_parent p) (p_kstack p) (p_sz p)
  (p_pagetable p) (p_trapframe p) x (p_ofile p) (p_cwd p) (p_name p) (p_trace_mask p).
Definition set_ofile x p := Proc (p_state p) (p_chan p) (p_killed p) (p_xstate p) (p_pid p) (p_parent p) (p_kstack p) (p_sz p)
  (p_pagetable p) (p_trapframe p) (p_context p) x (p_cwd p) (p_name p) (p_trace_mask p).
Definition set_cwd x p := Proc (p_state p) (p_chan p) (p_killed p) (p_xstate p) (p_pid p) (p_parent p) (p_kstack p) (p_sz p)
  (p_pagetable p) (p_trapframe p) (p_context p) (p_ofile p) x (p_name p) (p_trace_mask p).
Definition set_name x p := Proc (p_state p) (p_chan p) (p_killed p) (p_xstate p) (p_pid p) (p_parent p) (p_kstack p) (p_sz p)
  (p_pagetable p) (p_trapframe p) (p_context p) (p_ofile p) (p_cwd p) x (p_trace_mask p).
Definition set_trace_mask x p := Proc (p_state p) (p_chan p) (p_killed p) (p_xstate p) (p_pid p) (p_parent p) (p_kstack p) (p_sz p)
  (p_pagetable p) (p_trapframe p) (p_context p) (p_ofile p) (p_cwd p) (p_name p) x.

(** [safestrcpy] into an array that is a field. *)
Fixpoint safestrcpy_l (s t : bytes) (i : Z) (n : nat) : bytes :=
  match n with
  | O => s
  | S O => updZ s i 0
  | S n =>
      let c := nthZ 0 t i in
      let s := updZ s i c in
      if c =? 0 then updZ s (i + 1) 0 else safestrcpy_l s t (i + 1) n
  end.

(** What processes need of the file layer. *)
Class FileOps (F : Type) := {
  fo_pm :: Lens F pm;                 (* physical memory, which it shares *)
  fo_filedup : Z -> K F Z;
  fo_fileclose : Z -> Z -> K F unit;  (* for the process with this id *)
  fo_begin_op : K F unit;
  fo_end_op : K F unit;
  fo_idup : Z -> K F Z;
  fo_iput : Z -> Z -> K F unit;
  fo_namei : bytes -> K F Z;
  fo_fsinit : Z -> K F unit;
}.

Record prs (F : Type) := Prs {
  r_held : locks;
  r_procs : list proc;
  r_initproc : Z;
  r_nextpid : Z;
  r_cur : Z;              (* mycpu()->proc *)
  r_first : bool;         (* the static variable of forkret *)
  r_pr : Kernel.pst;      (* console and printf *)
  r_ticks : Z;            (* ticks of trap.c *)
  r_fs : F;
}.
Arguments Prs {F}.
Arguments r_held {F}.
Arguments r_procs {F}.
Arguments r_initproc {F}.
Arguments r_nextpid {F}.
Arguments r_cur {F}.
Arguments r_first {F}.
Arguments r_pr {F}.
Arguments r_ticks {F}.
Arguments r_fs {F}.

#[export] Instance prs_locks F : Lens (prs F) locks.
Proof. refine {| lget := r_held; lset h s := Prs h (r_procs s) (r_initproc s) (r_nextpid s) (r_cur s) (r_first s) (r_pr s) (r_ticks s) (r_fs s) |}; by try intros []. Defined.
#[export] Instance prs_pr F : Lens (prs F) Kernel.pst.
Proof. refine {| lget := r_pr; lset m s := Prs (r_held s) (r_procs s) (r_initproc s) (r_nextpid s) (r_cur s) (r_first s) m (r_ticks s) (r_fs s) |}; by try intros []. Defined.
#[export] Instance prs_fs F : Lens (prs F) F.
Proof. refine {| lget := r_fs; lset f s := Prs (r_held s) (r_procs s) (r_initproc s) (r_nextpid s) (r_cur s) (r_first s) (r_pr s) (r_ticks s) f |}; by try intros []. Defined.
#[export] Instance prs_pm F `{FO : FileOps F} : Lens (prs F) pm.
Proof.
  refine {| lget s := lget (Lens := fo_pm) (r_fs s);
            lset m s := lset (Lens := prs_fs F) (lset (Lens := fo_pm) m (r_fs s)) s |};
    intros; try destruct s; cbn; by rewrite ?lget_lset, ?lset_lget, ?lset_lset.
Defined.

Definition plock (p : Z) : lockid := ("proc", p).
Definition pid_lock : lockid := ("nextpid", 0).
Definition wait_lock : lockid := ("wait_lock", 0).
Definition proc_chan (p : Z) : Z := if p =? nullp then 0 else 0x100000 + p.

(** Offsets in [struct trapframe]. *)
Definition TF_epc : Z := 24.
Definition TF_sp : Z := 48.
Definition TF_a0 : Z := 112.
Definition TF_SIZE : Z := 288.

Section proc.
Context {F : Type} `{FO : FileOps F} `{L : Layout}.
Variable swtch : K (prs F) unit.         (* away from the current process *)
Variable run : Z -> K (prs F) unit.      (* to process p, until it switches back *)
Variable forkret_addr : Z.
Variable usertrapret : K (prs F) unit.   (* trap.c *)
Variable initcode : bytes.

Abbreviation P := (K (prs F)).

Definition set_procs (l : list proc) (s : prs F) : prs F :=
  Prs (r_held s) l (r_initproc s) (r_nextpid s) (r_cur s) (r_first s) (r_pr s) (r_ticks s) (r_fs s).
Definition pat (s : prs F) (p : Z) : proc := nthZ proc0 (r_procs s) p.
Definition upd_proc (p : Z) (f : proc -> proc) : P unit :=
  kmod (fun s => set_procs (updZ (r_procs s) p (f (pat s p))) s).
Definition get_proc (p : Z) : P proc := kgets (fun s => pat s p).
Definition set_initproc (p : Z) : P unit :=
  kmod (fun s => Prs (r_held s) (r_procs s) p (r_nextpid s) (r_cur s) (r_first s) (r_pr s) (r_ticks s) (r_fs s)).
Definition set_nextpid (n : Z) : P unit :=
  kmod (fun s => Prs (r_held s) (r_procs s) (r_initproc s) n (r_cur s) (r_first s) (r_pr s) (r_ticks s) (r_fs s)).
Definition set_cur (p : Z) : P unit :=
  kmod (fun s => Prs (r_held s) (r_procs s) (r_initproc s) (r_nextpid s) p (r_first s) (r_pr s) (r_ticks s) (r_fs s)).
Definition set_first (b : bool) : P unit :=
  kmod (fun s => Prs (r_held s) (r_procs s) (r_initproc s) (r_nextpid s) (r_cur s) b (r_pr s) (r_ticks s) (r_fs s)).

Definition NP : nat := Z.to_nat NPROC.

Fixpoint procinit_loop (n : nat) (p : Z) : P unit :=
  match n with
  | O => kret tt
  | S n =>
      zoom (initlock (plock p)) >>
      upd_proc p (set_state UNUSED) >>
      upd_proc p (set_kstack (KSTACK p)) >>
      procinit_loop n (p + 1)
  end.

Definition procinit : P unit :=
  zoom (initlock pid_lock) >>
  zoom (initlock wait_lock) >>
  procinit_loop NP 0.

(** [push_off] and [pop_off] around the read cancel out. *)
Definition myproc : P Z := kgets r_cur.

Definition allocpid : P Z :=
  zoom (acquire pid_lock) >>
  pid <- kgets r_nextpid ;;
  set_nextpid (i32 (pid + 1)) >>
  zoom (release pid_lock) >>
  kret pid.

Definition proc_pagetable (p : Z) : P Z :=
  pagetable <- zoom uvmcreate ;;
  if pagetable =? 0 then kret 0 else
  r <- zoom (mappages pagetable TRAMPOLINE PGSIZE trampoline (Z.lor PTE_R PTE_X)) ;;
  if r <? 0 then zoom (uvmfree pagetable 0) >> kret 0 else
  q <- get_proc p ;;
  r <- zoom (mappages pagetable TRAPFRAME PGSIZE (p_trapframe q) (Z.lor PTE_R PTE_W)) ;;
  if r <? 0 then
    zoom (uvmunmap pagetable TRAMPOLINE 1 false) >>
    zoom (uvmfree pagetable 0) >>
    kret 0
  else kret pagetable.

Definition proc_freepagetable (pagetable sz : Z) : P unit :=
  zoom (uvmunmap pagetable TRAMPOLINE 1 false) >>
  zoom (uvmunmap pagetable TRAPFRAME 1 false) >>
  zoom (uvmfree pagetable sz).

Definition freeproc (p : Z) : P unit :=
  q <- get_proc p ;;
  kwhen (negb (p_trapframe q =? 0)) (zoom (kfree (p_trapframe q))) >>
  upd_proc p (set_trapframe 0) >>
  kwhen (negb (p_pagetable q =? 0)) (proc_freepagetable (p_pagetable q) (p_sz q)) >>
  upd_proc p (set_pagetable 0) >>
  upd_proc p (set_sz 0) >>
  upd_proc p (set_pid 0) >>
  upd_proc p (set_parent nullp) >>
  upd_proc p (fun q => set_name (updZ (p_name q) 0 0) q) >>
  upd_proc p (set_chan 0) >>
  upd_proc p (set_killed 0) >>
  upd_proc p (set_xstate 0) >>
  upd_proc p (set_state UNUSED).

(** The scan of [allocproc]: the first UNUSED entry, its lock held. *)
Fixpoint allocproc_scan (n : nat) (p : Z) : P (option Z) :=
  match n with
  | O => kret None
  | S n =>
      zoom (acquire (plock p)) >>
      q <- get_proc p ;;
      if is_state (p_state q) UNUSED then kret (Some p)
      else zoom (release (plock p)) >> allocproc_scan n (p + 1)
  end.

Definition allocproc : P Z :=
  found <- allocproc_scan NP 0 ;;
  match found with
  | None => kret nullp
  | Some p =>
      pid <- allocpid ;;
      upd_proc p (set_pid pid) >>
      upd_proc p (set_state USED) >>
      tf <- zoom kalloc ;;
      upd_proc p (set_trapframe tf) >>
      if tf =? 0 then freeproc p >> zoom (release (plock p)) >> kret nullp else
      pt <- proc_pagetable p ;;
      upd_proc p (set_pagetable pt) >>
      if pt =? 0 then freeproc p >> zoom (release (plock p)) >> kret nullp else
      q <- get_proc p ;;
      upd_proc p (set_context (Context forkret_addr (p_kstack q + PGSIZE) (replicate 12 0))) >>
      kret p
  end.

(** [p->trapframe->f = v] *)
Definition tf_store (p off v : Z) : P unit :=
  q <- get_proc p ;; zoom (T := pm) (set_mem (fun m => st64 m (p_trapframe q + off) v)).

Definition userinit : P unit :=
  p <- allocproc ;;
  set_initproc p >>
  q <- get_proc p ;;
  zoom (uvmfirst (p_pagetable q) initcode) >>
  upd_proc p (set_sz PGSIZE) >>
  tf_store p TF_epc 0 >>
  tf_store p TF_sp PGSIZE >>
  upd_proc p (fun q => set_name (safestrcpy_l (p_name q) (cstr "initcode") 0 16) q) >>
  cwd <- zoom (fo_namei (cstr "/")) ;;
  upd_proc p (set_cwd cwd) >>
  upd_proc p (set_state RUNNABLE) >>
  zoom (release (plock p)).

Definition growproc (n : Z) : P Z :=
  p <- myproc ;;
  q <- get_proc p ;;
  if 0 <? n then
    sz <- zoom (uvmalloc (p_pagetable q) (p_sz q) (u64 (p_sz q + n)) PTE_W) ;;
    if sz =? 0 then kret (-1) else upd_proc p (set_sz sz) >> kret 0
  else if n <? 0 then
    sz <- zoom (uvmdealloc (p_pagetable q) (p_sz q) (u64 (p_sz q + n))) ;;
    upd_proc p (set_sz sz) >> kret 0
  else upd_proc p (set_sz (p_sz q)) >> kret 0.

(** [for(i = 0; i < NOFILE; i++)] of [fork] *)
Fixpoint fork_files (n : nat) (p np i : Z) : P unit :=
  match n with
  | O => kret tt
  | S n =>
      q <- get_proc p ;;
      let f := nthZ nullp (p_ofile q) i in
      kwhen (negb (f =? nullp))
        (f' <- zoom (fo_filedup f) ;; upd_proc np (fun q => set_ofile (updZ (p_ofile q) i f') q)) >>
      fork_files n p np (i + 1)
  end.

Definition fork : P Z :=
  p <- myproc ;;
  np <- allocproc ;;
  if np =? nullp then kret (-1) else
  q <- get_proc p ;;
  nq <- get_proc np ;;
  r <- zoom (uvmcopy (p_pagetable q) (p_pagetable nq) (p_sz q)) ;;
  if r <? 0 then freeproc np >> zoom (release (plock np)) >> kret (-1) else
  upd_proc np (set_sz (p_sz q)) >>
  upd_proc np (set_trace_mask (p_trace_mask q)) >>
  zoom (T := pm) (set_mem (fun m => memmove m (p_trapframe nq) (p_trapframe q) TF_SIZE)) >>
  tf_store np TF_a0 0 >>
  fork_files (Z.to_nat NOFILE) p np 0 >>
  cwd <- zoom (fo_idup (p_cwd q)) ;;
  upd_proc np (set_cwd cwd) >>
  upd_proc np (fun nq => set_name (safestrcpy_l (p_name nq) (p_name q) 0 16) nq) >>
  nq <- get_proc np ;;
  let pid := p_pid nq in
  zoom (release (plock np)) >>
  zoom (acquire wait_lock) >>
  upd_proc np (set_parent p) >>
  zoom (release wait_lock) >>
  zoom (acquire (plock np)) >>
  upd_proc np (set_state RUNNABLE) >>
  zoom (release (plock np)) >>
  kret pid.

Fixpoint wakeup_loop (n : nat) (p chan : Z) : P unit :=
  match n with
  | O => kret tt
  | S n =>
      me <- myproc ;;
      kwhen (negb (p =? me))
        (zoom (acquire (plock p)) >>
         q <- get_proc p ;;
         kwhen (is_state (p_state q) SLEEPING && (p_chan q =? chan))%bool (upd_proc p (set_state RUNNABLE)) >>
         zoom (release (plock p))) >>
      wakeup_loop n (p + 1) chan
  end.

Definition wakeup (chan : Z) : P unit := wakeup_loop NP 0 chan.

Fixpoint reparent_loop (n : nat) (p pp : Z) : P unit :=
  match n with
  | O => kret tt
  | S n =>
      q <- get_proc pp ;;
      kwhen (p_parent q =? p)
        (ip <- kgets r_initproc ;;
         upd_proc pp (set_parent ip) >>
         wakeup (proc_chan ip)) >>
      reparent_loop n p (pp + 1)
  end.

Definition reparent (p : Z) : P unit := reparent_loop NP p 0.

(** A lock held means [push_off] was called, hence interrupts off. *)
Definition sched : P unit :=
  p <- myproc ;;
  h <- kgets r_held ;;
  q <- get_proc p ;;
  if negb (bool_decide (plock p ∈ h)) then kpanic "sched p->lock" else
  if negb (Z.of_nat (size h) =? 1) then kpanic "sched locks" else
  if is_state (p_state q) RUNNING then kpanic "sched running" else
  if bool_decide (h = ∅) then kpanic "sched interruptible" else
  swtch.

(** [for(int fd = 0; fd < NOFILE; fd++)] of [exit] *)
Fixpoint exit_files (n : nat) (p fd : Z) : P unit :=
  match n with
  | O => kret tt
  | S n =>
      q <- get_proc p ;;
      let f := nthZ nullp (p_ofile q) fd in
      kwhen (negb (f =? nullp))
        (zoom (fo_fileclose (p_pid q) f) >> upd_proc p (fun q => set_ofile (updZ (p_ofile q) fd nullp) q)) >>
      exit_files n p (fd + 1)
  end.

Definition exit {A} (status : Z) : P A :=
  p <- myproc ;;
  ip <- kgets r_initproc ;;
  if p =? ip then kpanic "init exiting" else
  exit_files (Z.to_nat NOFILE) p 0 >>
  zoom fo_begin_op >>
  q <- get_proc p ;;
  zoom (fo_iput (p_pid q) (p_cwd q)) >>
  zoom fo_end_op >>
  upd_proc p (set_cwd nullp) >>
  zoom (acquire wait_lock) >>
  reparent p >>
  q <- get_proc p ;;
  wakeup (proc_chan (p_parent q)) >>
  zoom (acquire (plock p)) >>
  upd_proc p (set_xstate status) >>
  upd_proc p (set_state ZOMBIE) >>
  zoom (release wait_lock) >>
  sched >>
  kpanic "zombie exit".

Definition setkilled (p : Z) : P unit :=
  zoom (acquire (plock p)) >>
  upd_proc p (set_killed 1) >>
  zoom (release (plock p)).

Definition killed (p : Z) : P Z :=
  zoom (acquire (plock p)) >>
  q <- get_proc p ;;
  zoom (release (plock p)) >>
  kret (p_killed q).

Definition yield : P unit :=
  p <- myproc ;;
  zoom (acquire (plock p)) >>
  upd_proc p (set_state RUNNABLE) >>
  sched >>
  zoom (release (plock p)).

Definition sleep (chan : Z) (lk : lockid) : P unit :=
  p <- myproc ;;
  zoom (acquire (plock p)) >>
  zoom (release lk) >>
  upd_proc p (set_chan chan) >>
  upd_proc p (set_state SLEEPING) >>
  sched >>
  upd_proc p (set_chan 0) >>
  zoom (release (plock p)) >>
  zoom (acquire lk).

(** A scan of [wait]: it reaps a zombie child and returns, or reports
    whether there are children. *)
Inductive waitres :=
| WReturn (pid : Z)
| WKids (havekids : bool).

(** The bytes of [pp->xstate]. *)
Definition int_bytes (x : Z) : bytes := put32 (replicate 4 0) 0 x.

Fixpoint wait_scan (n : nat) (p addr pp : Z) (havekids : bool) : P waitres :=
  match n with
  | O => kret (WKids havekids)
  | S n =>
      qq <- get_proc pp ;;
      if p_parent qq =? p then
        zoom (acquire (plock pp)) >>
        qq <- get_proc pp ;;
        if is_state (p_state qq) ZOMBIE then
          let pid := p_pid qq in
          q <- get_proc p ;;
          r <- (if negb (addr =? 0) then zoom (copyout (p_pagetable q) addr (int_bytes (p_xstate qq))) else kret 0) ;;
          if r <? 0 then
            zoom (release (plock pp)) >>
            zoom (release wait_lock) >>
            kret (WReturn (-1))
          else
            freeproc pp >>
            zoom (release (plock pp)) >>
            zoom (release wait_lock) >>
            kret (WReturn pid)
        else
          zoom (release (plock pp)) >>
          wait_scan n p addr (pp + 1) true
      else wait_scan n p addr (pp + 1) havekids
  end.

(** [for(;;)]; every turn but the last ends in [sleep]. *)
Fixpoint wait_loop (fuel : nat) (p addr : Z) : P Z :=
  match fuel with
  | O => kfuel
  | S fuel =>
      r <- wait_scan NP p addr 0 false ;;
      match r with
      | WReturn pid => kret pid
      | WKids havekids =>
          k <- (if havekids then killed p else kret 1) ;;
          if negb (k =? 0) then zoom (release wait_lock) >> kret (-1)
          else sleep (proc_chan p) wait_lock >> wait_loop fuel p addr
      end
  end.

Definition wait (fuel : nat) (addr : Z) : P Z :=
  p <- myproc ;;
  zoom (acquire wait_lock) >>
  wait_loop fuel p addr.

(** One pass of [for(p = proc; p < &proc[NPROC]; p++)] of [scheduler]. *)
Fixpoint scheduler_pass (n : nat) (p : Z) : P unit :=
  match n with
  | O => kret tt
  | S n =>
      zoom (acquire (plock p)) >>
      q <- get_proc p ;;
      kwhen (is_state (p_state q) RUNNABLE)
        (upd_proc p (set_state RUNNING) >>
         set_cur p >>
         run p >>
         set_cur nullp) >>
      zoom (release (plock p)) >>
      scheduler_pass n (p + 1)
  end.

(** The first [turns] turns of its [for(;;)]. *)
Fixpoint scheduler_loop (turns : nat) : P unit :=
  match turns with
  | O => kret tt
  | S turns => scheduler_pass NP 0 >> scheduler_loop turns
  end.

Definition scheduler (turns : nat) : P unit := set_cur nullp >> scheduler_loop turns.

Definition forkret : P unit :=
  p <- myproc ;;
  zoom (release (plock p)) >>
  first <- kgets r_first ;;
  kwhen first (set_first false >> zoom (fo_fsinit ROOTDEV)) >>
  usertrapret.

Fixpoint kill_loop (n : nat) (p pid : Z) : P Z :=
  match n with
  | O => kret (-1)
  | S n =>
      zoom (acquire (plock p)) >>
      q <- get_proc p ;;
      if p_pid q =? pid then
        upd_proc p (set_killed 1) >>
        kwhen (is_state (p_state q) SLEEPING) (upd_proc p (set_state RUNNABLE)) >>
        zoom (release (plock p)) >>
        kret 0
      else
        zoom (release (plock p)) >>
        kill_loop n (p + 1) pid
  end.

Definition kill (pid : Z) : P Z := kill_loop NP 0 pid.

Definition state_name (s : procstate) : bytes :=
  match s with
  | UNUSED => cstr "unused"
  | USED => cstr "used"
  | SLEEPING => cstr "sleep "
  | RUNNABLE => cstr "runble"
  | RUNNING => cstr "run   "
  | ZOMBIE => cstr "zombie"
  end.

Fixpoint procdump_loop (n : nat) (p : Z) : P unit :=
  match n with
  | O => kret tt
  | S n =>
      q <- get_proc p ;;
      kwhen (negb (is_state (p_state q) UNUSED))
        (zoom (Kernel.printf (Some (cstr "%d %s %s"))
           [VInt (p_pid q); VStr (Some (state_name (p_state q))); VStr (Some (p_name q))]) >>
         zoom (Kernel.printf (Some [nl]) [])) >>
      procdump_loop n (p + 1)
  end.

Definition procdump : P unit := zoom (Kernel.printf (Some [nl]) []) >> procdump_loop NP 0.

Definition trace (mask : Z) : P Z :=
  p <- myproc ;; upd_proc p (set_trace_mask mask) >> kret 0.

(** [info->freemem] and [info->nproc] *)
Definition sysinfo : P (Z * Z) :=
  freemem <- zoom kfreemem ;;
  l <- kgets r_procs ;;
  kret (freemem, Z.of_nat (length (filter (fun q => p_state q <> UNUSED) (take NP l)))).
End proc.
