(* ===== verification/ProcTable.v ===== *)
(** * The process table over every history of the kernel

    An invariant of the table, kept by every operation of proc.c up to the
    point where it returns or gives up the CPU, and its consequence for all
    reachable states: no two processes ever share a process id. *)

From S2P Require Import Prelude Riscv Spinlock Sleeplock Mem CString Kalloc Vm Block Uart Console Printf Keeps Proc.

(** ** The table *)

Record ptab (next : Z) (l : list proc) : Prop := {
  pt_len : length l = NP;
  pt_next : 1 <= next;
  pt_pid : forall p, 0 <= p_pid (nthZ proc0 l p) < next;
  pt_unused : forall p, p_state (nthZ proc0 l p) = UNUSED -> p_pid (nthZ proc0 l p) = 0;
  pt_unique : forall p q, p_pid (nthZ proc0 l p) = p_pid (nthZ proc0 l q) -> p_pid (nthZ proc0 l p) <> 0 -> p = q;
}.

(** An entry may change in every field but its pid, and an entry that has a
    pid may not become UNUSED. *)
Definition harmless (f : proc -> proc) : Prop :=
  forall q, p_pid (f q) = p_pid q /\ (p_state (f q) = UNUSED -> p_state q = UNUSED).

(** Replace entry [p] by one with the same pid, or with pid 0. *)
Lemma ptab_upd next l p q :
  ptab next l -> p_pid q = p_pid (nthZ proc0 l p) \/ p_pid q = 0 -> (p_state q = UNUSED -> p_pid q = 0) ->
  ptab next (updZ l p q).
Proof.
  intros [H1 H2 H3 H4 H5] Hpid Hst. destruct (decide (0 <= p < Z.of_nat (length l))) as [Hp |]; [| by rewrite updZ_out].
  split; [by rewrite length_updZ | done | | |].
  - intros j. rewrite nthZ_updZ by done. case_if; [| done]. destruct Hpid as [-> | ->]; [done | lia].
  - intros j. rewrite nthZ_updZ by done. case_if; auto.
  - intros a b. rewrite !nthZ_updZ by done. destruct (a =? p) eqn:Ea, (b =? p) eqn:Eb; zbool; subst; try done; auto.
    + intros E Hne. destruct Hpid as [Hp' | Hp']; [| done]. rewrite Hp' in E, Hne. by apply H5.
    + intros E Hne. destruct Hpid as [Hp' | Hp']; [rewrite Hp' in E; by apply H5 | congruence].
Qed.

Lemma ptab_harmless next l p f : ptab next l -> harmless f -> ptab next (updZ l p (f (nthZ proc0 l p))).
Proof.
  intros H Hf. destruct (Hf (nthZ proc0 l p)) as [E Hs]. apply ptab_upd; [done | by left |].
  intros Hu. rewrite E. apply (pt_unused _ _ H). auto.
Qed.

(** A fresh pid from the counter. *)
Lemma ptab_fresh next l p q :
  ptab next l -> p_pid q = next -> p_state q <> UNUSED -> ptab (next + 1) (updZ l p q).
Proof.
  intros [H1 H2 H3 H4 H5] Hpid Hst. assert (Hw : ptab (next + 1) l).
  { split; try done; [lia |]. intros j. specialize (H3 j). lia. }
  destruct (decide (0 <= p < Z.of_nat (length l))) as [Hp |]; [| by rewrite updZ_out].
  split; [by rewrite length_updZ | lia | | |].
  - intros j. rewrite nthZ_updZ by done. case_if; [lia |]. specialize (H3 j). lia.
  - intros j. rewrite nthZ_updZ by done. case_if; [done | auto].
  - intros a b. rewrite !nthZ_updZ by done. destruct (a =? p) eqn:Ea, (b =? p) eqn:Eb; zbool; subst; try done; auto.
    + specialize (H3 b). lia.
    + specialize (H3 a). lia.
Qed.

(** ** The operations *)

Section ops.
Context {F : Type} `{FO : FileOps F} `{L : Layout}.
Variables (forkret_addr : Z) (initcode : bytes).
Abbreviation sw := (ksleep (S := prs F) 0).

Definition tab_ok (s : prs F) : Prop := ptab (r_nextpid s) (r_procs s).

Lemma keeps_upd p f : harmless f -> keeps tab_ok (upd_proc p f).
Proof. intros Hf. apply keeps_mod. intros s Hs. by apply ptab_harmless. Qed.

Lemma keeps_locks {A} (m : K locks A) : keeps tab_ok (zoom m).
Proof. by apply keeps_zoom. Qed.
Lemma keeps_pm {A} (m : K pm A) : keeps tab_ok (zoom m).
Proof. by apply keeps_zoom. Qed.
Lemma keeps_pr {A} (m : K Kernel.pst A) : keeps tab_ok (zoom m).
Proof. by apply keeps_zoom. Qed.
Lemma keeps_fs {A} (m : K F A) : keeps tab_ok (zoom m).
Proof. by apply keeps_zoom. Qed.
Lemma keeps_cur p : keeps tab_ok (set_cur p).
Proof. by apply keeps_mod. Qed.
Lemma keeps_initproc p : keeps tab_ok (set_initproc p).
Proof. by apply keeps_mod. Qed.
Lemma keeps_myproc : keeps tab_ok myproc.
Proof. apply keeps_gets. Qed.
Lemma keeps_get_proc p : keeps tab_ok (get_proc p).
Proof. apply keeps_gets. Qed.

Hint Resolve keeps_locks keeps_pm keeps_pr keeps_fs keeps_cur keeps_initproc keeps_myproc keeps_get_proc keeps_upd : keeps.
Hint Extern 1 (harmless _) => (intros ?; split; [reflexivity | (done || discriminate)]) : keeps.
Ltac keep := eauto 40 with keeps.

Lemma keeps_wakeup n p c : keeps tab_ok (wakeup_loop n p c).
Proof. revert p. induction n as [| n IH]; intros p; cbn [wakeup_loop]; keep. Qed.
Hint Resolve keeps_wakeup : keeps.

Lemma keeps_sched : keeps tab_ok (sched sw).
Proof. unfold sched. keep. Qed.
Hint Resolve keeps_sched : keeps.

Lemma keeps_reparent n p pp : keeps tab_ok (reparent_loop n p pp).
Proof. revert pp. induction n as [| n IH]; intros pp; cbn [reparent_loop]; unfold wakeup; keep. Qed.
Lemma keeps_exit_files n p fd : keeps tab_ok (exit_files n p fd).
Proof. revert fd. induction n as [| n IH]; intros fd; cbn [exit_files]; keep. Qed.
Lemma keeps_fork_files n p np i : keeps tab_ok (fork_files n p np i).
Proof. revert i. induction n as [| n IH]; intros i; cbn [fork_files]; keep. Qed.
Lemma keeps_kill n p pid : keeps tab_ok (kill_loop n p pid).
Proof. revert p. induction n as [| n IH]; intros p; cbn [kill_loop]; keep. Qed.
Lemma keeps_procdump n p : keeps tab_ok (procdump_loop n p).
Proof. revert p. induction n as [| n IH]; intros p; cbn [procdump_loop]; keep. Qed.
Hint Resolve keeps_reparent keeps_exit_files keeps_fork_files keeps_kill keeps_procdump : keeps.

Lemma keeps_tf_store p off v : keeps tab_ok (tf_store p off v).
Proof. unfold tf_store. keep. Qed.
Lemma keeps_proc_pagetable p : keeps tab_ok (proc_pagetable p).
Proof. unfold proc_pagetable. keep. Qed.
Lemma keeps_freepagetable pt sz : keeps tab_ok (proc_freepagetable pt sz).
Proof. unfold proc_freepagetable. keep. Qed.
Hint Resolve keeps_tf_store keeps_proc_pagetable keeps_freepagetable : keeps.

(** [freeproc]: the pid goes first, the state last. *)
Definition no_pid (p : Z) (s : prs F) : Prop := tab_ok s /\ p_pid (pat s p) = 0.

Lemma no_pid_upd p f :
  (forall q, p_pid (f q) = p_pid q \/ p_pid (f q) = 0) -> keeps (no_pid p) (upd_proc p f).
Proof.
  intros Hf. apply keeps_mod. intros s [Ht Hp].
  assert (E : p_pid (f (pat s p)) = 0) by (destruct (Hf (pat s p)); congruence). split.
  - apply ptab_upd; [done | by right | done].
  - unfold pat, set_procs in *. cbn. destruct (decide (0 <= p < Z.of_nat (length (r_procs s)))).
    + by rewrite nthZ_updZ_eq.
    + by rewrite updZ_out.
Qed.

Lemma set_pid_leads p : leads tab_ok (no_pid p) (upd_proc p (set_pid 0)).
Proof.
  intros s Hs. unfold upd_proc, kmod. split.
  - apply ptab_upd; [done | by right | done].
  - unfold pat, set_procs. cbn. destruct (decide (0 <= p < Z.of_nat (length (r_procs s)))).
    + by rewrite nthZ_updZ_eq.
    + rewrite updZ_out by done. unfold nthZ. case_if; [done |]. rewrite nth_overflow; [done |]. zbool. lia.
Qed.

Lemma keeps_freeproc p : keeps tab_ok (freeproc p).
Proof.
  unfold freeproc. do 6 (apply keeps_bind; [keep | intros ?]).
  apply (leads_bind tab_ok (no_pid p)); [apply set_pid_leads | intros _ | by intros s [? _]].
  apply leads_keeps; [| by intros s [? _]].
  repeat (first [apply no_pid_upd; intros ?; (by left) || (by right) | apply keeps_bind; [| intros ?]]).
Qed.
Hint Resolve keeps_freeproc : keeps.

(** [allocproc]: the counter has not wrapped. *)
Definition can_alloc (s : prs F) : Prop := tab_ok s /\ r_nextpid s < 2 ^ 31 - 1.

Lemma can_alloc_scan n p : keeps can_alloc (allocproc_scan n p).
Proof.
  revert p. induction n as [| n IH]; intros p; cbn [allocproc_scan]; [apply keeps_ret |].
  apply keeps_bind; [by apply keeps_zoom | intros _]. apply keeps_bind; [apply keeps_gets | intros q].
  apply keeps_if; [apply keeps_ret |]. apply keeps_bind; [by apply keeps_zoom | done].
Qed.

(** The pid and the state USED, taken together. *)
Lemma new_pid_leads {A} p (k : K (prs F) A) :
  keeps tab_ok k ->
  leads can_alloc tab_ok (pid <- allocpid ;; upd_proc p (set_pid pid) >> upd_proc p (set_state USED) >> k).
Proof.
  intros Hk s [Ht Hn]. unfold allocpid, zoom, acquire, release, set_nextpid. kred. cbn [lget lset prs_locks r_held r_nextpid].
  case_if; [done |]. kred. cbn [lget lset prs_locks r_held r_nextpid].
  rewrite bool_decide_true by set_solver. unfold upd_proc, kmod. apply Hk.
  unfold tab_ok, set_procs, pat. cbn [r_procs r_nextpid].
  rewrite i32_small by (pose proof (pt_next _ _ Ht); lia).
  set (q := nthZ proc0 (r_procs s) p).
  destruct (decide (0 <= p < Z.of_nat (length (r_procs s)))) as [Hp | Hp].
  - rewrite nthZ_updZ_eq, updZ_updZ by done. by apply ptab_fresh.
  - rewrite !(updZ_out _ p) by (rewrite ?length_updZ; done).
    pose proof (ptab_fresh _ _ p (Proc USED 0 0 0 (r_nextpid s) 0 0 0 0 0 context0 [] 0 [] 0) Ht eq_refl ltac:(done)) as H.
    by rewrite updZ_out in H.
Qed.

Lemma allocproc_leads : leads can_alloc tab_ok (allocproc forkret_addr).
Proof.
  unfold allocproc. apply (leads_bind _ can_alloc); [apply can_alloc_scan | | by intros s [? _]].
  intros [p |]; [| by intros s [? _]]. apply new_pid_leads. keep.
Qed.

Lemma fork_leads : leads can_alloc tab_ok (fork forkret_addr).
Proof.
  unfold fork. apply (leads_bind _ can_alloc); [apply keeps_gets | intros p | by intros s [? _]].
  apply (leads_bind _ tab_ok); [apply allocproc_leads | | done].
  intros np. apply leads_keeps; [| done]. keep.
Qed.

Lemma userinit_leads : leads can_alloc tab_ok (userinit forkret_addr initcode).
Proof.
  unfold userinit. apply (leads_bind _ tab_ok); [apply allocproc_leads | | done].
  intros np. apply leads_keeps; [| done]. keep.
Qed.

Lemma keeps_exit {A} st : keeps tab_ok (exit (A := A) sw st).
Proof. unfold exit, reparent, wakeup. keep. Qed.
Lemma keeps_sleep_op c lk : keeps tab_ok (sleep sw c lk).
Proof. unfold sleep. keep. Qed.
Lemma keeps_killed p : keeps tab_ok (killed p).
Proof. unfold killed. keep. Qed.
Hint Resolve keeps_sleep_op keeps_killed : keeps.
Lemma keeps_wait_scan n p addr pp h : keeps tab_ok (wait_scan n p addr pp h).
Proof. revert pp h. induction n as [| n IH]; intros pp h; cbn [wait_scan]; keep. Qed.
Hint Resolve keeps_wait_scan : keeps.
Lemma keeps_wait fuel addr : keeps tab_ok (wait sw fuel addr).
Proof.
  unfold wait. assert (forall p, keeps tab_ok (wait_loop sw fuel p addr)); [| keep].
  induction fuel as [| fuel IH]; intros p; cbn [wait_loop]; [keep |].
  apply keeps_bind; [keep | intros [pid | h]]; keep.
Qed.

Lemma keeps_growproc n : keeps tab_ok (growproc n).
Proof. unfold growproc. keep. Qed.
Lemma keeps_yield : keeps tab_ok (yield sw).
Proof. unfold yield. keep. Qed.
Lemma keeps_setkilled p : keeps tab_ok (setkilled p).
Proof. unfold setkilled. keep. Qed.
Lemma keeps_trace m : keeps tab_ok (trace m).
Proof. unfold trace. keep. Qed.
Lemma keeps_dump : keeps tab_ok procdump.
Proof. unfold procdump. keep. Qed.

(** ** Histories

    One step runs an operation until it returns or switches, or makes the
    scheduler's choice, or does what follows a switch, or is any other code
    of the kernel, which leaves the table alone. *)

Definition goes {A} (m : K (prs F) A) (s s' : prs F) : Prop :=
  (exists a, m s = Ret a s') \/ (exists c, m s = Asleep c s').

Definition choose (p : Z) : K (prs F) unit :=
  q <- get_proc p ;;
  kwhen (is_state (p_state q) RUNNABLE) (upd_proc p (set_state RUNNING) >> set_cur p).

Definition sleep_tail (lk : lockid) : K (prs F) unit :=
  p <- myproc ;;
  upd_proc p (set_chan 0) >> zoom (release (plock p)) >> zoom (acquire lk).

Inductive pstep (s s' : prs F) : Prop :=
| ps_userinit : r_nextpid s < 2 ^ 31 - 1 -> goes (userinit forkret_addr initcode) s s' -> pstep s s'
| ps_fork : r_nextpid s < 2 ^ 31 - 1 -> goes (fork forkret_addr) s s' -> pstep s s'
| ps_exit st : goes (exit (A := unit) sw st) s s' -> pstep s s'
| ps_wait fuel addr : goes (wait sw fuel addr) s s' -> pstep s s'
| ps_kill pid : goes (kill pid) s s' -> pstep s s'
| ps_setkilled p : goes (setkilled p) s s' -> pstep s s'
| ps_wakeup c : goes (wakeup c) s s' -> pstep s s'
| ps_sleep c lk : goes (sleep sw c lk) s s' -> pstep s s'
| ps_tail lk : goes (sleep_tail lk) s s' -> pstep s s'
| ps_yield : goes (yield sw) s s' -> pstep s s'
| ps_growproc n : goes (growproc n) s s' -> pstep s s'
| ps_trace m : goes (trace m) s s' -> pstep s s'
| ps_procdump : goes procdump s s' -> pstep s s'
| ps_choose p : goes (choose p) s s' -> pstep s s'
| ps_other : r_procs s' = r_procs s -> r_nextpid s' = r_nextpid s -> pstep s s'.

Lemma goes_leads {A} I (m : K (prs F) A) s s' : leads I tab_ok m -> I s -> goes m s s' -> tab_ok s'.
Proof. intros H Hs [[a E] | [c E]]; specialize (H s Hs); by rewrite E in H. Qed.

Lemma goes_keeps {A} (m : K (prs F) A) s s' : keeps tab_ok m -> tab_ok s -> goes m s s' -> tab_ok s'.
Proof. exact (goes_leads tab_ok m s s'). Qed.

Lemma pstep_tab_ok s s' : pstep s s' -> tab_ok s -> tab_ok s'.
Proof.
  intros Hst Hs. destruct Hst as [Hn Hg | Hn Hg | st Hg | fuel addr Hg | pid Hg | p Hg | c Hg | c lk Hg | lk Hg | Hg | n Hg | m Hg | Hg | p Hg | Ep En].
  - eapply goes_leads; [apply userinit_leads | by split | done].
  - eapply goes_leads; [apply fork_leads | by split | done].
  - eapply goes_keeps; [apply keeps_exit | done..].
  - eapply goes_keeps; [apply keeps_wait | done..].
  - eapply goes_keeps; [apply keeps_kill | done..].
  - eapply goes_keeps; [apply keeps_setkilled | done..].
  - eapply goes_keeps; [apply keeps_wakeup | done..].
  - eapply goes_keeps; [apply keeps_sleep_op | done..].
  - eapply goes_keeps; [| done..]. unfold sleep_tail. keep.
  - eapply goes_keeps; [apply keeps_yield | done..].
  - eapply goes_keeps; [apply keeps_growproc | done..].
  - eapply goes_keeps; [apply keeps_trace | done..].
  - eapply goes_keeps; [apply keeps_dump | done..].
  - eapply goes_keeps; [| done..]. unfold choose. keep.
  - unfold tab_ok in *. congruence.
Qed.

(** Memory as the loader leaves it: a zero table, and [nextpid] = 1. *)
Definition zero_table (s : prs F) : Prop := r_procs s = replicate NP proc0 /\ r_nextpid s = 1.

Definition no_pids (s : prs F) : Prop :=
  length (r_procs s) = NP /\ r_nextpid s = 1 /\ forall p, p_pid (nthZ proc0 (r_procs s) p) = 0.

Lemma no_pids_procinit n p : keeps no_pids (procinit_loop n p).
Proof.
  assert (Hu : forall p f, (forall q, p_pid (f q) = p_pid q) -> keeps no_pids (upd_proc p f)).
  { intros p' f Hf. apply keeps_mod. intros s (H1 & H2 & H3). split_and!; [cbn; by rewrite length_updZ | done |].
    intros j. cbn. destruct (decide (0 <= p' < Z.of_nat (length (r_procs s)))); [| by rewrite updZ_out].
    rewrite nthZ_updZ by done. case_if; [rewrite Hf; apply H3 | apply H3]. }
  revert p. induction n as [| n IH]; intros p; cbn [procinit_loop]; [apply keeps_ret |].
  apply keeps_bind; [by apply keeps_zoom | intros _]. apply keeps_bind; [by apply Hu | intros _].
  apply keeps_bind; [by apply Hu | intros _]. apply IH.
Qed.

Lemma procinit_tab_ok s s' : zero_table s -> procinit s = Ret tt s' -> tab_ok s'.
Proof.
  intros [H1 H2] E. assert (Hk : keeps no_pids procinit).
  { unfold procinit. apply keeps_bind; [by apply keeps_zoom | intros _].
    apply keeps_bind; [by apply keeps_zoom | intros _]. apply no_pids_procinit. }
  specialize (Hk s). rewrite E in Hk. destruct Hk as (A & B & C).
  { split_and!; [by rewrite H1, length_replicate | done |]. intros p. rewrite H1. unfold nthZ. case_if; [done |].
    by rewrite nth_replicate. }
  clear E. split; [exact A | lia | intros p; rewrite C; lia | intros p _; apply C | intros p q _ Hne; by rewrite C in Hne].
Qed.

(** C18: Process ids are unique: in every state the kernel can reach from
    [procinit] by forks, exits, waits, kills, sleeps, wakeups and scheduling
    in any order (as long as the 31-bit counter has not wrapped), two
    different table entries never have the same non-zero pid, every pid was
    handed out by the counter, and an UNUSED entry has pid 0. *)
Theorem pids_unique s0 s1 s :
  zero_table s0 -> procinit s0 = Ret tt s1 -> rtc pstep s1 s ->
  (forall p q, p <> q -> p_pid (pat s p) <> 0 -> p_pid (pat s p) <> p_pid (pat s q)) /\
  (forall p, 0 <= p_pid (pat s p) < r_nextpid s) /\
  (forall p, p_state (pat s p) = UNUSED -> p_pid (pat s p) = 0).
Proof.
  intros Hz E Hr. pose proof (rtc_preserves _ tab_ok _ _ (fun x y => pstep_tab_ok x y) Hr (procinit_tab_ok _ _ Hz E)) as [_ _ H3 H4 H5].
  split_and!; [| done | done]. intros p q Hne H0 Heq. by apply Hne, H5.
Qed.

(** ** [kill(0)] *)

(** Entry [k] is the first that is free. *)
Definition first_free (s : prs F) (k : Z) : Prop :=
  0 <= k < Z.of_nat NP /\ p_state (pat s k) = UNUSED /\ forall j, 0 <= j < k -> p_state (pat s j) <> UNUSED /\ p_pid (pat s j) <> 0.

Definition mark_killed (k : Z) (s : prs F) : prs F :=
  set_procs (updZ (r_procs s) k (set_killed 1 (pat s k))) s.

Lemma kill_loop_free n p k s :
  first_free s k -> tab_ok s -> (forall j, plock j ∉ r_held s) -> 0 <= p <= k -> (Z.to_nat p + n = NP)%nat ->
  kill_loop n p 0 s = Ret 0 (mark_killed k s).
Proof.
  intros (Hk & Hu & Hlow) Ht Hl. revert p. induction n as [| n IH]; intros p Hp Hn; [lia |]. cbn [kill_loop].
  erewrite kbind_of by (apply zoom_acquire, Hl). unfold get_proc. rewrite (kbind_of (kgets _) _ _ _ _ eq_refl).
  change (pat (lset ({[plock p]} ∪ lget s) s) p) with (pat s p). destruct (decide (p = k)) as [-> | Hne].
  - rewrite (pt_unused _ _ Ht k Hu : p_pid (pat s k) = 0), Hu. cbn [Z.eqb]. unfold upd_proc.
    rewrite (kbind_of (kmod _) _ _ tt _ eq_refl). change (is_state UNUSED SLEEPING) with false. cbn [kwhen].
    rewrite (kbind_of (kret _) _ _ _ _ eq_refl). erewrite kbind_of; [reflexivity |].
    erewrite zoom_release; [reflexivity | apply (Hl k) | done].
  - destruct (Hlow p ltac:(lia)) as [_ H0]. rewrite (proj2 (Z.eqb_neq _ _) H0).
    erewrite kbind_of; [apply (IH (p + 1)); lia |]. erewrite zoom_release; [| apply (Hl p) | done]. by destruct s.
Qed.

(** Entry [k] carries the mark. *)
Definition marked (k : Z) (s : prs F) : Prop := p_killed (pat s k) = 1.

Lemma keeps_marked k p f : (forall q, p_killed (f q) = p_killed q) -> keeps (marked k) (upd_proc p f).
Proof.
  intros Hf. apply keeps_mod. intros s Hs. unfold marked, pat, set_procs in *. cbn.
  destruct (decide (0 <= p < Z.of_nat (length (r_procs s)))) as [Hp |]; [| by rewrite updZ_out].
  rewrite nthZ_updZ by done. case_if; zbool; [subst; by rewrite Hf | done].
Qed.

Lemma allocproc_scan_free n p k s a s' :
  first_free s k -> length (r_procs s) = NP -> 0 <= p <= k -> (Z.to_nat p + n = NP)%nat ->
  allocproc_scan n p s = Ret a s' -> a = Some k /\ r_procs s' = r_procs s.
Proof.
  intros (Hk & Hu & Hlow) Hlen. assert (Hgen : forall p s0, r_procs s0 = r_procs s -> 0 <= p <= k -> (Z.to_nat p + n = NP)%nat ->
    allocproc_scan n p s0 = Ret a s' -> a = Some k /\ r_procs s' = r_procs s); [| by apply Hgen].
  clear p. induction n as [| n IH]; intros p s0 Hs0 Hp Hn E; [lia |]. cbn [allocproc_scan] in E.
  apply kbind_ret_inv in E as ([] & s1 & E1 & E). unfold zoom in E1. destruct (acquire _ _) as [[] h | | |]; try done.
  injection E1 as <-. unfold get_proc in E. rewrite (kbind_of (kgets _) _ _ _ _ eq_refl) in E.
  unfold pat in E. cbn [r_procs] in E. rewrite Hs0 in E. fold (pat s p) in E.
  unfold is_state in E. destruct (decide (p = k)) as [-> | Hne].
  - rewrite bool_decide_true in E by done. by injection E as <- <-.
  - rewrite bool_decide_false in E by (apply Hlow; lia). apply kbind_ret_inv in E as ([] & s2 & E2 & E).
    unfold zoom in E2. destruct (release _ _) as [[] h2 | | |]; try done. injection E2 as <-.
    eapply IH; [| | | exact E]; [done | lia | lia].
Qed.

(** [allocproc] either fails or hands out [k], mark and all. *)
Definition hands_out (k : Z) (o : outcome (prs F) Z) : Prop :=
  match o with Ret np s' => np = nullp \/ np = k /\ marked k s' | _ => True end.

Lemma hands_out_bind {A} k (m : K (prs F) A) f s :
  keeps (marked k) m -> marked k s -> (forall a s', marked k s' -> hands_out k (f a s')) -> hands_out k (kbind m f s).
Proof. intros Hm Hs Hf. specialize (Hm s Hs). unfold kbind. destruct (m s); [by apply Hf | done..]. Qed.

Lemma hands_out_fail {A B} k (m : K (prs F) A) (m' : K (prs F) B) s : hands_out k ((m >> m' >> kret nullp) s).
Proof. unfold kbind. destruct (m s); try done. destruct (m' _); try done. by left. Qed.

Lemma keeps_proc_pagetable_marked k p : keeps (marked k) (proc_pagetable p).
Proof.
  assert (Hz : forall A (m : K pm A), keeps (marked k) (zoom m)) by (intros; by apply keeps_zoom).
  unfold proc_pagetable. repeat first [apply keeps_bind; [| intros ?] | apply keeps_if | apply keeps_ret | apply Hz | apply keeps_gets].
Qed.

Lemma allocproc_marked k s np s' :
  first_free s k -> length (r_procs s) = NP -> marked k s -> allocproc forkret_addr s = Ret np s' -> np <> nullp ->
  np = k /\ marked k s'.
Proof.
  intros Hf Hl Hm E Hnp. unfold allocproc in E. apply kbind_ret_inv in E as (a & s1 & E1 & E).
  destruct (allocproc_scan_free NP 0 k s a s1) as [-> Hs1]; [done | done | destruct Hf; lia | done | done |].
  assert (Hm1 : marked k s1) by (unfold marked, pat in *; by rewrite Hs1).
  match type of E with ?o = _ => assert (Hh : hands_out k o) end; [| rewrite E in Hh; by destruct Hh].
  clear E. assert (Hz : forall T A (LT : Lens (prs F) T) (m : K T A), (forall t x, r_procs (lset t x) = r_procs x) -> keeps (marked k) (zoom m)).
  { intros T A LT m Hlens. apply keeps_zoom. intros t x Hx. unfold marked, pat in *. by rewrite Hlens. }
  apply hands_out_bind; [| done | intros pid s2 H2].
  { unfold allocpid. repeat first [apply keeps_bind; [| intros ?] | apply keeps_ret | by apply Hz | apply keeps_gets | by apply keeps_mod]. }
  apply hands_out_bind; [by apply keeps_marked | done | intros _ s3 H3].
  apply hands_out_bind; [by apply keeps_marked | done | intros _ s4 H4].
  apply hands_out_bind; [by apply Hz | done | intros tf s5 H5].
  apply hands_out_bind; [by apply keeps_marked | done | intros _ s6 H6]. case_if; [apply hands_out_fail |].
  apply hands_out_bind; [apply keeps_proc_pagetable_marked | done | intros pt s7 H7].
  apply hands_out_bind; [by apply keeps_marked | done | intros _ s8 H8]. case_if; [apply hands_out_fail |].
  apply hands_out_bind; [apply keeps_gets | done | intros q s9 H9].
  apply hands_out_bind; [by apply keeps_marked | done | intros _ s10 H10]. by right.
Qed.

(** C39: [kill(0)] finds the first free table entry, whose pid is 0, marks it
    killed and reports success; and [allocproc] does not reset the mark, so
    that the next process created, which takes that entry, starts out
    killed. *)
Theorem kill_zero_kills_next s k :
  tab_ok s -> first_free s k -> (forall j, plock j ∉ r_held s) ->
  kill 0 s = Ret 0 (mark_killed k s) /\
  forall np s', allocproc forkret_addr (mark_killed k s) = Ret np s' -> np <> nullp ->
    np = k /\ p_killed (pat s' np) = 1.
Proof.
  intros Ht Hf Hl. pose proof Hf as (Hk & Hu & Hlow). pose proof (pt_len _ _ Ht) as Hlen. split; [apply kill_loop_free; (done || lia) |].
  intros np s' E Hnp. assert (Hp : forall j, pat (mark_killed k s) j = if j =? k then set_killed 1 (pat s k) else pat s j).
  { intros j. unfold pat, mark_killed. cbn. by rewrite nthZ_updZ by lia. }
  destruct (allocproc_marked k (mark_killed k s) np s') as [-> Hm]; [| cbn; by rewrite length_updZ | | done | done | done].
  - split_and!; [lia | lia | by rewrite Hp, Z.eqb_refl |]. intros j Hj. rewrite Hp.
    replace (j =? k) with false by lia. by apply Hlow.
  - unfold marked. by rewrite Hp, Z.eqb_refl.
Qed.
End ops.

(** ** Witnesses: the first process *)

#[local] Instance boot_layout : Layout :=
  {| kend := PHYSTOP - 8 * PGSIZE; etext := KERNBASE + PGSIZE; trampoline := KERNBASE |}.

(** A file layer that does nothing. *)
#[local] Instance id_lens S : Lens S S.
Proof. by refine {| lget x := x; lset x _ := x |}. Defined.
#[local] Instance no_files : FileOps pm := {|
  fo_pm := id_lens pm;
  fo_filedup f := kret f;
  fo_fileclose _ _ := kret tt;
  fo_begin_op := kret tt;
  fo_end_op := kret tt;
  fo_idup ip := kret ip;
  fo_iput _ _ := kret tt;
  fo_namei _ := kret 0;
  fo_fsinit _ := kret tt;
|}.

(** The state a run ends in. *)
Definition final {S A} (d : S) (o : outcome S A) : S := match o with Ret _ s => s | _ => d end.
Definition ends {S} (o : outcome S unit) (f : S -> bool) : bool := match o with Ret _ s => f s | _ => false end.

Lemma ends_ret {S} (o : outcome S unit) f : ends o f = true -> exists s, o = Ret tt s /\ f s = true.
Proof. destruct o as [[] s | | |]; try done. intros H. by exists s. Qed.

Definition boot_pr : Kernel.pst :=
  Kernel.Pst (Cst (Ust ∅ [] 0 false (replicate 32 0) 0 0 [] [] [] []) (replicate 128 0) 0 0 0 (Pm ∅ ∅ 0)) false.

(** Eight free pages. *)
Definition boot_page (i : Z) : Z := PHYSTOP - (8 - i) * PGSIZE.
Definition boot_pm : pm :=
  Pm ∅ (fold_left (fun m i => st64 m (boot_page i) (boot_page (i + 1))) (seqZ 0 7) ∅) (boot_page 0).
Definition boot0 : prs pm := Prs ∅ (replicate NP proc0) nullp 1 nullp true boot_pr 0 boot_pm.
Definition boot1 : prs pm := final boot0 (procinit boot0).

Lemma procinit_boot : procinit boot0 = Ret tt boot1.
Proof. vm_compute. reflexivity. Qed.

Definition first_proc (s : prs pm) : bool :=
  (p_pid (pat s 0) =? 1) && is_state (p_state (pat s 0)) RUNNABLE && bool_decide (r_held s = ∅) && (length (r_procs s) =? NP)%nat.

Lemma userinit_boot : exists s, userinit 0x80001000 [1; 2; 3] boot1 = Ret tt s /\ first_proc s = true.
Proof. apply ends_ret. vm_compute. reflexivity. Qed.

Lemma pids_unique_witness :
  exists s : prs pm, p_pid (pat s 0) = 1 /\ p_state (pat s 0) = RUNNABLE /\
    forall q, 0 <> q -> p_pid (pat s 0) <> p_pid (pat s q).
Proof.
  destruct userinit_boot as (s & E & H). unfold first_proc in H. zbool. exists s. unfold is_state in *. zbool. split_and!; [done | done |].
  intros q Hq. destruct (pids_unique 0x80001000 [1; 2; 3] boot0 boot1 s) as [Hu _].
  - split; reflexivity.
  - exact procinit_boot.
  - eapply rtc_once, ps_userinit; [vm_compute; reflexivity |]. left. exists tt. exact E.
  - apply Hu; [exact Hq | lia].
Defined.

Lemma kill_zero_kills_next_witness :
  kill 0 boot1 = Ret 0 (mark_killed 0 boot1) /\ p_killed (pat (mark_killed 0 boot1) 0) = 1 /\
  forall np s', allocproc 0x80001000 (mark_killed 0 boot1) = Ret np s' -> np <> nullp -> np = 0 /\ p_killed (pat s' np) = 1.
Proof.
  destruct (kill_zero_kills_next 0x80001000 boot1 0) as [E H].
  - apply (procinit_tab_ok boot0 boot1); [split; reflexivity | exact procinit_boot].
  - split; [vm_compute; split; [discriminate | reflexivity] |]. split; [vm_compute; reflexivity | intros j Hj; lia].
  - intros j. assert (r_held boot1 = ∅) as -> by (apply (bool_decide_unpack _); vm_compute; exact I). set_solver.
  - split; [exact E |]. split; [vm_compute; reflexivity | exact H].
Defined.
