(* ===== verification/ProcSched.v ===== *)
(** * Scheduling, and the handshake of [exit] and [wait] *)

From S2P Require Import Prelude Riscv Spinlock Sleeplock Mem CString Kalloc Vm Block Uart Console Printf Keeps Proc ProcTable.

Section sched.
Context {F : Type} `{FO : FileOps F} `{L : Layout}.
Implicit Types (s : prs F) (l : list proc).

Definition set_held (h : locks) s : prs F :=
  Prs h (r_procs s) (r_initproc s) (r_nextpid s) (r_cur s) (r_first s) (r_pr s) (r_ticks s) (r_fs s).
Definition with_cur (p : Z) s : prs F :=
  Prs (r_held s) (r_procs s) (r_initproc s) (r_nextpid s) p (r_first s) (r_pr s) (r_ticks s) (r_fs s).

Lemma acquire_p k s : k ∉ r_held s -> zoom (acquire k) s = Ret tt (set_held ({[k]} ∪ r_held s) s).
Proof. intros H. exact (zoom_acquire k s H). Qed.

Lemma release_p k h s : k ∉ h -> r_held s = {[k]} ∪ h -> zoom (release k) s = Ret tt (set_held h s).
Proof. intros H1 H2. exact (zoom_release k h s H1 H2). Qed.

Lemma set_held_id s : set_held (r_held s) s = s.
Proof. by destruct s. Qed.

(** Run the first step of a sequence, whose equation follows by [tac]. *)
Ltac step tac := erewrite kbind_of by tac.

(** No process lock is held. *)
Definition no_plock s : Prop := forall p, plock p ∉ r_held s.

(** ** The scheduler gives every RUNNABLE process the CPU *)

Section fair.
Variable run : Z -> K (prs F) unit.

(** The contract of a process that is given the CPU: it comes back, holding
    its lock and no other, and has not stopped any other process that was
    ready to run. *)
Hypothesis run_returns : forall p s, r_held s = {[plock p]} -> exists s', run p s = Ret tt s' /\ r_held s' = {[plock p]} /\
  length (r_procs s') = length (r_procs s) /\
  forall k, k <> p -> p_state (pat s k) = RUNNABLE -> p_state (pat s' k) = RUNNABLE.

Definition ran s k : Prop := exists s1 s2,
  run k s1 = Ret tt s2 /\ r_cur s1 = k /\ p_state (pat s1 k) = RUNNING /\ r_held s1 = {[plock k]} /\
  scheduler_pass run NP 0 s =
    (set_cur nullp >> zoom (release (plock k)) >> scheduler_pass run (NP - S (Z.to_nat k)) (k + 1)) s2.

(** One turn of the pass at entry [p]. *)
Lemma pass_turn n p s :
  r_held s = ∅ -> 0 <= p < Z.of_nat (length (r_procs s)) ->
  exists s', scheduler_pass run (S n) p s = scheduler_pass run n (p + 1) s' /\ r_held s' = ∅ /\
    length (r_procs s') = length (r_procs s) /\
    (forall k, k <> p -> p_state (pat s k) = RUNNABLE -> p_state (pat s' k) = RUNNABLE) /\
    (p_state (pat s p) = RUNNABLE -> exists s1 s2, run p s1 = Ret tt s2 /\ r_cur s1 = p /\
       p_state (pat s1 p) = RUNNING /\ r_held s1 = {[plock p]} /\
       scheduler_pass run (S n) p s = (set_cur nullp >> zoom (release (plock p)) >> scheduler_pass run n (p + 1)) s2).
Proof using run_returns.
  intros Hh Hp.
  assert (Hst : scheduler_pass run (S n) p s =
    (kwhen (bool_decide (p_state (pat s p) = RUNNABLE))
       (upd_proc p (set_state RUNNING) >> set_cur p >> run p >> set_cur nullp) >>
     zoom (release (plock p)) >> scheduler_pass run n (p + 1)) (set_held {[plock p]} s)).
  { cbn [scheduler_pass]. step ltac:(apply acquire_p; rewrite Hh; set_solver). by rewrite Hh, union_empty_r_L. }
  rewrite Hst. clear Hst.
  destruct (decide (p_state (pat s p) = RUNNABLE)) as [Hr | Hr].
  - rewrite bool_decide_true by done. cbn [kwhen].
    set (s1 := with_cur p (set_procs (updZ (r_procs s) p (set_state RUNNING (pat s p))) (set_held {[plock p]} s))).
    destruct (run_returns p s1) as (s2 & E2 & Hh2 & Hl2 & Hk2); [done |].
    assert (Hcur : forall k, k <> p -> p_state (pat s1 k) = p_state (pat s k)).
    { intros k Hne. unfold pat, s1. cbn. by rewrite nthZ_updZ_ne by done. }
    exists (set_held ∅ (with_cur nullp s2)). 
    assert (Hgo : forall (m : K (prs F) unit), (kbind (upd_proc p (set_state RUNNING) >> set_cur p >> run p >> set_cur nullp)
      (fun _ => zoom (release (plock p)) >> m)) (set_held {[plock p]} s) =
      (set_cur nullp >> zoom (release (plock p)) >> m) s2).
    { intros m. rewrite !kbind_assoc. unfold upd_proc. rewrite (kbind_of (kmod _) _ _ tt _ eq_refl), kbind_assoc.
      unfold set_cur at 1. rewrite (kbind_of (kmod _) _ _ tt _ eq_refl), kbind_assoc.
      change (kbind (run p) (fun _ => kbind (set_cur nullp) (fun _ => zoom (release (plock p)) >> m)) s1 = 
        (set_cur nullp >> zoom (release (plock p)) >> m) s2). by rewrite (kbind_of _ _ _ _ _ E2). }
    rewrite Hgo. split_and!; try done.
    + unfold set_cur. rewrite (kbind_of (kmod _) _ _ tt _ eq_refl).
      step ltac:(apply (release_p _ ∅); [set_solver | cbn; rewrite Hh2; set_solver]). done.
    + cbn. rewrite Hl2. cbn. by rewrite length_updZ.
    + intros k Hne Hrk. apply Hk2; [done |]. by rewrite Hcur.
    + intros _. exists s1, s2. split_and!; [done | done | | done |]; [| done]. unfold pat, s1. cbn. by rewrite nthZ_updZ_eq.
  - rewrite bool_decide_false by done. cbn [kwhen]. rewrite (kbind_of (kret _) _ _ _ _ eq_refl).
    step ltac:(apply (release_p _ ∅); [set_solver | cbn; set_solver]).
    exists (set_held ∅ s). split_and!; try done.
Qed.

(** C24: The scheduler is fair: in one pass over the table every process that is
    RUNNABLE when the pass begins is switched to, as the current process, in
    state RUNNING and with its lock held, whatever the processes scheduled
    before it do during their turns (they come back, and do not stop a
    process that is ready). *)
Theorem scheduler_fair s k :
  r_held s = ∅ -> length (r_procs s) = NP -> 0 <= k < Z.of_nat NP -> p_state (pat s k) = RUNNABLE -> ran s k.
Proof using run_returns.
  intros Hh Hl Hk Hr.
  assert (Hgen : forall n p s', (Z.to_nat p + n = NP)%nat -> 0 <= p <= k -> r_held s' = ∅ -> length (r_procs s') = NP ->
    p_state (pat s' k) = RUNNABLE -> scheduler_pass run NP 0 s = scheduler_pass run n p s' -> ran s k).
  { induction n as [| n IH]; intros p s' Hn Hp Hh' Hl' Hr' E; [lia |].
    destruct (pass_turn n p s') as (s'' & E' & Hh'' & Hl'' & Hkeep & Hran); [done | lia |].
    destruct (decide (p = k)) as [-> | Hne].
    - destruct (Hran Hr') as (s1 & s2 & H1 & H2 & H3 & H4 & H5). exists s1, s2. split_and!; try done.
      rewrite E, H5. by replace (NP - S (Z.to_nat k))%nat with n by lia.
    - apply (IH (p + 1) s''); try done; [lia | lia | congruence | by apply Hkeep | congruence]. }
  apply (Hgen NP 0 s); [done | lia | done..].
Qed.
End fair.

(** ** [wakeup] *)

Definition wakes (me c j : Z) (q : proc) : Prop := j <> me /\ p_state q = SLEEPING /\ p_chan q = c.
#[local] Instance wakes_dec me c j q : Decision (wakes me c j q).
Proof. unfold wakes. apply _. Defined.

(** Entry [j] of the table after [wakeup(c)] by process [me]. *)
Definition woken_entry (me c j : Z) (q : proc) : proc :=
  if decide (wakes me c j q) then set_state RUNNABLE q else q.

Lemma set_procs_id s : set_procs (r_procs s) s = s.
Proof. by destruct s. Qed.

Lemma wakeup_turn n p c s :
  plock p ∉ r_held s ->
  wakeup_loop (S n) p c s =
    wakeup_loop n (p + 1) c (set_procs (updZ (r_procs s) p (woken_entry (r_cur s) c p (pat s p))) s).
Proof.
  intros Hn. cbn [wakeup_loop]. unfold myproc at 1. rewrite (kbind_of (kgets _) _ _ _ _ eq_refl).
  destruct (p =? r_cur s) eqn:Ep; zbool; cbn [negb].
  { cbn [kwhen]. rewrite (kbind_of (kret _) _ _ _ _ eq_refl). unfold woken_entry. rewrite decide_False by (intros [? _]; done).
    unfold pat. by rewrite updZ_nthZ, set_procs_id. }
  cbn [kwhen]. rewrite kbind_assoc. step ltac:(by apply acquire_p). rewrite kbind_assoc.
  unfold get_proc. rewrite (kbind_of (kgets _) _ _ _ _ eq_refl). change (pat (set_held _ s) p) with (pat s p).
  unfold woken_entry, wakes, is_state.
  destruct (decide (p_state (pat s p) = SLEEPING)) as [E1 | E1];
    [destruct (p_chan (pat s p) =? c) eqn:E2; zbool |].
  - rewrite bool_decide_true by done. rewrite decide_True by done. cbn [andb kwhen]. rewrite kbind_assoc. unfold upd_proc.
    rewrite (kbind_of (kmod _) _ _ tt _ eq_refl). erewrite kbind_of; [reflexivity |].
    by rewrite (release_p _ (r_held s)) by done.
  - rewrite bool_decide_true by done. rewrite decide_False by naive_solver. cbn [andb kwhen]. rewrite kbind_assoc.
    rewrite (kbind_of (kret _) _ _ _ _ eq_refl). unfold pat. rewrite updZ_nthZ, set_procs_id. erewrite kbind_of; [reflexivity |].
    rewrite (release_p _ (r_held s)) by done. by destruct s.
  - rewrite bool_decide_false by done. rewrite decide_False by naive_solver. cbn [andb kwhen]. rewrite kbind_assoc.
    rewrite (kbind_of (kret _) _ _ _ _ eq_refl). unfold pat. rewrite updZ_nthZ, set_procs_id. erewrite kbind_of; [reflexivity |].
    rewrite (release_p _ (r_held s)) by done. by destruct s.
Qed.

Lemma wakeup_loop_ok n p c s :
  no_plock s -> 0 <= p -> length (r_procs s) = (Z.to_nat p + n)%nat ->
  exists l', wakeup_loop n p c s = Ret tt (set_procs l' s) /\ length l' = length (r_procs s) /\
    forall j, nthZ proc0 l' j = if decide (p <= j) then woken_entry (r_cur s) c j (pat s j) else pat s j.
Proof.
  revert p s. induction n as [| n IH]; intros p s Hn Hp Hl.
  - exists (r_procs s). split_and!; [by rewrite set_procs_id | done |]. intros j. case_decide; [| done].
    unfold woken_entry, wakes, pat. rewrite nthZ_ge by lia. by rewrite decide_False by (intros (_ & ? & _); done).
  - rewrite wakeup_turn by apply Hn. edestruct (IH (p + 1)) as (l' & E & Hl' & Hj); [| | | exists l'; split_and!]; [| | | exact E | |].
    + intros j. apply Hn.
    + lia.
    + cbn. rewrite length_updZ. lia.
    + rewrite Hl'. cbn. by rewrite length_updZ.
    + intros j. rewrite Hj. unfold pat. cbn. destruct (decide (j = p)) as [-> |].
      * rewrite decide_False, decide_True, nthZ_updZ_eq by lia. done.
      * rewrite nthZ_updZ_ne by done. repeat case_decide; try lia; done.
Qed.

Lemma wakeup_ok c s :
  no_plock s -> length (r_procs s) = NP ->
  exists l', wakeup c s = Ret tt (set_procs l' s) /\ length l' = NP /\
    forall j, nthZ proc0 l' j = woken_entry (r_cur s) c j (pat s j).
Proof.
  intros Hn Hl. destruct (wakeup_loop_ok NP 0 c s Hn ltac:(lia)) as (l' & E & Hl' & Hj); [done |].
  exists l'. split_and!; [exact E | congruence |]. intros j. rewrite Hj. case_decide; [done |].
  unfold woken_entry, wakes, pat, nthZ. case_if; zbool; [| lia]. by rewrite decide_False by (intros (_ & ? & _); done).
Qed.

(** ** [reparent] *)

(** What [reparent] may do to an entry besides changing its parent. *)
Definition maybe_woken (me c j : Z) (q q' : proc) : Prop := q' = q \/ wakes me c j q /\ q' = set_state RUNNABLE q.

Lemma reparent_loop_ok n p pp s :
  no_plock s -> 0 <= pp -> length (r_procs s) = NP -> (Z.to_nat pp + n = NP)%nat -> p <> r_initproc s ->
  exists l', reparent_loop n p pp s = Ret tt (set_procs l' s) /\ length l' = NP /\
    forall j, exists q', maybe_woken (r_cur s) (proc_chan (r_initproc s)) j (pat s j) q' /\
      nthZ proc0 l' j = if decide (pp <= j /\ p_parent (pat s j) = p /\ j < Z.of_nat NP) then set_parent (r_initproc s) q' else q'.
Proof.
  revert pp s. induction n as [| n IH]; intros pp s Hn Hpp Hl Hlen Hinit; cbn [reparent_loop].
  - exists (r_procs s). split_and!; [by rewrite set_procs_id | done |]. intros j. exists (pat s j). split; [by left |].
    by rewrite decide_False by lia.
  - unfold get_proc. rewrite (kbind_of (kgets _) _ _ _ _ eq_refl). destruct (p_parent (pat s pp) =? p) eqn:Ep; zbool; cbn [kwhen].
    + rewrite kbind_assoc, (kbind_of (kgets _) _ _ _ _ eq_refl), kbind_assoc. unfold upd_proc.
      rewrite (kbind_of (kmod _) _ _ tt _ eq_refl).
      set (s1 := set_procs _ s). destruct (wakeup_ok (proc_chan (r_initproc s)) s1) as (l1 & E1 & Hl1 & Hj1);
        [done | cbn; by rewrite length_updZ |].
      rewrite (kbind_of _ _ _ _ _ E1).
      destruct (IH (pp + 1) (set_procs l1 s1)) as (l' & E' & Hl' & Hj'); [done | lia | done | lia | done |].
      exists l'. split_and!; [exact E' | done |]. intros j. destruct (Hj' j) as (q' & Hq & ->).
      unfold pat in Hq |- *. cbn [r_procs set_procs r_cur r_initproc s1] in *. rewrite Hj1 in *.
      unfold pat in Hq |- *. cbn [r_procs set_procs r_cur s1] in *.
      destruct (decide (j = pp)) as [-> | Hne].
      * rewrite nthZ_updZ_eq in * by lia. rewrite decide_False by lia.
        change (pat s pp) with (nthZ proc0 (r_procs s) pp) in *. set (q := nthZ proc0 (r_procs s) pp) in *.
        assert (Hd : pp <= pp /\ p_parent q = p /\ pp < Z.of_nat NP) by lia. unfold woken_entry in Hq.
        destruct (decide (wakes (r_cur s) (proc_chan (r_initproc s)) pp (set_parent (r_initproc s) q))) as [Hw | Hw].
        -- exists (set_state RUNNABLE q). split; [right; split; [exact Hw | done] |].
           rewrite decide_True by exact Hd. destruct Hq as [-> | [(_ & Hst & _) _]]; done.
        -- destruct Hq as [-> | [Hw' _]]; [| by destruct (Hw Hw')]. exists q. split; [by left |]. by rewrite decide_True by exact Hd.
      * rewrite nthZ_updZ_ne in * by done. set (q := nthZ proc0 (r_procs s) j) in *.
        exists q'. split.
        -- unfold woken_entry in Hq. destruct (decide (wakes (r_cur s) (proc_chan (r_initproc s)) j q)) as [Hw | Hw]; [| exact Hq].
           destruct Hq as [-> | [(_ & Hst & _) _]]; [by right | done].
        -- assert (Hpar : p_parent (woken_entry (r_cur s) (proc_chan (r_initproc s)) j q) = p_parent q)
             by (unfold woken_entry; by case_decide). rewrite Hpar.
           repeat case_decide; try done; lia.
    + rewrite (kbind_of (kret _) _ _ _ _ eq_refl).
      destruct (IH (pp + 1) s) as (l' & E' & Hl' & Hj'); [done | lia | done | lia | done |].
      exists l'. split_and!; [exact E' | done |]. intros j. destruct (Hj' j) as (q' & Hq & ->). exists q'. split; [done |].
      destruct (decide (j = pp)) as [-> |]; [by rewrite !decide_False by lia |]. repeat case_decide; try done; lia.
Qed.

(** ** [exit] wakes the parent *)

Section exit.
(** Closing files and putting the current directory come back. *)
Hypothesis fileclose_returns : forall pid f x, exists x', fo_fileclose pid f x = Ret tt x'.
Hypothesis begin_op_returns : forall x, exists x', fo_begin_op x = Ret tt x'.
Hypothesis iput_returns : forall pid ip x, exists x', fo_iput pid ip x = Ret tt x'.
Hypothesis end_op_returns : forall x, exists x', fo_end_op x = Ret tt x'.

Definition set_fs (x : F) s : prs F :=
  Prs (r_held s) (r_procs s) (r_initproc s) (r_nextpid s) (r_cur s) (r_first s) (r_pr s) (r_ticks s) x.
Definition put_entry (p : Z) (q : proc) s : prs F := set_procs (updZ (r_procs s) p q) s.

Lemma zoom_fs {A} (m : K F A) s a x : m (r_fs s) = Ret a x -> zoom m s = Ret a (set_fs x s).
Proof. intros E. unfold zoom. cbn. by rewrite E. Qed.

Lemma pat_put p q s : 0 <= p < Z.of_nat (length (r_procs s)) -> pat (put_entry p q s) p = q.
Proof. intros. unfold pat, put_entry. cbn. by apply nthZ_updZ_eq. Qed.

Lemma exit_files_ok n p fd s :
  0 <= p < Z.of_nat (length (r_procs s)) ->
  exists x o, exit_files n p fd s = Ret tt (set_fs x (put_entry p (set_ofile o (pat s p)) s)).
Proof using fileclose_returns.
  revert fd s. induction n as [| n IH]; intros fd s Hp; cbn [exit_files].
  - exists (r_fs s), (p_ofile (pat s p)).
    assert (set_ofile (p_ofile (pat s p)) (pat s p) = pat s p) as -> by (by destruct (pat s p)).
    unfold put_entry, pat. rewrite updZ_nthZ. by destruct s.
  - unfold get_proc. rewrite (kbind_of (kgets _) _ _ _ _ eq_refl). destruct (negb _); cbn [kwhen].
    + rewrite kbind_assoc. destruct (fileclose_returns (p_pid (pat s p)) (nthZ nullp (p_ofile (pat s p)) fd) (r_fs s)) as [x' Ex].
      rewrite (kbind_of _ _ _ _ _ (zoom_fs _ s _ _ Ex)). unfold upd_proc. rewrite (kbind_of (kmod _) _ _ tt _ eq_refl).
      edestruct (IH (fd + 1)) as (x & o & E'); [| exists x, o; etrans; [exact E' |]]; [cbn; by rewrite length_updZ |].
      unfold put_entry, pat, set_fs, set_procs. cbn. by rewrite nthZ_updZ_eq, updZ_updZ.
    + rewrite (kbind_of (kret _) _ _ _ _ eq_refl). by apply IH.
Qed.

(** Process [a] sleeps in [wait]. *)
Definition in_wait s (a : Z) : Prop := p_state (pat s a) = SLEEPING /\ p_chan (pat s a) = proc_chan a.

(** With only its own lock held, and no longer RUNNING, a process switches. *)
Lemma sched_switches s p :
  r_cur s = p -> r_held s = {[plock p]} -> p_state (pat s p) <> RUNNING -> sched (ksleep 0) s = Asleep 0 s.
Proof.
  intros Hcur Hh Hst. unfold sched, myproc, get_proc, kbind, kgets, is_state. rewrite Hcur, Hh.
  rewrite bool_decide_true, size_singleton by set_solver. cbn [negb Z.of_nat Pos.of_succ_nat Z.eqb Pos.eqb].
  rewrite bool_decide_false by done. by rewrite bool_decide_false by set_solver.
Qed.

(** A sleeper that [reparent] may have woken is RUNNABLE after [wakeup]. *)
Lemma wakeup_after me c c' j q q' r :
  j <> me -> p_state q = SLEEPING -> p_chan q = c -> maybe_woken me c' j q q' ->
  r = q' \/ (exists x, r = set_parent x q') -> p_state (woken_entry me c j r) = RUNNABLE.
Proof.
  intros Hj Hs Hc Hq Hr. assert (Hsr : p_state r = p_state q' /\ p_chan r = p_chan q') by (by destruct Hr as [-> | [x ->]]).
  destruct Hsr as [Hsr Hcr]. unfold woken_entry. case_decide as Hw; [done |]. rewrite Hsr.
  destruct Hq as [-> | [_ ->]]; [| done]. exfalso. apply Hw. split_and!; [done | by rewrite Hsr | by rewrite Hcr].
Qed.

(** [exit] from [acquire(&wait_lock)] on, without its last [panic]. *)
Definition exit_rest (p status : Z) : K (prs F) unit :=
  zoom (acquire wait_lock) >>
  reparent p >>
  q <- get_proc p ;;
  wakeup (proc_chan (p_parent q)) >>
  zoom (acquire (plock p)) >>
  upd_proc p (set_xstate status) >>
  upd_proc p (set_state ZOMBIE) >>
  zoom (release wait_lock) >>
  sched (ksleep 0) >>
  kpanic "zombie exit".

Lemma exit_front s p status :
  r_cur s = p -> 0 <= p < Z.of_nat (length (r_procs s)) -> p <> r_initproc s ->
  exists x o, exit (A := unit) (ksleep 0) status s =
    exit_rest p status (set_fs x (put_entry p (set_cwd nullp (set_ofile o (pat s p))) s)).
Proof using fileclose_returns begin_op_returns iput_returns end_op_returns.
  intros Hcur Hp Hinit. unfold exit.
  unfold myproc at 1. rewrite (kbind_of (kgets _) _ _ _ _ eq_refl), Hcur, (kbind_of (kgets _) _ _ _ _ eq_refl).
  rewrite (proj2 (Z.eqb_neq _ _) Hinit).
  destruct (exit_files_ok (Z.to_nat NOFILE) p 0 s Hp) as (x1 & o & E1). rewrite (kbind_of _ _ _ _ _ E1). clear E1.
  destruct (begin_op_returns x1) as [x2 E2]. step ltac:(apply zoom_fs; exact E2).
  unfold get_proc at 1. rewrite (kbind_of (kgets _) _ _ _ _ eq_refl).
  set (q := pat (set_fs x2 (set_fs x1 (put_entry p (set_ofile o (pat s p)) s))) p).
  destruct (iput_returns (p_pid q) (p_cwd q) x2) as [x3 E3].
  step ltac:(apply zoom_fs; exact E3). destruct (end_op_returns x3) as [x4 E4]. step ltac:(apply zoom_fs; exact E4).
  unfold upd_proc at 1. rewrite (kbind_of (kmod _) _ _ tt _ eq_refl). exists x4, o. unfold exit_rest. f_equal.
  unfold put_entry, set_fs, set_procs, pat. cbn. by rewrite nthZ_updZ_eq, updZ_updZ by lia.
Qed.

End exit.
End sched.

(** ** Witnesses *)

#[local] Existing Instance boot_layout.
#[local] Existing Instance no_files.

(** A process that yields at once. *)
Definition yielder (p : Z) : K (prs pm) unit := upd_proc p (set_state RUNNABLE).

Lemma scheduler_fair_witness : exists s, first_proc s = true /\ ran yielder s 0.
Proof.
  destruct userinit_boot as (s & _ & H). exists s. split; [exact H |].
  unfold first_proc, is_state in H. zbool. apply scheduler_fair.
  - intros p s' Hh. eexists. split; [reflexivity |]. split; [exact Hh |]. split; [cbn; apply length_updZ |].
    intros k Hk Hr. unfold pat in *. cbn. rewrite nthZ_updZ_ne by (intros ->; apply Hk; reflexivity). exact Hr.
  - assumption.
  - apply Nat.eqb_eq. assumption.
  - vm_compute. split; [discriminate | reflexivity].
  - assumption.
Defined.

(** init waits for its child, which runs. *)
Definition wit_parent : proc := set_chan (proc_chan 0) (set_state SLEEPING (set_pid 1 proc0)).
Definition wit_child : proc := set_parent 0 (set_state RUNNING (set_pid 2 proc0)).
Definition wit_family : prs pm :=
  Prs ∅ (wit_parent :: wit_child :: replicate 62 proc0) 0 3 1 false boot_pr 0 (Pm ∅ ∅ 0).

