(* ===== verification/Grep.v ===== *)
(** * user/grep.c: the matcher and the line loop

    Strings are their bytes up to the NUL, so that [*text == '\0'] is the end
    of the list. *)

From S2P Require Import Prelude.

Definition ch_star : Z := 42.
Definition ch_dollar : Z := 36.
Definition ch_caret : Z := 94.
Definition ch_dot : Z := 46.
Definition ch_nl : Z := 10.

(** [matchstar]; [here] is [matchhere(re, .)]. *)
Fixpoint matchstar (c : Z) (here : bytes -> bool) (text : bytes) : bool :=
  if here text then true
  else match text with
       | [] => false
       | t :: text => if ((t =? c) || (c =? ch_dot))%bool then matchstar c here text else false
       end.

Fixpoint matchhere (re text : bytes) {struct re} : bool :=
  match re with
  | [] => true
  | c :: re1 =>
      let single :=
        if ((c =? ch_dollar) && (match re1 with [] => true | _ => false end))%bool
        then match text with [] => true | _ => false end
        else match text with
             | [] => false
             | t :: text => if ((c =? ch_dot) || (c =? t))%bool then matchhere re1 text else false
             end in
      match re1 with
      | s :: re2 => if s =? ch_star then matchstar c (matchhere re2) text else single
      | [] => single
      end
  end.

(** [do ... while( *text++ != '\0')] *)
Fixpoint match_loop (re text : bytes) : bool :=
  if matchhere re text then true
  else match text with
       | [] => false
       | _ :: text => match_loop re text
       end.

Definition match_ (re text : bytes) : bool :=
  match re with
  | c :: re1 => if c =? ch_caret then matchhere re1 text else match_loop re text
  | [] => match_loop re text
  end.

(** ** The language of a pattern *)

Inductive item :=
| One (c : Z)
| Many (c : Z).

(** The pattern without its anchors, and whether it ends in [$]. *)
Fixpoint parse_re (re : bytes) : list item * bool :=
  match re with
  | [] => ([], false)
  | c :: re1 =>
      let single :=
        if ((c =? ch_dollar) && (match re1 with [] => true | _ => false end))%bool then ([], true)
        else let '(l, e) := parse_re re1 in (One c :: l, e) in
      match re1 with
      | s :: re2 => if s =? ch_star then let '(l, e) := parse_re re2 in (Many c :: l, e) else single
      | [] => single
      end
  end.

Definition stands_for (c x : Z) : Prop := c = ch_dot \/ c = x.

Inductive lang : list item -> bytes -> Prop :=
| lang_nil : lang [] []
| lang_one c x l w : stands_for c x -> lang l w -> lang (One c :: l) (x :: w)
| lang_many c v l w : Forall (stands_for c) v -> lang l w -> lang (Many c :: l) (v ++ w).

(** The items match at the start of the text; with [eol] up to its end. *)
Definition starts (p : list item * bool) (text : bytes) : Prop :=
  exists w rest, text = w ++ rest /\ lang p.1 w /\ (p.2 = true -> rest = []).

(** A pattern matches a text somewhere, or at its start if it begins with [^]. *)
Definition re_matches (re text : bytes) : Prop :=
  match re with
  | c :: re1 => if c =? ch_caret then starts (parse_re re1) text
                else exists pre post, text = pre ++ post /\ starts (parse_re re) post
  | [] => True
  end.

Lemma stands_for_bool c x : stands_for c x <-> ((c =? ch_dot) || (c =? x))%bool = true.
Proof. unfold stands_for. by rewrite orb_true_iff, !Z.eqb_eq. Qed.

Lemma starts_many c l e text :
  starts (Many c :: l, e) text <->
  starts (l, e) text \/ exists t rest, text = t :: rest /\ stands_for c t /\ starts (Many c :: l, e) rest.
Proof.
  split.
  - intros (w & rest & -> & Hl & He). cbn in Hl. inversion Hl as [| | c' v l' w' Hv Hw E1 E2]; subst.
    destruct Hv as [| t v Ht Hv]; [left; by exists w', rest |].
    right. exists t, ((v ++ w') ++ rest). split_and!; [done | done |]. exists (v ++ w'), rest. split_and!; [done | by constructor | done].
  - intros [(w & rest & -> & Hl & He) | (t & r & -> & Ht & (w & rest & -> & Hl & He))].
    + exists w, rest. split_and!; [done | apply (lang_many c [] l w); [constructor | done] | done].
    + inversion Hl as [| | c' v l' w' Hv Hw E1 E2]; subst. exists (t :: v ++ w'), rest. split_and!; [done | | done].
      by apply (lang_many c (t :: v)); [constructor |].
Qed.

Lemma matchstar_ok c here l e text :
  (forall t, here t = true <-> starts (l, e) t) ->
  matchstar c here text = true <-> starts (Many c :: l, e) text.
Proof.
  intros Hh. induction text as [| t text IH]; cbn [matchstar]; rewrite starts_many.
  - destruct (here []) eqn:E; split; try done; [intros _; left; by apply Hh |].
    intros [H | (? & ? & ? & _)]; [| done]. apply Hh in H. congruence.
  - destruct (here (t :: text)) eqn:E; [split; [intros _; left; by apply Hh | done] |].
    rewrite orb_comm, (Z.eqb_sym t c). destruct ((c =? ch_dot) || (c =? t))%bool eqn:Ec.
    + rewrite IH. split; [intros H; right; exists t, text; split_and!; [done | by apply stands_for_bool | done] |].
      intros [H | (t' & r & Et & _ & H)]; [apply Hh in H; congruence |]. by injection Et as -> ->.
    + split; [done |]. intros [H | (t' & r & Et & Hs & H)]; [apply Hh in H; congruence |].
      injection Et as -> ->. apply stands_for_bool in Hs. congruence.
Qed.

Lemma starts_one c l e text :
  starts (One c :: l, e) text <-> exists t rest, text = t :: rest /\ stands_for c t /\ starts (l, e) rest.
Proof.
  split.
  - intros (w & rest & -> & Hl & He). inversion Hl as [| c' x l' w' Hx Hw E1 E2 |]; subst.
    exists x, (w' ++ rest). split_and!; [done | done |]. by exists w', rest.
  - intros (t & r & -> & Ht & (w & rest & -> & Hl & He)). exists (t :: w), rest. split_and!; [done | by constructor | done].
Qed.

Lemma starts_nil e text : starts ([], e) text <-> (e = true -> text = []).
Proof.
  split.
  - intros (w & rest & -> & Hl & He). inversion Hl. done.
  - intros He. exists [], text. split_and!; [done | constructor | done].
Qed.

Lemma matchhere_ok re : forall text, matchhere re text = true <-> starts (parse_re re) text.
Proof.
  assert (Hgen : forall n re, (length re <= n)%nat -> forall text, matchhere re text = true <-> starts (parse_re re) text);
    [| by apply (Hgen (length re))]. clear re.
  induction n as [| n IH]; intros [| c re1] Hn text; cbn in Hn; try lia;
    try (change (true = true <-> starts ([], false) text); rewrite starts_nil; naive_solver).
  cbn [matchhere parse_re].
  assert (Hsingle : (if ((c =? ch_dollar) && match re1 with [] => true | _ => false end)%bool
      then match text with [] => true | _ => false end
      else match text with [] => false | t :: text => if ((c =? ch_dot) || (c =? t))%bool then matchhere re1 text else false end) = true <->
    starts (if ((c =? ch_dollar) && match re1 with [] => true | _ => false end)%bool then ([], true)
      else let '(l, e) := parse_re re1 in (One c :: l, e)) text).
  { case_if; [rewrite starts_nil; destruct text; naive_solver |].
    specialize (IH re1 ltac:(lia)). destruct (parse_re re1) as [l e]. rewrite starts_one. destruct text as [| t text]; [naive_solver |].
    destruct ((c =? ch_dot) || (c =? t))%bool eqn:Ec.
    - rewrite IH. split; [intros H; exists t, text; split_and!; [done | by apply stands_for_bool | done] |].
      intros (t' & r & Et & _ & H). by injection Et as -> ->.
    - split; [done |]. intros (t' & r & Et & Hs & _). injection Et as -> ->. apply stands_for_bool in Hs. congruence. }
  destruct re1 as [| s re2]; [exact Hsingle |]. destruct (s =? ch_star); [| exact Hsingle].
  specialize (IH re2 ltac:(cbn in Hn; lia)). destruct (parse_re re2) as [l e]. by apply matchstar_ok.
Qed.

Lemma match_loop_ok re text :
  match_loop re text = true <-> exists pre post, text = pre ++ post /\ starts (parse_re re) post.
Proof.
  induction text as [| t text IH]; cbn [match_loop].
  - destruct (matchhere re []) eqn:E; split; try done.
    + intros _. exists [], []. split; [done | by apply matchhere_ok].
    + intros (pre & post & Ep & H). symmetry in Ep. apply app_nil in Ep as [-> ->]. apply matchhere_ok in H. congruence.
  - destruct (matchhere re (t :: text)) eqn:E.
    + split; [intros _; exists [], (t :: text); split; [done | by apply matchhere_ok] | done].
    + rewrite IH. split.
      * intros (pre & post & -> & H). by exists (t :: pre), post.
      * intros ([| t' pre] & post & Ep & H); [cbn in Ep; subst; apply matchhere_ok in H; congruence |].
        injection Ep as -> ->. by exists pre, post.
Qed.

(** C21: The recursive matcher of grep decides the language of its patterns:
    [match(re, text)] is 1 exactly when some part of the text (its start, if
    the pattern begins with a caret; up to its end, if the pattern ends with
    a dollar) is a word of the pattern, where a dot stands for any character
    and a starred character for any number of characters it stands for,
    found whatever number the shortest attempt would take. *)
Theorem match_correct re text : match_ re text = true <-> re_matches re text.
Proof.
  unfold match_, re_matches. destruct re as [| c re].
  - split; [done |]. intros _. by destruct text.
  - destruct (c =? ch_caret); [apply matchhere_ok | apply match_loop_ok].
Qed.

(** ** The line loop *)

(** [strchr(p, '\n')]: the line before the newline and what follows, unless
    the string ends first. *)
Fixpoint next_line (p : bytes) : option (bytes * bytes) :=
  match p with
  | [] => None
  | c :: p =>
      if c =? 0 then None
      else if c =? ch_nl then Some ([], p)
      else match next_line p with
           | Some (l, r) => Some (c :: l, r)
           | None => None
           end
  end.

Section grep.
Context {S : Type}.
(** [read(fd, ., max)] and [write(1, ., .)]. *)
Variable read : Z -> K S bytes.
Variable write : bytes -> K S unit.

(** [while((q = strchr(p, '\n')) != 0)]; returns what [p] is left with. *)
Fixpoint grep_lines (fuel : nat) (pattern p : bytes) : K S bytes :=
  match fuel with
  | O => kfuel
  | Datatypes.S fuel =>
      match next_line p with
      | Some (l, r) =>
          kwhen (match_ pattern l) (write (l ++ [ch_nl])) >>
          grep_lines fuel pattern r
      | None => kret p
      end
  end.

(** [buf] holds the [m] bytes [p] at the top of the loop. *)
Fixpoint grep_loop (fuel : nat) (pattern p : bytes) : K S unit :=
  match fuel with
  | O => kfuel
  | Datatypes.S fuel =>
      b <- read (1024 - Z.of_nat (length p) - 1) ;;
      match b with
      | [] => kret tt
      | _ =>
          p <- grep_lines (Datatypes.S (length (p ++ b))) pattern (p ++ b) ;;
          grep_loop fuel pattern p
      end
  end.

Definition grep (fuel : nat) (pattern : bytes) : K S unit := grep_loop fuel pattern [].
End grep.

(** The lines of a text, each without its newline; what follows the last
    newline is not one. *)
Fixpoint lines_of (t : bytes) (cur : bytes) : list bytes :=
  match t with
  | [] => []
  | c :: t => if c =? ch_nl then cur :: lines_of t [] else lines_of t (cur ++ [c])
  end.

Definition grep_spec (pattern text : bytes) : bytes :=
  concat (map (fun l => l ++ [ch_nl]) (List.filter (match_ pattern) (lines_of text []))).

(** Every line, and what follows the last newline, fits in the buffer. *)
Fixpoint short_lines (t : bytes) (n : nat) : Prop :=
  match t with
  | [] => (n < 1023)%nat
  | c :: t => if c =? ch_nl then (n < 1023)%nat /\ short_lines t 0 else short_lines t (Datatypes.S n)
  end.
