(* ===== verification/Virtio.v ===== *)
(** * kernel/virtio_disk.c: the disk driver

    The three shared structures (descriptor table, available ring, used
    ring) and the driver's own tables are the fields of [vst]; an address
    that the driver gives to the device is the object it points to.  A
    [struct buf *] is a number, with the fields of the buffer the driver
    uses.  [virtio_disk_rw] sleeps in two places: it is cut there into
    [rw_begin], up to the wait for the device, and [rw_resume], from a
    wakeup on; its local array [idx] is passed from one to the other. *)

From S2P Require Import Prelude Riscv Spinlock Sleeplock Block Mem CString Kalloc Keeps Ring.

Definition NUM : Z := 8.
Definition VRING_DESC_F_NEXT : Z := 1.
Definition VRING_DESC_F_WRITE : Z := 2.
Definition VIRTIO_BLK_T_IN : Z := 0.
Definition VIRTIO_BLK_T_OUT : Z := 1.
Definition REQ_SIZE : Z := 16.   (* sizeof(struct virtio_blk_req) *)

(** What a descriptor can point to. *)
Inductive daddr :=
| ANull
| AOps (i : Z)        (* &disk.ops[i] *)
| AData (b : Z)       (* b->data *)
| AStatus (i : Z).    (* &disk.info[i].status *)

Record virtq_desc := Desc { d_addr : daddr; d_len : Z; d_flags : Z; d_next : Z }.
Record virtio_blk_req := Req { rq_type : Z; rq_reserved : Z; rq_sector : Z }.
Record vinfo := Info { in_b : Z; in_status : Z }.
(** The fields of [struct buf] the driver uses. *)
Record vbuf := Vbuf { vb_blockno : Z; vb_data : bytes; vb_disk : Z }.

Definition nullb : Z := -1.
Definition desc0 : virtq_desc := Desc ANull 0 0 0.
Definition req0 : virtio_blk_req := Req 0 0 0.
Definition info0 : vinfo := Info nullb 0.
Definition vbuf0 : vbuf := Vbuf 0 [] 0.

Record vst := Vst {
  v_held : locks;
  v_woken : list Z;
  v_desc : list virtq_desc;
  v_avail_idx : Z;
  v_avail : list Z;           (* avail->ring *)
  v_dused_idx : Z;            (* used->idx, written by the device *)
  v_used : list Z;            (* the ids in used->ring *)
  v_free : list Z;
  v_used_idx : Z;             (* disk.used_idx *)
  v_info : list vinfo;
  v_ops : list virtio_blk_req;
  v_bufs : gmap Z vbuf;
}.

#[export] Instance vst_locks : Lens vst locks.
Proof.
  refine {| lget := v_held;
    lset h s := Vst h (v_woken s) (v_desc s) (v_avail_idx s) (v_avail s) (v_dused_idx s) (v_used s) (v_free s)
      (v_used_idx s) (v_info s) (v_ops s) (v_bufs s) |}; by try intros [].
Defined.

#[export] Instance vst_waker : Waker vst := {|
  woken := v_woken;
  add_woken c s := Vst (v_held s) (c :: v_woken s) (v_desc s) (v_avail_idx s) (v_avail s) (v_dused_idx s) (v_used s)
    (v_free s) (v_used_idx s) (v_info s) (v_ops s) (v_bufs s) |}.

Definition vdisk_lock : lockid := ("virtio_disk", 0).
(** The channels [&disk.free[0]] and [b]. *)
Definition free_chan : Z := 0.
Definition buf_chan (b : Z) : Z := b + 1.

Definition vb (s : vst) (b : Z) : vbuf := default vbuf0 (v_bufs s !! b).
Definition vdesc (s : vst) (i : Z) : virtq_desc := nthZ desc0 (v_desc s) i.
Definition vinf (s : vst) (i : Z) : vinfo := nthZ info0 (v_info s) i.
Definition vop (s : vst) (i : Z) : virtio_blk_req := nthZ req0 (v_ops s) i.
Definition vfree (s : vst) (i : Z) : Z := nthZ 0 (v_free s) i.

(** One assignment of the code each. *)
Definition set_desc (i : Z) (d : virtq_desc) : K vst unit :=
  kmod (fun s => Vst (v_held s) (v_woken s) (updZ (v_desc s) i d) (v_avail_idx s) (v_avail s) (v_dused_idx s) (v_used s)
    (v_free s) (v_used_idx s) (v_info s) (v_ops s) (v_bufs s)).
Definition set_free (i x : Z) : K vst unit :=
  kmod (fun s => Vst (v_held s) (v_woken s) (v_desc s) (v_avail_idx s) (v_avail s) (v_dused_idx s) (v_used s)
    (updZ (v_free s) i x) (v_used_idx s) (v_info s) (v_ops s) (v_bufs s)).
Definition set_op (i : Z) (r : virtio_blk_req) : K vst unit :=
  kmod (fun s => Vst (v_held s) (v_woken s) (v_desc s) (v_avail_idx s) (v_avail s) (v_dused_idx s) (v_used s)
    (v_free s) (v_used_idx s) (v_info s) (updZ (v_ops s) i r) (v_bufs s)).
Definition set_info (i : Z) (f : vinfo -> vinfo) : K vst unit :=
  kmod (fun s => Vst (v_held s) (v_woken s) (v_desc s) (v_avail_idx s) (v_avail s) (v_dused_idx s) (v_used s)
    (v_free s) (v_used_idx s) (updZ (v_info s) i (f (vinf s i))) (v_ops s) (v_bufs s)).
Definition set_vbuf (b : Z) (f : vbuf -> vbuf) : K vst unit :=
  kmod (fun s => Vst (v_held s) (v_woken s) (v_desc s) (v_avail_idx s) (v_avail s) (v_dused_idx s) (v_used s)
    (v_free s) (v_used_idx s) (v_info s) (v_ops s) (<[b := f (vb s b)]> (v_bufs s))).
Definition set_avail (i x : Z) : K vst unit :=
  kmod (fun s => Vst (v_held s) (v_woken s) (v_desc s) (v_avail_idx s) (updZ (v_avail s) i x) (v_dused_idx s) (v_used s)
    (v_free s) (v_used_idx s) (v_info s) (v_ops s) (v_bufs s)).
Definition set_avail_idx (x : Z) : K vst unit :=
  kmod (fun s => Vst (v_held s) (v_woken s) (v_desc s) x (v_avail s) (v_dused_idx s) (v_used s)
    (v_free s) (v_used_idx s) (v_info s) (v_ops s) (v_bufs s)).
Definition set_used_idx (x : Z) : K vst unit :=
  kmod (fun s => Vst (v_held s) (v_woken s) (v_desc s) (v_avail_idx s) (v_avail s) (v_dused_idx s) (v_used s)
    (v_free s) x (v_info s) (v_ops s) (v_bufs s)).

(** ** The driver *)

(** [for(int i = 0; i < NUM; i++) if(disk.free[i])] *)
Fixpoint alloc_scan (l : list Z) (i : Z) : Z :=
  match l with
  | [] => -1
  | x :: l => if negb (x =? 0) then i else alloc_scan l (i + 1)
  end.

Definition alloc_desc : K vst Z :=
  s <- kget ;;
  let i := alloc_scan (v_free s) 0 in
  if i <? 0 then kret (-1) else set_free i 0 >> kret i.

Definition free_desc (i : Z) : K vst unit :=
  if NUM <=? i then kpanic "free_desc 1" else
  s <- kget ;;
  if negb (vfree s i =? 0) then kpanic "free_desc 2" else
  set_desc i desc0 >>
  set_free i 1 >>
  wakeup_rec free_chan.

(** [while(1)]; a chain has at most NUM descriptors. *)
Fixpoint free_chain (fuel : nat) (i : Z) : K vst unit :=
  match fuel with
  | O => kfuel
  | S fuel =>
      s <- kget ;;
      let flag := d_flags (vdesc s i) in
      let nxt := d_next (vdesc s i) in
      free_desc i >>
      if negb (Z.land flag VRING_DESC_F_NEXT =? 0) then free_chain fuel nxt else kret tt
  end.

Fixpoint free_all (l : list Z) : K vst unit :=
  match l with
  | [] => kret tt
  | j :: l => free_desc j >> free_all l
  end.

(** [for(int i = 0; i < 3; i++)]; [got] are the descriptors so far. *)
Fixpoint alloc3_loop (n : nat) (got : list Z) : K vst (option (list Z)) :=
  match n with
  | O => kret (Some got)
  | S n =>
      i <- alloc_desc ;;
      if i <? 0 then free_all got >> kret None
      else alloc3_loop n (got ++ [i])
  end.

Definition alloc3_desc : K vst (option (list Z)) := alloc3_loop 3 [].

(** From the allocation to the notification of the device. *)
Definition rw_format (b : Z) (write : bool) (i0 i1 i2 : Z) : K vst unit :=
  s <- kget ;;
  let sector := u32 (vb_blockno (vb s b) * (BSIZE / 512)) in
  set_op i0 (Req (if write then VIRTIO_BLK_T_OUT else VIRTIO_BLK_T_IN) 0 sector) >>
  set_desc i0 (Desc (AOps i0) REQ_SIZE VRING_DESC_F_NEXT i1) >>
  set_desc i1 (Desc (AData b) BSIZE
    (Z.lor (if write then 0 else VRING_DESC_F_WRITE) VRING_DESC_F_NEXT) i2) >>
  set_info i0 (fun x => Info (in_b x) 0xff) >>
  set_desc i2 (Desc (AStatus i0) 1 VRING_DESC_F_WRITE 0) >>
  set_vbuf b (fun x => Vbuf (vb_blockno x) (vb_data x) 1) >>
  set_info i0 (fun x => Info b (in_status x)) >>
  s <- kget ;;
  set_avail (v_avail_idx s mod NUM) i0 >>
  set_avail_idx (u16 (v_avail_idx s + 1)).

(** [None]: asleep on [&disk.free[0]], to start over; otherwise the request
    is out and the process sleeps on [b]. *)
Definition rw_begin (b : Z) (write : bool) : K vst (option (Z * Z * Z)) :=
  zoom (acquire vdisk_lock) >>
  idx <- alloc3_desc ;;
  match idx with
  | Some [i0; i1; i2] =>
      rw_format b write i0 i1 i2 >>
      zoom (release vdisk_lock) >>
      kret (Some (i0, i1, i2))
  | _ => zoom (release vdisk_lock) >> kret None
  end.

(** After a wakeup: [while(b->disk == 1)]; whether the call is over. *)
Definition rw_resume (b i0 : Z) : K vst bool :=
  zoom (acquire vdisk_lock) >>
  s <- kget ;;
  if vb_disk (vb s b) =? 1 then zoom (release vdisk_lock) >> kret false else
  set_info i0 (fun x => Info nullb (in_status x)) >>
  free_chain (Z.to_nat NUM) i0 >>
  zoom (release vdisk_lock) >>
  kret true.

(** [while(disk.used_idx != disk.used->idx)] *)
Fixpoint intr_loop (fuel : nat) : K vst unit :=
  match fuel with
  | O => kfuel
  | S fuel =>
      s <- kget ;;
      if v_used_idx s =? v_dused_idx s then kret tt else
      let id := nthZ 0 (v_used s) (v_used_idx s mod NUM) in
      if negb (in_status (vinf s id) =? 0) then kpanic "virtio_disk_intr status" else
      let b := in_b (vinf s id) in
      set_vbuf b (fun x => Vbuf (vb_blockno x) (vb_data x) 0) >>
      wakeup_rec (buf_chan b) >>
      set_used_idx (u16 (v_used_idx s + 1)) >>
      intr_loop fuel
  end.

(** The acknowledgement only matters to the device.  The used ring holds at
    most NUM entries. *)
Definition virtio_disk_intr : K vst unit :=
  zoom (acquire vdisk_lock) >>
  intr_loop (S (Z.to_nat NUM)) >>
  zoom (release vdisk_lock).

(** ** Initialisation *)

(** kernel/virtio.h *)
Definition VIRTIO_MMIO_MAGIC_VALUE : Z := 0x000.
Definition VIRTIO_MMIO_VERSION : Z := 0x004.
Definition VIRTIO_MMIO_DEVICE_ID : Z := 0x008.
Definition VIRTIO_MMIO_VENDOR_ID : Z := 0x00c.
Definition VIRTIO_MMIO_DEVICE_FEATURES : Z := 0x010.
Definition VIRTIO_MMIO_DRIVER_FEATURES : Z := 0x020.
Definition VIRTIO_MMIO_QUEUE_SEL : Z := 0x030.
Definition VIRTIO_MMIO_QUEUE_NUM_MAX : Z := 0x034.
Definition VIRTIO_MMIO_QUEUE_NUM : Z := 0x038.
Definition VIRTIO_MMIO_QUEUE_READY : Z := 0x044.
Definition VIRTIO_MMIO_STATUS : Z := 0x070.
Definition VIRTIO_MMIO_QUEUE_DESC_LOW : Z := 0x080.
Definition VIRTIO_MMIO_QUEUE_DESC_HIGH : Z := 0x084.
Definition VIRTIO_MMIO_DRIVER_DESC_LOW : Z := 0x090.
Definition VIRTIO_MMIO_DRIVER_DESC_HIGH : Z := 0x094.
Definition VIRTIO_MMIO_DEVICE_DESC_LOW : Z := 0x0a0.
Definition VIRTIO_MMIO_DEVICE_DESC_HIGH : Z := 0x0a4.
Definition VIRTIO_CONFIG_S_ACKNOWLEDGE : Z := 1.
Definition VIRTIO_CONFIG_S_DRIVER : Z := 2.
Definition VIRTIO_CONFIG_S_DRIVER_OK : Z := 4.
Definition VIRTIO_CONFIG_S_FEATURES_OK : Z := 8.
Definition VIRTIO_BLK_F_RO : Z := 5.
Definition VIRTIO_BLK_F_SCSI : Z := 7.
Definition VIRTIO_BLK_F_CONFIG_WCE : Z := 11.
Definition VIRTIO_BLK_F_MQ : Z := 12.
Definition VIRTIO_F_ANY_LAYOUT : Z := 27.
Definition VIRTIO_RING_F_INDIRECT_DESC : Z := 28.
Definition VIRTIO_RING_F_EVENT_IDX : Z := 29.

Record vboot := Vboot {
  vo_st : vst;
  vo_pm : pm;
  vo_regs : list (Z * Z);    (* the registers written, last first *)
}.

#[export] Instance vboot_st : Lens vboot vst.
Proof. refine {| lget := vo_st; lset x s := Vboot x (vo_pm s) (vo_regs s) |}; by try intros []. Defined.
#[export] Instance vboot_pm : Lens vboot pm.
Proof. refine {| lget := vo_pm; lset x s := Vboot (vo_st s) x (vo_regs s) |}; by try intros []. Defined.

Section init.
Context `{L : Layout}.
(** What the device answers when a register is read, given the writes so far. *)
Variable device : list (Z * Z) -> Z -> Z.
Abbreviation I := (K vboot).

Definition reg_rd (r : Z) : I Z := kgets (fun s => u32 (device (vo_regs s) r)).
Definition reg_wr (r v : Z) : I unit := kmod (fun s => Vboot (vo_st s) (vo_pm s) ((r, u32 v) :: vo_regs s)).

(** [features &= ~(1 << bit)] *)
Definition without (features bit : Z) : Z := Z.land features (Z.lnot (Z.shiftl 1 bit)).

Definition virtio_disk_init : I unit :=
  zoom (T := vst) (zoom (initlock vdisk_lock)) >>
  magic <- reg_rd VIRTIO_MMIO_MAGIC_VALUE ;;
  version <- reg_rd VIRTIO_MMIO_VERSION ;;
  id <- reg_rd VIRTIO_MMIO_DEVICE_ID ;;
  vendor <- reg_rd VIRTIO_MMIO_VENDOR_ID ;;
  if (negb (magic =? 0x74726976) || negb (version =? 2) || negb (id =? 2) || negb (vendor =? 0x554d4551))%bool
  then kpanic "could not find virtio disk" else
  let status := 0 in
  reg_wr VIRTIO_MMIO_STATUS status >>
  let status := Z.lor status VIRTIO_CONFIG_S_ACKNOWLEDGE in
  reg_wr VIRTIO_MMIO_STATUS status >>
  let status := Z.lor status VIRTIO_CONFIG_S_DRIVER in
  reg_wr VIRTIO_MMIO_STATUS status >>
  features <- reg_rd VIRTIO_MMIO_DEVICE_FEATURES ;;
  let features := without features VIRTIO_BLK_F_RO in
  let features := without features VIRTIO_BLK_F_SCSI in
  let features := without features VIRTIO_BLK_F_CONFIG_WCE in
  let features := without features VIRTIO_BLK_F_MQ in
  let features := without features VIRTIO_F_ANY_LAYOUT in
  let features := without features VIRTIO_RING_F_EVENT_IDX in
  let features := without features VIRTIO_RING_F_INDIRECT_DESC in
  reg_wr VIRTIO_MMIO_DRIVER_FEATURES features >>
  let status := Z.lor status VIRTIO_CONFIG_S_FEATURES_OK in
  reg_wr VIRTIO_MMIO_STATUS status >>
  status <- reg_rd VIRTIO_MMIO_STATUS ;;
  if Z.land status VIRTIO_CONFIG_S_FEATURES_OK =? 0 then kpanic "virtio disk FEATURES_OK unset" else
  reg_wr VIRTIO_MMIO_QUEUE_SEL 0 >>
  ready <- reg_rd VIRTIO_MMIO_QUEUE_READY ;;
  if negb (ready =? 0) then kpanic "virtio disk should not be ready" else
  max <- reg_rd VIRTIO_MMIO_QUEUE_NUM_MAX ;;
  if max =? 0 then kpanic "virtio disk has no queue 0" else
  if max <? NUM then kpanic "virtio disk max queue too short" else
  desc <- zoom kalloc ;;
  avail <- zoom kalloc ;;
  used <- zoom kalloc ;;
  if ((desc =? 0) || (avail =? 0) || (used =? 0))%bool then kpanic "virtio disk kalloc" else
  zoom (set_mem (fun m => memset m desc 0 PGSIZE)) >>
  zoom (set_mem (fun m => memset m avail 0 PGSIZE)) >>
  zoom (set_mem (fun m => memset m used 0 PGSIZE)) >>
  (* what the three pages hold as the structures of the queue *)
  zoom (T := vst) (kmod (fun s => Vst (v_held s) (v_woken s) (replicate (Z.to_nat NUM) desc0) 0 (replicate (Z.to_nat NUM) 0)
    0 (replicate (Z.to_nat NUM) 0) (v_free s) (v_used_idx s) (v_info s) (v_ops s) (v_bufs s))) >>
  reg_wr VIRTIO_MMIO_QUEUE_NUM NUM >>
  reg_wr VIRTIO_MMIO_QUEUE_DESC_LOW desc >>
  reg_wr VIRTIO_MMIO_QUEUE_DESC_HIGH (Z.shiftr desc 32) >>
  reg_wr VIRTIO_MMIO_DRIVER_DESC_LOW avail >>
  reg_wr VIRTIO_MMIO_DRIVER_DESC_HIGH (Z.shiftr avail 32) >>
  reg_wr VIRTIO_MMIO_DEVICE_DESC_LOW used >>
  reg_wr VIRTIO_MMIO_DEVICE_DESC_HIGH (Z.shiftr used 32) >>
  reg_wr VIRTIO_MMIO_QUEUE_READY 1 >>
  zoom (T := vst) (kmod (fun s => Vst (v_held s) (v_woken s) (v_desc s) (v_avail_idx s) (v_avail s) (v_dused_idx s) (v_used s)
    (replicate (Z.to_nat NUM) 1) (v_used_idx s) (v_info s) (v_ops s) (v_bufs s))) >>
  let status := Z.lor status VIRTIO_CONFIG_S_DRIVER_OK in
  reg_wr VIRTIO_MMIO_STATUS status.
End init.
