(* ===== verification/VirtioProofs.v ===== *)
(** * The disk driver and the device implement the block transfer

    Any number of processes call [virtio_disk_rw], each on a buffer of its
    own, while the device takes requests from the available ring, serves
    them in any order, and interrupts.  The critical sections of the driver
    (they hold [vdisk_lock]) are steps.  The abstract system knows only
    blocks, buffers and requests, and moves a block in one step: the
    contract the buffer cache relies on. *)

From stdpp Require Import functions.
From S2P Require Import Prelude Riscv Spinlock Sleeplock Block Kalloc Keeps Ring Virtio.

(** ** The device

    What the driver relies on in the virtio specification (sections 2.7 and
    5.2.6): the device fetches chain heads from the available ring in order;
    it reads the request header through the first descriptor, moves the data
    between the sectors and the second, writes the status through the third
    and puts the head into the used ring.  How a device does that is a
    parameter, [serve]. *)

Record vdev := Vdev {
  dv_media : gmap Z bytes;    (* 512-byte sectors *)
  dv_seen : Z;                (* available entries fetched so far *)
  dv_pend : list Z;           (* heads fetched and not served yet *)
}.

Definition zero_sector : bytes := replicate 512 0.
Definition sector (m : gmap Z bytes) (s : Z) : bytes := default zero_sector (m !! s).

Fixpoint media_read (m : gmap Z bytes) (s : Z) (n : nat) : bytes :=
  match n with
  | O => []
  | S n => sector m s ++ media_read m (s + 1) n
  end.

Fixpoint media_write (m : gmap Z bytes) (s : Z) (n : nat) (d : bytes) : gmap Z bytes :=
  match n with
  | O => m
  | S n => media_write (<[s := take 512 d]> m) (s + 1) n (drop 512 d)
  end.

Definition has_flag (d : virtq_desc) (f : Z) : bool := negb (Z.land (d_flags d) f =? 0).

(** The completion of the request with head [h], status byte [k] and data
    buffer [b], which now holds [x]. *)
Definition completed (s : vst) (h k b : Z) (x : vbuf) : vst :=
  Vst (v_held s) (v_woken s) (v_desc s) (v_avail_idx s) (v_avail s)
    (u16 (v_dused_idx s + 1)) (updZ (v_used s) (v_dused_idx s mod NUM) h) (v_free s) (v_used_idx s)
    (updZ (v_info s) k (Info (in_b (vinf s k)) 0)) (v_ops s) (<[b := x]> (v_bufs s)).

(** A chain of three descriptors from [h]: header [o], data of [b], status [k]. *)
Definition blk_chain (s : vst) (h o b k : Z) (d1 : virtq_desc) : Prop :=
  exists d0 d2, vdesc s h = d0 /\ d_addr d0 = AOps o /\ has_flag d0 VRING_DESC_F_NEXT = true /\
    vdesc s (d_next d0) = d1 /\ d_addr d1 = AData b /\ has_flag d1 VRING_DESC_F_NEXT = true /\
    vdesc s (d_next d1) = d2 /\ d_addr d2 = AStatus k /\ has_flag d2 VRING_DESC_F_WRITE = true.

Class VirtioBlk (serve : vst -> gmap Z bytes -> Z -> option (vst * gmap Z bytes)) : Prop := {
  serve_in : forall s m h o b k d1,
    blk_chain s h o b k d1 -> rq_type (vop s o) = VIRTIO_BLK_T_IN -> has_flag d1 VRING_DESC_F_WRITE = true ->
    serve s m h = Some (completed s h k b
      (Vbuf (vb_blockno (vb s b)) (media_read m (rq_sector (vop s o)) (Z.to_nat (d_len d1 / 512))) (vb_disk (vb s b))), m);
  serve_out : forall s m h o b k d1,
    blk_chain s h o b k d1 -> rq_type (vop s o) = VIRTIO_BLK_T_OUT -> has_flag d1 VRING_DESC_F_WRITE = false ->
    serve s m h = Some (completed s h k b (vb s b),
      media_write m (rq_sector (vop s o)) (Z.to_nat (d_len d1 / 512)) (vb_data (vb s b)));
}.

(** ** The system *)

Record vsys := Vsys {
  y_st : vst;
  y_dev : vdev;
  y_req : gmap Z (bool * (Z * Z * Z));   (* calls in progress: buffer, direction and [idx] *)
}.

Definition is_block (x : vbuf) : Prop := 0 <= vb_blockno x < 2 ^ 31 /\ length (vb_data x) = 1024%nat.

Inductive vstep (serve : vst -> gmap Z bytes -> Z -> option (vst * gmap Z bytes)) : vsys -> vsys -> Prop :=
| vs_begin b w idx s d q s' :
    q !! b = None -> is_block (vb s b) -> rw_begin b w s = Ret (Some idx) s' ->
    vstep serve (Vsys s d q) (Vsys s' d (<[b := (w, idx)]> q))
| vs_full b w s d q s' :
    q !! b = None -> rw_begin b w s = Ret None s' -> vstep serve (Vsys s d q) (Vsys s' d q)
| vs_fetch s m seen pend q :
    seen <> v_avail_idx s ->
    vstep serve (Vsys s (Vdev m seen pend) q) (Vsys s (Vdev m (u16 (seen + 1)) (pend ++ [nthZ 0 (v_avail s) (seen mod NUM)])) q)
| vs_serve h s m seen pend1 pend2 q s' m' :
    serve s m h = Some (s', m') ->
    vstep serve (Vsys s (Vdev m seen (pend1 ++ h :: pend2)) q) (Vsys s' (Vdev m' seen (pend1 ++ pend2)) q)
| vs_intr s d q s' :
    virtio_disk_intr s = Ret tt s' -> vstep serve (Vsys s d q) (Vsys s' d q)
| vs_again b w idx s d q s' :
    q !! b = Some (w, idx) -> rw_resume b idx.1.1 s = Ret false s' -> vstep serve (Vsys s d q) (Vsys s' d q)
| vs_end b w idx s d q s' :
    q !! b = Some (w, idx) -> rw_resume b idx.1.1 s = Ret true s' -> vstep serve (Vsys s d q) (Vsys s' d (delete b q))
| vs_buf b blk data s d q :
    q !! b = None ->
    vstep serve (Vsys s d q)
      (Vsys (Vst (v_held s) (v_woken s) (v_desc s) (v_avail_idx s) (v_avail s) (v_dused_idx s) (v_used s)
               (v_free s) (v_used_idx s) (v_info s) (v_ops s) (<[b := Vbuf blk data (vb_disk (vb s b))]> (v_bufs s))) d q).

(** ** The contract *)

Record vabs := Vabs {
  a_disk : Z -> bytes;                (* blocks *)
  a_buf : Z -> Z * bytes;             (* block number and data of each buffer *)
  a_req : gmap Z (bool * bool);       (* direction, and whether the block has moved *)
}.

(** The transfer, in one step. *)
Definition amove (b : Z) (w : bool) (a : vabs) : vabs :=
  let k := (a_buf a b).1 in
  if w then Vabs (<[k := (a_buf a b).2]> (a_disk a)) (a_buf a) (<[b := (w, true)]> (a_req a))
  else Vabs (a_disk a) (<[b := (k, a_disk a k)]> (a_buf a)) (<[b := (w, true)]> (a_req a)).

Inductive astep : vabs -> vabs -> Prop :=
| as_begin b w a : a_req a !! b = None -> astep a (Vabs (a_disk a) (a_buf a) (<[b := (w, false)]> (a_req a)))
| as_move b w a : a_req a !! b = Some (w, false) -> astep a (amove b w a)
| as_end b w a : a_req a !! b = Some (w, true) -> astep a (Vabs (a_disk a) (a_buf a) (delete b (a_req a)))
| as_buf b blk data a : a_req a !! b = None -> astep a (Vabs (a_disk a) (<[b := (blk, data)]> (a_buf a)) (a_req a)).

(** ** The invariant *)

Definition in_chain (idx : Z * Z * Z) (i : Z) : Prop := i = idx.1.1 \/ i = idx.1.2 \/ i = idx.2.

(** The descriptors of a request, as [rw_format] fills them in. *)
Record chained (s : vst) (b : Z) (w : bool) (idx : Z * Z * Z) : Prop := {
  fm_range : forall i, in_chain idx i -> 0 <= i < NUM;
  fm_dist : idx.1.1 <> idx.1.2 /\ idx.1.1 <> idx.2 /\ idx.1.2 <> idx.2;
  fm_0 : vdesc s idx.1.1 = Desc (AOps idx.1.1) REQ_SIZE VRING_DESC_F_NEXT idx.1.2;
  fm_1 : vdesc s idx.1.2 = Desc (AData b) BSIZE (Z.lor (if w then 0 else VRING_DESC_F_WRITE) VRING_DESC_F_NEXT) idx.2;
  fm_2 : vdesc s idx.2 = Desc (AStatus idx.1.1) 1 VRING_DESC_F_WRITE 0;
}.

(** The request in them, and its buffer. *)
Record formatted (s : vst) (b : Z) (w : bool) (idx : Z * Z * Z) : Prop := {
  fm_chain : chained s b w idx;
  fm_op : vop s idx.1.1 = Req (if w then VIRTIO_BLK_T_OUT else VIRTIO_BLK_T_IN) 0 (2 * vb_blockno (vb s b));
  fm_b : in_b (vinf s idx.1.1) = b;
  fm_block : is_block (vb s b);
  fm_disk : vb_disk (vb s b) = 0 \/ vb_disk (vb s b) = 1;
}.

Record lens_ok (s : vst) : Prop := {
  ln_desc : length (v_desc s) = 8%nat;
  ln_free : length (v_free s) = 8%nat;
  ln_info : length (v_info s) = 8%nat;
  ln_ops : length (v_ops s) = 8%nat;
  ln_avail : length (v_avail s) = 8%nat;
  ln_used : length (v_used s) = 8%nat;
}.

(** The ring between two 16-bit counters. *)
Definition queue (ring : list Z) (from to : Z) (l : list Z) : Prop :=
  0 <= from < 2 ^ 16 /\ to = u16 (from + Z.of_nat (length l)) /\ l = ring_get ring NUM from (length l).

(** [A]: heads in the available ring; [U]: heads in the used ring. *)
Record vinv (s : vst) (seen : Z) (pend : list Z) (q : gmap Z (bool * (Z * Z * Z))) (A U : list Z) : Prop := {
  vi_len : lens_ok s;
  vi_unlocked : vdisk_lock ∉ v_held s;
  vi_fmt : forall b w idx, q !! b = Some (w, idx) -> formatted s b w idx;
  vi_disj : forall b b' w w' idx idx' i, q !! b = Some (w, idx) -> q !! b' = Some (w', idx') ->
    in_chain idx i -> in_chain idx' i -> b = b';
  vi_free : forall i, 0 <= i < NUM ->
    if vfree s i =? 0 then exists b w idx, q !! b = Some (w, idx) /\ in_chain idx i
    else forall b w idx, q !! b = Some (w, idx) -> ~ in_chain idx i;
  vi_avail : queue (v_avail s) seen (v_avail_idx s) A;
  vi_used : queue (v_used s) (v_used_idx s) (v_dused_idx s) U;
  vi_nodup : NoDup (A ++ pend ++ U);
  vi_out : forall h, h ∈ A ++ pend ++ U <->
    exists b w idx, q !! b = Some (w, idx) /\ idx.1.1 = h /\ vb_disk (vb s b) = 1;
  vi_status : forall h, h ∈ U -> in_status (vinf s h) = 0;
}.

(** The abstract state of a concrete one. *)
Record vsim (m : gmap Z bytes) (s : vst) (pend : list Z) (q : gmap Z (bool * (Z * Z * Z))) (A : list Z) (a : vabs) : Prop := {
  vm_disk : forall k, 0 <= k < 2 ^ 31 -> media_read m (2 * k) 2 = a_disk a k;
  vm_buf : forall b, a_buf a b = (vb_blockno (vb s b), vb_data (vb s b));
  vm_req : forall b, a_req a !! b =
    match q !! b with
    | None => None
    | Some (w, idx) => Some (w, bool_decide (idx.1.1 ∉ A ++ pend))
    end;
}.

(** *** Queues *)

Lemma queue_pop ring from to x l :
  queue ring from to (x :: l) -> nthZ 0 ring (from mod NUM) = x /\ queue ring (u16 (from + 1)) to l.
Proof.
  intros (H1 & H2 & H3). cbn [length ring_get] in *. injection H3 as Hx Hl. split; [done |]. split; [| split].
  - unfold u16. apply Z.mod_pos_bound. lia.
  - rewrite H2. unfold u16. rewrite Zplus_mod_idemp_l. f_equal. lia.
  - rewrite Hl at 1. unfold u16. rewrite ring_get_mod; [done | by exists (2 ^ 13)].
Qed.

Lemma queue_push ring from to l x :
  length ring = 8%nat -> queue ring from to l -> (length l < 8)%nat ->
  queue (updZ ring (to mod NUM) x) from (u16 (to + 1)) (l ++ [x]).
Proof.
  intros Hlen (H1 & H2 & H3) Hl. unfold queue. rewrite length_app. cbn [length]. split_and!; [lia | lia | |].
  - rewrite H2. unfold u16. rewrite Zplus_mod_idemp_l. f_equal. lia.
  - rewrite H3 at 1. rewrite <- ring_push with (x := x); [| by rewrite Hlen | lia | unfold NUM; lia]. do 2 f_equal.
    rewrite H2. unfold u16. rewrite Z.mod_mod_divide; [done | by exists (2 ^ 13)].
Qed.

Lemma queue_empty ring from to l : queue ring from to l -> (length l <= 8)%nat -> from = to <-> l = [].
Proof.
  intros (H1 & H2 & H3) Hl. split.
  - intros E. destruct l as [| x l]; [done |]. exfalso. cbn in *. rewrite H2 in E. unfold u16 in E.
    destruct (decide (from + Z.of_nat (S (length l)) < 2 ^ 16)).
    + rewrite Z.mod_small in E by lia. lia.
    + assert (E' : (from + Z.of_nat (S (length l))) mod 2 ^ 16 = from + Z.of_nat (S (length l)) - 2 ^ 16).
      { symmetry. apply Z.mod_unique with 1; lia. }
      lia.
  - intros ->. cbn in H2. rewrite H2, Z.add_0_r. unfold u16. by rewrite Z.mod_small.
Qed.

(** *** Descriptors *)

(** Only descriptors that were free, and the record of wakeups, differ. *)
Record same_but_free (s s' : vst) : Prop := {
  sf_len : lens_ok s -> lens_ok s';
  sf_held : v_held s' = v_held s;
  sf_avail : v_avail s' = v_avail s /\ v_avail_idx s' = v_avail_idx s;
  sf_used : v_used s' = v_used s /\ v_used_idx s' = v_used_idx s /\ v_dused_idx s' = v_dused_idx s;
  sf_info : v_info s' = v_info s;
  sf_ops : v_ops s' = v_ops s;
  sf_bufs : v_bufs s' = v_bufs s;
}.

Lemma same_but_free_refl s : same_but_free s s.
Proof. by split. Qed.

Lemma same_but_free_trans s1 s2 s3 : same_but_free s1 s2 -> same_but_free s2 s3 -> same_but_free s1 s3.
Proof. intros [a1 a2 [] (?&?&?) a5 a6 a7] [b1 b2 [] (?&?&?) b5 b6 b7]. split; try (split_and!; congruence); auto; congruence. Qed.

Lemma alloc_scan_spec l k :
  let i := alloc_scan l k in
  i = -1 \/ k <= i < k + Z.of_nat (length l) /\ nthZ 0 l (i - k) <> 0.
Proof.
  revert k. induction l as [| x l IH]; intros k; cbn [alloc_scan]; [by left |]. destruct (negb (x =? 0)) eqn:E; zbool.
  - right. cbn [length]. split; [lia |]. by rewrite Z.sub_diag, nthZ_hd.
  - destruct (IH (k + 1)) as [H | [H1 H2]]; [by left | right]. cbn [length] in *. split; [lia |].
    rewrite nthZ_cons by lia. by replace (alloc_scan l (k + 1) - k - 1) with (alloc_scan l (k + 1) - (k + 1)) by lia.
Qed.

(** [i] was free and is not any more. *)
Lemma alloc_desc_ok s :
  lens_ok s ->
  wp alloc_desc s (fun i s' =>
    i = -1 /\ s' = s \/
    0 <= i < NUM /\ vfree s i <> 0 /\ same_but_free s s' /\ v_desc s' = v_desc s /\
    forall j, vfree s' j = if j =? i then 0 else vfree s j).
Proof.
  intros Hl. unfold alloc_desc, wp, kbind, kget. destruct (alloc_scan_spec (v_free s) 0) as [-> | [H1 H2]].
  - cbn. by left.
  - set (i := alloc_scan (v_free s) 0) in *. rewrite Z.sub_0_r in H2. rewrite (ln_free _ Hl) in H1.
    rewrite (proj2 (Z.ltb_ge i 0)) by lia. unfold set_free, kmod, kret. right. split_and!; try done; [lia | unfold NUM; lia | |].
    + split; try done. intros []. split; cbn; rewrite ?length_updZ; done.
    + intros j. unfold vfree. cbn. apply nthZ_updZ. rewrite (ln_free _ Hl). lia.
Qed.

Lemma free_desc_ok i s :
  lens_ok s -> 0 <= i < NUM -> vfree s i = 0 ->
  wp (free_desc i) s (fun _ s' =>
    same_but_free s s' /\ (forall j, vdesc s' j = if j =? i then desc0 else vdesc s j) /\
    forall j, vfree s' j = if j =? i then 1 else vfree s j).
Proof.
  intros Hl Hi Hf. unfold free_desc. rewrite (proj2 (Z.leb_gt NUM i)) by lia. unfold wp, kbind, kget. rewrite Hf. cbn [negb Z.eqb].
  unfold set_desc, set_free, wakeup_rec, kmod. split_and!.
  - split; try done. intros []. split; cbn; rewrite ?length_updZ; done.
  - intros j. unfold vdesc. cbn. apply nthZ_updZ. rewrite (ln_desc _ Hl). unfold NUM in Hi. lia.
  - intros j. unfold vfree. cbn. apply nthZ_updZ. rewrite (ln_free _ Hl). unfold NUM in Hi. lia.
Qed.

(** Freeing what was just taken: only free descriptors have changed. *)
Lemma free_all_ok l s :
  lens_ok s -> NoDup l -> (forall i, i ∈ l -> 0 <= i < NUM /\ vfree s i = 0) ->
  wp (free_all l) s (fun _ s' =>
    same_but_free s s' /\ (forall j, j ∉ l -> vdesc s' j = vdesc s j) /\
    forall j, vfree s' j = if bool_decide (j ∈ l) then 1 else vfree s j).
Proof.
  revert s. induction l as [| i l IH]; intros s Hl Hn Hi; cbn [free_all].
  { apply wp_ret. split_and!; [apply same_but_free_refl | done |]. intros j. by rewrite bool_decide_false by set_solver. }
  apply NoDup_cons in Hn as [Hni Hn]. destruct (Hi i) as [Hr Hf]; [set_solver |]. apply wp_bind.
  eapply wp_mono; [by apply free_desc_ok |]. intros [] s1 (H1 & H2 & H3). eapply wp_mono; [apply IH |].
  - by apply (sf_len _ _ H1).
  - done.
  - intros j Hj. destruct (Hi j) as [Hrj Hfj]; [set_solver |]. split; [done |]. rewrite H3. case_if; zbool; [by subst | done].
  - intros [] s2 (G1 & G2 & G3). split_and!.
    + by eapply same_but_free_trans.
    + intros j Hj. rewrite G2, H2 by set_solver. case_if; zbool; [set_solver | done].
    + intros j. rewrite G3, H3. destruct (decide (j = i)) as [-> |].
      * rewrite bool_decide_false by done. rewrite bool_decide_true by set_solver. by rewrite Z.eqb_refl.
      * rewrite (proj2 (Z.eqb_neq j i)) by done. repeat case_bool_decide; try done; set_solver.
Qed.

(** Three descriptors that were free, or none and only free ones touched. *)
Definition took (s s' : vst) (l : list Z) : Prop :=
  same_but_free s s' /\ NoDup l /\ (forall i, i ∈ l -> 0 <= i < NUM /\ vfree s i <> 0) /\ v_desc s' = v_desc s /\
  forall j, vfree s' j = if bool_decide (j ∈ l) then 0 else vfree s j.

Definition gave_back (s s' : vst) : Prop :=
  same_but_free s s' /\ (forall j, vdesc s' j = vdesc s j \/ vfree s j <> 0) /\
  (forall j, vfree s j = 0 -> vfree s' j = 0) /\ (forall j, vfree s j <> 0 -> vfree s' j <> 0).

Lemma alloc3_loop_ok s0 n got s :
  lens_ok s0 -> took s0 s got ->
  wp (alloc3_loop n got) s (fun r s' =>
    match r with
    | Some l => took s0 s' l /\ length l = (length got + n)%nat
    | None => gave_back s0 s'
    end).
Proof.
  intros Hl0. revert got s. induction n as [| n IH]; intros got s Ht; cbn [alloc3_loop].
  { apply wp_ret. split; [done | lia]. }
  pose proof Ht as (T1 & T2 & T3 & T4 & T5). assert (Hl : lens_ok s) by (by apply (sf_len _ _ T1)).
  apply wp_bind. eapply wp_mono; [by apply alloc_desc_ok |]. intros i s1 [[-> ->] | (H1 & H2 & H3 & H4 & H5)].
  - cbn [Z.ltb Z.compare]. apply wp_bind. eapply wp_mono; [apply free_all_ok; [done | done |] |].
    { intros i Hi. split; [by apply T3 |]. rewrite T5. by rewrite bool_decide_true. }
    intros [] s2 (G1 & G2 & G3). apply wp_ret. split_and!.
    + by eapply same_but_free_trans.
    + intros j. destruct (decide (j ∈ got)); [right; by apply T3 | left]. rewrite G2 by done. unfold vdesc. by rewrite T4.
    + intros j Hj. rewrite G3, T5. case_bool_decide; [| done]. by destruct (T3 j).
    + intros j Hj. rewrite G3, T5. by case_bool_decide.
  - rewrite (proj2 (Z.ltb_ge i 0)) by lia.
    assert (Hni : i ∉ got) by (intros Hin; apply H2; rewrite T5; by rewrite bool_decide_true).
    eapply wp_mono; [apply IH |].
    + split_and!.
      * by eapply same_but_free_trans.
      * apply NoDup_app. split_and!; [done | set_solver | apply NoDup_singleton].
      * intros j [Hj | ->%list_elem_of_singleton]%elem_of_app; [by apply T3 |]. split; [done |].
        rewrite T5, bool_decide_false in H2 by done. done.
      * congruence.
      * intros j. rewrite H5, T5. destruct (decide (j = i)) as [-> |].
        -- rewrite Z.eqb_refl, bool_decide_true by set_solver. done.
        -- rewrite (proj2 (Z.eqb_neq j i)) by done. repeat case_bool_decide; try done; set_solver.
    + intros [l |] s2; [| done]. rewrite length_app. cbn. intros [? ?]. split; [done | lia].
Qed.

(** *** [rw_begin] *)

(** The effect of a request that goes out. *)
Record begun (s s' : vst) (b : Z) (w : bool) (idx : Z * Z * Z) : Prop := {
  bg_len : lens_ok s';
  bg_held : v_held s' = v_held s;
  bg_range : forall i, in_chain idx i -> 0 <= i < NUM /\ vfree s i <> 0;
  bg_dist : idx.1.1 <> idx.1.2 /\ idx.1.1 <> idx.2 /\ idx.1.2 <> idx.2;
  bg_free : forall j, (in_chain idx j -> vfree s' j = 0) /\ (~ in_chain idx j -> vfree s' j = vfree s j);
  bg_desc : forall j, ~ in_chain idx j -> vdesc s' j = vdesc s j;
  bg_0 : vdesc s' idx.1.1 = Desc (AOps idx.1.1) REQ_SIZE VRING_DESC_F_NEXT idx.1.2;
  bg_1 : vdesc s' idx.1.2 = Desc (AData b) BSIZE (Z.lor (if w then 0 else VRING_DESC_F_WRITE) VRING_DESC_F_NEXT) idx.2;
  bg_2 : vdesc s' idx.2 = Desc (AStatus idx.1.1) 1 VRING_DESC_F_WRITE 0;
  bg_op : forall j, vop s' j =
    if j =? idx.1.1 then Req (if w then VIRTIO_BLK_T_OUT else VIRTIO_BLK_T_IN) 0 (u32 (vb_blockno (vb s b) * 2)) else vop s j;
  bg_info : forall j, vinf s' j = if j =? idx.1.1 then Info b 0xff else vinf s j;
  bg_buf : forall c, vb s' c = if c =? b then Vbuf (vb_blockno (vb s b)) (vb_data (vb s b)) 1 else vb s c;
  bg_avail : v_avail s' = updZ (v_avail s) (v_avail_idx s mod NUM) idx.1.1 /\ v_avail_idx s' = u16 (v_avail_idx s + 1);
  bg_used : v_used s' = v_used s /\ v_used_idx s' = v_used_idx s /\ v_dused_idx s' = v_dused_idx s;
}.

Lemma vb_insert s b x c bs :
  v_bufs s = <[b := x]> bs -> vb s c = if c =? b then x else default vbuf0 (bs !! c).
Proof.
  intros E. unfold vb. rewrite E. destruct (decide (c = b)) as [-> |].
  - by rewrite lookup_insert_eq, Z.eqb_refl.
  - rewrite lookup_insert_ne by congruence. by rewrite (proj2 (Z.eqb_neq c b)) by done.
Qed.

Ltac vfields := cbn [v_held v_woken v_desc v_avail_idx v_avail v_dused_idx v_used v_free v_used_idx v_info v_ops v_bufs].
(** One assignment. *)
Ltac vmod := apply wp_bind, wp_mod; vfields.

Lemma rw_format_ok s0 s b w i0 i1 i2 :
  lens_ok s0 -> took s0 s [i0; i1; i2] -> wp (rw_format b w i0 i1 i2) s (fun _ s' => begun s0 s' b w (i0, i1, i2)).
Proof.
  intros Hl0 (T1 & T2 & T3 & T4 & T5). assert (Hl : lens_ok s) by (by apply (sf_len _ _ T1)).
  pose proof (sf_info _ _ T1) as Ei. pose proof (sf_ops _ _ T1) as Eo. pose proof (sf_bufs _ _ T1) as Eb.
  assert (R0 : 0 <= i0 < 8) by (apply (T3 i0); set_solver). assert (R1 : 0 <= i1 < 8) by (apply (T3 i1); set_solver).
  assert (R2 : 0 <= i2 < 8) by (apply (T3 i2); set_solver).
  apply NoDup_cons in T2 as [N0 T2]. apply NoDup_cons in T2 as [N1 _].
  assert (D : i0 <> i1 /\ i0 <> i2 /\ i1 <> i2) by (split_and!; set_solver). destruct D as (D1 & D2 & D3).
  pose proof (ln_desc _ Hl) as L1. pose proof (ln_info _ Hl) as L2. pose proof (ln_ops _ Hl) as L3.
  assert (Hch : forall j, in_chain (i0, i1, i2) j <-> j ∈ [i0; i1; i2]) by (intros j; unfold in_chain; cbn; set_solver).
  unfold rw_format, set_op, set_desc, set_info, set_vbuf, set_avail, set_avail_idx, vinf, vb.
  apply wp_bind. unfold wp at 1, kget. do 7 vmod. apply wp_bind. unfold wp at 1, kget. vmod. apply wp_mod. vfields.
  split; cbn [v_held v_avail v_avail_idx v_used v_used_idx v_dused_idx fst snd].
  - destruct Hl. split; cbn; rewrite ?length_updZ; done.
  - apply T1.
  - intros i Hi. apply T3. by apply Hch.
  - done.
  - intros j. split; intros Hj; rewrite Hch in Hj; (etrans; [apply T5 |]).
    + by rewrite bool_decide_true.
    + by rewrite bool_decide_false.
  - intros j Hj. unfold in_chain in Hj. cbn in Hj. unfold vdesc. cbn. rewrite !nthZ_updZ_ne by (intros <-; tauto). by rewrite T4.
  - unfold vdesc. cbn. rewrite !nthZ_updZ_ne by congruence. rewrite nthZ_updZ_eq by lia. done.
  - unfold vdesc. cbn. rewrite nthZ_updZ_ne by congruence. rewrite nthZ_updZ_eq by (rewrite length_updZ; lia). done.
  - unfold vdesc. cbn. rewrite nthZ_updZ_eq by (rewrite !length_updZ; lia). done.
  - intros j. unfold vop. cbn. rewrite nthZ_updZ by lia. unfold vb. rewrite Eb, Eo. done.
  - intros j. unfold vinf. cbn. rewrite nthZ_updZ by (rewrite length_updZ; lia). case_if; zbool.
    + subst. rewrite nthZ_updZ_eq by lia. done.
    + rewrite nthZ_updZ_ne by congruence. by rewrite Ei.
  - intros c. erewrite vb_insert by (cbn; reflexivity). unfold vb. cbn. by rewrite Eb.
  - by destruct (sf_avail _ _ T1) as [-> ->].
  - apply T1.
Qed.

Lemma lens_held s h : lens_ok s -> lens_ok (lset h s).
Proof. by intros []. Qed.

Lemma begun_held s s' h b w idx :
  begun (lset h s) s' b w idx -> begun s (lset (v_held s) s') b w idx.
Proof. intros []. split; try done. by apply lens_held. Qed.

Lemma gave_back_held s s' h : gave_back (lset h s) s' -> gave_back s (lset (v_held s) s').
Proof. intros ([] & H2 & H3 & H4). split; [| by split_and!]. split; try done. intros ?. apply lens_held, sf_len0. by apply lens_held. Qed.

Lemma rw_begin_ok b w s :
  lens_ok s -> vdisk_lock ∉ v_held s ->
  wp (rw_begin b w) s (fun r s' => match r with Some idx => begun s s' b w idx | None => gave_back s s' end).
Proof.
  intros Hl Hh. set (h := {[vdisk_lock]} ∪ v_held s). unfold rw_begin. apply wp_bind.
  eapply wp_of; [by apply (zoom_acquire vdisk_lock s) |]. change (lset ({[vdisk_lock]} ∪ lget s) s) with (lset h s).
  apply wp_bind. eapply wp_mono; [apply (alloc3_loop_ok (lset h s) 3 []) |].
  { by apply lens_held. }
  { split_and!; [apply same_but_free_refl | constructor | set_solver | done |]. intros j. by rewrite bool_decide_false by set_solver. }
  assert (Hrel : forall s2 r (Q : option (Z * Z * Z) -> vst -> Prop), v_held s2 = h -> Q r (lset (v_held s) s2) -> wp (zoom (release vdisk_lock) >> kret r) s2 Q).
  { intros s2 r Q E HQ. apply wp_bind. eapply wp_of; [by apply (zoom_release vdisk_lock (v_held s) s2) |]. done. }
  intros [l |] s2; cbn [length Nat.add].
  - intros [Ht Hlen]. destruct l as [| i0 [| i1 [| i2 [| ]]]]; try done. apply wp_bind.
    eapply wp_mono; [apply rw_format_ok; [| exact Ht]; by apply lens_held |]. intros [] s3 H3. apply Hrel; [apply H3 |].
    by apply begun_held in H3.
  - intros Hg. apply Hrel; [apply Hg |]. by apply gave_back_held in Hg.
Qed.

(** *** [rw_resume] *)

(** The effect of the end of a request: its chain is free again. *)
Record ended (s s' : vst) (idx : Z * Z * Z) : Prop := {
  ed_len : lens_ok s';
  ed_held : v_held s' = v_held s;
  ed_free : forall j, (in_chain idx j -> vfree s' j = 1) /\ (~ in_chain idx j -> vfree s' j = vfree s j);
  ed_desc : forall j, ~ in_chain idx j -> vdesc s' j = vdesc s j;
  ed_op : v_ops s' = v_ops s;
  ed_info : forall j, j <> idx.1.1 -> vinf s' j = vinf s j;
  ed_buf : v_bufs s' = v_bufs s;
  ed_avail : v_avail s' = v_avail s /\ v_avail_idx s' = v_avail_idx s;
  ed_used : v_used s' = v_used s /\ v_used_idx s' = v_used_idx s /\ v_dused_idx s' = v_dused_idx s;
}.

(** One turn of [free_chain]. *)
Lemma free_chain_turn n i s (Q : unit -> vst -> Prop) :
  lens_ok s -> 0 <= i < NUM -> vfree s i = 0 ->
  (forall s', same_but_free s s' -> (forall j, vdesc s' j = if j =? i then desc0 else vdesc s j) ->
     (forall j, vfree s' j = if j =? i then 1 else vfree s j) ->
     if Z.land (d_flags (vdesc s i)) VRING_DESC_F_NEXT =? 0 then Q tt s' else wp (free_chain n (d_next (vdesc s i))) s' Q) ->
  wp (free_chain (S n) i) s Q.
Proof.
  intros Hl Hi Hf HQ. cbn [free_chain]. apply wp_bind. unfold wp at 1, kget. apply wp_bind. eapply wp_mono; [by apply free_desc_ok |].
  intros [] s' (H1 & H2 & H3). specialize (HQ s' H1 H2 H3). destruct (Z.land _ _ =? 0); cbn [negb]; done.
Qed.

Lemma free_chain_ok s b w idx :
  lens_ok s -> chained s b w idx -> (forall j, in_chain idx j -> vfree s j = 0) ->
  wp (free_chain (Z.to_nat NUM) idx.1.1) s (fun _ s' =>
    same_but_free s s' /\ (forall j, ~ in_chain idx j -> vdesc s' j = vdesc s j) /\
    forall j, (in_chain idx j -> vfree s' j = 1) /\ (~ in_chain idx j -> vfree s' j = vfree s j)).
Proof.
  destruct idx as [[i0 i1] i2]. intros Hl Hf Hz. destruct Hf as [F1 F2 F3 F4 F5]. cbn in F2, F3, F4, F5.
  destruct F2 as (D1 & D2 & D3). assert (H0 : in_chain (i0, i1, i2) i0) by (by left).
  assert (H1 : in_chain (i0, i1, i2) i1) by (by right; left). assert (H2 : in_chain (i0, i1, i2) i2) by (by right; right).
  change (Z.to_nat NUM) with (S (S (S 5))). cbn [fst]. apply free_chain_turn; [done | auto | auto |]. intros s1 A1 A2 A3. rewrite F3. cbn [d_flags d_next].
  change (Z.land VRING_DESC_F_NEXT VRING_DESC_F_NEXT =? 0) with false. cbn iota.
  apply free_chain_turn; [by apply (sf_len _ _ A1) | auto | rewrite A3, (proj2 (Z.eqb_neq i1 i0)) by congruence; auto |].
  intros s2 B1 B2 B3. rewrite A2, (proj2 (Z.eqb_neq i1 i0)), F4 by congruence. cbn [d_flags d_next].
  assert (Z.land (Z.lor (if w then 0 else VRING_DESC_F_WRITE) VRING_DESC_F_NEXT) VRING_DESC_F_NEXT =? 0 = false) as -> by (by destruct w).
  apply free_chain_turn; [by apply (sf_len _ _ B1), (sf_len _ _ A1) | auto | |].
  { rewrite B3, (proj2 (Z.eqb_neq i2 i1)), A3, (proj2 (Z.eqb_neq i2 i0)) by congruence. auto. }
  intros s3 C1 C2 C3. rewrite B2, (proj2 (Z.eqb_neq i2 i1)), A2, (proj2 (Z.eqb_neq i2 i0)), F5 by congruence. cbn [d_flags].
  change (Z.land VRING_DESC_F_WRITE VRING_DESC_F_NEXT =? 0) with true. cbn iota.
  assert (Hn : forall j, ~ in_chain (i0, i1, i2) j -> (j =? i0) = false /\ (j =? i1) = false /\ (j =? i2) = false).
  { intros j Hj. unfold in_chain in Hj. cbn in Hj. split_and!; apply Z.eqb_neq; tauto. }
  split_and!.
  - eapply same_but_free_trans; [exact A1 |]. by eapply same_but_free_trans.
  - intros j Hj. destruct (Hn j Hj) as (E0 & E1 & E2). by rewrite C2, E2, B2, E1, A2, E0.
  - intros j. rewrite C3, B3, A3. split; intros Hj.
    + destruct Hj as [-> | [-> | ->]]; cbn [fst snd]; rewrite ?Z.eqb_refl; repeat case_if; done.
    + destruct (Hn j Hj) as (E0 & E1 & E2). by rewrite E0, E1, E2.
Qed.

Lemma rw_resume_ok s b w idx :
  lens_ok s -> vdisk_lock ∉ v_held s -> chained s b w idx -> (forall j, in_chain idx j -> vfree s j = 0) ->
  wp (rw_resume b idx.1.1) s (fun r s' =>
    if r then vb_disk (vb s b) <> 1 /\ ended s s' idx else vb_disk (vb s b) = 1 /\ s' = s).
Proof.
  intros Hl Hh Hf Hz. unfold rw_resume. set (h := {[vdisk_lock]} ∪ v_held s). apply wp_bind.
  eapply wp_of; [by apply (zoom_acquire vdisk_lock s) |]. change (lset ({[vdisk_lock]} ∪ lget s) s) with (lset h s).
  assert (Hrel : forall s2 r (Q : bool -> vst -> Prop), v_held s2 = h -> Q r (lset (v_held s) s2) -> wp (zoom (release vdisk_lock) >> kret r) s2 Q).
  { intros s2 r Q E HQ. apply wp_bind. eapply wp_of; [by apply (zoom_release vdisk_lock (v_held s) s2) |]. done. }
  apply wp_bind. unfold wp at 1, kget. change (vb (lset h s) b) with (vb s b). destruct (vb_disk (vb s b) =? 1) eqn:E; zbool.
  { apply Hrel; [done |]. split; [done |]. by destruct s. }
  apply wp_bind. unfold set_info. apply wp_mod. set (i := idx.1.1) in *. set (s1 := Vst _ _ _ _ _ _ _ _ _ _ _ _).
  assert (R : 0 <= i < 8) by (apply (fm_range _ _ _ _ Hf); by left).
  assert (Hl1 : lens_ok s1) by (destruct Hl; split; cbn; rewrite ?length_updZ; done).
  assert (Hi : forall j, vinf s1 j = if j =? i then Info nullb (in_status (vinf s i)) else vinf s j).
  { intros j. unfold vinf. cbn. apply nthZ_updZ. rewrite (ln_info _ Hl). lia. }
  apply wp_bind. eapply wp_mono; [apply (free_chain_ok (Vst h (v_woken s) (v_desc s) (v_avail_idx s) (v_avail s) (v_dused_idx s) (v_used s) (v_free s) (v_used_idx s) (v_info s1) (v_ops s) (v_bufs s)) b w idx) |].
  - exact Hl1.
  - by destruct Hf.
  - exact Hz.
  - intros [] s2 (H1 & H2 & H3). apply Hrel; [apply H1 |]. split; [done |]. destruct H1 as [K1 K2 K3 K4 K5 K6 K7]. split; try done.
    + apply lens_held, K1, Hl1.
    + intros j Hj. transitivity (vinf s1 j); [unfold vinf; cbn; by rewrite K5 |].
      rewrite Hi. by rewrite (proj2 (Z.eqb_neq j i)).
Qed.
