(* ===== verification/VirtioRefine.v ===== *)
(** * The disk driver: every step keeps the invariant and is a step of the contract

    One lemma per kind of step of [vstep] for the invariant [vinv] and one
    for the simulation [vsim], and the refinement theorem. *)

From stdpp Require Import functions.
From S2P Require Import Prelude Riscv Spinlock Sleeplock Block Mem CString Kalloc Keeps Ring Virtio VirtioProofs.

(** ** The interrupt *)

(** Only the used index, the [disk] field of the buffers in [bs] and the
    record of wakeups differ. *)
Definition intr_done (s s' : vst) (bs : list Z) : Prop :=
  exists wk m, s' = Vst (v_held s) wk (v_desc s) (v_avail_idx s) (v_avail s) (v_dused_idx s) (v_used s)
                     (v_free s) (v_dused_idx s) (v_info s) (v_ops s) m /\
  forall c, vb s' c = if bool_decide (c ∈ bs) then Vbuf (vb_blockno (vb s c)) (vb_data (vb s c)) 0 else vb s c.

Lemma intr_loop_ok U : forall fuel s,
  queue (v_used s) (v_used_idx s) (v_dused_idx s) U -> (length U <= 8)%nat -> (length U < fuel)%nat ->
  (forall h, h ∈ U -> in_status (vinf s h) = 0) ->
  wp (intr_loop fuel) s (fun _ s' => intr_done s s' ((fun h => in_b (vinf s h)) <$> U)).
Proof.
  induction U as [| x U IH]; intros [| fuel] s Hq Hl Hf Hst; cbn [length] in *; try lia; cbn [intr_loop].
  all: apply wp_bind; unfold wp at 1, kget; pose proof (queue_empty _ _ _ _ Hq ltac:(cbn; lia)) as He.
  - rewrite (proj2 He eq_refl), Z.eqb_refl. apply wp_ret. exists (v_woken s), (v_bufs s). split.
    { destruct s; cbn in *. f_equal. by apply He. }
    intros c. by rewrite bool_decide_false by set_solver.
  - rewrite (proj2 (Z.eqb_neq _ _)) by (intros E; by apply He in E). apply queue_pop in Hq as [-> Hq].
    rewrite Hst by set_solver. cbn [negb Z.eqb]. set (b := in_b (vinf s x)). do 3 (apply wp_bind, wp_mod). vfields.
    set (s1 := Vst _ _ _ _ _ _ _ _ _ _ _ _). eapply wp_mono; [apply (IH fuel s1); [exact Hq | lia | lia |] |].
    { intros h Hh. apply (Hst h). set_solver. }
    intros [] s' (wk & m & E & Hc). exists wk, m. split; [exact E |]. intros c. rewrite Hc. cbn [fmap list_fmap].
    assert (E1 : vb s1 c = if c =? b then Vbuf (vb_blockno (vb s b)) (vb_data (vb s b)) 0 else vb s c)
      by (by apply vb_insert).
    change (fun h => in_b (vinf s1 h)) with (fun h => in_b (vinf s h)). rewrite E1. fold b. clearbody b. clear E1 Hc.
    destruct (Z.eqb_spec c b) as [E2 |].
    + rewrite E2, (bool_decide_true (b ∈ b :: _)) by set_solver. by case_bool_decide.
    + repeat case_bool_decide; try done; set_solver.
Qed.

Lemma virtio_disk_intr_ok s U :
  vdisk_lock ∉ v_held s -> queue (v_used s) (v_used_idx s) (v_dused_idx s) U -> (length U <= 8)%nat ->
  (forall h, h ∈ U -> in_status (vinf s h) = 0) ->
  wp virtio_disk_intr s (fun _ s' => intr_done s s' ((fun h => in_b (vinf s h)) <$> U)).
Proof.
  intros Hh Hq Hl Hst. unfold virtio_disk_intr. set (h := {[vdisk_lock]} ∪ v_held s). apply wp_bind.
  eapply wp_of; [by apply (zoom_acquire vdisk_lock s) |]. change (lset ({[vdisk_lock]} ∪ lget s) s) with (lset h s).
  apply wp_bind. eapply wp_mono; [apply (intr_loop_ok U _ (lset h s)); [done | done | | done] |].
  { change (Z.to_nat NUM) with 8%nat. lia. }
  intros [] s1 (wk & m & E & Hc). eapply wp_of; [apply (zoom_release vdisk_lock (v_held s) s1); subst; done |].
  exists wk, m. subst s1. split; [done |]. exact Hc.
Qed.

(** ** Frames *)

Section frame.
Context (s s' : vst) (b : Z) (w : bool) (idx : Z * Z * Z).
Hypothesis Hd : forall j, in_chain idx j -> vdesc s' j = vdesc s j.

Lemma chained_frame : chained s b w idx -> chained s' b w idx.
Proof. intros []. split; try done; rewrite Hd; try done; unfold in_chain; tauto. Qed.

Lemma formatted_frame :
  vop s' idx.1.1 = vop s idx.1.1 -> in_b (vinf s' idx.1.1) = in_b (vinf s idx.1.1) ->
  vb_blockno (vb s' b) = vb_blockno (vb s b) -> length (vb_data (vb s' b)) = 1024%nat ->
  vb_disk (vb s' b) = 0 \/ vb_disk (vb s' b) = 1 ->
  formatted s b w idx -> formatted s' b w idx.
Proof.
  intros Ho Hi Hb Hn Hk []. split; try congruence.
  - by apply chained_frame.
  - split; [rewrite Hb; apply fm_block |]; done.
Qed.
End frame.

(** At most NUM heads are out. *)
Lemma heads_range s seen pend q A U h : vinv s seen pend q A U -> h ∈ A ++ pend ++ U -> 0 <= h < NUM.
Proof.
  intros Hv (b & w & idx & Hq & <- & _)%(vi_out _ _ _ _ _ _ Hv).
  apply (fm_range _ _ _ _ (fm_chain _ _ _ _ (vi_fmt _ _ _ _ _ _ Hv _ _ _ Hq))). by left.
Qed.

Lemma NoDup_bound (l : list Z) : NoDup l -> (forall h, h ∈ l -> 0 <= h < NUM) -> (length l <= 8)%nat.
Proof.
  intros Hn Hr. change 8%nat with (length (seqZ 0 8)). apply submseteq_length, NoDup_submseteq; [done |].
  intros h Hh. apply elem_of_seqZ. apply Hr in Hh. unfold NUM in Hh. lia.
Qed.

Lemma heads_bound s seen pend q A U : vinv s seen pend q A U -> (length (A ++ pend ++ U) <= 8)%nat.
Proof. intros Hv. apply NoDup_bound; [apply Hv |]. intros h. by eapply heads_range. Qed.

(** ** The invariant is kept *)

(** A chain in use has no free descriptor. *)
Lemma chain_busy s seen pend q A U b w idx j :
  vinv s seen pend q A U -> q !! b = Some (w, idx) -> in_chain idx j -> vfree s j = 0.
Proof.
  intros Hv Hq Hj. pose proof (vi_free _ _ _ _ _ _ Hv j) as Hf.
  specialize (Hf (fm_range _ _ _ _ (fm_chain _ _ _ _ (vi_fmt _ _ _ _ _ _ Hv _ _ _ Hq)) j Hj)).
  destruct (vfree s j =? 0) eqn:E; zbool; [done |]. by destruct (Hf b w idx).
Qed.

Lemma chain_head idx : in_chain idx idx.1.1.
Proof. by left. Qed.

Section begin.
Context (s s' : vst) (seen : Z) (pend : list Z) (q : gmap Z (bool * (Z * Z * Z))) (A U : list Z).
Context (b : Z) (w : bool) (idx : Z * Z * Z).
Hypothesis Hv : vinv s seen pend q A U.
Hypothesis Hq : q !! b = None.
Hypothesis Hs : begun s s' b w idx.

Lemma begin_disj c v i j : q !! c = Some (v, i) -> in_chain i j -> ~ in_chain idx j.
Proof. intros Hc Hj Hj'. destruct (bg_range _ _ _ _ _ Hs j Hj') as [_ Hn]. by rewrite (chain_busy _ _ _ _ _ _ _ _ _ _ Hv Hc Hj) in Hn. Qed.

Lemma begin_new c v i : q !! c = Some (v, i) -> i.1.1 <> idx.1.1.
Proof. intros Hc E. apply (begin_disj c v i i.1.1 Hc); [apply chain_head | rewrite E; apply chain_head]. Qed.

Lemma begin_out : idx.1.1 ∉ A ++ pend ++ U.
Proof. intros (c & v & i & Hc & E & _)%(vi_out _ _ _ _ _ _ Hv). by apply (begin_new c v i). Qed.

Lemma begin_perm : (A ++ [idx.1.1]) ++ pend ++ U ≡ₚ idx.1.1 :: A ++ pend ++ U.
Proof. rewrite <- app_assoc. symmetry. apply Permutation_middle. Qed.

Lemma begin_nodup : NoDup (idx.1.1 :: A ++ pend ++ U).
Proof. apply NoDup_cons. split; [apply begin_out | apply Hv]. Qed.

Lemma begin_fmt c v i : is_block (vb s b) -> <[b := (w, idx)]> q !! c = Some (v, i) -> formatted s' c v i.
Proof.
  intros Hb [[<- [= <- <-]] | [Hne Hc]]%lookup_insert_Some.
  - destruct Hs. split.
    + split; try done. intros i Hi. by apply bg_range.
    + rewrite bg_op, bg_buf, !Z.eqb_refl. cbn [vb_blockno]. rewrite u32_small; [f_equal; lia | destruct Hb; lia].
    + rewrite bg_info, Z.eqb_refl. done.
    + rewrite bg_buf, Z.eqb_refl. exact Hb.
    + rewrite bg_buf, Z.eqb_refl. by right.
  - pose proof (begin_new c v i Hc). pose proof (vi_fmt _ _ _ _ _ _ Hv _ _ _ Hc) as Hf.
    assert (vb s' c = vb s c) as Ec by (rewrite (bg_buf _ _ _ _ _ Hs); by rewrite (proj2 (Z.eqb_neq c b))).
    apply (formatted_frame s); try rewrite Ec; try apply Hf; try done.
    + intros j Hj. apply Hs. by eapply begin_disj.
    + rewrite (bg_op _ _ _ _ _ Hs). by rewrite (proj2 (Z.eqb_neq _ _)).
    + rewrite (bg_info _ _ _ _ _ Hs). by rewrite (proj2 (Z.eqb_neq _ _)).
Qed.

Lemma begin_free j : 0 <= j < NUM ->
  if vfree s' j =? 0 then exists c v i, <[b := (w, idx)]> q !! c = Some (v, i) /\ in_chain i j
  else forall c v i, <[b := (w, idx)]> q !! c = Some (v, i) -> ~ in_chain i j.
Proof.
  intros Hj. destruct (bg_free _ _ _ _ _ Hs j) as [F1 F2].
  destruct (decide (j = idx.1.1 \/ j = idx.1.2 \/ j = idx.2)) as [Hin | Hni].
  - rewrite (F1 Hin). cbn [Z.eqb]. exists b, w, idx. by rewrite lookup_insert_eq.
  - rewrite (F2 Hni). pose proof (vi_free _ _ _ _ _ _ Hv j Hj) as Hf. destruct (vfree s j =? 0).
    + destruct Hf as (c & v & i & Hc & Hi). exists c, v, i. split; [| done]. rewrite lookup_insert_ne; congruence.
    + intros c v i [[<- [= <- <-]] | [Hne Hc]]%lookup_insert_Some; [done | by apply (Hf c v i)].
Qed.

Lemma begin_heads h :
  h ∈ idx.1.1 :: A ++ pend ++ U <->
  exists c v i, <[b := (w, idx)]> q !! c = Some (v, i) /\ i.1.1 = h /\ vb_disk (vb s' c) = 1.
Proof.
  rewrite elem_of_cons, (vi_out _ _ _ _ _ _ Hv). pose proof (bg_buf _ _ _ _ _ Hs) as Hb. split.
  - intros [-> | (c & v & i & Hc & H2 & H3)].
    + exists b, w, idx. rewrite lookup_insert_eq, Hb, Z.eqb_refl. done.
    + exists c, v, i. assert (c <> b) by congruence. rewrite lookup_insert_ne, Hb, (proj2 (Z.eqb_neq c b)) by done. done.
  - intros (c & v & i & [[<- [= <- <-]] | [Hne Hc]]%lookup_insert_Some & H2 & H3); [by left | right].
    rewrite Hb, (proj2 (Z.eqb_neq c b)) in H3 by done. by exists c, v, i.
Qed.

Lemma vinv_begin : is_block (vb s b) -> vinv s' seen pend (<[b := (w, idx)]> q) (A ++ [idx.1.1]) U.
Proof.
  intros Hb. split.
  - apply Hs.
  - rewrite (bg_held _ _ _ _ _ Hs). apply Hv.
  - intros c v i. by apply begin_fmt.
  - intros c c' v v' i i' j [[<- [= <- <-]] | [Hne Hc]]%lookup_insert_Some [[<- [= <- <-]] | [Hne' Hc']]%lookup_insert_Some Hj Hj'; [done | | |].
    + by destruct (begin_disj c' v' i' j).
    + by destruct (begin_disj c v i j).
    + by eapply (vi_disj _ _ _ _ _ _ Hv).
  - apply begin_free.
  - destruct (bg_avail _ _ _ _ _ Hs) as [-> ->]. apply queue_push; [apply Hv | apply Hv |].
    pose proof (NoDup_bound _ begin_nodup) as Hl. cbn [length] in Hl. rewrite length_app in Hl.
    enough (S (length A + length (pend ++ U)) <= 8)%nat by lia. apply Hl.
    intros h [-> | Hh]%elem_of_cons; [apply (bg_range _ _ _ _ _ Hs), chain_head | by eapply heads_range].
  - destruct (bg_used _ _ _ _ _ Hs) as (-> & -> & ->). apply Hv.
  - rewrite begin_perm. apply begin_nodup.
  - intros h. rewrite begin_perm. apply begin_heads.
  - intros h Hh. rewrite (bg_info _ _ _ _ _ Hs), (proj2 (Z.eqb_neq _ _)); [by apply Hv |]. intros ->. apply begin_out. set_solver.
Qed.
End begin.

(** When nothing but free descriptors has changed. *)
Lemma vinv_full s s' seen pend q A U : vinv s seen pend q A U -> gave_back s s' -> vinv s' seen pend q A U.
Proof.
  intros Hv (Hs & Hd & Hf0 & Hf1). pose proof (chain_busy s seen pend q A U) as Hbusy. destruct Hs as [S1 S2 [S3 S3'] (S4 & S5 & S6) S7 S8 S9].
  assert (Hvb : forall c, vb s' c = vb s c) by (intros; unfold vb; by rewrite S9).
  assert (Hvi : forall i, vinf s' i = vinf s i) by (intros; unfold vinf; by rewrite S7). destruct Hv as [V1 V2 V3 V4 V5 V6 V7 V8 V9 V10]. split.
  - auto.
  - by rewrite S2.
  - intros c v i Hc. pose proof (V3 c v i Hc) as Hf. apply (formatted_frame s); rewrite ?Hvb, ?Hvi; try apply Hf; try done.
    + intros j Hj. destruct (Hd j) as [| Hn]; [done |]. by rewrite (Hbusy c v i j) in Hn.
    + unfold vop. by rewrite S8.
  - done.
  - intros j Hj. specialize (V5 j Hj). destruct (vfree s j =? 0) eqn:E; zbool.
    + by rewrite Hf0.
    + by rewrite (proj2 (Z.eqb_neq _ _)) by auto.
  - by rewrite S3, S3'.
  - by rewrite S4, S5, S6.
  - done.
  - intros h. rewrite V9. split; intros (c & v & i & ?); exists c, v, i; [by rewrite Hvb | by rewrite Hvb in *].
  - intros h Hh. rewrite Hvi. auto.
Qed.

Lemma vinv_fetch s seen pend q A U :
  vinv s seen pend q A U -> seen <> v_avail_idx s ->
  exists A', A = nthZ 0 (v_avail s) (seen mod NUM) :: A' /\
  vinv s (u16 (seen + 1)) (pend ++ [nthZ 0 (v_avail s) (seen mod NUM)]) q A' U.
Proof.
  intros Hv Hne. pose proof (heads_bound _ _ _ _ _ _ Hv) as Hb. destruct Hv as [V1 V2 V3 V4 V5 V6 V7 V8 V9 V10].
  destruct A as [| x A].
  { destruct Hne. rewrite length_app in Hb. by apply (queue_empty _ _ _ [] V6 ltac:(cbn; lia)). }
  apply queue_pop in V6 as [-> Hq]. exists A. split; [done |].
  assert (Hp : A ++ (pend ++ [x]) ++ U ≡ₚ (x :: A) ++ pend ++ U) by (cbn; rewrite <- app_assoc; solve_Permutation).
  split; try done.
  - by rewrite Hp.
  - intros h. by rewrite Hp.
Qed.

(** *** Service *)

Definition media_ok (m : gmap Z bytes) : Prop := forall x, length (sector m x) = 512%nat.


Definition moved_buf (s : vst) (m : gmap Z bytes) (b : Z) (w : bool) : vbuf :=
  if w then vb s b else Vbuf (vb_blockno (vb s b)) (media_read m (2 * vb_blockno (vb s b)) 2) (vb_disk (vb s b)).
Definition moved_media (s : vst) (m : gmap Z bytes) (b : Z) (w : bool) : gmap Z bytes :=
  if w then media_write m (2 * vb_blockno (vb s b)) 2 (vb_data (vb s b)) else m.

(** The device understands the chain. *)
Lemma formatted_chain s b w idx :
  formatted s b w idx ->
  blk_chain s idx.1.1 idx.1.1 b idx.1.1 (Desc (AData b) BSIZE (Z.lor (if w then 0 else VRING_DESC_F_WRITE) VRING_DESC_F_NEXT) idx.2).
Proof.
  intros [[_ _ F0 F1 F2] _ _ _ _]. do 2 eexists. split_and!; [exact F0 | done | done | exact F1 | done | by destruct w | exact F2 | done | done].
Qed.

Section device.
Context serve `{VB : VirtioBlk serve}.

Lemma dev_serve_ok s m b w idx :
  formatted s b w idx ->
  serve s m idx.1.1 = Some (completed s idx.1.1 idx.1.1 b (moved_buf s m b w), moved_media s m b w).
Proof.
  intros Hf. pose proof (formatted_chain _ _ _ _ Hf) as Hc. pose proof (fm_op _ _ _ _ Hf) as Ho. destruct w.
  - rewrite (serve_out _ _ _ _ _ _ _ Hc) by (by rewrite ?Ho). by rewrite Ho.
  - rewrite (serve_in _ _ _ _ _ _ _ Hc) by (by rewrite ?Ho). by rewrite Ho.
Qed.

Section serve.
Context (s : vst) (m : gmap Z bytes) (seen : Z) (pend1 pend2 : list Z) (q : gmap Z (bool * (Z * Z * Z))) (A U : list Z) (h : Z).
Hypothesis Hv : vinv s seen (pend1 ++ h :: pend2) q A U.

Lemma serve_perm : A ++ (pend1 ++ pend2) ++ U ++ [h] ≡ₚ A ++ (pend1 ++ h :: pend2) ++ U.
Proof. rewrite <- !app_assoc. cbn. solve_Permutation. Qed.

Lemma serve_request : exists b w idx, q !! b = Some (w, idx) /\ idx.1.1 = h /\ vb_disk (vb s b) = 1.
Proof. apply (vi_out _ _ _ _ _ _ Hv). set_solver. Qed.

Lemma length_media_read mm k n : media_ok mm -> length (media_read mm k n) = (n * 512)%nat.
Proof. intros Hx. revert k. induction n as [| n IH]; intros k; cbn [media_read]; [done |]. rewrite length_app, Hx, IH. lia. Qed.

Lemma vinv_serve s' m' :
  media_ok m -> serve s m h = Some (s', m') -> vinv s' seen (pend1 ++ pend2) q A (U ++ [h]).
Proof.
  intros Hm Hsv. pose proof serve_perm as Hp. destruct serve_request as (b & w & idx & Hq & <- & Hk).
  pose proof (vi_fmt _ _ _ _ _ _ Hv _ _ _ Hq) as Hf. rewrite (dev_serve_ok _ m _ _ _ Hf) in Hsv. injection Hsv as <- _.
  set (s' := completed _ _ _ _ _). pose proof (heads_bound _ _ _ _ _ _ Hv) as Hbd.
  pose proof (fm_range _ _ _ _ (fm_chain _ _ _ _ Hf) _ (chain_head idx)) as Hr. unfold NUM in Hr.
  destruct Hv as [V1 V2 V3 V4 V5 V6 V7 V8 V9 V10].
  assert (Hvb : forall c, vb s' c = if c =? b then moved_buf s m b w else vb s c) by (intros; by apply vb_insert).
  assert (Hvi : forall i, vinf s' i = if i =? idx.1.1 then Info (in_b (vinf s idx.1.1)) 0 else vinf s i).
  { intros i. unfold vinf. cbn. apply nthZ_updZ. rewrite (ln_info _ V1). lia. }
  assert (Hblk : forall c, vb_blockno (vb s' c) = vb_blockno (vb s c) /\ vb_disk (vb s' c) = vb_disk (vb s c)).
  { intros c. rewrite Hvb. destruct (Z.eqb_spec c b) as [-> |]; [| done]. by destruct w. }
  split.
  - destruct V1. split; cbn; rewrite ?length_updZ; done.
  - done.
  - intros c v i Hc. pose proof (V3 c v i Hc) as Hg. destruct (Hblk c) as [B1 B2].
    apply (formatted_frame s); rewrite ?B2; try apply Hg; try done.
    + rewrite Hvi. by destruct (Z.eqb_spec i.1.1 idx.1.1) as [-> |].
    + rewrite Hvb. destruct (Z.eqb_spec c b) as [-> |]; [| apply Hg]. unfold moved_buf. destruct w; [apply Hf |].
      cbn [vb_data]. by rewrite length_media_read.
  - done.
  - done.
  - done.
  - apply queue_push; [apply V1 | done |]. rewrite !length_app in Hbd. cbn in Hbd. lia.
  - by rewrite Hp.
  - intros h. rewrite Hp, V9. split; intros (c & v & i & ?); exists c, v, i; destruct (Hblk c) as [_ B2]; [by rewrite B2 | by rewrite B2 in *].
  - intros x [Hx | ->%list_elem_of_singleton]%elem_of_app; rewrite Hvi; [| by rewrite Z.eqb_refl].
    case_if; [done | auto].
Qed.
End serve.

(** *** The interrupt, the end of a call, and the owner of a buffer *)

Lemma vinv_intr s s' seen pend q A U :
  vinv s seen pend q A U -> intr_done s s' ((fun h => in_b (vinf s h)) <$> U) -> vinv s' seen pend q A [].
Proof.
  intros Hv (wk & bs & -> & Hc). set (s' := Vst _ _ _ _ _ _ _ _ _ _ _ _) in *. destruct Hv as [V1 V2 V3 V4 V5 V6 V7 V8 V9 V10].
  assert (HU : forall c v i, q !! c = Some (v, i) -> c ∈ (fun h => in_b (vinf s h)) <$> U <-> i.1.1 ∈ U).
  { intros c v i Hq. rewrite list_elem_of_fmap. split; [| intros Hi; exists i.1.1; by rewrite (fm_b _ _ _ _ (V3 c v i Hq))].
    intros (x & E & Hx). assert (x ∈ A ++ pend ++ U) as (c' & v' & i' & Hq' & <- & _)%V9 by set_solver.
    rewrite (fm_b _ _ _ _ (V3 c' v' i' Hq')) in E. subst c'. congruence. }
  split; try done.
  - by destruct V1.
  - intros c v i Hq. pose proof (V3 c v i Hq) as Hf. apply (formatted_frame s); try done; rewrite Hc; case_bool_decide; try apply Hf; try done.
    by left.
  - destruct V7 as (H1 & H2 & _). split; [cbn | split; [cbn | done]].
    + rewrite H2. apply u16_range.
    + rewrite Z.add_0_r. symmetry. apply u16_small. rewrite H2. apply u16_range.
  - rewrite app_nil_r. by rewrite app_assoc in V8; apply NoDup_app in V8 as [? _].
  - intros h. rewrite app_nil_r. assert (HN : h ∈ A ++ pend -> h ∉ U) by (rewrite app_assoc in V8; apply NoDup_app in V8; naive_solver).
    split.
    + intros Hh. assert (h ∈ A ++ pend ++ U) as (c & v & i & Hq & <- & Hk)%V9 by set_solver. exists c, v, i. split_and!; [done | done |].
      rewrite Hc, bool_decide_false; [done |]. rewrite HU by done. by apply HN.
    + intros (c & v & i & Hq & <- & Hk). rewrite Hc in Hk. case_bool_decide as Hb; [done |]. rewrite HU in Hb by done.
      assert (i.1.1 ∈ A ++ pend ++ U) by (apply V9; by exists c, v, i). set_solver.
  - set_solver.
Qed.

Lemma vinv_end s s' seen pend q A U b w idx :
  vinv s seen pend q A U -> q !! b = Some (w, idx) -> vb_disk (vb s b) <> 1 -> ended s s' idx ->
  idx.1.1 ∉ A ++ pend ++ U /\ vinv s' seen pend (delete b q) A U.
Proof.
  intros Hv Hq Hk Hs. destruct Hv as [V1 V2 V3 V4 V5 V6 V7 V8 V9 V10].
  assert (Hvb : forall c, vb s' c = vb s c) by (intros; unfold vb; by rewrite (ed_buf _ _ _ Hs)).
  assert (Hdj : forall c v i j, delete b q !! c = Some (v, i) -> in_chain i j -> ~ in_chain idx j).
  { intros c v i j [Hne Hc]%lookup_delete_Some Hj Hj'. by destruct Hne; eapply (V4 b c). }
  assert (Hne : forall c v i, delete b q !! c = Some (v, i) -> i.1.1 <> idx.1.1).
  { intros c v i Hc E. apply (Hdj c v i i.1.1 Hc); [apply chain_head | rewrite E; apply chain_head]. }
  assert (Hout : idx.1.1 ∉ A ++ pend ++ U).
  { intros (c & v & i & Hc & E & Hk')%V9. assert (b = c) as <-; [| congruence].
    eapply (V4 b c); [done | done | apply chain_head | rewrite <- E; apply chain_head]. }
  split; [done |]. split; try done.
  - apply Hs.
  - by rewrite (ed_held _ _ _ Hs).
  - intros c v i Hc. assert (q !! c = Some (v, i)) as Hc' by (by apply lookup_delete_Some in Hc as [_ ?]).
    pose proof (V3 c v i Hc') as Hf. apply (formatted_frame s); rewrite ?Hvb; try apply Hf; try done.
    + intros j Hj. apply Hs. by eapply Hdj.
    + unfold vop. by rewrite (ed_op _ _ _ Hs).
    + rewrite (ed_info _ _ _ Hs); [done | by eapply Hne].
  - intros c c' v v' i i' j [_ Hc]%lookup_delete_Some [_ Hc']%lookup_delete_Some. by eapply V4.
  - intros j Hj. destruct (ed_free _ _ _ Hs j) as [F1 F2]. destruct (decide (j = idx.1.1 \/ j = idx.1.2 \/ j = idx.2)) as [Hin | Hni].
    + rewrite (F1 Hin). intros c v i Hc Hi. by apply (Hdj c v i j).
    + rewrite (F2 Hni). specialize (V5 j Hj). destruct (vfree s j =? 0).
      * destruct V5 as (c & v & i & Hc & Hi). exists c, v, i. split; [| done]. rewrite lookup_delete_ne; [done |]. intros <-. by simplify_eq.
      * intros c v i [_ Hc]%lookup_delete_Some. by eapply V5.
  - by destruct (ed_avail _ _ _ Hs) as [-> ->].
  - by destruct (ed_used _ _ _ Hs) as (-> & -> & ->).
  - intros h. rewrite V9. split; intros (c & v & i & Hc & E & Hd); exists c, v, i; rewrite Hvb in *.
    + rewrite lookup_delete_ne; [done |]. intros <-. by simplify_eq.
    + by apply lookup_delete_Some in Hc as [_ ?].
  - intros h Hh. rewrite (ed_info _ _ _ Hs); [auto |]. intros ->. set_solver.
Qed.

Lemma vinv_buf s seen pend q A U b blk data :
  vinv s seen pend q A U -> q !! b = None ->
  vinv (Vst (v_held s) (v_woken s) (v_desc s) (v_avail_idx s) (v_avail s) (v_dused_idx s) (v_used s)
          (v_free s) (v_used_idx s) (v_info s) (v_ops s) (<[b := Vbuf blk data (vb_disk (vb s b))]> (v_bufs s))) seen pend q A U.
Proof.
  intros [V1 V2 V3 V4 V5 V6 V7 V8 V9 V10] Hq. set (s' := Vst _ _ _ _ _ _ _ _ _ _ _ _).
  assert (Hvb : forall c v, q !! c = Some v -> vb s' c = vb s c).
  { intros c v Hc. assert (vb s' c = if c =? b then Vbuf blk data (vb_disk (vb s b)) else vb s c) as -> by (by apply vb_insert).
    by rewrite (proj2 (Z.eqb_neq c b)) by congruence. }
  split; try done.
  - by destruct V1.
  - intros c v i Hc. pose proof (V3 c v i Hc) as Hf. apply (formatted_frame s); try done; rewrite (Hvb _ _ Hc); try apply Hf; done.
  - intros h. rewrite V9. split; intros (c & v & i & Hc & E & Hd); exists c, v, i; split_and!; try done.
    + by rewrite (Hvb _ _ Hc).
    + by rewrite (Hvb _ _ Hc) in Hd.
Qed.

(** ** The simulation *)

Lemma media_read_2 m k : media_read m (2 * k) 2 = sector m (2 * k) ++ sector m (2 * k + 1).
Proof. cbn [media_read]. by rewrite app_nil_r. Qed.

Lemma sector_insert m s x t : sector (<[s := x]> m) t = if t =? s then x else sector m t.
Proof.
  unfold sector. destruct (Z.eqb_spec t s) as [-> |]; [by rewrite lookup_insert_eq |]. by rewrite lookup_insert_ne by congruence.
Qed.

Lemma sector_write m k d t :
  sector (media_write m (2 * k) 2 d) t =
    if t =? 2 * k + 1 then take 512 (drop 512 d) else if t =? 2 * k then take 512 d else sector m t.
Proof. cbn [media_write]. by rewrite !sector_insert. Qed.

Lemma media_read_write m k j d :
  length d = 1024%nat -> media_read (media_write m (2 * k) 2 d) (2 * j) 2 = if j =? k then d else media_read m (2 * j) 2.
Proof.
  intros Hd. rewrite !media_read_2, !sector_write. destruct (Z.eqb_spec j k) as [-> |].
  - rewrite (proj2 (Z.eqb_neq (2 * k) (2 * k + 1))), !Z.eqb_refl by lia.
    rewrite (take_ge (drop 512 d)) by (rewrite length_drop; lia). apply take_drop.
  - by rewrite !(proj2 (Z.eqb_neq _ _)) by lia.
Qed.

Lemma media_ok_write m k d : length d = 1024%nat -> media_ok m -> media_ok (media_write m (2 * k) 2 d).
Proof. intros Hd Hm x. rewrite sector_write. repeat case_if; rewrite ?length_take, ?length_drop; auto; lia. Qed.

Lemma media_ok_moved s m b w idx : formatted s b w idx -> media_ok m -> media_ok (moved_media s m b w).
Proof. intros Hf Hm. destruct w; cbn; [| done]. apply media_ok_write; [apply Hf | done]. Qed.

Lemma vsim_begin m s s' pend q A a b w idx seen U :
  vinv s seen pend q A U -> q !! b = None -> begun s s' b w idx -> vsim m s pend q A a ->
  astep a (Vabs (a_disk a) (a_buf a) (<[b := (w, false)]> (a_req a))) /\
  vsim m s' pend (<[b := (w, idx)]> q) (A ++ [idx.1.1]) (Vabs (a_disk a) (a_buf a) (<[b := (w, false)]> (a_req a))).
Proof.
  intros Hv Hq Hs [M1 M2 M3]. split; [apply as_begin; by rewrite M3, Hq |]. split; cbn [a_disk a_buf a_req]; [done | |].
  - intros c. rewrite M2, (bg_buf _ _ _ _ _ Hs). by destruct (Z.eqb_spec c b) as [-> |].
  - intros c. destruct (decide (c = b)) as [-> |].
    + rewrite !lookup_insert_eq, bool_decide_false; [done |]. set_solver.
    + rewrite !lookup_insert_ne, M3 by done. destruct (q !! c) as [[v i] |] eqn:Hc; [| done]. do 2 f_equal. apply bool_decide_ext.
      pose proof (begin_new _ _ _ _ _ _ _ _ _ _ Hv Hs c v i Hc). set_solver.
Qed.

(** Only what the contract does not see has changed. *)
Lemma vsim_frame m s s' pend pend' q A A' a :
  (forall h, h ∈ A ++ pend <-> h ∈ A' ++ pend') ->
  (forall b, vb_blockno (vb s' b) = vb_blockno (vb s b) /\ vb_data (vb s' b) = vb_data (vb s b)) ->
  vsim m s pend q A a -> vsim m s' pend' q A' a.
Proof.
  intros Hh Hb [M1 M2 M3]. split; [done | |].
  - intros b. destruct (Hb b) as [-> ->]. apply M2.
  - intros b. rewrite M3. destruct (q !! b) as [[w i] |]; [| done]. do 2 f_equal. apply bool_decide_ext. by rewrite Hh.
Qed.

Lemma vsim_serve m s s' m' pend1 pend2 q A a h seen U :
  vinv s seen (pend1 ++ h :: pend2) q A U -> media_ok m -> serve s m h = Some (s', m') -> vsim m s (pend1 ++ h :: pend2) q A a ->
  exists a', astep a a' /\ vsim m' s' (pend1 ++ pend2) q A a' /\ media_ok m'.
Proof.
  intros Hv Hmo Hsv [M1 M2 M3]. destruct (serve_request _ _ _ _ _ _ _ _ Hv) as (b & w & idx & Hq & <- & _).
  pose proof (vi_fmt _ _ _ _ _ _ Hv _ _ _ Hq) as Hf. rewrite (dev_serve_ok _ m _ _ _ Hf) in Hsv. injection Hsv as <- <-.
  destruct (fm_block _ _ _ _ Hf) as [Hr Hd]. exists (amove b w a). split_and!.
  { apply as_move. rewrite M3, Hq, bool_decide_false; [done | set_solver]. }
  2: by eapply media_ok_moved.
  assert (Hk : (a_buf a b).1 = vb_blockno (vb s b)) by (by rewrite M2). assert (Hx : (a_buf a b).2 = vb_data (vb s b)) by (by rewrite M2).
  set (s' := completed _ _ _ _ _).
  assert (Hvb : forall c, vb s' c = if c =? b then moved_buf s m b w else vb s c) by (intros; by apply vb_insert). split.
  - intros k Hkr. unfold amove, moved_media. destruct w; cbn [a_disk]; [| by apply M1].
    rewrite media_read_write, Hk, Hx by done. destruct (Z.eqb_spec k (vb_blockno (vb s b))) as [-> |].
    + by rewrite fn_lookup_insert.
    + rewrite fn_lookup_insert_ne by congruence. by apply M1.
  - intros c. rewrite Hvb. unfold amove, moved_buf. destruct w; cbn [a_buf]; destruct (Z.eqb_spec c b) as [-> | Hne]; try apply M2.
    + rewrite fn_lookup_insert. cbn [vb_blockno vb_data]. by rewrite Hk, M1.
    + rewrite fn_lookup_insert_ne by congruence. apply M2.
  - intros c. assert (Hnd : idx.1.1 ∉ A ++ pend1 ++ pend2).
    { pose proof (vi_nodup _ _ _ _ _ _ Hv) as Hn. rewrite <- serve_perm in Hn. rewrite !app_assoc in Hn. apply NoDup_app in Hn as (_ & Hn & _).
      intros Hin. apply (Hn idx.1.1); [rewrite <- !app_assoc in *; set_solver | set_solver]. }
    destruct (decide (c = b)) as [-> |].
    + rewrite Hq, bool_decide_true by done. by destruct w; cbn; rewrite lookup_insert_eq.
    + assert (a_req (amove b w a) !! c = a_req a !! c) as -> by (destruct w; cbn; by rewrite lookup_insert_ne). rewrite M3.
      destruct (q !! c) as [[v i] |] eqn:Hc; [| done]. do 2 f_equal. apply bool_decide_ext.
      assert (i.1.1 <> idx.1.1); [| set_solver].
      intros E. eapply n, (vi_disj _ _ _ _ _ _ Hv c b v w i idx i.1.1); [done | done | apply chain_head | rewrite E; apply chain_head].
Qed.

Lemma vsim_end m s s' pend q A a b w idx :
  q !! b = Some (w, idx) -> idx.1.1 ∉ A ++ pend -> v_bufs s' = v_bufs s -> vsim m s pend q A a ->
  astep a (Vabs (a_disk a) (a_buf a) (delete b (a_req a))) /\
  vsim m s' pend (delete b q) A (Vabs (a_disk a) (a_buf a) (delete b (a_req a))).
Proof.
  intros Hq Hn Hb [M1 M2 M3]. split; [apply (as_end _ w); by rewrite M3, Hq, bool_decide_true |]. split; cbn [a_disk a_buf a_req]; [done | |].
  - intros c. rewrite M2. unfold vb. by rewrite Hb.
  - intros c. destruct (decide (c = b)) as [-> |]; [by rewrite !lookup_delete_eq |]. by rewrite !lookup_delete_ne, M3 by done.
Qed.

(** Related states, and one step. *)
Definition vrel (y : vsys) (a : vabs) : Prop :=
  exists A U, vinv (y_st y) (dv_seen (y_dev y)) (dv_pend (y_dev y)) (y_req y) A U /\
    vsim (dv_media (y_dev y)) (y_st y) (dv_pend (y_dev y)) (y_req y) A a /\ media_ok (dv_media (y_dev y)).

Lemma step_begin b w idx s d q s' a :
  q !! b = None -> is_block (vb s b) -> rw_begin b w s = Ret (Some idx) s' -> vrel (Vsys s d q) a ->
  exists a', astep a a' /\ vrel (Vsys s' d (<[b := (w, idx)]> q)) a'.
Proof.
  intros Hq Hb Hr (A & U & Hv & Hs & Hm). cbn [y_st y_dev y_req] in *.
  pose proof (rw_begin_ok b w s (vi_len _ _ _ _ _ _ Hv) (vi_unlocked _ _ _ _ _ _ Hv)) as Hw. unfold wp in Hw. rewrite Hr in Hw.
  destruct (vsim_begin _ _ _ _ _ _ _ _ _ _ _ _ Hv Hq Hw Hs) as [H1 H2]. eexists. split; [exact H1 |].
  exists (A ++ [idx.1.1]), U. split_and!; [by eapply vinv_begin | done | done].
Qed.

Lemma step_full b w s d q s' a : rw_begin b w s = Ret None s' -> vrel (Vsys s d q) a -> vrel (Vsys s' d q) a.
Proof.
  intros Hr (A & U & Hv & Hs & Hm). cbn [y_st y_dev y_req] in *.
  pose proof (rw_begin_ok b w s (vi_len _ _ _ _ _ _ Hv) (vi_unlocked _ _ _ _ _ _ Hv)) as Hw. unfold wp in Hw. rewrite Hr in Hw.
  exists A, U. split_and!; [by eapply vinv_full | | done]. eapply vsim_frame; [done | | exact Hs].
  intros c. cbn [y_st]. unfold vb. by rewrite (sf_bufs _ _ (proj1 Hw)).
Qed.

Lemma intr_ok s seen pend q A U :
  vinv s seen pend q A U -> wp virtio_disk_intr s (fun _ s' => intr_done s s' ((fun h => in_b (vinf s h)) <$> U)).
Proof.
  intros Hv. pose proof (heads_bound _ _ _ _ _ _ Hv) as Hb. rewrite !length_app in Hb. apply virtio_disk_intr_ok; try apply Hv. lia.
Qed.

Lemma step_intr s d q s' a : virtio_disk_intr s = Ret tt s' -> vrel (Vsys s d q) a -> vrel (Vsys s' d q) a.
Proof.
  intros Hr (A & U & Hv & Hs & Hm). cbn [y_st y_dev y_req] in *. pose proof (intr_ok _ _ _ _ _ _ Hv) as Hw. unfold wp in Hw. rewrite Hr in Hw.
  exists A, []. split_and!; [by eapply vinv_intr | | done]. eapply vsim_frame; [done | | exact Hs].
  destruct Hw as (wk & bs & -> & Hc). intros c. cbn [y_st]. rewrite Hc. by case_bool_decide.
Qed.

Lemma resume_ok s seen pend q A U b w idx :
  vinv s seen pend q A U -> q !! b = Some (w, idx) ->
  wp (rw_resume b idx.1.1) s (fun r s' => if r then vb_disk (vb s b) <> 1 /\ ended s s' idx else vb_disk (vb s b) = 1 /\ s' = s).
Proof.
  intros Hv Hq. apply (rw_resume_ok s b w idx); [apply Hv | apply Hv | apply (vi_fmt _ _ _ _ _ _ Hv _ _ _ Hq) |].
  intros j. by eapply chain_busy.
Qed.

Lemma step_end b w idx s d q s' a :
  q !! b = Some (w, idx) -> rw_resume b idx.1.1 s = Ret true s' -> vrel (Vsys s d q) a ->
  exists a', astep a a' /\ vrel (Vsys s' d (delete b q)) a'.
Proof.
  intros Hq Hr (A & U & Hv & Hs & Hm). cbn [y_st y_dev y_req] in *. pose proof (resume_ok _ _ _ _ _ _ _ _ _ Hv Hq) as Hw.
  unfold wp in Hw. rewrite Hr in Hw. destruct Hw as [Hk He]. destruct (vinv_end _ _ _ _ _ _ _ _ _ _ Hv Hq Hk He) as [Ho Hv'].
  assert (Ho' : idx.1.1 ∉ A ++ dv_pend d) by set_solver.
  destruct (vsim_end _ s s' _ _ _ _ _ _ _ Hq Ho' (ed_buf _ _ _ He) Hs) as [H1 H2]. eexists. split; [exact H1 |].
  by exists A, U.
Qed.

Lemma vstep_sim y y' a : vstep serve y y' -> vrel y a -> exists a', rtc astep a a' /\ vrel y' a'.
Proof.
  intros [b w idx s d q s' Hq Hb Hr | b w s d q s' Hq Hr | s m seen pend q Hne | h s m seen p1 p2 q s' m' Hsv | s d q s' Hr
         | b w idx s d q s' Hq Hr | b w idx s d q s' Hq Hr | b blk data s d q Hq] Ha.
  - destruct (step_begin _ _ _ _ _ _ _ _ Hq Hb Hr Ha) as (a' & H1 & H2). exists a'. split; [by apply rtc_once | done].
  - exists a. split; [done |]. by eapply step_full.
  - exists a. split; [done |]. destruct Ha as (A & U & Hv & Hs & Hm). cbn [y_st y_dev y_req dv_seen dv_pend dv_media] in *.
    destruct (vinv_fetch _ _ _ _ _ _ Hv Hne) as (A' & -> & Hv'). exists A', U. split_and!; [done | | done].
    eapply vsim_frame; [| | exact Hs]; [| done]. cbn. set_solver.
  - destruct Ha as (A & U & Hv & Hs & Hm). cbn [y_st y_dev y_req dv_seen dv_pend dv_media] in *.
    destruct (vsim_serve _ _ _ _ _ _ _ _ _ _ _ _ Hv Hm Hsv Hs) as (a' & H1 & H2 & H3). exists a'. split; [by apply rtc_once |].
    exists A, (U ++ [h]). split_and!; [exact (vinv_serve _ _ _ _ _ _ _ _ _ Hv _ _ Hm Hsv) | done | done].
  - exists a. split; [done |]. by eapply step_intr.
  - exists a. split; [done |]. destruct Ha as (A & U & Hv & Hs & Hm). cbn [y_st y_dev y_req] in *.
    pose proof (resume_ok _ _ _ _ _ _ _ _ _ Hv Hq) as Hw. unfold wp in Hw. rewrite Hr in Hw. destruct Hw as [_ ->]. by exists A, U.
  - destruct (step_end _ _ _ _ _ _ _ _ Hq Hr Ha) as (a' & H1 & H2). exists a'. split; [by apply rtc_once | done].
  - destruct Ha as (A & U & Hv & [M1 M2 M3] & Hm). cbn [y_st y_dev y_req] in *.
    exists (Vabs (a_disk a) (<[b := (blk, data)]> (a_buf a)) (a_req a)). split; [apply rtc_once, as_buf; by rewrite M3, Hq |].
    exists A, U. split_and!; [by apply vinv_buf | | done]. split; [done | | done]. intros c. cbn [a_buf].
    erewrite vb_insert by (cbn; reflexivity). destruct (Z.eqb_spec c b) as [-> |]; [by rewrite fn_lookup_insert |].
    rewrite fn_lookup_insert_ne by congruence. apply M2.
Qed.

(** ** The state after [virtio_disk_init] *)

(** [struct disk] is in the bss. *)
Record in_bss (s : vst) : Prop := {
  bss_info : length (v_info s) = 8%nat;
  bss_ops : length (v_ops s) = 8%nat;
  bss_used : v_used_idx s = 0;
}.

Record queue_zero (s : vst) : Prop := {
  qz_desc : v_desc s = replicate 8 desc0;
  qz_avail : v_avail s = replicate 8 0 /\ v_avail_idx s = 0;
  qz_used : v_used s = replicate 8 0 /\ v_dused_idx s = 0;
}.

Definition idle (s : vst) : Prop := in_bss s /\ vdisk_lock ∉ v_held s.
Definition zeroed (s : vst) : Prop := idle s /\ queue_zero s.
Definition ready (s : vst) : Prop := zeroed s /\ v_free s = replicate 8 1.

Section init_ok.
Context `{L : Layout}.
Variable dev : list (Z * Z) -> Z -> Z.

Lemma keeps_reg_rd (J : vst -> Prop) r : keeps (fun s => J (vo_st s)) (reg_rd dev r).
Proof. by intros s. Qed.
Lemma keeps_reg_wr (J : vst -> Prop) r v : keeps (fun s => J (vo_st s)) (reg_wr r v).
Proof. by intros s. Qed.
Lemma keeps_boot_pm {A} (J : vst -> Prop) (m : K pm A) : keeps (fun s => J (vo_st s)) (zoom m).
Proof. by apply keeps_zoom. Qed.

(** A register access or a use of memory: [J] still holds of the driver. *)
Ltac vkeep J :=
  apply spec_bind; eapply (spec_keeps (fun s => J (vo_st s)));
  [first [apply keeps_reg_rd | apply keeps_reg_wr | apply (keeps_boot_pm J)] | eassumption | | done];
  clear; intros ? ? ?.
Ltac vguard := apply spec_if; intros ?; [apply spec_panic |].

Lemma virtio_disk_init_ready s :
  in_bss (vo_st s) -> spec (virtio_disk_init dev) s (fun _ s' => ready (vo_st s')) (fun _ => True).
Proof.
  intros Hb. unfold virtio_disk_init. apply spec_bind, spec_zoom, spec_zoom. unfold spec at 1, initlock, kmod.
  set (s1 := lset _ s). assert (H1 : idle (vo_st s1)) by (split; [by destruct Hb | cbn; set_solver]). clearbody s1. clear Hb s.
  do 4 vkeep idle. vguard. do 6 vkeep idle. vkeep idle. vguard. do 2 vkeep idle. vguard. vkeep idle. do 2 vguard.
  do 3 vkeep idle. vguard. do 3 vkeep idle. apply spec_bind, spec_zoom. unfold spec at 1, kmod.
  match goal with |- spec _ ?x _ _ => set (s2 := x) end.
  assert (H2 : zeroed (vo_st s2)) by (destruct H as [[] ?]; by repeat split). clearbody s2. clear -H2.
  do 8 vkeep zeroed. apply spec_bind, spec_zoom. unfold spec at 1, kmod. unfold spec, reg_wr, kmod. cbn [vo_st].
  destruct H as [[[] ?] [? [] []]]. by repeat split.
Qed.
End init_ok.

(** ** Refinement *)

(** The contract's view of a concrete state. *)
Record shows (y : vsys) (a : vabs) : Prop := {
  sh_disk : forall k, 0 <= k < 2 ^ 31 -> media_read (dv_media (y_dev y)) (2 * k) 2 = a_disk a k;
  sh_buf : forall b, a_buf a b = (vb_blockno (vb (y_st y) b), vb_data (vb (y_st y) b));
  sh_req : forall b, fst <$> a_req a !! b = fst <$> y_req y !! b;
}.

Definition abs0 (y : vsys) : vabs :=
  Vabs (fun k => media_read (dv_media (y_dev y)) (2 * k) 2) (fun b => (vb_blockno (vb (y_st y) b), vb_data (vb (y_st y) b))) ∅.

(** No entry point of the driver panics, the device understands what it
    finds, a call returns only after its block has moved, and waits only for
    the device or the interrupt. *)
Record safe (y : vsys) (a : vabs) : Prop := {
  sa_begin : forall b w, exists r s', rw_begin b w (y_st y) = Ret r s';
  sa_intr : exists s', virtio_disk_intr (y_st y) = Ret tt s';
  sa_serve : forall h, h ∈ dv_pend (y_dev y) -> is_Some (serve (y_st y) (dv_media (y_dev y)) h);
  sa_resume : forall b w idx, y_req y !! b = Some (w, idx) -> exists r s', rw_resume b idx.1.1 (y_st y) = Ret r s' /\
    if r then a_req a !! b = Some (w, true)
    else a_req a !! b = Some (w, false) \/ v_used_idx (y_st y) <> v_dused_idx (y_st y);
}.

Lemma vrel_shows y a : vrel y a -> shows y a.
Proof.
  intros (A & U & _ & [M1 M2 M3] & _). split; try done. intros b. rewrite M3. by destruct (y_req y !! b) as [[w i] |].
Qed.

Lemma vrel_safe y a : vrel y a -> safe y a.
Proof.
  intros (A & U & Hv & Hs & Hm). split.
  - intros b w. destruct (wp_inv _ _ _ (rw_begin_ok b w _ (vi_len _ _ _ _ _ _ Hv) (vi_unlocked _ _ _ _ _ _ Hv))) as (r & s' & -> & _). by exists r, s'.
  - destruct (wp_inv _ _ _ (intr_ok _ _ _ _ _ _ Hv)) as ([] & s' & -> & _). by exists s'.
  - intros h Hh. assert (h ∈ A ++ dv_pend (y_dev y) ++ U) as (b & w & idx & Hq & <- & _)%(vi_out _ _ _ _ _ _ Hv) by set_solver.
    rewrite (dev_serve_ok _ _ b w idx); [done | by apply Hv].
  - intros b w idx Hq. destruct (wp_inv _ _ _ (resume_ok _ _ _ _ _ _ _ _ _ Hv Hq)) as (r & s' & -> & Hr). exists r, s'. split; [done |].
    rewrite (vm_req _ _ _ _ _ _ Hs), Hq. destruct r.
    + destruct Hr as [Hk He]. destruct (vinv_end _ _ _ _ _ _ _ _ _ _ Hv Hq Hk He) as [Ho _]. rewrite bool_decide_true; [done | set_solver].
    + destruct Hr as [Hk _]. case_bool_decide as Hn; [right | by left]. pose proof (heads_bound _ _ _ _ _ _ Hv) as Hb. rewrite !length_app in Hb.
      intros E. apply (queue_empty _ _ _ _ (vi_used _ _ _ _ _ _ Hv) ltac:(lia)) in E. subst U.
      assert (idx.1.1 ∈ A ++ dv_pend (y_dev y) ++ []) by (apply Hv; by exists b, w, idx). rewrite app_nil_r in *. done.
Qed.

Lemma ready_rel s d : ready s -> media_ok (dv_media d) -> dv_seen d = 0 -> dv_pend d = [] -> vrel (Vsys s d ∅) (abs0 (Vsys s d ∅)).
Proof.
  intros [[[[] Hh] [Ed [Ea Ei] [Eu Ej]]] Hf] Hm Hs Hp. exists [], []. cbn [y_st y_dev y_req]. rewrite Hs, Hp. split_and!; [| | done].
  - split; try done.
    + split; try done; by rewrite ?Ed, ?Ea, ?Eu, ?Hf.
    + intros i Hi. unfold vfree. rewrite Hf. unfold NUM in Hi.
      assert (i = 0 \/ i = 1 \/ i = 2 \/ i = 3 \/ i = 4 \/ i = 5 \/ i = 6 \/ i = 7) as Hc by lia. by destruct_or! Hc; subst i; cbn; intros.
    + rewrite Ej, bss_used0. by repeat split.
    + constructor.
    + intros h. cbn. split; [set_solver |]. by intros (? & ? & ? & ? & _).
    + set_solver.
  - by split.
Qed.

Lemma vsteps_sim y y' : rtc (vstep serve) y y' -> forall a, vrel y a -> exists a', rtc astep a a' /\ vrel y' a'.
Proof.
  induction 1 as [| y y1 y2 Hs _ IH]; intros a Ha; [by exists a |]. destruct (vstep_sim _ _ _ Hs Ha) as (a1 & H1 & Ha1).
  destruct (IH a1 Ha1) as (a2 & H2 & Ha2). exists a2. split; [by etrans | done].
Qed.

Section refines.
Context `{L : Layout}.
Variable dev : list (Z * Z) -> Z -> Z.

(** C3: from the state [virtio_disk_init] leaves, under any interleaving of
    calls of [virtio_disk_rw] on any number of buffers, interrupts, and any
    device with the documented behaviour ([VirtioBlk]) that fetches requests
    from the available ring and serves the fetched ones in any order, driver and device behave like the contract,
    in which a block moves between the disk and a buffer in one step: the
    blocks on the disk and the buffers' contents agree with an abstract run;
    no entry point of the driver panics ([free_desc 1], [free_desc 2],
    [virtio_disk_intr status]) or loops; every request the device has
    fetched is one it can serve; [virtio_disk_rw] returns only after its
    block has moved, and goes on waiting only when it has not, or the
    interrupt is still to come. *)
Theorem virtio_refines boot s1 d y :
  in_bss (vo_st boot) -> virtio_disk_init dev boot = Ret tt s1 ->
  media_ok (dv_media d) -> dv_seen d = 0 -> dv_pend d = [] ->
  rtc (vstep serve) (Vsys (vo_st s1) d ∅) y ->
  exists a, rtc astep (abs0 (Vsys (vo_st s1) d ∅)) a /\ shows y a /\ safe y a.
Proof.
  intros Hb Hi Hm Hs Hp Hy. pose proof (virtio_disk_init_ready dev boot Hb) as Hr. unfold spec in Hr. rewrite Hi in Hr.
  destruct (vsteps_sim _ _ Hy _ (ready_rel _ d Hr Hm Hs Hp)) as (a & H1 & H2). exists a. split_and!; [done | |].
  - by apply vrel_shows.
  - by apply vrel_safe.
Qed.
End refines.
End device.

(** ** Witness: a block is written *)

(** A device: serve the chain that begins at [h]. *)
Definition dev_serve (s : vst) (m : gmap Z bytes) (h : Z) : option (vst * gmap Z bytes) :=
  let d0 := vdesc s h in
  let d1 := vdesc s (d_next d0) in
  let d2 := vdesc s (d_next d1) in
  match d_addr d0, d_addr d1, d_addr d2 with
  | AOps o, AData b, AStatus k =>
      let r := vop s o in
      let n := Z.to_nat (d_len d1 / 512) in
      let moved :=
        if (rq_type r =? VIRTIO_BLK_T_IN) && has_flag d1 VRING_DESC_F_WRITE
        then Some (Vbuf (vb_blockno (vb s b)) (media_read m (rq_sector r) n) (vb_disk (vb s b)), m)
        else if (rq_type r =? VIRTIO_BLK_T_OUT) && negb (has_flag d1 VRING_DESC_F_WRITE)
        then Some (vb s b, media_write m (rq_sector r) n (vb_data (vb s b)))
        else None in
      match moved with
      | Some (x, m') =>
          if has_flag d0 VRING_DESC_F_NEXT && has_flag d1 VRING_DESC_F_NEXT && has_flag d2 VRING_DESC_F_WRITE then
            Some (Vst (v_held s) (v_woken s) (v_desc s) (v_avail_idx s) (v_avail s)
                    (u16 (v_dused_idx s + 1)) (updZ (v_used s) (v_dused_idx s mod NUM) h) (v_free s) (v_used_idx s)
                    (updZ (v_info s) k (Info (in_b (vinf s k)) 0)) (v_ops s) (<[b := x]> (v_bufs s)), m')
          else None
      | None => None
      end
  | _, _, _ => None
  end.

#[local] Instance dev_serve_blk : VirtioBlk dev_serve.
Proof.
  split; intros s m h o b k d1 (d0 & d2 & <- & E0 & F0 & <- & E1 & F1 & <- & E2 & F2) Ht Hw; unfold dev_serve;
    rewrite E0, E1, E2, Ht, Hw, F0, F1, F2; reflexivity.
Qed.

#[local] Instance wit_layout : Layout :=
  {| kend := PHYSTOP - 3 * PGSIZE; etext := KERNBASE + PGSIZE; trampoline := KERNBASE |}.

(** The answers of the emulated disk. *)
Definition qemu (writes : list (Z * Z)) (r : Z) : Z :=
  if r =? VIRTIO_MMIO_MAGIC_VALUE then 0x74726976
  else if r =? VIRTIO_MMIO_VERSION then 2
  else if r =? VIRTIO_MMIO_DEVICE_ID then 2
  else if r =? VIRTIO_MMIO_VENDOR_ID then 0x554d4551
  else if r =? VIRTIO_MMIO_DEVICE_FEATURES then 0x30006e54
  else if r =? VIRTIO_MMIO_QUEUE_NUM_MAX then 1024
  else if r =? VIRTIO_MMIO_STATUS then
    match list_find (fun w => w.1 = VIRTIO_MMIO_STATUS) writes with Some (_, w) => w.2 | None => 0 end
  else 0.

Definition wit_pm : pm := match kinit (Pm ∅ ∅ 0) with Ret _ s => s | _ => Pm ∅ ∅ 0 end.
Definition wit_boot : vboot :=
  Vboot (Vst ∅ [] [] 0 [] 0 [] [] 0 (replicate 8 info0) (replicate 8 req0) ({[ 0 := Vbuf 3 (replicate 1024 7) 0 ]})) wit_pm [].

Definition state_of {S A} (m : outcome S A) (s : S) : S := match m with Ret _ s' => s' | _ => s end.
Definition returns {S A} (m : outcome S A) : bool := match m with Ret _ _ => true | _ => false end.

Definition wit_s1 : vst := vo_st (state_of (virtio_disk_init qemu wit_boot) wit_boot).
Definition wit_idx : Z * Z * Z := (0, 1, 2).
Definition wit_s2 : vst := state_of (rw_begin 0 true wit_s1) wit_s1.
Definition wit_serve : vst * gmap Z bytes := default (wit_s2, ∅) (dev_serve wit_s2 ∅ 0).
Definition wit_s3 : vst := wit_serve.1.
Definition wit_s4 : vst := state_of (virtio_disk_intr wit_s3) wit_s3.
Definition wit_s5 : vst := state_of (rw_resume 0 0 wit_s4) wit_s4.
Definition wit_end : vsys := Vsys wit_s5 (Vdev wit_serve.2 1 []) (delete 0 (<[0 := (true, wit_idx)]> ∅)).

Lemma wit_block : is_block (vb wit_s1 0).
Proof. assert (vb wit_s1 0 = Vbuf 3 (replicate 1024 7) 0) as -> by (vm_compute; reflexivity). by repeat split. Qed.

Lemma wit_init : virtio_disk_init qemu wit_boot = Ret tt (state_of (virtio_disk_init qemu wit_boot) wit_boot).
Proof. assert (returns (virtio_disk_init qemu wit_boot) = true) as H by (vm_compute; reflexivity). by destruct (virtio_disk_init _ _) as [[] ? | | |]. Qed.

Lemma wit_begin : rw_begin 0 true wit_s1 = Ret (Some wit_idx) wit_s2.
Proof. vm_compute; reflexivity. Qed.

Lemma wit_intr : virtio_disk_intr wit_s3 = Ret tt wit_s4.
Proof. vm_compute; reflexivity. Qed.

Lemma wit_resume : rw_resume 0 0 wit_s4 = Ret true wit_s5.
Proof. vm_compute; reflexivity. Qed.

Lemma wit_served : dev_serve wit_s2 ∅ 0 = Some (wit_s3, wit_serve.2).
Proof. vm_compute; reflexivity. Qed.

Lemma wit_fetch :
  vstep dev_serve (Vsys wit_s2 (Vdev ∅ 0 []) (<[0 := (true, wit_idx)]> ∅)) (Vsys wit_s2 (Vdev ∅ 1 [0]) (<[0 := (true, wit_idx)]> ∅)).
Proof.
  assert (v_avail_idx wit_s2 = 1) as E by (vm_compute; reflexivity). assert (nthZ 0 (v_avail wit_s2) (0 mod NUM) = 0) as E' by (vm_compute; reflexivity).
  pose proof (vs_fetch dev_serve wit_s2 ∅ 0 [] (<[0 := (true, wit_idx)]> ∅)) as H. rewrite E, E' in H. by apply H.
Qed.

Lemma wit_run : rtc (vstep dev_serve) (Vsys wit_s1 (Vdev ∅ 0 []) ∅) wit_end.
Proof.
  eapply rtc_l; [exact (vs_begin dev_serve 0 true wit_idx _ _ ∅ _ (lookup_empty 0) wit_block wit_begin) |].
  eapply rtc_l; [exact wit_fetch |].
  eapply rtc_l; [exact (vs_serve dev_serve 0 wit_s2 ∅ 1 [] [] _ _ _ wit_served) |].
  eapply rtc_l; [exact (vs_intr dev_serve wit_s3 _ _ _ wit_intr) |].
  eapply rtc_l; [exact (vs_end dev_serve 0 true wit_idx wit_s4 _ _ _ (lookup_insert_eq _ _ _) wit_resume) | apply rtc_refl].
Qed.

Lemma virtio_refines_witness :
  exists a, rtc astep (abs0 (Vsys wit_s1 (Vdev ∅ 0 []) ∅)) a /\ a_disk a 3 = replicate 1024 7 /\ safe dev_serve wit_end a.
Proof.
  destruct (virtio_refines dev_serve qemu wit_boot (state_of (virtio_disk_init qemu wit_boot) wit_boot) (Vdev ∅ 0 []) wit_end) as (a & H1 & H2 & H3).
  - by split.
  - exact wit_init.
  - intros x. unfold sector. cbn [dv_media]. by rewrite lookup_empty.
  - done.
  - done.
  - exact wit_run.
  - exists a. split; [exact H1 | split; [| exact H3]]. rewrite <- (sh_disk _ _ H2) by lia. vm_compute; reflexivity.
Defined.
