(* ===== verification/File.v ===== *)
(** * kernel/file.c: the table of open files, and [pipealloc] of pipe.c

    A [struct file *] is the index in the table, [null] the null pointer; a
    [struct pipe *] is the address of its page.  The device switch is filled
    in at run time and is a parameter, as is the current process.  A read or
    a write of a pipe that has to wait leaves the call [Asleep]. *)

From S2P Require Import Prelude Riscv Spinlock Sleeplock Mem CString Kalloc Vm Block BufCache TxnDisk Fs.
From S2P Require Pipe.

Inductive filetype := FD_NONE | FD_PIPE | FD_INODE | FD_DEVICE.

Record file := File {
  f_type : filetype;
  f_ref : Z;
  f_readable : bool;
  f_writable : bool;
  f_pipe : Z;
  f_ip : Z;
  f_off : Z;
  f_major : Z;
}.

Definition file0 : file := File FD_NONE 0 false false 0 null 0 0.

Record fls (T : Type) := Fls {
  fl_fs : fsys T;
  fl_held : locks;
  fl_file : list file;             (* ftable.file *)
  fl_pipes : gmap Z Pipe.pipe;     (* the pipes, by address *)
}.
Arguments Fls {T}.
Arguments fl_fs {T}.
Arguments fl_held {T}.
Arguments fl_file {T}.
Arguments fl_pipes {T}.

#[export] Instance fls_fs T : Lens (fls T) (fsys T).
Proof. refine {| lget := fl_fs; lset x s := Fls x (fl_held s) (fl_file s) (fl_pipes s) |}; by try intros []. Defined.
#[export] Instance fls_locks T : Lens (fls T) locks.
Proof. refine {| lget := fl_held; lset x s := Fls (fl_fs s) x (fl_file s) (fl_pipes s) |}; by try intros []. Defined.

Definition ftable_lock : lockid := ("ftable", 0).
Definition pipe_lk (pi : Z) : lockid := ("pipe", pi).
Definition pipe0 : Pipe.pipe := Pipe.Pipe (replicate 512 0) 0 0 0 0.

Section file.
Context {T : Type} `{TD : TxnDisk T} `{L : Layout}.
Variable pagetable : Z.      (* myproc()->pagetable *)
Variable mypid : Z.          (* myproc()->pid *)
Variable killed : bool.      (* killed(myproc()) *)
Variable stpad : bytes.      (* the 24 bytes of the local struct stat before it is filled in *)
(** [devsw[i].read] and [devsw[i].write] *)
Variable devsw_read : Z -> option (Z -> Z -> K (fls T) Z).
Variable devsw_write : Z -> option (Z -> Z -> K (fls T) Z).

Abbreviation FL := (K (fls T)).

Definition set_files (l : list file) (s : fls T) : fls T := Fls (fl_fs s) (fl_held s) l (fl_pipes s).
Definition fat (s : fls T) (f : Z) : file := nthZ file0 (fl_file s) f.
Definition upd_file (f : Z) (g : file -> file) : FL unit :=
  kmod (fun s => set_files (updZ (fl_file s) f (g (fat s f))) s).
Definition get_file (f : Z) : FL file := kgets (fun s => fat s f).
Definition set_fref (r : Z) (f : file) : file :=
  File (f_type f) r (f_readable f) (f_writable f) (f_pipe f) (f_ip f) (f_off f) (f_major f).
Definition set_ftype (t : filetype) (f : file) : file :=
  File t (f_ref f) (f_readable f) (f_writable f) (f_pipe f) (f_ip f) (f_off f) (f_major f).
Definition set_off (o : Z) (f : file) : file :=
  File (f_type f) (f_ref f) (f_readable f) (f_writable f) (f_pipe f) (f_ip f) o (f_major f).

(** Run an operation of pipe.c on pipe [pi]. *)
Definition on_pipe {A} (pi : Z) (m : K Pipe.pst A) : FL A := fun s =>
  let put (t : Pipe.pst) : fls T :=
    let fs := fl_fs s in
    Fls (Fsys (f_held fs) (Pipe.ps_woken t) (f_disk fs) (f_sb fs) (f_inode fs) (Pipe.ps_pm t) (f_msgs fs))
      (fl_held s) (fl_file s) (<[pi := Pipe.ps_pi t]> (fl_pipes s)) in
  match m (Pipe.Pst (f_woken (fl_fs s)) (default pipe0 (fl_pipes s !! pi)) (f_pm (fl_fs s))) with
  | Ret a t => Ret a (put t)
  | Panic e => Panic e
  | Asleep c t => Asleep c (put t)
  | OutOfFuel => OutOfFuel
  end.

Definition fbegin_op : FL unit := zoom (T := fsys T) (zoom t_begin_op).
Definition fend_op : FL unit := zoom (T := fsys T) (zoom t_end_op).

Definition fileinit : FL unit := zoom (initlock ftable_lock).

(** The first unused entry. *)
Fixpoint filealloc_scan (l : list file) (k : Z) : Z :=
  match l with
  | [] => null
  | f :: l => if f_ref f =? 0 then k else filealloc_scan l (k + 1)
  end.

Definition filealloc : FL Z :=
  zoom (acquire ftable_lock) >>
  l <- kgets fl_file ;;
  let f := filealloc_scan l 0 in
  kwhen (negb (f =? null)) (upd_file f (set_fref 1)) >>
  zoom (release ftable_lock) >>
  kret f.

Definition filedup (f : Z) : FL Z :=
  zoom (acquire ftable_lock) >>
  q <- get_file f ;;
  if f_ref q <? 1 then kpanic "filedup" else
  upd_file f (set_fref (f_ref q + 1)) >>
  zoom (release ftable_lock) >>
  kret f.

Definition fileclose (f : Z) : FL unit :=
  zoom (acquire ftable_lock) >>
  q <- get_file f ;;
  if f_ref q <? 1 then kpanic "fileclose" else
  upd_file f (set_fref (f_ref q - 1)) >>
  if 0 <? f_ref q - 1 then zoom (release ftable_lock) else
  ff <- get_file f ;;
  upd_file f (set_fref 0) >>
  upd_file f (set_ftype FD_NONE) >>
  zoom (release ftable_lock) >>
  match f_type ff with
  | FD_PIPE => on_pipe (f_pipe ff) (Pipe.pipeclose (pipe_lk (f_pipe ff)) (f_pipe ff) (f_writable ff))
  | FD_INODE | FD_DEVICE =>
      fbegin_op >>
      zoom (iput mypid (f_ip ff)) >>
      fend_op
  | FD_NONE => kret tt
  end.

(** The 24 bytes of a [struct stat]; the padding keeps what was there. *)
Definition stat_bytes (st : stat) : bytes :=
  let d := put32 stpad 0 (st_dev st) in
  let d := put32 d 4 (st_ino st) in
  let d := put16 d 8 (st_type st) in
  let d := put16 d 10 (st_nlink st) in
  putn d 16 8 (st_size st).

Definition filestat (f addr : Z) : FL Z :=
  q <- get_file f ;;
  match f_type q with
  | FD_INODE | FD_DEVICE =>
      zoom (ilock mypid (f_ip q)) >>
      st <- zoom (stati (f_ip q)) ;;
      zoom (iunlock mypid (f_ip q)) >>
      r <- zoom (T := fsys T) (zoom (copyout pagetable addr (stat_bytes st))) ;;
      if r <? 0 then kret (-1) else kret 0
  | _ => kret (-1)
  end.

Definition pipe_result (r : Pipe.pres) : FL Z :=
  match r with
  | Pipe.PDone r => kret r
  | Pipe.PSleep c _ => ksleep c
  end.

Definition fileread (f addr n : Z) : FL Z :=
  q <- get_file f ;;
  if negb (f_readable q) then kret (-1) else
  match f_type q with
  | FD_PIPE =>
      r <- on_pipe (f_pipe q) (Pipe.piperead (pipe_lk (f_pipe q)) pagetable killed addr n) ;; pipe_result r
  | FD_DEVICE =>
      if ((f_major q <? 0) || (NDEV <=? f_major q))%bool then kret (-1) else
      match devsw_read (f_major q) with
      | None => kret (-1)
      | Some dread => dread addr n
      end
  | FD_INODE =>
      zoom (ilock mypid (f_ip q)) >>
      r <- zoom (readi pagetable (f_ip q) true addr (f_off q) (u32 n)) ;;
      kwhen (0 <? r) (upd_file f (fun q => set_off (u32 (f_off q + r)) q)) >>
      zoom (iunlock mypid (f_ip q)) >>
      kret r
  | FD_NONE => kpanic "fileread"
  end.

(** [((MAXOPBLOCKS-1-1-2) / 2) * BSIZE] *)
Definition write_max : Z := ((MAXOPBLOCKS - 1 - 1 - 2) / 2) * BSIZE.

(** [while(i < n)]; returns [i]. *)
Fixpoint filewrite_loop (fuel : nat) (f ip addr i n : Z) : FL Z :=
  match fuel with
  | O => kfuel
  | S fuel =>
      if i <? n then
        let n1 := Z.min (n - i) write_max in
        fbegin_op >>
        zoom (ilock mypid ip) >>
        q <- get_file f ;;
        r <- zoom (writei pagetable ip true (u64 (addr + i)) (f_off q) n1) ;;
        kwhen (0 <? r) (upd_file f (fun q => set_off (u32 (f_off q + r)) q)) >>
        zoom (iunlock mypid ip) >>
        fend_op >>
        if negb (r =? n1) then kret i
        else filewrite_loop fuel f ip addr (i + r) n
      else kret i
  end.

Definition filewrite (f addr n : Z) : FL Z :=
  q <- get_file f ;;
  if negb (f_writable q) then kret (-1) else
  match f_type q with
  | FD_PIPE =>
      r <- on_pipe (f_pipe q) (Pipe.pipewrite (pipe_lk (f_pipe q)) pagetable killed addr 0 n) ;; pipe_result r
  | FD_DEVICE =>
      if ((f_major q <? 0) || (NDEV <=? f_major q))%bool then kret (-1) else
      match devsw_write (f_major q) with
      | None => kret (-1)
      | Some dwrite => dwrite addr n
      end
  | FD_INODE =>
      i <- filewrite_loop (Z.to_nat (n / write_max + 2)) f (f_ip q) addr 0 n ;;
      kret (if i =? n then n else -1)
  | FD_NONE => kpanic "filewrite"
  end.

(** The [bad] label of [pipealloc]. *)
Definition pipealloc_bad (pi f0 f1 : Z) : FL (Z * Z * Z) :=
  kwhen (negb (pi =? 0)) (zoom (T := fsys T) (zoom (kfree pi))) >>
  kwhen (negb (f0 =? null)) (fileclose f0) >>
  kwhen (negb (f1 =? null)) (fileclose f1) >>
  kret (-1, f0, f1).

(** Returns the result and the two files. *)
Definition pipealloc : FL (Z * Z * Z) :=
  f0 <- filealloc ;;
  if f0 =? null then pipealloc_bad 0 f0 null else
  f1 <- filealloc ;;
  if f1 =? null then pipealloc_bad 0 f0 f1 else
  pi <- zoom (T := fsys T) (zoom kalloc) ;;
  if pi =? 0 then pipealloc_bad pi f0 f1 else
  on_pipe pi (Pipe.pipeinit (pipe_lk pi)) >>
  upd_file f0 (fun q => File FD_PIPE (f_ref q) true false pi (f_ip q) (f_off q) (f_major q)) >>
  upd_file f1 (fun q => File FD_PIPE (f_ref q) false true pi (f_ip q) (f_off q) (f_major q)) >>
  kret (0, f0, f1).
End file.
