(* ===== verification/Syscall.v ===== *)
(** * kernel/syscall.c: arguments of system calls, and the dispatcher

    The arguments are in the saved registers of the trap frame, which is a
    page of physical memory; pointers among them are user addresses and are
    only followed through [copyin] and [copyinstr].  The handlers are an
    argument of the dispatcher: the table [syscalls]. *)

From S2P Require Import Prelude Riscv Spinlock Sleeplock Mem CString Kalloc Vm Block Uart Console Printf Proc.

(** kernel/syscall.h *)
Definition SYS_fork : Z := 1.
Definition SYS_exit : Z := 2.
Definition SYS_wait : Z := 3.
Definition SYS_pipe : Z := 4.
Definition SYS_read : Z := 5.
Definition SYS_kill : Z := 6.
Definition SYS_exec : Z := 7.
Definition SYS_fstat : Z := 8.
Definition SYS_chdir : Z := 9.
Definition SYS_dup : Z := 10.
Definition SYS_getpid : Z := 11.
Definition SYS_sbrk : Z := 12.
Definition SYS_sleep : Z := 13.
Definition SYS_uptime : Z := 14.
Definition SYS_open : Z := 15.
Definition SYS_write : Z := 16.
Definition SYS_mknod : Z := 17.
Definition SYS_unlink : Z := 18.
Definition SYS_link : Z := 19.
Definition SYS_mkdir : Z := 20.
Definition SYS_close : Z := 21.
Definition SYS_trace : Z := 22.
Definition SYS_sysinfo : Z := 23.
Definition SYS_pgaccess : Z := 30.

(** Offset of argument register [n] in [struct trapframe]. *)
Definition TF_a (n : Z) : Z := TF_a0 + 8 * n.
Definition TF_a7 : Z := TF_a 7.

Section syscall.
Context {F : Type} `{FO : FileOps F} `{L : Layout}.
Abbreviation P := (K (prs F)).

(** The table entry of [myproc()]. *)
Definition mine : P proc := p <- myproc ;; get_proc p.

(** [p->trapframe->f] *)
Definition tf_load (q : proc) (off : Z) : P Z :=
  zoom (T := pm) (kgets (fun s => ld64 (pm_mem s) (p_trapframe q + off))).

(** The value fetched, or [None] for the result [-1]. *)
Definition fetchaddr (addr : Z) : P (option Z) :=
  q <- mine ;;
  if ((p_sz q <=? addr) || (p_sz q <? u64 (addr + 8)))%bool then kret None else
  ' (r, b) <- zoom (copyin (p_pagetable q) addr 8) ;;
  if negb (r =? 0) then kret None else kret (Some (getn b 0 8)).

Definition fetchstr (addr buf max : Z) : P Z :=
  q <- mine ;;
  ' (r, b) <- zoom (copyinstr (p_pagetable q) addr max) ;;
  zoom (T := pm) (set_mem (fun m => wrbytes m buf b)) >>
  if r <? 0 then kret (-1) else
  m <- zoom (T := pm) (kgets pm_mem) ;;
  match strlen (at_mem m buf) (S (Z.to_nat max)) with
  | Some n => kret (Z.of_nat n)
  | None => kfuel
  end.

Definition argraw (n : Z) : P Z :=
  q <- mine ;;
  if ((0 <=? n) && (n <=? 5))%bool then tf_load q (TF_a n) else kpanic "argraw".

Definition argint (n : Z) : P Z := v <- argraw n ;; kret (i32 v).
Definition argaddr (n : Z) : P Z := argraw n.

Definition argstr (n buf max : Z) : P Z :=
  addr <- argaddr n ;;
  fetchstr addr buf max.

(** [str_syscalls]; the array ends after [SYS_sysinfo]. *)
Definition str_syscalls (num : Z) : option bytes :=
  nth_error
    (map cstr [""; "fork"; "exit"; "wait"; "pipe"; "read"; "kill"; "exec"; "fstat"; "chdir"; "dup"; "getpid"; "sbrk";
               "sleep"; "uptime"; "open"; "write"; "mknod"; "unlink"; "link"; "mkdir"; "close"; "trace"; "sysinfo"]%string)
    (Z.to_nat num).

(** The table [syscalls], [None] for its null entries, and its length. *)
Variable syscalls : Z -> option (P Z).
Definition NSYSCALLS : Z := SYS_pgaccess + 1.

Definition syscall : P unit :=
  p <- myproc ;;
  q <- get_proc p ;;
  a7 <- tf_load q TF_a7 ;;
  let num := i32 a7 in
  match (if ((0 <? num) && (num <? NSYSCALLS))%bool then syscalls num else None) with
  | Some handler =>
      r <- handler ;;
      tf_store p TF_a0 r >>
      q <- get_proc p ;;
      kwhen (negb (Z.land (Z.shiftl 1 num) (p_trace_mask q) =? 0))
        (a0 <- tf_load q TF_a0 ;;
         match str_syscalls num with
         | Some name =>
             zoom (Kernel.printf (Some (cstr "%d: syscall %s -> %d" ++ [nl]))
               [VInt (p_pid q); VStr (Some name); VInt (i32 a0)])
         | None => kpanic "undefined: str_syscalls"
         end)
  | None =>
      zoom (Kernel.printf (Some (cstr "%d %s: unknown sys call %d" ++ [nl]))
        [VInt (p_pid q); VStr (Some (p_name q)); VInt num]) >>
      tf_store p TF_a0 (-1)
  end.
End syscall.
