(* ===== verification/FileSys.v ===== *)
(** * The file layer under the process table

    [file.c] and [fs.c] are what proc.c needs of the file layer: an instance
    of [FileOps].  The two share one physical memory. *)

From S2P Require Import Prelude Riscv Spinlock Sleeplock Mem CString Kalloc Vm Block Uart Console Printf BufCache TxnDisk Fs File Proc.

#[export] Instance fls_pm T : Lens (fls T) pm.
Proof.
  refine {| lget s := lget (Lens := fsys_pm T) (fl_fs s);
            lset m s := lset (Lens := fls_fs T) (lset (Lens := fsys_pm T) m (fl_fs s)) s |};
    intros; by try destruct s as [[]].
Defined.

Section filesys.
Context {T : Type} `{TD : TxnDisk T} `{L : Layout}.
(** Addresses of the local [de] and [name] of fs.c, and of a string constant. *)
Variables de name lit : Z.

Definition file_ops : FileOps (fls T) := {|
  fo_pm := fls_pm T;
  fo_filedup := filedup;
  fo_fileclose := fileclose;
  fo_begin_op := fbegin_op;
  fo_end_op := fend_op;
  fo_idup ip := zoom (idup ip);
  fo_iput pid ip := zoom (iput pid ip);
  (* called before there is a process, for "/" *)
  fo_namei path :=
    zoom (set_fmem (fun m => wrbytes m lit (path ++ [0])) >> namei 0 0 null de lit name);
  fo_fsinit dev := zoom (fsinit dev);
|}.

(** An operation of fs.c, in the state of the whole kernel. *)
Definition onfs {A} (m : K (fsys T) A) : K (prs (fls T)) A := zoom (T := fls T) (zoom m).
(** [begin_op()] and [end_op()] *)
Definition op_begin : K (prs (fls T)) unit := zoom (T := fls T) fbegin_op.
Definition op_end : K (prs (fls T)) unit := zoom (T := fls T) fend_op.
End filesys.
