(* ===== verification/Exec.v ===== *)
(** * kernel/exec.c

    [exec] reads the ELF headers into its local variables, which are at the
    addresses [elf] and [ph] of kernel memory, and decodes them there. *)

From S2P Require Import Prelude Riscv Spinlock Sleeplock Mem CString Kalloc Vm Block Uart Console Printf BufCache TxnDisk Fs File Proc Syscall FileSys.

(** kernel/elf.h: offsets in [struct elfhdr] and [struct proghdr] *)
Definition ELF_MAGIC : Z := 0x464C457F.
Definition ELF_PROG_LOAD : Z := 1.
Definition ELFHDR_SIZE : Z := 64.
Definition PROGHDR_SIZE : Z := 56.

Record elfhdr := Elfhdr { elf_magic : Z; elf_entry : Z; elf_phoff : Z; elf_phnum : Z }.
Record proghdr := Proghdr {
  ph_type : Z; ph_flags : Z; ph_off : Z; ph_vaddr : Z; ph_filesz : Z; ph_memsz : Z }.

Definition get_elfhdr (m : mem) (a : Z) : elfhdr :=
  Elfhdr (ld32 m a) (ld64 m (a + 24)) (ld64 m (a + 32)) (ldn m (a + 56) 2).
Definition get_proghdr (m : mem) (a : Z) : proghdr :=
  Proghdr (ld32 m a) (ld32 m (a + 4)) (ld64 m (a + 8)) (ld64 m (a + 16)) (ld64 m (a + 32)) (ld64 m (a + 40)).

Definition flags2perm (flags : Z) : Z :=
  let perm := 0 in
  let perm := if negb (Z.land flags 1 =? 0) then PTE_X else perm in
  if negb (Z.land flags 2 =? 0) then Z.lor perm PTE_W else perm.

(** [for(last=s=path; star s; s++) if(star s == '/') last = s+1;] *)
Fixpoint last_elem (fuel : nat) (m : mem) (s last : Z) : Z :=
  match fuel with
  | O => last
  | S fuel => if ld8 m s =? 0 then last else last_elem fuel m (s + 1) (if ld8 m s =? slash then s + 1 else last)
  end.

(** The bytes of an array of [uint64]. *)
Definition words_bytes (l : list Z) : bytes := concat (map (fun v => putn (replicate 8 0) 0 8 v) l).

Section exec.
Context {T : Type} `{TD : TxnDisk T} `{L : Layout}.
Variables de name lit : Z.
Variables elf ph : Z.        (* &elf and &ph *)
#[local] Instance FO : FileOps (fls T) := file_ops de name lit.
Abbreviation P := (K (prs (fls T))).

Definition kmem : P mem := zoom (T := pm) (kgets pm_mem).

(** [for(i = 0; i < sz; i += PGSIZE)] *)
Fixpoint loadseg_loop (fuel : nat) (pagetable va ip offset sz i : Z) : P Z :=
  match fuel with
  | O => kfuel
  | S fuel =>
      if i <? sz then
        pa <- zoom (walkaddr pagetable (u64 (va + i))) ;;
        if pa =? 0 then kpanic "loadseg: address should exist" else
        let n := if sz - i <? PGSIZE then sz - i else PGSIZE in
        r <- onfs (readi 0 ip false pa (u32 (offset + i)) n) ;;
        if negb (u32 r =? n) then kret (-1)
        else loadseg_loop fuel pagetable va ip offset sz (u32 (i + PGSIZE))
      else kret 0
  end.

Definition loadseg (pagetable va ip offset sz : Z) : P Z :=
  loadseg_loop (Z.to_nat (sz / PGSIZE + 2)) pagetable va ip offset sz 0.

(** [for(i=0, off=elf.phoff; i<elf.phnum; i++, off+=sizeof(ph))]: the size
    reached, and whether the loop got to its end. *)
Fixpoint load_loop (n : nat) (pagetable ip off sz : Z) : P (Z * bool) :=
  match n with
  | O => kret (sz, true)
  | S n =>
      r <- onfs (readi 0 ip false ph (u32 off) PROGHDR_SIZE) ;;
      if negb (r =? PROGHDR_SIZE) then kret (sz, false) else
      m <- kmem ;;
      let h := get_proghdr m ph in
      let off' := i32 (off + PROGHDR_SIZE) in
      if negb (ph_type h =? ELF_PROG_LOAD) then load_loop n pagetable ip off' sz else
      if ph_memsz h <? ph_filesz h then kret (sz, false) else
      if u64 (ph_vaddr h + ph_memsz h) <? ph_vaddr h then kret (sz, false) else
      if negb (ph_vaddr h mod PGSIZE =? 0) then kret (sz, false) else
      sz1 <- zoom (uvmalloc pagetable sz (u64 (ph_vaddr h + ph_memsz h)) (flags2perm (ph_flags h))) ;;
      if sz1 =? 0 then kret (sz, false) else
      r <- loadseg pagetable (ph_vaddr h) ip (u32 (ph_off h)) (u32 (ph_filesz h)) ;;
      if r <? 0 then kret (sz1, false)
      else load_loop n pagetable ip off' sz1
  end.

(** [for(argc = 0; argv[argc]; argc++)]: the stack pointer and [ustack], or
    [None] for [goto bad]. *)
Fixpoint push_args (fuel : nat) (pagetable stackbase : Z) (argv : list Z) (argc sp : Z) (ustack : list Z)
    : P (option (Z * list Z)) :=
  match fuel with
  | O => kfuel
  | S fuel =>
      let a := nthZ 0 argv argc in
      if a =? 0 then kret (Some (sp, ustack)) else
      if MAXARG <=? argc then kret None else
      m <- kmem ;;
      match strlen (at_mem m a) (Z.to_nat PGSIZE) with
      | None => kfuel
      | Some n =>
          let len := Z.of_nat n + 1 in
          let sp := u64 (sp - len) in
          let sp := sp - sp mod 16 in
          if sp <? stackbase then kret None else
          r <- zoom (copyout pagetable sp (rdbytes m a (Z.to_nat len))) ;;
          if r <? 0 then kret None
          else push_args fuel pagetable stackbase argv (argc + 1) sp (ustack ++ [sp])
      end
  end.

(** The [bad] label. *)
Definition exec_bad (pid pagetable sz ip : Z) : P Z :=
  kwhen (negb (pagetable =? 0)) (proc_freepagetable pagetable sz) >>
  kwhen (negb (ip =? null)) (onfs (iunlockput pid ip) >> op_end) >>
  kret (-1).

(** From [p = myproc()] on: the stack, the arguments, and the commitment. *)
Definition exec_stack (path : Z) (argv : list Z) (e : elfhdr) (pagetable sz : Z) : P Z :=
  p <- myproc ;;
  q <- get_proc p ;;
  let oldsz := p_sz q in
  let sz := PGROUNDUP sz in
  sz1 <- zoom (uvmalloc pagetable sz (u64 (sz + 2 * PGSIZE)) PTE_W) ;;
  if sz1 =? 0 then exec_bad (p_pid q) pagetable sz null else
  let sz := sz1 in
  zoom (uvmclear pagetable (u64 (sz - 2 * PGSIZE))) >>
  let stackbase := u64 (sz - PGSIZE) in
  a <- push_args (S (S (Z.to_nat MAXARG))) pagetable stackbase argv 0 sz [] ;;
  match a with
  | None => exec_bad (p_pid q) pagetable sz null
  | Some (sp, ustack) =>
      let argc := Z.of_nat (length ustack) in
      let ustack := ustack ++ [0] in
      let sp := u64 (sp - (argc + 1) * 8) in
      let sp := sp - sp mod 16 in
      if sp <? stackbase then exec_bad (p_pid q) pagetable sz null else
      r <- zoom (copyout pagetable sp (words_bytes ustack)) ;;
      if r <? 0 then exec_bad (p_pid q) pagetable sz null else
      tf_store p (TF_a 1) sp >>
      m <- kmem ;;
      let last := last_elem (Z.to_nat MAXPATH) m path path in
      upd_proc p (fun q => set_name (safestrcpy_l (p_name q) (rdbytes m last 16) 0 16) q) >>
      let oldpagetable := p_pagetable q in
      upd_proc p (set_pagetable pagetable) >>
      upd_proc p (set_sz sz) >>
      tf_store p TF_epc (elf_entry e) >>
      tf_store p TF_sp sp >>
      proc_freepagetable oldpagetable oldsz >>
      kret argc
  end.

Definition exec (path : Z) (argv : list Z) : P Z :=
  p <- myproc ;;
  q <- get_proc p ;;
  op_begin >>
  ip <- onfs (namei (p_pagetable q) (p_pid q) (p_cwd q) de path name) ;;
  if ip =? null then op_end >> kret (-1) else
  onfs (ilock (p_pid q) ip) >>
  r <- onfs (readi 0 ip false elf 0 ELFHDR_SIZE) ;;
  if negb (r =? ELFHDR_SIZE) then exec_bad (p_pid q) 0 0 ip else
  m <- kmem ;;
  let e := get_elfhdr m elf in
  if negb (elf_magic e =? ELF_MAGIC) then exec_bad (p_pid q) 0 0 ip else
  pagetable <- proc_pagetable p ;;
  if pagetable =? 0 then exec_bad (p_pid q) 0 0 ip else
  ' (sz, done) <- load_loop (Z.to_nat (elf_phnum e)) pagetable ip (i32 (elf_phoff e)) 0 ;;
  if negb done then exec_bad (p_pid q) pagetable sz ip else
  onfs (iunlockput (p_pid q) ip) >>
  op_end >>
  exec_stack path argv e pagetable sz.
End exec.
