(* ===== verification/Sysfile.v ===== *)
(** * kernel/sysfile.c: the file system calls

    The local arrays [name], [path] (or [old]), [new] and [de] of the
    handlers, and the string constants "." and "..", are at addresses of
    kernel memory that are parameters, as are the device switch and the
    contents of an uninitialised [struct stat]. *)

From S2P Require Import Prelude Riscv Spinlock Sleeplock Mem CString Kalloc Vm Block Uart Console Printf BufCache TxnDisk Fs File Proc Syscall FileSys Exec.

Definition bit (x f : Z) : bool := negb (Z.land x f =? 0).

Section inodes.
Context {T : Type} `{TD : TxnDisk T}.
Variables pagetable mypid cwd : Z.   (* of myproc() *)
Variables de name : Z.
Variables dot dotdot : Z.            (* the constants "." and ".." *)
Abbreviation F := (K (fsys T)).

Definition dtype (ip : Z) : F Z := i <- get_inode ip ;; kret (d_type (i_d i)).
Definition upd_nlink (ip : Z) (f : Z -> Z) : F unit := upd_d ip (fun d => set_nlink (i16 (f (d_nlink d))) d).

(** [for(off=2*sizeof(de); off<dp->size; off+=sizeof(de))] *)
Fixpoint isdirempty_loop (fuel : nat) (dp off : Z) : F bool :=
  match fuel with
  | O => kfuel
  | S fuel =>
      i <- get_inode dp ;;
      if u32 off <? d_size (i_d i) then
        r <- readi pagetable dp false de (u32 off) DIRENT_SIZE ;;
        if negb (r =? DIRENT_SIZE) then kpanic "isdirempty: readi" else
        m <- fmem ;;
        if negb (ld16 m de =? 0) then kret false
        else isdirempty_loop fuel dp (i32 (off + DIRENT_SIZE))
      else kret true
  end.

Definition isdirempty (dp : Z) : F bool :=
  i <- get_inode dp ;;
  isdirempty_loop (Z.to_nat (d_size (i_d i) / DIRENT_SIZE + 2)) dp (2 * DIRENT_SIZE).

(** The [fail] label of [create]. *)
Definition create_fail (ip dp : Z) : F Z :=
  upd_nlink ip (fun _ => 0) >>
  iupdate ip >>
  iunlockput mypid ip >>
  iunlockput mypid dp >>
  kret null.

Definition create (path type major minor : Z) : F Z :=
  dp <- nameiparent pagetable mypid cwd de path name ;;
  if dp =? null then kret null else
  ilock mypid dp >>
  ' (ip, _) <- dirlookup pagetable de dp name ;;
  if negb (ip =? null) then
    iunlockput mypid dp >>
    ilock mypid ip >>
    t <- dtype ip ;;
    if ((type =? T_FILE) && ((t =? T_FILE) || (t =? T_DEVICE)))%bool then kret ip
    else iunlockput mypid ip >> kret null
  else
  d <- get_inode dp ;;
  ip <- ialloc (i_dev d) type ;;
  if ip =? null then iunlockput mypid dp >> kret null else
  ilock mypid ip >>
  upd_d ip (fun d => Dinode (d_type d) major minor 1 (d_size d) (d_addrs d)) >>
  iupdate ip >>
  i <- get_inode ip ;;
  ok <- (if type =? T_DIR then
           r <- dirlink pagetable mypid de ip dot (i_inum i) ;;
           if r <? 0 then kret false else
           r <- dirlink pagetable mypid de ip dotdot (i_inum d) ;;
           kret (negb (r <? 0))
         else kret true) ;;
  if negb ok then create_fail ip dp else
  r <- dirlink pagetable mypid de dp name (i_inum i) ;;
  if r <? 0 then create_fail ip dp else
  kwhen (type =? T_DIR) (upd_nlink dp (fun n => n + 1) >> iupdate dp) >>
  iunlockput mypid dp >>
  kret ip.
End inodes.

Section sysfile.
Context {T : Type} `{TD : TxnDisk T} `{L : Layout}.
Variables de name lit elf ph path new dot dotdot : Z.
Variable stpad : bytes.
Variable devsw_read : Z -> option (Z -> Z -> K (fls T) Z).
Variable devsw_write : Z -> option (Z -> Z -> K (fls T) Z).
#[local] Instance FO : FileOps (fls T) := file_ops de name lit.
Abbreviation P := (K (prs (fls T))).

Definition fl {A} (m : K (fls T) A) : P A := zoom m.

(** [p->ofile[fd] = f], for [p = myproc()] *)
Definition set_fd (fd f : Z) : P unit :=
  p <- myproc ;; upd_proc p (fun q => set_ofile (updZ (p_ofile q) fd f) q).

(** The descriptor and the file, or [None] for the result [-1]. *)
Definition argfd (n : Z) : P (option (Z * Z)) :=
  fd <- argint n ;;
  q <- mine ;;
  if ((fd <? 0) || (NOFILE <=? fd))%bool then kret None else
  let f := nthZ null (p_ofile q) fd in
  if f =? null then kret None else kret (Some (fd, f)).

(** [for(fd = 0; fd < NOFILE; fd++)] *)
Fixpoint fdalloc_scan (n : nat) (l : list Z) (fd : Z) : Z :=
  match n with
  | O => -1
  | S n => if nthZ null l fd =? null then fd else fdalloc_scan n l (fd + 1)
  end.

Definition fdalloc (f : Z) : P Z :=
  q <- mine ;;
  let fd := fdalloc_scan (Z.to_nat NOFILE) (p_ofile q) 0 in
  if fd <? 0 then kret (-1) else set_fd fd f >> kret fd.

Definition sys_dup : P Z :=
  a <- argfd 0 ;;
  match a with
  | None => kret (-1)
  | Some (_, f) =>
      fd <- fdalloc f ;;
      if fd <? 0 then kret (-1) else
      fl (filedup f) >>
      kret fd
  end.

Definition sys_read : P Z :=
  p <- argaddr 1 ;;
  n <- argint 2 ;;
  a <- argfd 0 ;;
  match a with
  | None => kret (-1)
  | Some (_, f) =>
      q <- mine ;;
      fl (fileread (p_pagetable q) (p_pid q) (negb (p_killed q =? 0)) devsw_read f p n)
  end.

Definition sys_write : P Z :=
  p <- argaddr 1 ;;
  n <- argint 2 ;;
  a <- argfd 0 ;;
  match a with
  | None => kret (-1)
  | Some (_, f) =>
      q <- mine ;;
      fl (filewrite (p_pagetable q) (p_pid q) (negb (p_killed q =? 0)) devsw_write f p n)
  end.

Definition sys_close : P Z :=
  a <- argfd 0 ;;
  match a with
  | None => kret (-1)
  | Some (fd, f) =>
      set_fd fd null >>
      q <- mine ;;
      fl (fileclose (p_pid q) f) >>
      kret 0
  end.

Definition sys_fstat : P Z :=
  st <- argaddr 1 ;;
  a <- argfd 0 ;;
  match a with
  | None => kret (-1)
  | Some (_, f) =>
      q <- mine ;;
      fl (filestat (p_pagetable q) (p_pid q) stpad f st)
  end.

(** The [bad] label of [sys_link]. *)
Definition link_bad (pid ip : Z) : P Z :=
  onfs (ilock pid ip) >>
  onfs (upd_nlink ip (fun n => n - 1)) >>
  onfs (iupdate ip) >>
  onfs (iunlockput pid ip) >>
  op_end >>
  kret (-1).

Definition sys_link : P Z :=
  n <- argstr 0 path MAXPATH ;;
  if n <? 0 then kret (-1) else
  n <- argstr 1 new MAXPATH ;;
  if n <? 0 then kret (-1) else
  q <- mine ;;
  let pid := p_pid q in
  op_begin >>
  ip <- onfs (namei (p_pagetable q) pid (p_cwd q) de path name) ;;
  if ip =? null then op_end >> kret (-1) else
  onfs (ilock pid ip) >>
  t <- onfs (dtype ip) ;;
  if t =? T_DIR then onfs (iunlockput pid ip) >> op_end >> kret (-1) else
  onfs (upd_nlink ip (fun n => n + 1)) >>
  onfs (iupdate ip) >>
  onfs (iunlock pid ip) >>
  dp <- onfs (nameiparent (p_pagetable q) pid (p_cwd q) de new name) ;;
  if dp =? null then link_bad pid ip else
  onfs (ilock pid dp) >>
  d <- onfs (get_inode dp) ;;
  i <- onfs (get_inode ip) ;;
  r <- (if negb (i_dev d =? i_dev i) then kret (-1)
        else onfs (dirlink (p_pagetable q) pid de dp name (i_inum i))) ;;
  if r <? 0 then onfs (iunlockput pid dp) >> link_bad pid ip else
  onfs (iunlockput pid dp) >>
  onfs (iput pid ip) >>
  op_end >>
  kret 0.

(** The [bad] label of [sys_unlink]. *)
Definition unlink_bad (pid dp : Z) : P Z :=
  onfs (iunlockput pid dp) >> op_end >> kret (-1).

Definition sys_unlink : P Z :=
  n <- argstr 0 path MAXPATH ;;
  if n <? 0 then kret (-1) else
  q <- mine ;;
  let pid := p_pid q in
  op_begin >>
  dp <- onfs (nameiparent (p_pagetable q) pid (p_cwd q) de path name) ;;
  if dp =? null then op_end >> kret (-1) else
  onfs (ilock pid dp) >>
  m <- onfs fmem ;;
  if ((namecmp (at_mem m name) (at_mem m dot) =? 0) || (namecmp (at_mem m name) (at_mem m dotdot) =? 0))%bool
  then unlink_bad pid dp else
  ' (ip, off) <- onfs (dirlookup (p_pagetable q) de dp name) ;;
  if ip =? null then unlink_bad pid dp else
  onfs (ilock pid ip) >>
  i <- onfs (get_inode ip) ;;
  if d_nlink (i_d i) <? 1 then kpanic "unlink: nlink < 1" else
  let isdir := d_type (i_d i) =? T_DIR in
  e <- (if isdir then onfs (isdirempty (p_pagetable q) de ip) else kret true) ;;
  if negb e then onfs (iunlockput pid ip) >> unlink_bad pid dp else
  onfs (set_fmem (fun m => memset m de 0 DIRENT_SIZE)) >>
  r <- onfs (writei (p_pagetable q) dp false de off DIRENT_SIZE) ;;
  if negb (r =? DIRENT_SIZE) then kpanic "unlink: writei" else
  kwhen isdir (onfs (upd_nlink dp (fun n => n - 1)) >> onfs (iupdate dp)) >>
  onfs (iunlockput pid dp) >>
  onfs (upd_nlink ip (fun n => n - 1)) >>
  onfs (iupdate ip) >>
  onfs (iunlockput pid ip) >>
  op_end >>
  kret 0.

(** The call of [create] in process [q]. *)
Definition do_create (q : proc) (type major minor : Z) : P Z :=
  onfs (create (p_pagetable q) (p_pid q) (p_cwd q) de name dot dotdot path type major minor).

(** The inode to open, locked, or [null] after the early returns. *)
Definition open_inode (q : proc) (omode : Z) : P Z :=
  if bit omode O_CREATE then
    ip <- do_create q T_FILE 0 0 ;;
    if ip =? null then op_end >> kret null else kret ip
  else
    ip <- onfs (namei (p_pagetable q) (p_pid q) (p_cwd q) de path name) ;;
    if ip =? null then op_end >> kret null else
    onfs (ilock (p_pid q) ip) >>
    t <- onfs (dtype ip) ;;
    if ((t =? T_DIR) && negb (omode =? O_RDONLY))%bool then
      onfs (iunlockput (p_pid q) ip) >> op_end >> kret null
    else kret ip.

(** The fields [sys_open] fills in. *)
Definition opened (i : inode) (ip omode : Z) (f : file) : file :=
  let f :=
    if d_type (i_d i) =? T_DEVICE
    then File FD_DEVICE (f_ref f) (f_readable f) (f_writable f) (f_pipe f) (f_ip f) (f_off f) (d_major (i_d i))
    else File FD_INODE (f_ref f) (f_readable f) (f_writable f) (f_pipe f) (f_ip f) 0 (f_major f) in
  File (f_type f) (f_ref f) (negb (bit omode O_WRONLY)) (bit omode O_WRONLY || bit omode O_RDWR)
    (f_pipe f) ip (f_off f) (f_major f).

Definition open_fail (pid f ip : Z) : P Z :=
  kwhen (negb (f =? null)) (fl (fileclose pid f)) >>
  onfs (iunlockput pid ip) >>
  op_end >>
  kret (-1).

Definition sys_open : P Z :=
  omode <- argint 1 ;;
  n <- argstr 0 path MAXPATH ;;
  if n <? 0 then kret (-1) else
  q <- mine ;;
  let pid := p_pid q in
  op_begin >>
  ip <- open_inode q omode ;;
  if ip =? null then kret (-1) else
  i <- onfs (get_inode ip) ;;
  if ((d_type (i_d i) =? T_DEVICE) && ((d_major (i_d i) <? 0) || (NDEV <=? d_major (i_d i))))%bool then
    onfs (iunlockput pid ip) >> op_end >> kret (-1)
  else
  f <- fl filealloc ;;
  if f =? null then open_fail pid f ip else
  fd <- fdalloc f ;;
  if fd <? 0 then open_fail pid f ip else
  fl (upd_file f (opened i ip omode)) >>
  kwhen (bit omode O_TRUNC && (d_type (i_d i) =? T_FILE)) (onfs (itrunc ip)) >>
  onfs (iunlock pid ip) >>
  op_end >>
  kret fd.

Definition sys_mkdir : P Z :=
  op_begin >>
  n <- argstr 0 path MAXPATH ;;
  if n <? 0 then op_end >> kret (-1) else
  q <- mine ;;
  ip <- do_create q T_DIR 0 0 ;;
  if ip =? null then op_end >> kret (-1) else
  onfs (iunlockput (p_pid q) ip) >>
  op_end >>
  kret 0.

(** [major] and [minor] are passed as [short]. *)
Definition sys_mknod : P Z :=
  op_begin >>
  major <- argint 1 ;;
  minor <- argint 2 ;;
  n <- argstr 0 path MAXPATH ;;
  if n <? 0 then op_end >> kret (-1) else
  q <- mine ;;
  ip <- do_create q T_DEVICE (i16 major) (i16 minor) ;;
  if ip =? null then op_end >> kret (-1) else
  onfs (iunlockput (p_pid q) ip) >>
  op_end >>
  kret 0.

Definition sys_chdir : P Z :=
  p <- myproc ;;
  op_begin >>
  n <- argstr 0 path MAXPATH ;;
  if n <? 0 then op_end >> kret (-1) else
  q <- get_proc p ;;
  ip <- onfs (namei (p_pagetable q) (p_pid q) (p_cwd q) de path name) ;;
  if ip =? null then op_end >> kret (-1) else
  onfs (ilock (p_pid q) ip) >>
  t <- onfs (dtype ip) ;;
  if negb (t =? T_DIR) then
    onfs (iunlockput (p_pid q) ip) >> op_end >> kret (-1)
  else
  onfs (iunlock (p_pid q) ip) >>
  onfs (iput (p_pid q) (p_cwd q)) >>
  op_end >>
  upd_proc p (set_cwd ip) >>
  kret 0.

(** [for(i = 0; i < NELEM(argv) && argv[i] != 0; i++) kfree(argv[i]);] *)
Fixpoint free_argv (argv : list Z) : P unit :=
  match argv with
  | [] => kret tt
  | a :: argv => if a =? 0 then kret tt else zoom (kfree a) >> free_argv argv
  end.

(** [for(i=0;; i++)]: the pages of [argv] so far, and whether the null
    pointer that ends the array was reached. *)
Fixpoint fetch_argv (n : nat) (uargv i : Z) (argv : list Z) : P (list Z * bool) :=
  match n with
  | O => kret (argv, false)
  | S n =>
      uarg <- fetchaddr (u64 (uargv + 8 * i)) ;;
      match uarg with
      | None => kret (argv, false)
      | Some uarg =>
          if uarg =? 0 then kret (argv, true) else
          a <- zoom kalloc ;;
          if a =? 0 then kret (argv, false) else
          r <- fetchstr uarg a PGSIZE ;;
          if r <? 0 then kret (argv ++ [a], false)
          else fetch_argv n uargv (i + 1) (argv ++ [a])
      end
  end.

Definition sys_exec : P Z :=
  uargv <- argaddr 1 ;;
  n <- argstr 0 path MAXPATH ;;
  if n <? 0 then kret (-1) else
  ' (argv, ok) <- fetch_argv (Z.to_nat MAXARG) uargv 0 [] ;;
  if (ok : bool) then
    ret <- exec de name lit elf ph path argv ;;
    free_argv argv >>
    kret ret
  else
    free_argv argv >>
    kret (-1).

(** The end of the error paths of [sys_pipe]. *)
Definition sys_pipe_fail (pid rf wf : Z) : P Z :=
  fl (fileclose pid rf) >> fl (fileclose pid wf) >> kret (-1).

Definition sys_pipe : P Z :=
  q <- mine ;;
  let pid := p_pid q in
  fdarray <- argaddr 0 ;;
  ' (r, rf, wf) <- fl (pipealloc pid) ;;
  if r <? 0 then kret (-1) else
  fd0 <- fdalloc rf ;;
  if fd0 <? 0 then sys_pipe_fail pid rf wf else
  fd1 <- fdalloc wf ;;
  if fd1 <? 0 then set_fd fd0 null >> sys_pipe_fail pid rf wf else
  r <- zoom (copyout (p_pagetable q) fdarray (int_bytes fd0)) ;;
  r <- (if r <? 0 then kret r else zoom (copyout (p_pagetable q) (u64 (fdarray + 4)) (int_bytes fd1))) ;;
  if r <? 0 then
    set_fd fd0 null >>
    set_fd fd1 null >>
    sys_pipe_fail pid rf wf
  else kret 0.
End sysfile.
