(* ===== verification/Sysproc.v ===== *)
(** * kernel/sysproc.c: the process system calls

    [swtch] is the parameter of proc.c; a call of [wait] or [sleep] that has
    to wait more than [fuel] times is cut off. *)

From S2P Require Import Prelude Riscv Spinlock Sleeplock Mem CString Kalloc Vm Block Uart Console Printf Proc Syscall.

Definition tickslock : lockid := ("time", 0).
(** The channel [&ticks]. *)
Definition ticks_chan : Z := 0x200000.

Section sysproc.
Context {F : Type} `{FO : FileOps F} `{L : Layout}.
Variable swtch : K (prs F) unit.
Variable forkret_addr : Z.
Variable fuel : nat.
Abbreviation P := (K (prs F)).

Definition sys_exit : P Z := n <- argint 0 ;; exit swtch n.

Definition sys_getpid : P Z := q <- mine ;; kret (p_pid q).

Definition sys_fork : P Z := fork forkret_addr.

Definition sys_wait : P Z := p <- argaddr 0 ;; wait swtch fuel p.

Definition sys_sbrk : P Z :=
  n <- argint 0 ;;
  q <- mine ;;
  let addr := p_sz q in
  r <- growproc n ;;
  if r <? 0 then kret (-1) else kret addr.

(** [while(ticks - ticks0 < n)]: a comparison of unsigned numbers. *)
Fixpoint sleep_loop (fuel : nat) (ticks0 n : Z) : P Z :=
  match fuel with
  | O => kfuel
  | S fuel =>
      ticks <- kgets r_ticks ;;
      if u32 (ticks - ticks0) <? u32 n then
        p <- myproc ;;
        k <- killed p ;;
        if negb (k =? 0) then zoom (release tickslock) >> kret (-1)
        else
          sleep swtch ticks_chan tickslock >>
          sleep_loop fuel ticks0 n
      else zoom (release tickslock) >> kret 0
  end.

Definition sys_sleep : P Z :=
  n <- argint 0 ;;
  zoom (acquire tickslock) >>
  ticks0 <- kgets r_ticks ;;
  sleep_loop fuel ticks0 n.

Definition sys_pgaccess : P Z := kret 0.

Definition sys_kill : P Z := pid <- argint 0 ;; kill pid.

Definition sys_uptime : P Z :=
  zoom (acquire tickslock) >>
  xticks <- kgets r_ticks ;;
  zoom (release tickslock) >>
  kret xticks.

Definition sys_trace : P Z := mask <- argint 0 ;; trace mask.

(** The 16 bytes of a [struct sysinfo]. *)
Definition sysinfo_bytes (freemem nproc : Z) : bytes :=
  putn (replicate 8 0) 0 8 freemem ++ putn (replicate 8 0) 0 8 nproc.

Definition sys_sysinfo : P Z :=
  p <- argaddr 0 ;;
  ' (freemem, nproc) <- sysinfo ;;
  q <- mine ;;
  r <- zoom (copyout (p_pagetable q) p (sysinfo_bytes freemem nproc)) ;;
  if r <? 0 then kret (-1) else kret 0.
End sysproc.
