(* ===== verification/Systable.v ===== *)
(** * The table of system calls (kernel/syscall.c), with the handlers of
    sysproc.c and sysfile.c in it, and what the dispatcher does with it *)

From S2P Require Import Prelude Riscv Spinlock Sleeplock Mem CString Kalloc Vm Block Uart Console Printf BufCache TxnDisk Fs File Proc Syscall FileSys Exec Sysfile Sysproc.

Section table.
Context {T : Type} `{TD : TxnDisk T} `{L : Layout}.
Variables de name lit elf ph path new dot dotdot : Z.
Variable stpad : bytes.
Variable devsw_read : Z -> option (Z -> Z -> K (fls T) Z).
Variable devsw_write : Z -> option (Z -> Z -> K (fls T) Z).
Variable swtch : K (prs (fls T)) unit.
Variable forkret_addr : Z.
Variable fuel : nat.
#[local] Instance FO : FileOps (fls T) := file_ops de name lit.
Abbreviation P := (K (prs (fls T))).

(** [syscalls]; entries 0 and 24 to 29 are null. *)
Definition syscalls (num : Z) : option (P Z) :=
  if num =? SYS_fork then Some (sys_fork forkret_addr)
  else if num =? SYS_exit then Some (sys_exit swtch)
  else if num =? SYS_wait then Some (sys_wait swtch fuel)
  else if num =? SYS_pipe then Some (sys_pipe de name lit)
  else if num =? SYS_read then Some (sys_read de name lit devsw_read)
  else if num =? SYS_kill then Some sys_kill
  else if num =? SYS_exec then Some (sys_exec de name lit elf ph path)
  else if num =? SYS_fstat then Some (sys_fstat de name lit stpad)
  else if num =? SYS_chdir then Some (sys_chdir de name lit path)
  else if num =? SYS_dup then Some (sys_dup de name lit)
  else if num =? SYS_getpid then Some sys_getpid
  else if num =? SYS_sbrk then Some sys_sbrk
  else if num =? SYS_sleep then Some (sys_sleep swtch fuel)
  else if num =? SYS_uptime then Some sys_uptime
  else if num =? SYS_open then Some (sys_open de name lit path dot dotdot)
  else if num =? SYS_write then Some (sys_write de name lit devsw_write)
  else if num =? SYS_mknod then Some (sys_mknod de name lit path dot dotdot)
  else if num =? SYS_unlink then Some (sys_unlink de name lit path dot dotdot)
  else if num =? SYS_link then Some (sys_link de name lit path new)
  else if num =? SYS_mkdir then Some (sys_mkdir de name lit path dot dotdot)
  else if num =? SYS_close then Some (sys_close de name lit)
  else if num =? SYS_trace then Some sys_trace
  else if num =? SYS_sysinfo then Some sys_sysinfo
  else if num =? SYS_pgaccess then Some sys_pgaccess
  else None.

(** The system call handler of the kernel. *)
Definition syscall : P unit := Syscall.syscall syscalls.
End table.
