(* ===== verification/FdView.v ===== *)
(** * Descriptors and the reference counts of open files

    What the reference counts depend on: for each process its state and its
    descriptors, for each open file its count and its type.  [fd_ok d v]
    says that the count of every file is the number of descriptors that
    refer to it, plus [d f] references that code in progress holds. *)

From S2P Require Import Prelude Riscv Keeps Proc File.
From S2P Require Fs.

Abbreviation null := Fs.null.

Record fview := Fview {
  v_procs : list (procstate * list Z);
  v_files : list (Z * filetype);
}.

Definition proc_v0 : procstate * list Z := (UNUSED, replicate (Z.to_nat NOFILE) null).
Definition file_v0 : Z * filetype := (0, FD_NONE).

(** How often [f] occurs among the descriptors of one process, of all. *)
Definition occ (f : Z) (l : list Z) : Z := Z.of_nat (count_occ Z.eq_dec l f).
Fixpoint nrefs (f : Z) (l : list (procstate * list Z)) : Z :=
  match l with
  | [] => 0
  | q :: l => occ f q.2 + nrefs f l
  end.

Definition one (f : Z) : Z -> Z := fun g => if g =? f then 1 else 0.

Definition idle (s : procstate) : Prop := s = UNUSED \/ s = ZOMBIE.
Definition closed (l : list Z) : Prop := forall fd, nthZ null l fd = null.
Definition fd_range (f : Z) : Prop := f = null \/ 0 <= f < NFILE.

Record fd_ok (d : Z -> Z) (v : fview) : Prop := {
  fo_nproc : length (v_procs v) = Z.to_nat NPROC;
  fo_nfd : forall p, 0 <= p < Z.of_nat (length (v_procs v)) -> length (nthZ proc_v0 (v_procs v) p).2 = Z.to_nat NOFILE;
  fo_nfile : length (v_files v) = Z.to_nat NFILE;
  fo_range : forall p fd, fd_range (nthZ null (nthZ proc_v0 (v_procs v) p).2 fd);
  fo_ref : forall f, 0 <= f < NFILE -> (nthZ file_v0 (v_files v) f).1 = nrefs f (v_procs v) + d f;
  fo_free : forall f, 0 <= f < NFILE -> (nthZ file_v0 (v_files v) f).1 = 0 -> (nthZ file_v0 (v_files v) f).2 = FD_NONE;
  fo_idle : forall p, idle (nthZ proc_v0 (v_procs v) p).1 -> closed (nthZ proc_v0 (v_procs v) p).2;
}.

Definition fd_ok0 : fview -> Prop := fd_ok (fun _ => 0).

(** ** Counting *)

Lemma occ_cons f x l : occ f (x :: l) = one x f + occ f l.
Proof. unfold occ, one. cbn. destruct (Z.eq_dec x f), (f =? x) eqn:E; zbool; subst; lia. Qed.

Lemma occ_updZ f l i x :
  0 <= i < Z.of_nat (length l) -> occ f (updZ l i x) = occ f l - one (nthZ null l i) f + one x f.
Proof.
  revert i. induction l as [| y l IH]; intros i Hi; cbn in Hi; [lia |].
  destruct (decide (i = 0)) as [-> |].
  - rewrite updZ_cons_0, !occ_cons, nthZ_hd. lia.
  - rewrite updZ_cons_S, !occ_cons, nthZ_cons, IH by lia. lia.
Qed.

Lemma nrefs_updZ f l p q :
  0 <= p < Z.of_nat (length l) -> nrefs f (updZ l p q) = nrefs f l - occ f (nthZ proc_v0 l p).2 + occ f q.2.
Proof.
  revert p. induction l as [| y l IH]; intros p Hp; cbn in Hp; [lia |].
  destruct (decide (p = 0)) as [-> |].
  - rewrite updZ_cons_0, nthZ_hd. cbn [nrefs]. lia.
  - rewrite updZ_cons_S, nthZ_cons by lia. cbn [nrefs]. rewrite IH by lia. lia.
Qed.

Lemma occ_pos f l fd : 0 <= fd < Z.of_nat (length l) -> nthZ null l fd = f -> 1 <= occ f l.
Proof.
  revert fd. induction l as [| y l IH]; intros fd Hfd E; cbn in Hfd; [lia |]. rewrite occ_cons.
  assert (0 <= occ f l) by (unfold occ; lia). destruct (decide (fd = 0)) as [-> |].
  - rewrite nthZ_hd in E. subst. unfold one. rewrite Z.eqb_refl. lia.
  - rewrite nthZ_cons in E by lia. assert (0 <= one y f) by (unfold one; case_if; lia).
    assert (1 <= occ f l) by (apply (IH (fd - 1)); [lia | done]). lia.
Qed.

Lemma nrefs_nonneg f l : 0 <= nrefs f l.
Proof. induction l; cbn; unfold occ in *; lia. Qed.

Lemma nrefs_pos f l p fd :
  0 <= p < Z.of_nat (length l) -> 0 <= fd < Z.of_nat (length (nthZ proc_v0 l p).2) ->
  nthZ null (nthZ proc_v0 l p).2 fd = f -> 1 <= nrefs f l.
Proof.
  revert p. induction l as [| y l IH]; intros p Hp Hfd E; cbn in Hp; [lia |]. cbn [nrefs].
  pose proof (nrefs_nonneg f l). assert (0 <= occ f y.2) by (unfold occ; lia). destruct (decide (p = 0)) as [-> |].
  - rewrite nthZ_hd in *. pose proof (occ_pos f y.2 fd Hfd E). lia.
  - rewrite nthZ_cons in * by lia. assert (1 <= nrefs f l) by (apply (IH (p - 1)); [lia | done..]). lia.
Qed.

(** ** Changes of one process, of one file *)

Definition put_proc (p : Z) (q : procstate * list Z) (v : fview) : fview := Fview (updZ (v_procs v) p q) (v_files v).
Definition put_file (f : Z) (e : Z * filetype) (v : fview) : fview := Fview (v_procs v) (updZ (v_files v) f e).
Definition proc_of (v : fview) (p : Z) : procstate * list Z := nthZ proc_v0 (v_procs v) p.
Definition file_of (v : fview) (f : Z) : Z * filetype := nthZ file_v0 (v_files v) f.
Definition fd_of (v : fview) (p fd : Z) : Z := nthZ null (proc_of v p).2 fd.
Definition is_proc (v : fview) (p : Z) : Prop := 0 <= p < Z.of_nat (length (v_procs v)).

Lemma fd_proc d d' v p q :
  fd_ok d v -> is_proc v p -> length q.2 = Z.to_nat NOFILE -> (forall fd, fd_range (nthZ null q.2 fd)) ->
  (idle q.1 -> closed q.2) ->
  (forall f, 0 <= f < NFILE -> d' f = d f + occ f (proc_of v p).2 - occ f q.2) -> fd_ok d' (put_proc p q v).
Proof.
  intros [H0 H1 H2 H3 H4 H5 H6] Hp Hl Hr Hi Hd. unfold is_proc in Hp. split; cbn [v_procs v_files put_proc].
  - by rewrite length_updZ.
  - intros j Hj. rewrite length_updZ in Hj. rewrite nthZ_updZ by done. case_if; auto.
  - done.
  - intros j fd. rewrite nthZ_updZ by done. case_if; auto.
  - intros f Hf. rewrite nrefs_updZ, H4, Hd by done. unfold proc_of. lia.
  - done.
  - intros j. rewrite nthZ_updZ by done. case_if; auto.
Qed.

Lemma fd_put d d' v p fd x :
  fd_ok d v -> is_proc v p -> 0 <= fd < NOFILE -> fd_range x -> (idle (proc_of v p).1 -> x = null) ->
  (forall f, 0 <= f < NFILE -> d' f = d f + one (fd_of v p fd) f - one x f) ->
  fd_ok d' (put_proc p ((proc_of v p).1, updZ (proc_of v p).2 fd x) v).
Proof.
  intros Hv Hp Hfd Hx Hi Hd. pose proof (fo_nfd _ _ Hv p Hp) as Hl. fold (proc_of v p) in Hl.
  assert (Hfd' : 0 <= fd < Z.of_nat (length (proc_of v p).2)) by lia. eapply fd_proc; [done | done | ..]; cbn [fst snd].
  - by rewrite length_updZ.
  - intros j. rewrite nthZ_updZ by done. case_if; [done | apply (fo_range _ _ Hv)].
  - intros Hid j. rewrite nthZ_updZ by done. case_if; [auto | by apply (fo_idle _ _ Hv)].
  - intros f Hf. rewrite Hd, occ_updZ by done. unfold fd_of. lia.
Qed.

Lemma fd_state d v p st :
  fd_ok d v -> (idle st -> closed (proc_of v p).2) -> fd_ok d (put_proc p (st, (proc_of v p).2) v).
Proof.
  intros Hv Hi. destruct (decide (0 <= p < Z.of_nat (length (v_procs v)))) as [Hp |].
  - eapply fd_proc; [done | done | by apply (fo_nfd _ _ Hv) | apply (fo_range _ _ Hv) | done |]. intros. cbn. lia.
  - unfold put_proc. rewrite updZ_out by done. by destruct v.
Qed.

Lemma fd_file d d' v f e :
  fd_ok d v -> 0 <= f < NFILE -> (e.1 = 0 -> e.2 = FD_NONE) ->
  (forall g, 0 <= g < NFILE -> d' g = d g + (if g =? f then e.1 - (file_of v f).1 else 0)) ->
  fd_ok d' (put_file f e v).
Proof.
  intros [H0 H1 H2 H3 H4 H5 H6] Hf He Hd.
  assert (Hl : 0 <= f < Z.of_nat (length (v_files v))) by lia. split; cbn [v_procs v_files put_file]; try done.
  - by rewrite length_updZ.
  - intros g Hg. rewrite nthZ_updZ, Hd by done. destruct (g =? f) eqn:E; zbool; subst; rewrite ?H4; unfold file_of; rewrite ?H4 by done; lia.
  - intros g Hg. rewrite nthZ_updZ by done. case_if; auto.
Qed.

(** A descriptor refers to a file that is in use. *)
Lemma fd_used v p fd :
  fd_ok0 v -> is_proc v p -> fd_of v p fd <> null ->
  0 <= fd_of v p fd < NFILE /\ 1 <= (file_of v (fd_of v p fd)).1.
Proof.
  intros Hv Hp Hne. destruct (fo_range _ _ Hv p fd) as [E | Hr]; [done |]. fold (proc_of v p) (fd_of v p fd) in Hr.
  split; [done |]. unfold file_of. rewrite (fo_ref _ _ Hv) by done. rewrite Z.add_0_r.
  apply (nrefs_pos _ _ p fd); [done | | done].
  destruct (decide (0 <= fd < Z.of_nat (length (proc_of v p).2))); [done |]. exfalso. apply Hne. unfold fd_of, nthZ.
  case_if; [done |]. zbool. apply nth_overflow. lia.
Qed.

(** [d] only matters on the table. *)
Lemma fd_ok_ext d d' v : fd_ok d v -> (forall f, 0 <= f < NFILE -> d' f = d f) -> fd_ok d' v.
Proof. intros [] Hd. split; try done. intros f Hf. rewrite Hd by done. auto. Qed.
