(* ===== verification/FdFile.v ===== *)
(** * The operations of file.c on the reference counts *)

From S2P Require Import Prelude Riscv Spinlock Sleeplock Mem CString Kalloc Vm Block BufCache TxnDisk Keeps Fs File FdView.
From S2P Require Pipe Proc.

Lemma spec_acquire {S} `{Lens S locks} l (s : S) Q Z : (forall h, Q tt (lset h s)) -> spec (zoom (acquire l)) s Q Z.
Proof. intros HQ. apply spec_zoom. unfold spec, acquire. by case_if. Qed.
Lemma spec_release {S} `{Lens S locks} l (s : S) Q Z : (forall h, Q tt (lset h s)) -> spec (zoom (release l)) s Q Z.
Proof. intros HQ. apply spec_zoom. unfold spec, release. by case_if. Qed.

Lemma awake_acquire l : awake (acquire l).
Proof. intros h c h'. unfold acquire. by case_if. Qed.
Lemma awake_release l : awake (release l).
Proof. intros h c h'. unfold release. by case_if. Qed.
#[local] Hint Resolve awake_acquire awake_release : awake.

Lemma awake_kfree `{L : Layout} pa : awake (kfree pa).
Proof. unfold kfree, set_mem, set_freelist. eauto 20 with awake. Qed.
Lemma awake_kalloc : awake kalloc.
Proof. unfold kalloc, set_mem, set_freelist. eauto 20 with awake. Qed.
#[local] Hint Resolve awake_kfree awake_kalloc : awake.

Lemma awake_pipeclose `{L : Layout} lk pi w : awake (Pipe.pipeclose lk pi w).
Proof. unfold Pipe.pipeclose, Pipe.pacquire, Pipe.prelease, Pipe.set_pi, wakeup_rec. eauto 20 with awake. Qed.
Lemma awake_pipeinit lk : awake (Pipe.pipeinit lk).
Proof. unfold Pipe.pipeinit, Pipe.set_pi, initlock. eauto 20 with awake. Qed.

Definition entry (f : file) : Z * filetype := (f_ref f, f_type f).

Section files.
Context {T : Type} `{TD : TxnDisk T} `{L : Layout}.
Implicit Types (t : fls T).

Definition files_of t : list (Z * filetype) := map entry (fl_file t).

(** Leaves counts and types alone. *)
Definition quietf {A} (m : K (fls T) A) : Prop := forall l, keeps (fun t => files_of t = l) m.

Lemma file_entry t f : nthZ file_v0 (files_of t) f = entry (fat t f).
Proof. apply (nthZ_map entry file0). Qed.

Lemma files_upd t f x : files_of (set_files (updZ (fl_file t) f x) t) = updZ (files_of t) f (entry x).
Proof. apply map_updZ. Qed.

Lemma keeps_same f g l :
  (forall x, entry (g x) = entry x) -> keeps (fun t => files_of t = l) (upd_file f g).
Proof.
  intros Hg. apply keeps_mod. intros t <-. rewrite files_upd, Hg, <- file_entry. apply updZ_nthZ.
Qed.

Lemma keeps_on_pipe {A} pi (m : K Pipe.pst A) l : keeps (fun t => files_of t = l) (on_pipe pi m).
Proof. intros t Ht. unfold on_pipe. by destruct (m _). Qed.

(** ** Operations that do not count *)

Hint Resolve keeps_same keeps_on_pipe : keeps.
Hint Extern 2 (keeps _ (zoom _)) => (apply keeps_zoom; by intros ? []) : keeps.
Hint Extern 2 (keeps _ (get_file _)) => apply keeps_gets : keeps.
Ltac keep := eauto 30 with keeps.

Lemma quiet_pipe_result r : quietf (pipe_result (T := T) r).
Proof. intros l. destruct r; cbn; keep. Qed.

Lemma quiet_filestat pt pid pad f a : quietf (filestat pt pid pad f a).
Proof. intros l. unfold filestat. apply keeps_bind; [keep | intros q]. destruct (f_type q); keep. Qed.

Lemma quiet_fileread pt pid k dev f a n :
  (forall i r, dev i = Some r -> forall a n, quietf (r a n)) -> quietf (fileread pt pid k dev f a n).
Proof.
  intros Hd l. unfold fileread. apply keeps_bind; [keep | intros q]. apply keeps_if; [keep |].
  destruct (f_type q); [keep | | keep |].
  - apply keeps_bind; [keep | intros r; apply quiet_pipe_result].
  - apply keeps_if; [keep |]. destruct (dev (f_major q)) eqn:E; [by eapply Hd | keep].
Qed.

Lemma quiet_write_loop pt pid fuel f ip a i n : quietf (filewrite_loop pt pid fuel f ip a i n).
Proof.
  intros l. revert i. induction fuel as [| fuel IH]; intros i; cbn [filewrite_loop]; [keep |].
  unfold fbegin_op, fend_op. keep.
Qed.

Lemma quiet_filewrite pt pid k dev f a n :
  (forall i w, dev i = Some w -> forall a n, quietf (w a n)) -> quietf (filewrite pt pid k dev f a n).
Proof.
  intros Hd l. unfold filewrite. apply keeps_bind; [keep | intros q]. apply keeps_if; [keep |].
  destruct (f_type q); [keep | | |].
  - apply keeps_bind; [keep | intros r; apply quiet_pipe_result].
  - apply keeps_bind; [apply quiet_write_loop | keep].
  - apply keeps_if; [keep |]. destruct (dev (f_major q)) eqn:E; [by eapply Hd | keep].
Qed.

(** ** Operations that count, seen with the descriptors [pr] of all processes *)

Variable pr : list (Proc.procstate * list Z).
Definition V t : fview := Fview pr (files_of t).
(** [g] is as before. *)
Definition kept (f : Z) t t' : Prop := forall g, g <> f -> file_of (V t') g = file_of (V t) g.

Definition add (d : Z -> Z) (f : Z) : Z -> Z := fun g => d g + one f g.

Lemma V_upd t f x : V (set_files (updZ (fl_file t) f x) t) = put_file f (entry x) (V t).
Proof. unfold V, put_file. by rewrite files_upd. Qed.

Lemma kept_put t t' f e : V t' = put_file f e (V t) -> kept f t t'.
Proof. intros E g Hg. rewrite E. unfold file_of, put_file. cbn. by rewrite nthZ_updZ_ne. Qed.

Lemma filealloc_scan_free l k :
  let f := filealloc_scan l k in
  f = null \/ k <= f < k + Z.of_nat (length l) /\ f_ref (nthZ file0 l (f - k)) = 0.
Proof.
  revert k. induction l as [| x l IH]; intros k; cbn; [by left |]. case_if; zbool.
  - right. split; [lia |]. by rewrite Z.sub_diag, nthZ_hd.
  - destruct (IH (k + 1)) as [H | [H1 H2]]; [by left | right]. split; [lia |].
    rewrite nthZ_cons by lia. by replace (filealloc_scan l (k + 1) - k - 1) with (filealloc_scan l (k + 1) - (k + 1)) by lia.
Qed.

Lemma filealloc_ok d t :
  fd_ok d (V t) ->
  spec filealloc t (fun f t' =>
    f = null /\ V t' = V t \/
    0 <= f < NFILE /\ nrefs f pr + d f = 0 /\ fd_ok (add d f) (V t') /\ file_of (V t') f = (1, FD_NONE) /\ kept f t t')
    (fun _ => False).
Proof.
  intros Hv. unfold filealloc. apply spec_bind, spec_acquire. intros h. apply spec_gets.
  change (fl_file (lset h t)) with (fl_file t). destruct (filealloc_scan_free (fl_file t) 0) as [-> | [Hf Hr]].
  - cbn [negb Z.eqb null kwhen]. apply spec_bind, spec_ret. apply spec_bind, spec_release. intros h'. by left.
  - set (f := filealloc_scan (fl_file t) 0) in *. rewrite Z.sub_0_r in Hr.
    pose proof (fo_nfile _ _ Hv) as Hn. cbn in Hn. unfold files_of in Hn. rewrite length_map in Hn.
    assert (Hf' : 0 <= f < NFILE) by lia. assert (f <> null) by (unfold null; lia).
    rewrite (proj2 (Z.eqb_neq f _)) by done. cbn [negb kwhen]. apply spec_bind. unfold spec, upd_file, kmod.
    apply spec_bind, spec_release. intros h'. apply spec_ret. right.
    match goal with |- context [V ?x] => assert (Ev : V x = put_file f (1, FD_NONE) (V t)) end.
    { change (V (set_files (updZ (fl_file t) f (set_fref 1 (fat t f))) t) = put_file f (1, FD_NONE) (V t)).
      rewrite V_upd. f_equal. unfold entry. cbn. f_equal. pose proof (fo_free _ _ Hv f Hf') as H0.
      cbn [V v_files] in H0. rewrite file_entry in H0. by apply H0. }
    pose proof (fo_ref _ _ Hv f Hf') as Hrf. cbn [V v_files v_procs] in Hrf. rewrite file_entry in Hrf.
    unfold fat, entry in Hrf. cbn in Hrf. rewrite Hr in Hrf. split_and!; [lia | lia | lia | | |].
    + rewrite Ev. eapply fd_file; [done | done | done |]. intros g Hg. unfold add, one, file_of. cbn [V v_files].
      rewrite file_entry. unfold fat, entry. cbn. rewrite Hr. case_if; lia.
    + rewrite Ev. unfold file_of. cbn. rewrite nthZ_updZ_eq; [done |]. unfold files_of. rewrite length_map. lia.
    + by eapply kept_put.
Qed.

Lemma filedup_ok d f t :
  fd_ok d (V t) -> 0 <= f < NFILE ->
  spec (filedup f) t (fun f' t' => f' = f /\ fd_ok (add d f) (V t')) (fun _ => False).
Proof.
  intros Hv Hf. unfold filedup. apply spec_bind, spec_acquire. intros h. apply spec_gets.
  change (fat (lset h t) f) with (fat t f). case_if; [done |]. zbool. apply spec_bind. unfold spec, upd_file, kmod.
  apply spec_bind, spec_release. intros h'. apply spec_ret. split; [done |].
  match goal with |- context [V ?x] => assert (Ev : V x = put_file f (entry (set_fref (f_ref (fat t f) + 1) (fat t f))) (V t)) by exact (V_upd t f _) end.
  rewrite Ev. eapply fd_file; [done | done | cbn; lia |]. intros g Hg. unfold add, one, file_of. cbn [V v_files].
  rewrite file_entry. cbn. case_if; lia.
Qed.

Lemma awake_on_pipe {A} pi (m : K Pipe.pst A) : awake m -> awake (on_pipe (T := T) pi m).
Proof. intros Hm t c t'. unfold on_pipe. specialize (Hm (Pipe.Pst (f_woken (fl_fs t)) (default pipe0 (fl_pipes t !! pi)) (f_pm (fl_fs t)))). destruct (m _); try done. by destruct (Hm chan s). Qed.

(** What [fileclose] leaves of an entry. *)
Definition unref (e : Z * filetype) : Z * filetype := if 1 <? e.1 then (e.1 - 1, e.2) else (0, FD_NONE).
Definition sleepy (ty : filetype) : Prop := ty = FD_INODE \/ ty = FD_DEVICE.

Lemma fileclose_entry pid f t :
  spec (fileclose pid f) t
    (fun _ t' => 1 <= f_ref (fat t f) /\ V t' = put_file f (unref (entry (fat t f))) (V t))
    (fun t' => 1 <= f_ref (fat t f) /\ V t' = put_file f (unref (entry (fat t f))) (V t) /\ sleepy (f_type (fat t f))).
Proof.
  unfold fileclose. apply spec_bind, spec_acquire. intros h. apply spec_gets. change (fat (lset h t) f) with (fat t f).
  case_if; [done |]. zbool. set (q := fat t f) in *. apply spec_bind. unfold spec at 1, upd_file, kmod.
  unfold unref. cbn [entry fst]. destruct (0 <? f_ref q - 1) eqn:E2; zbool.
  { apply spec_release. intros h'. split; [done |]. rewrite (proj2 (Z.ltb_lt _ _)) by lia. exact (V_upd t f _). }
  rewrite (proj2 (Z.ltb_ge _ _)) by lia.
  assert (Hl : 0 <= f < Z.of_nat (length (fl_file t))).
  { destruct (decide (0 <= f < Z.of_nat (length (fl_file t)))); [done |]. exfalso.
    assert (E0 : q = file0); [| rewrite E0 in E; cbn in E; lia].
    unfold q, fat, nthZ. case_if; [done |]. zbool. apply nth_overflow. lia. }
  assert (Hff : fat (set_files (updZ (fl_file t) f (set_fref (f_ref q - 1) q)) (lset h t)) f = set_fref (f_ref q - 1) q)
    by (unfold fat; cbn; by apply nthZ_updZ_eq).
  apply spec_gets. change (fat (lset h t) f) with q. change (fl_file (lset h t)) with (fl_file t). rewrite Hff.
  apply spec_bind. unfold spec at 1. apply spec_bind. unfold spec at 1. apply spec_bind, spec_release. intros h'.
  cbn [set_fref f_type f_pipe f_writable f_ip].
  match goal with |- spec _ ?x _ _ => set (t1 := x) end.
  assert (Ev : V t1 = put_file f (0, FD_NONE) (V t)).
  { unfold V, put_file, files_of. cbn [t1 set_files lset fls_locks fl_file v_procs v_files]. f_equal.
    unfold fat, set_files. cbn [lset fls_locks fl_file].
    rewrite !map_updZ, !updZ_updZ, !nthZ_updZ_eq by (rewrite ?length_updZ; done). done. }
  assert (Hdone : forall t', files_of t' = files_of t1 -> V t' = put_file f (0, FD_NONE) (V t)).
  { intros t' E'. rewrite <- Ev. unfold V. by rewrite E'. }
  clear Ev. destruct (f_type q) eqn:Ety.
  - apply spec_ret. split; [done | by apply Hdone].
  - eapply (spec_awake (fun t' => files_of t' = files_of t1)); [apply awake_on_pipe, awake_pipeclose | apply keeps_on_pipe | done | auto].
  - eapply (spec_keeps (fun t' => files_of t' = files_of t1)); [unfold fbegin_op, fend_op; keep | done | auto |].
    intros t' E'. split_and!; auto. by left.
  - eapply (spec_keeps (fun t' => files_of t' = files_of t1)); [unfold fbegin_op, fend_op; keep | done | auto |].
    intros t' E'. split_and!; auto. by right.
Qed.

Lemma fd_unref d f v : fd_ok (add d f) v -> 0 <= f < NFILE -> 1 <= (file_of v f).1 -> fd_ok d (put_file f (unref (file_of v f)) v).
Proof.
  intros Hv Hf Hr. eapply fd_file; [done | done | |].
  - unfold unref. case_if; zbool; cbn; [lia | done].
  - intros g Hg. unfold add, one, unref. destruct (g =? f), (1 <? (file_of v f).1) eqn:E; zbool; cbn; lia.
Qed.

(** The reference given to [fileclose] is gone; it only sleeps over an inode. *)
Lemma fileclose_ok pid d f t :
  fd_ok (add d f) (V t) -> 0 <= f < NFILE ->
  spec (fileclose pid f) t (fun _ t' => fd_ok d (V t') /\ kept f t t')
    (fun t' => fd_ok d (V t') /\ sleepy (file_of (V t) f).2).
Proof.
  intros Hv Hf. assert (E : file_of (V t) f = entry (fat t f)) by apply file_entry.
  assert (Hd : forall t', 1 <= f_ref (fat t f) -> V t' = put_file f (unref (entry (fat t f))) (V t) -> fd_ok d (V t')).
  { intros t' Hr ->. rewrite <- E. apply fd_unref; [done | done | by rewrite E]. }
  eapply spec_mono; [apply fileclose_entry | |].
  - intros _ t' [Hr Ht]. split; [auto | by eapply kept_put].
  - intros t' (Hr & Ht & Hs). split; [auto | by rewrite E].
Qed.

(** Without an inode it does not sleep. *)
Lemma fileclose_plain pid d f t :
  fd_ok (add d f) (V t) -> 0 <= f < NFILE -> ~ sleepy (file_of (V t) f).2 ->
  spec (fileclose pid f) t (fun _ t' => fd_ok d (V t') /\ kept f t t') (fun _ => False).
Proof. intros Hv Hf Hs. eapply spec_mono; [by apply fileclose_ok | done |]. by intros t' [_ ?]. Qed.

Lemma add_swap d f g v : fd_ok (add (add d f) g) v -> fd_ok (add (add d g) f) v.
Proof. intros Hv. eapply fd_ok_ext; [done |]. intros h _. unfold add. lia. Qed.

Lemma pipealloc_bad_ok pid pi f0 f1 d t :
  let held := if f1 =? null then add d f0 else add (add d f0) f1 in
  fd_ok held (V t) -> 0 <= f0 < NFILE -> (f1 = null \/ 0 <= f1 < NFILE /\ f1 <> f0 /\ file_of (V t) f1 = (1, FD_NONE)) ->
  file_of (V t) f0 = (1, FD_NONE) ->
  spec (pipealloc_bad pid pi f0 f1) t (fun r t' => r = (-1, f0, f1) /\ fd_ok d (V t')) (fun _ => False).
Proof.
  intros held Hv Hf0 Hf1 Ht0. unfold pipealloc_bad. apply spec_bind.
  eapply (spec_awake (fun t' => V t' = V t)); [eauto with awake | | done |].
  { apply keeps_when. apply keeps_zoom. by intros ? []. }
  intros _ t1 E1. rewrite (proj2 (Z.eqb_neq f0 _)) by (unfold null; lia). cbn [negb kwhen]. apply spec_bind. destruct Hf1 as [-> | (Hf1 & Hne & Ht1)].
  - unfold held in Hv. cbn in Hv. eapply spec_mono; [eapply (fileclose_plain pid d); rewrite ?E1, ?Ht0; [done | done | by intros []] | | done].
    intros _ t2 [H2 _]. by apply spec_ret.
  - unfold held in Hv. rewrite (proj2 (Z.eqb_neq f1 _)) in Hv |- * by (unfold null; lia). cbn [negb kwhen].
    eapply spec_mono; [eapply (fileclose_plain pid (add d f1)); rewrite ?E1, ?Ht0; [by apply add_swap | done | by intros []] | | done].
    intros _ t2 [H2 Hk]. apply spec_bind.
    eapply spec_mono; [eapply (fileclose_plain pid d); [done | done |] | | done].
    { rewrite Hk, E1, Ht1 by done. by intros []. }
    intros _ t3 [H3 _]. by apply spec_ret.
Qed.

(** A file that is in use may change its type. *)
Lemma fd_retype d t f g :
  fd_ok d (V t) -> 0 <= f < NFILE -> (forall x, f_ref (g x) = f_ref x) -> f_ref (fat t f) <> 0 ->
  spec (upd_file f g) t
    (fun _ t' => fd_ok d (V t') /\ kept f t t' /\ file_of (V t') f = entry (g (fat t f))) (fun _ => False).
Proof.
  intros Hv Hf Hg Hr. unfold spec, upd_file, kmod.
  assert (Ev := V_upd t f (g (fat t f))). assert (E : file_of (V t) f = entry (fat t f)) by apply file_entry. split_and!.
  - rewrite Ev. eapply fd_file; [done | done | cbn; rewrite Hg; by intros |]. intros h Hh. rewrite E. cbn. rewrite Hg. case_if; lia.
  - by eapply kept_put.
  - rewrite Ev. unfold file_of. cbn. apply nthZ_updZ_eq. pose proof (fo_nfile _ _ Hv) as Hn. cbn in Hn. lia.
Qed.

Lemma pipealloc_ok pid d t :
  fd_ok d (V t) ->
  spec (pipealloc pid) t (fun r t' =>
    let '(ok, rf, wf) := r in
    ok = -1 /\ fd_ok d (V t') \/
    ok = 0 /\ 0 <= rf < NFILE /\ 0 <= wf < NFILE /\ rf <> wf /\
      file_of (V t') rf = (1, FD_PIPE) /\ file_of (V t') wf = (1, FD_PIPE) /\ fd_ok (add (add d rf) wf) (V t'))
    (fun _ => False).
Proof.
  intros Hv. assert (Hneq : forall f, 0 <= f < NFILE -> (f =? null) = false) by (intros; apply Z.eqb_neq; unfold null; lia).
  unfold pipealloc. apply spec_bind. eapply spec_mono; [by apply (filealloc_ok d) | | done].
  intros f0 t1 [[-> E1] | (Hf0 & Hz0 & H1 & Ht0 & Hk1)].
  { rewrite Z.eqb_refl. unfold pipealloc_bad. cbn. left. by rewrite E1. }
  rewrite Hneq by done. apply spec_bind. eapply spec_mono; [by apply (filealloc_ok (add d f0)) | | done].
  intros f1 t2 [[-> E2] | (Hf1 & Hz1 & H2 & Ht1 & Hk2)].
  { rewrite Z.eqb_refl. eapply spec_mono; [apply (pipealloc_bad_ok pid 0 f0 null d) | | done]; cbn; rewrite ?E2; [done | done | by left | done |].
    intros r t' [-> Ht']. by left. }
  assert (Hne : f1 <> f0).
  { intros ->. unfold add, one in Hz1. rewrite Z.eqb_refl in Hz1. lia. }
  rewrite Hneq by done. assert (Ht0' : file_of (V t2) f0 = (1, FD_NONE)) by (rewrite Hk2; [done | congruence]).
  apply spec_bind. eapply (spec_awake (fun t' => V t' = V t2)); [apply awake_zoom, awake_zoom, awake_kalloc | apply keeps_zoom; by intros ? [] | done |].
  intros pi t3 E3. case_if; zbool.
  { subst. eapply spec_mono; [apply (pipealloc_bad_ok pid 0 f0 f1 d) | | done]; rewrite ?Hneq, ?E3 by done; [done | done | by right | done |].
    intros r t' [-> Ht']. by left. }
  apply spec_bind. eapply (spec_awake (fun t' => V t' = V t2)); [apply awake_on_pipe, awake_pipeinit | | done |].
  { intros t' Ht'. unfold on_pipe. by destruct (Pipe.pipeinit _ _). }
  intros _ t4 E4. assert (R : forall t' f e, file_of (V t') f = e -> f_ref (fat t' f) = e.1).
  { intros t' f e <-. unfold file_of. cbn [V v_files]. by rewrite file_entry. }
  apply spec_bind. eapply spec_mono; [apply (fd_retype (add (add d f0) f1) t4 f0) | | done].
  { by rewrite E4. } { done. } { done. } { by rewrite (R t4 f0 (1, FD_NONE)) by (by rewrite E4). }
  intros _ t5 (H5 & Hk5 & Ht5). apply spec_bind. eapply spec_mono; [apply (fd_retype (add (add d f0) f1) t5 f1) | | done].
  { done. } { done. } { done. } { by rewrite (R t5 f1 (1, FD_NONE)) by (by rewrite Hk5, E4). }
  intros _ t6 (H6 & Hk6 & Ht6). apply spec_ret. right. split_and!; try (done || lia).
  - rewrite Hk6, Ht5 by done. unfold entry. cbn. by rewrite (R t4 f0 (1, FD_NONE)) by (by rewrite E4).
  - rewrite Ht6. unfold entry. cbn. by rewrite (R t5 f1 (1, FD_NONE)) by (by rewrite Hk5, E4).
Qed.
End files.
