(* ===== verification/FdRefs.v ===== *)
(** * Descriptors and open files across processes

    Every handler of sysfile.c, and [fork], [exit] and [wait] of proc.c, keep
    the reference count of each open file equal to the number of descriptors
    that refer to it. *)

From S2P Require Import Prelude Riscv Spinlock Sleeplock Mem CString Kalloc Vm Block Uart Console Printf BufCache TxnDisk Keeps Fs File Proc ProcTable Syscall FileSys Exec Sysfile FdView FdFile.

Definition pview (q : proc) : procstate * list Z := (p_state q, p_ofile q).

Section refs.
Context {T : Type} `{TD : TxnDisk T} `{L : Layout}.
Variables de name lit elf ph path new dot dotdot : Z.
Variable stpad : bytes.
Variable devsw_read : Z -> option (Z -> Z -> K (fls T) Z).
Variable devsw_write : Z -> option (Z -> Z -> K (fls T) Z).
(** A driver does not touch the table of open files. *)
Hypothesis read_quiet : forall i r, devsw_read i = Some r -> forall a n, quietf (r a n).
Hypothesis write_quiet : forall i w, devsw_write i = Some w -> forall a n, quietf (w a n).
Variables (forkret_addr : Z) (initcode : bytes).
#[local] Instance FO : FileOps (fls T) := file_ops de name lit.
Abbreviation P := (K (prs (fls T))).
Abbreviation sw := (ksleep (S := prs (fls T)) 0).
Implicit Types (s : prs (fls T)).

Definition pviews s : list (procstate * list Z) := map pview (r_procs s).
Definition view s : fview := V (pviews s) (r_fs s).

Lemma view_proc s p : proc_of (view s) p = pview (pat s p).
Proof. apply (nthZ_map pview proc0). Qed.
Lemma view_fd s p fd : fd_of (view s) p fd = nthZ null (p_ofile (pat s p)) fd.
Proof. unfold fd_of. by rewrite view_proc. Qed.
Lemma view_file s f : file_of (view s) f = entry (fat (r_fs s) f).
Proof. apply (nthZ_map entry file0). Qed.
Lemma view_upd s p q : view (set_procs (updZ (r_procs s) p q) s) = put_proc p (pview q) (view s).
Proof. unfold view, V, put_proc, pviews. cbn. by rewrite map_updZ. Qed.

(** ** Code that moves no reference *)

Definition at_ (v : fview) (c : Z) s : Prop := view s = v /\ r_cur s = c.
Definition quiet {A} (m : P A) : Prop := forall v c, keeps (at_ v c) m.

Lemma quiet_upd v c p f : (forall q, pview (f q) = pview q) -> keeps (at_ v c) (upd_proc p f).
Proof.
  intros Hf. apply keeps_mod. intros s [<- <-]. split; [| done]. rewrite view_upd, Hf, <- view_proc.
  unfold put_proc, proc_of. rewrite updZ_nthZ. done.
Qed.

Lemma quiet_fl {A} v c (m : K (fls T) A) : quietf m -> keeps (at_ v c) (zoom m).
Proof.
  intros Hm s [Hv Hc]. unfold zoom. specialize (Hm (files_of (r_fs s)) (r_fs s) eq_refl).
  change (lget s) with (r_fs s). destruct (m (r_fs s)); try done; (split; [| done]); rewrite <- Hv; unfold view, V; cbn; by rewrite Hm.
Qed.

Lemma quietf_fs {A} (m : K (fsys T) A) : quietf (zoom m).
Proof. intros l. apply keeps_zoom. by intros ? []. Qed.

Hint Resolve quiet_upd quiet_fl quietf_fs : keeps.
Hint Extern 1 (forall q, pview (_ q) = pview q) => (intros ?; reflexivity) : keeps.
Hint Extern 3 (keeps _ (zoom _)) => (apply keeps_zoom; by intros ? []) : keeps.
Hint Extern 3 (keeps _ (set_nextpid _)) => (apply keeps_mod; by intros ? []) : keeps.
Hint Extern 3 (keeps _ (set_initproc _)) => (apply keeps_mod; by intros ? []) : keeps.
Hint Extern 2 (keeps _ myproc) => apply keeps_gets : keeps.
Hint Extern 2 (keeps _ (get_proc _)) => apply keeps_gets : keeps.
Ltac keep := eauto 60 with keeps.

Lemma quiet_onfs {A} v c (m : K (fsys T) A) : keeps (at_ v c) (onfs m).
Proof. apply quiet_fl, quietf_fs. Qed.
Lemma quiet_begin v c : keeps (at_ v c) op_begin.
Proof. apply quiet_fl. intros l. unfold fbegin_op. keep. Qed.
Lemma quiet_end v c : keeps (at_ v c) op_end.
Proof. apply quiet_fl. intros l. unfold fend_op. keep. Qed.
Lemma quiet_mine v c : keeps (at_ v c) mine.
Proof. unfold mine. keep. Qed.
Lemma quiet_tf_load v c q o : keeps (at_ v c) (tf_load q o).
Proof. unfold tf_load. keep. Qed.
Lemma quiet_tf_store v c p o x : keeps (at_ v c) (tf_store p o x).
Proof. unfold tf_store. keep. Qed.
Lemma quiet_kmem v c : keeps (at_ v c) (kmem de name lit).
Proof. unfold kmem. keep. Qed.
Hint Resolve quiet_onfs quiet_begin quiet_end quiet_mine quiet_tf_load quiet_tf_store quiet_kmem : keeps.

Lemma quiet_fetchaddr v c a : keeps (at_ v c) (fetchaddr a).
Proof. unfold fetchaddr. apply keeps_bind; [keep | intros q]. apply keeps_if; [keep |]. apply keeps_bind; [keep | intros [r b]]. keep. Qed.
Lemma quiet_fetchstr v c a b m : keeps (at_ v c) (fetchstr a b m).
Proof.
  unfold fetchstr. apply keeps_bind; [keep | intros q]. apply keeps_bind; [keep | intros [r l]].
  apply keeps_bind; [keep | intros _]. apply keeps_if; [keep |]. apply keeps_bind; [keep | intros x]. destruct (strlen _ _); keep.
Qed.
Lemma quiet_argraw v c n : keeps (at_ v c) (argraw n).
Proof. unfold argraw. keep. Qed.
Hint Resolve quiet_fetchaddr quiet_fetchstr quiet_argraw : keeps.
Lemma quiet_argint v c n : keeps (at_ v c) (argint n).
Proof. unfold argint. keep. Qed.
Lemma quiet_argaddr v c n : keeps (at_ v c) (argaddr n).
Proof. unfold argaddr. keep. Qed.
Hint Resolve quiet_argint quiet_argaddr : keeps.
Lemma quiet_argstr v c n b m : keeps (at_ v c) (argstr n b m).
Proof. unfold argstr. keep. Qed.
Lemma quiet_argfd v c n : keeps (at_ v c) (argfd de name lit n).
Proof. unfold argfd. keep. Qed.
Hint Resolve quiet_argstr quiet_argfd : keeps.
Lemma quiet_proc_pagetable v c p : keeps (at_ v c) (proc_pagetable p).
Proof. unfold proc_pagetable. keep. Qed.
Lemma quiet_freepagetable v c pt sz : keeps (at_ v c) (proc_freepagetable pt sz).
Proof. unfold proc_freepagetable. keep. Qed.
Hint Resolve quiet_proc_pagetable quiet_freepagetable : keeps.

(** *** exec.c *)

Lemma quiet_loadseg v c pt va ip off sz : keeps (at_ v c) (loadseg de name lit pt va ip off sz).
Proof.
  unfold loadseg. generalize 0 at 1. generalize (Z.to_nat (sz / PGSIZE + 2)).
  induction n as [| n IH]; intros i; cbn [loadseg_loop]; keep.
Qed.
Hint Resolve quiet_loadseg : keeps.
Lemma quiet_load_loop v c n pt ip off sz : keeps (at_ v c) (load_loop de name lit ph n pt ip off sz).
Proof. revert off sz. induction n as [| n IH]; intros off sz; cbn [load_loop]; keep. Qed.
Lemma quiet_push_args v c n pt sb argv argc sp us : keeps (at_ v c) (push_args de name lit n pt sb argv argc sp us).
Proof.
  revert argc sp us. induction n as [| n IH]; intros argc sp us; cbn [push_args]; [keep |].
  do 2 (apply keeps_if; [keep |]). apply keeps_bind; [keep | intros m]. destruct (strlen _ _); keep.
Qed.
Lemma quiet_exec_bad v c pid pt sz ip : keeps (at_ v c) (exec_bad de name lit pid pt sz ip).
Proof. unfold exec_bad. keep. Qed.
Hint Resolve quiet_load_loop quiet_push_args quiet_exec_bad : keeps.
Lemma quiet_exec_stack v c pth argv e pt sz : keeps (at_ v c) (exec_stack de name lit pth argv e pt sz).
Proof.
  unfold exec_stack. do 2 (apply keeps_bind; [keep | intros ?]). apply keeps_bind; [keep | intros sz1]. apply keeps_if; [keep |].
  apply keeps_bind; [keep | intros _]. apply keeps_bind; [keep | intros [[sp us] |]]; keep.
Qed.
Hint Resolve quiet_exec_stack : keeps.
Lemma quiet_exec v c pth argv : keeps (at_ v c) (exec de name lit elf ph pth argv).
Proof.
  unfold exec. do 2 (apply keeps_bind; [keep | intros ?]). do 2 (apply keeps_bind; [keep | intros ?]). apply keeps_if; [keep |].
  do 2 (apply keeps_bind; [keep | intros ?]). apply keeps_if; [keep |]. apply keeps_bind; [keep | intros m]. apply keeps_if; [keep |].
  apply keeps_bind; [keep | intros pt]. apply keeps_if; [keep |]. apply keeps_bind; [keep | intros [sz ok]]. keep.
Qed.
Hint Resolve quiet_exec : keeps.

(** *** The handlers that move no reference *)

Lemma quiet_sys_read v c : keeps (at_ v c) (sys_read de name lit devsw_read).
Proof. unfold sys_read, fl. do 3 (apply keeps_bind; [keep | intros ?]). case_match; [case_match |]; [| keep]. apply keeps_bind; [keep | intros q]. by apply quiet_fl, quiet_fileread. Qed.
Lemma quiet_sys_write v c : keeps (at_ v c) (sys_write de name lit devsw_write).
Proof. unfold sys_write, fl. do 3 (apply keeps_bind; [keep | intros ?]). case_match; [case_match |]; [| keep]. apply keeps_bind; [keep | intros q]. by apply quiet_fl, quiet_filewrite. Qed.
Lemma quiet_sys_fstat v c : keeps (at_ v c) (sys_fstat de name lit stpad).
Proof. unfold sys_fstat, fl. do 2 (apply keeps_bind; [keep | intros ?]). case_match; [case_match |]; [| keep]. apply keeps_bind; [keep | intros q]. by apply quiet_fl, quiet_filestat. Qed.
Lemma quiet_sys_link v c : keeps (at_ v c) (sys_link de name lit path new).
Proof. unfold sys_link, link_bad. keep. Qed.
Lemma quiet_sys_unlink v c : keeps (at_ v c) (sys_unlink de name lit path dot dotdot).
Proof.
  unfold sys_unlink, unlink_bad. do 2 (apply keeps_bind; [keep | intros ?]; try (apply keeps_if; [keep |])).
  do 2 (apply keeps_bind; [keep | intros ?]). apply keeps_if; [keep |]. do 2 (apply keeps_bind; [keep | intros ?]).
  apply keeps_if; [keep |]. apply keeps_bind; [keep | intros [ip off]]. keep.
Qed.
Lemma quiet_do_create v c q t mj mn : keeps (at_ v c) (do_create de name path dot dotdot q t mj mn).
Proof. unfold do_create. keep. Qed.
Hint Resolve quiet_do_create : keeps.
Lemma quiet_sys_mkdir v c : keeps (at_ v c) (sys_mkdir de name lit path dot dotdot).
Proof. unfold sys_mkdir. keep. Qed.
Lemma quiet_sys_mknod v c : keeps (at_ v c) (sys_mknod de name lit path dot dotdot).
Proof. unfold sys_mknod. keep. Qed.
Lemma quiet_sys_chdir v c : keeps (at_ v c) (sys_chdir de name lit path).
Proof. unfold sys_chdir. keep. Qed.
Lemma quiet_free_argv v c argv : keeps (at_ v c) (free_argv de name lit argv).
Proof. induction argv; cbn [free_argv]; keep. Qed.
Lemma quiet_fetch_argv v c n u i argv : keeps (at_ v c) (fetch_argv de name lit n u i argv).
Proof.
  revert i argv. induction n as [| n IH]; intros i argv; cbn [fetch_argv]; [keep |].
  apply keeps_bind; [keep | intros [a |]]; keep.
Qed.
Hint Resolve quiet_free_argv quiet_fetch_argv : keeps.
Lemma quiet_sys_exec v c : keeps (at_ v c) (sys_exec de name lit elf ph path).
Proof.
  unfold sys_exec. do 2 (apply keeps_bind; [keep | intros ?]). apply keeps_if; [keep |]. apply keeps_bind; [keep | intros [argv ok]]. keep.
Qed.

(** ** The handlers that do *)

(** The state in which a call may sleep. *)
Definition counted s : Prop := fd_ok0 (view s).
(** A process is running. *)
Definition running s : Prop := is_proc (view s) (r_cur s) /\ ~ idle (proc_of (view s) (r_cur s)).1.

Definition put_fd (p fd x : Z) (v : fview) : fview := put_proc p ((proc_of v p).1, updZ (proc_of v p).2 fd x) v.

Lemma view_upd_fd s p fd x :
  view (set_procs (updZ (r_procs s) p (set_ofile (updZ (p_ofile (pat s p)) fd x) (pat s p))) s) = put_fd p fd x (view s).
Proof. rewrite view_upd. unfold put_fd. by rewrite view_proc. Qed.

Lemma spec_quiet {A} (m : P A) s Q Z :
  quiet m -> (forall a s', view s' = view s -> r_cur s' = r_cur s -> Q a s') ->
  (forall s', view s' = view s -> r_cur s' = r_cur s -> Z s') -> spec m s Q Z.
Proof. intros Hm HQ HZ. eapply (spec_keeps (at_ (view s) (r_cur s))); [apply Hm | done | |]; intros; firstorder. Qed.

Lemma set_fd_ok s fd x Q Z :
  (forall s', view s' = put_fd (r_cur s) fd x (view s) -> r_cur s' = r_cur s -> Q tt s') -> spec (set_fd fd x) s Q Z.
Proof. intros HQ. unfold set_fd, spec, upd_proc, myproc, kbind, kgets, kmod. apply HQ; [apply view_upd_fd | done]. Qed.

Lemma argfd_ok n s :
  spec (argfd de name lit n) s (fun a s' =>
    view s' = view s /\ r_cur s' = r_cur s /\
    match a with
    | None => True
    | Some (fd, f) => 0 <= fd < NOFILE /\ f = fd_of (view s) (r_cur s) fd /\ f <> null
    end) (fun s' => view s' = view s).
Proof.
  unfold argfd. apply spec_bind. apply spec_quiet; [intros v c; keep | | done]. intros fd s1 E1 C1.
  unfold mine, myproc, get_proc. apply spec_bind, spec_gets. unfold spec at 1, kgets. apply spec_if; [by intros _; apply spec_ret |].
  intros H. zbool. apply spec_if; [by intros _; apply spec_ret |]. intros Hf. zbool. apply spec_ret.
  split_and!; [done | done | lia | lia | | done]. by rewrite <- E1, <- C1, view_fd.
Qed.

Lemma fdalloc_scan_free n l fd :
  let r := fdalloc_scan n l fd in
  r = -1 \/ fd <= r < fd + Z.of_nat n /\ nthZ null l r = null.
Proof.
  revert fd. induction n as [| n IH]; intros fd; cbn; [by left |]. case_if; zbool; [right; split; [lia | done] |].
  destruct (IH (fd + 1)) as [H | [H1 H2]]; [by left | right]. split; [lia | done].
Qed.

Lemma fdalloc_ok f s :
  spec (fdalloc f) s (fun fd s' => r_cur s' = r_cur s /\
    (fd = -1 /\ view s' = view s \/
     0 <= fd < NOFILE /\ fd_of (view s) (r_cur s) fd = null /\ view s' = put_fd (r_cur s) fd f (view s))) (fun _ => False).
Proof.
  unfold fdalloc, mine, myproc, get_proc. apply spec_bind, spec_gets. unfold spec at 1, kgets.
  destruct (fdalloc_scan_free (Z.to_nat NOFILE) (p_ofile (pat s (r_cur s))) 0) as [-> | [H1 H2]].
  - split; [done | by left].
  - rewrite (proj2 (Z.ltb_ge _ 0)) by lia. apply spec_bind, set_fd_ok. intros s' E' C'. apply spec_ret.
    split; [done | right]. split_and!; [lia | lia | by rewrite view_fd | done].
Qed.

(** Process [c] runs, and code holds the references [d]. *)
Definition own (d : Z -> Z) (c : Z) (v : fview) : Prop := fd_ok d v /\ is_proc v c /\ ~ idle (proc_of v c).1.
Definition none : Z -> Z := fun _ => 0.

Lemma own_put d d' c v fd x :
  own d c v -> 0 <= fd < NOFILE -> fd_range x ->
  (forall f, 0 <= f < NFILE -> d' f = d f + one (fd_of v c fd) f - one x f) ->
  own d' c (put_fd c fd x v) /\ forall fd', fd_of (put_fd c fd x v) c fd' = if fd' =? fd then x else fd_of v c fd'.
Proof.
  intros (Hv & Hp & Hi) Hfd Hx Hd. pose proof (fo_nfd _ _ Hv c Hp) as Hl. fold (proc_of v c) in Hl.
  assert (E : proc_of (put_fd c fd x v) c = ((proc_of v c).1, updZ (proc_of v c).2 fd x)).
  { unfold proc_of, put_fd. cbn. by apply nthZ_updZ_eq. }
  split; [split_and! |].
  - by eapply fd_put.
  - unfold is_proc, put_fd. cbn. by rewrite length_updZ.
  - by rewrite E.
  - intros fd'. unfold fd_of. rewrite E. cbn [snd]. apply nthZ_updZ. lia.
Qed.

Lemma spec_fl {A} (m : K (fls T) A) s Q Z :
  spec m (r_fs s) (fun a t => forall s', view s' = V (pviews s) t -> r_cur s' = r_cur s -> Q a s')
    (fun t => forall s', view s' = V (pviews s) t -> r_cur s' = r_cur s -> Z s') -> spec (fl m) s Q Z.
Proof. intros H. apply spec_zoom. eapply spec_mono; [exact H | |]; intros; cbn in *; auto. Qed.

Lemma null_out f : 0 <= f < NFILE -> one null f = 0.
Proof. intros. unfold one, null. case_if; zbool; lia. Qed.

(** The references of a descriptor. *)
Lemma own_fd c v fd : own none c v -> fd_of v c fd <> null -> 0 <= fd_of v c fd < NFILE.
Proof. intros (Hv & Hp & _) Hn. by apply fd_used. Qed.

Lemma sys_dup_ok s : own none (r_cur s) (view s) -> spec (sys_dup de name lit) s (fun _ => counted) counted.
Proof.
  intros Ho. unfold sys_dup. apply spec_bind. eapply spec_mono; [apply argfd_ok | | intros s' E; unfold counted; rewrite E; apply Ho].
  intros a s1 (E1 & C1 & Ha). destruct a as [[fd f] |]; [| apply spec_ret; unfold counted; rewrite E1; apply Ho].
  destruct Ha as (Hfd & Ef & Hn). rewrite <- E1, <- C1 in *. clear s E1 C1. rename s1 into s.
  assert (Hf : 0 <= f < NFILE) by (rewrite Ef in *; by apply own_fd).
  apply spec_bind. eapply spec_mono; [apply fdalloc_ok | | done].
  intros fd' s2 (C2 & [[-> E2] | (Hfd' & Hnull & E2)]); [apply spec_ret; unfold counted; rewrite E2; apply Ho |].
  rewrite (proj2 (Z.ltb_ge _ 0)) by lia.
  destruct (own_put none (fun g => - one f g) (r_cur s) (view s) fd' f) as [H2 _]; [done | done | by right | |].
  { intros g Hg. rewrite Hnull, null_out by done. unfold none. lia. }
  rewrite <- E2 in H2. apply spec_bind, spec_fl. eapply spec_mono; [apply (filedup_ok (pviews s2) (fun g => - one f g)) | | done]; [apply H2 | done |].
  intros f' t' [_ Ht'] s3 E3 C3. apply spec_ret. unfold counted. rewrite E3. eapply fd_ok_ext; [exact Ht' |]. intros g Hg. unfold add. lia.
Qed.

Lemma sys_close_ok s : own none (r_cur s) (view s) -> spec (sys_close de name lit) s (fun _ => counted) counted.
Proof.
  intros Ho. unfold sys_close. apply spec_bind. eapply spec_mono; [apply argfd_ok | | intros s' E; unfold counted; rewrite E; apply Ho].
  intros a s1 (E1 & C1 & Ha). destruct a as [[fd f] |]; [| apply spec_ret; unfold counted; rewrite E1; apply Ho].
  destruct Ha as (Hfd & Ef & Hn). rewrite <- E1, <- C1 in *. clear s E1 C1. rename s1 into s.
  assert (Hf : 0 <= f < NFILE) by (rewrite Ef in *; by apply own_fd).
  apply spec_bind, set_fd_ok. intros s2 E2 C2.
  destruct (own_put none (add none f) (r_cur s) (view s) fd null) as [H2 _]; [done | done | by left | |].
  { intros g Hg. rewrite null_out, <- Ef by done. unfold add, none. lia. }
  rewrite <- E2 in H2. apply spec_bind. apply spec_awake with (I := fun s' => view s' = view s2); [| | done |].
  { unfold mine, myproc, get_proc. eauto with awake. } { unfold mine. keep. }
  intros q s3 E3. rewrite <- E3 in H2. apply spec_bind, spec_fl.
  eapply spec_mono; [apply (fileclose_ok (pviews s3) (p_pid q) none) | |]; [apply H2 | done | |].
  - intros _ t' [Ht' _] s4 E4 C4. apply spec_ret. unfold counted. by rewrite E4.
  - intros t' [Ht' _] s4 E4 C4. unfold counted. by rewrite E4.
Qed.

Lemma counted_of s v : view s = v -> fd_ok0 v -> counted s.
Proof. by intros <-. Qed.

(** The rest of a call, when it moves no reference. *)
Lemma counted_quiet {A} (m : P A) s : quiet m -> counted s -> spec m s (fun _ => counted) counted.
Proof. intros Hm Hs. apply spec_quiet; [done | |]; intros; by eapply counted_of. Qed.

Lemma quiet_open_inode v c q om : keeps (at_ v c) (open_inode de name path dot dotdot q om).
Proof. unfold open_inode. keep. Qed.
Hint Resolve quiet_open_inode : keeps.

Lemma plain_none : ~ sleepy FD_NONE.
Proof. by intros []. Qed.
Lemma plain_pipe : ~ sleepy FD_PIPE.
Proof. by intros []. Qed.

Lemma open_fail_ok pid f ip s :
  (f = null /\ counted s \/
   0 <= f < NFILE /\ fd_ok (add none f) (view s) /\ file_of (view s) f = (1, FD_NONE)) ->
  spec (open_fail pid f ip) s (fun _ => counted) counted.
Proof.
  intros H. unfold open_fail. apply spec_bind. destruct H as [[-> Hs] | (Hf & Hv & Ht)].
  - cbn [kwhen negb Z.eqb null]. apply spec_ret. apply counted_quiet; [intros v c; keep | done].
  - rewrite (proj2 (Z.eqb_neq f _)) by (unfold null; lia). cbn [negb kwhen]. apply spec_fl.
    eapply spec_mono; [apply (fileclose_plain (pviews s) pid none) | | done]; [done | done | |].
    { change (~ sleepy (file_of (view s) f).2). rewrite Ht. apply plain_none. }
    intros _ t' [Ht' _] s' E' _. apply counted_quiet; [intros v c; keep |]. by eapply counted_of.
Qed.

Lemma sys_open_ok s : own none (r_cur s) (view s) -> spec (sys_open de name lit path dot dotdot) s (fun _ => counted) counted.
Proof.
  intros Ho. set (c := r_cur s) in *. set (v := view s) in *.
  assert (Hq : forall A (m : P A) (k : A -> P Z) s0, at_ v c s0 -> quiet m ->
    (forall a s', at_ v c s' -> spec (k a) s' (fun _ => counted) counted) -> spec (kbind m k) s0 (fun _ => counted) counted).
  { intros A m k s0 [E0 C0] Hm Hk. apply spec_bind. apply spec_quiet; [done | |]; intros; [apply Hk; split; congruence |].
    eapply counted_of; [| apply Ho]. congruence. }
  assert (Hr : forall (r : Z) s0, at_ v c s0 -> spec (kret r) s0 (fun _ => counted) counted).
  { intros r s0 [E0 _]. apply spec_ret. eapply counted_of; [done | apply Ho]. }
  unfold sys_open. apply Hq; [done | intros ??; keep | intros om s1 H1]. apply Hq; [done | intros ??; keep | intros n s2 H2].
  apply spec_if; [auto | intros _]. apply Hq; [done | intros ??; keep | intros q s3 H3]. apply Hq; [done | intros ??; keep | intros _ s4 H4].
  apply Hq; [done | intros ??; keep | intros ip s5 H5]. apply spec_if; [auto | intros _].
  apply Hq; [done | intros ??; keep | intros i s6 H6]. apply spec_if.
  { intros _. apply Hq; [done | intros ??; keep | intros _ s7 H7]. apply Hq; [done | intros ??; keep | auto]. }
  intros _. clear s1 H1 s2 H2 s3 H3 s4 H4 s5 H5. destruct H6 as [E6 C6]. apply spec_bind, spec_fl.
  eapply spec_mono; [apply (filealloc_ok (pviews s6) none) | | done].
  { change (fd_ok none (view s6)). rewrite E6. apply Ho. }
  intros f t7 Hf s7 E7 C7. destruct Hf as [[-> Et] | (Hf & Hz & Hv & Ht & _)].
  { rewrite Z.eqb_refl. apply open_fail_ok. left. split; [done |]. eapply counted_of; [| apply Ho].
    rewrite E7, Et. exact E6. }
  rewrite (proj2 (Z.eqb_neq f null)) by (unfold null; lia). rewrite <- E7 in Hv, Ht.
  assert (Hp : v_procs (view s7) = v_procs v) by (rewrite E7, <- E6; done).
  assert (Ho7 : own (add none f) c (view s7)).
  { destruct Ho as (_ & Ho1 & Ho2). split_and!; [done | unfold is_proc; by rewrite Hp | unfold proc_of; by rewrite Hp]. }
  apply spec_bind. eapply spec_mono; [apply fdalloc_ok | | done]. rewrite C7, C6.
  intros fd s8 (C8 & [[-> E8] | (Hfd & Hnull & E8)]).
  { apply open_fail_ok. right. rewrite E8. done. }
  rewrite (proj2 (Z.ltb_ge _ 0)) by lia.
  destruct (own_put (add none f) none c (view s7) fd f) as [H8 _]; [done | done | by right | |].
  { intros g Hg. rewrite Hnull, null_out by done. unfold add, none. lia. }
  rewrite <- E8 in H8. assert (Ht8 : file_of (view s8) f = (1, FD_NONE)) by (rewrite E8; exact Ht). rewrite view_file in Ht8.
  apply spec_bind, spec_fl. eapply spec_mono; [apply (fd_retype (pviews s8) none) | | done]; [apply H8 | done | | |].
  { intros x. unfold opened. by case_if. }
  { injection Ht8 as -> _. done. }
  intros _ t9 (H9 & _) s9 E9 C9. apply counted_quiet; [intros ??; keep |]. by eapply counted_of.
Qed.

Lemma pipe_fail_ok pid rf wf s :
  0 <= rf < NFILE -> 0 <= wf < NFILE -> rf <> wf ->
  file_of (view s) rf = (1, FD_PIPE) -> file_of (view s) wf = (1, FD_PIPE) ->
  fd_ok (add (add none rf) wf) (view s) -> spec (sys_pipe_fail pid rf wf) s (fun _ => counted) counted.
Proof.
  intros Hrf Hwf Hne Hr Hw Hv. unfold sys_pipe_fail. apply spec_bind, spec_fl.
  eapply spec_mono; [apply (fileclose_plain (pviews s) pid (add none wf)) | | done]; [by apply add_swap | done | |].
  { change (~ sleepy (file_of (view s) rf).2). rewrite Hr. apply plain_pipe. }
  intros _ t1 [H1 Hk] s1 E1 _. apply spec_bind, spec_fl. rewrite <- E1 in H1.
  eapply spec_mono; [apply (fileclose_plain (pviews s1) pid none) | | done]; [done | done | |].
  { change (~ sleepy (file_of (view s1) wf).2). rewrite E1, Hk by congruence.
    change (~ sleepy (file_of (view s) wf).2). rewrite Hw. apply plain_pipe. }
  intros _ t2 [H2 _] s2 E2 _. apply spec_ret. by eapply counted_of.
Qed.

Lemma sys_pipe_ok s : own none (r_cur s) (view s) -> spec (sys_pipe de name lit) s (fun _ => counted) counted.
Proof.
  intros Ho. unfold sys_pipe. set (c := r_cur s) in *.
  apply spec_bind. apply spec_quiet; [intros ??; keep | | intros s' E _; eapply counted_of; [done | apply Ho]].
  intros q s1 E1 C1. apply spec_bind. apply spec_quiet; [intros ??; keep | | intros s' E _; eapply counted_of; [| apply Ho]; congruence].
  intros fda s2 E2 C2. rewrite E1 in E2. rewrite C1 in C2. apply spec_bind, spec_fl.
  eapply spec_mono; [apply (pipealloc_ok (pviews s2) (p_pid q) none) | | done].
  { change (fd_ok none (view s2)). rewrite E2. apply Ho. }
  intros [[r rf] wf] t3 [[-> H3] | (-> & Hrf & Hwf & Hne & Hr & Hw & H3)] s3 E3 C3.
  { apply spec_ret. by eapply counted_of. }
  rewrite <- E3 in Hr, Hw, H3. assert (Ho3 : own (add (add none rf) wf) c (view s3)).
  { destruct Ho as (_ & Ho1 & Ho2). split_and!; [done | |].
    - rewrite E3. rewrite <- E2 in Ho1. exact Ho1.
    - rewrite E3. rewrite <- E2 in Ho2. exact Ho2. }
  cbn [Z.ltb Z.compare]. assert (C3' : r_cur s3 = c) by (by rewrite C3, C2). clear s1 E1 C1 E2 C2 E3 C3.
  apply spec_bind. eapply spec_mono; [apply fdalloc_ok | | done]. rewrite C3'.
  intros fd0 s4 (C4 & [[-> E4] | (Hfd0 & Hn0 & E4)]).
  { rewrite <- E4 in *. by apply pipe_fail_ok. }
  rewrite (proj2 (Z.ltb_ge fd0 0)) by lia.
  destruct (own_put (add (add none rf) wf) (add none wf) c (view s3) fd0 rf) as [Ho4 Hfds4]; [done | done | by right | |].
  { intros g Hg. rewrite Hn0, null_out by done. unfold add, none. lia. }
  rewrite <- E4 in Ho4, Hfds4. assert (Hr4 : file_of (view s4) rf = (1, FD_PIPE)) by (by rewrite E4).
  assert (Hw4 : file_of (view s4) wf = (1, FD_PIPE)) by (by rewrite E4).
  assert (Hback : forall s', view s' = view s4 -> r_cur s' = c -> spec (set_fd fd0 null >> sys_pipe_fail (p_pid q) rf wf) s' (fun _ => counted) counted).
  { intros s' E' C'. apply spec_bind, set_fd_ok. intros s5 E5 C5. rewrite E', C' in E5.
    destruct (own_put (add none wf) (add (add none rf) wf) c (view s4) fd0 null) as [Ho5 _]; [done | done | by left | |].
    { intros g Hg. rewrite Hfds4, Z.eqb_refl, null_out by done. unfold add, none. lia. }
    rewrite <- E5 in Ho5. apply pipe_fail_ok; try done; [by rewrite E5 | by rewrite E5 | apply Ho5]. }
  apply spec_bind. eapply spec_mono; [apply fdalloc_ok | | done]. rewrite C4.
  intros fd1 s5 (C5 & [[-> E5] | (Hfd1 & Hn1 & E5)]); [apply Hback; congruence |].
  rewrite (proj2 (Z.ltb_ge fd1 0)) by lia.
  assert (Hne' : fd1 <> fd0).
  { intros ->. rewrite Hfds4, Z.eqb_refl in Hn1. unfold null in Hn1. lia. }
  destruct (own_put (add none wf) none c (view s4) fd1 wf) as [Ho5 Hfds5]; [done | done | by right | |].
  { intros g Hg. rewrite Hn1, null_out by done. unfold add, none. lia. }
  rewrite <- E5 in Ho5, Hfds5.
  apply spec_bind. apply spec_quiet; [intros ??; keep | | intros s' E _; eapply counted_of; [done | apply Ho5]].
  intros r1 s6 E6 C6. apply spec_bind.
  apply spec_quiet; [intros ??; keep | | intros s' E _; eapply counted_of; [| apply Ho5]; congruence].
  intros r2 s7 E7 C7. rewrite E6 in E7. apply spec_if; [intros _ | intros _; apply spec_ret; eapply counted_of; [done | apply Ho5]].
  apply spec_bind, set_fd_ok. intros s8 E8 C8. replace (r_cur s7) with c in * by congruence. rewrite E7 in E8.
  destruct (own_put none (add none rf) c (view s5) fd0 null) as [Ho8 Hfds8]; [done | done | by left | |].
  { intros g Hg. rewrite Hfds5, (proj2 (Z.eqb_neq fd0 fd1)), Hfds4, Z.eqb_refl, null_out by congruence. unfold add, none. lia. }
  rewrite <- E8 in Ho8, Hfds8. apply spec_bind, set_fd_ok. intros s9 E9 C9. rewrite C8 in E9.
  destruct (own_put (add none rf) (add (add none rf) wf) c (view s8) fd1 null) as [Ho9 _]; [done | done | by left | |].
  { intros g Hg. rewrite Hfds8, (proj2 (Z.eqb_neq fd1 fd0)), Hfds5, Z.eqb_refl, null_out by done. unfold add, none. lia. }
  rewrite <- E9 in Ho9. apply pipe_fail_ok; try done; [by rewrite E9, E8, E5 | by rewrite E9, E8, E5 | apply Ho9].
Qed.

(** ** Processes *)

(** Process [p] has no open descriptor. *)
Definition shut (p : Z) s : Prop := counted s /\ closed (proc_of (view s) p).2.

Lemma proc_put v p q : proc_of (put_proc p q v) p = (if decide (is_proc v p) then q else proc_of v p).
Proof.
  unfold proc_of, put_proc. cbn. case_decide as H; [by apply nthZ_updZ_eq |]. by rewrite updZ_out.
Qed.

Lemma shut_upd p f : (forall q, p_ofile (f q) = p_ofile q) -> keeps (shut p) (upd_proc p f).
Proof.
  intros Hf. apply keeps_mod. intros s [Hs Hc]. unfold shut, counted. rewrite view_upd.
  assert (E : pview (f (pat s p)) = (p_state (f (pat s p)), (proc_of (view s) p).2)) by (rewrite view_proc; unfold pview; by rewrite Hf).
  rewrite E, proc_put. split; [by apply fd_state | by case_decide].
Qed.

Lemma shut_quiet {A} p (m : P A) : quiet m -> keeps (shut p) m.
Proof.
  intros Hm s [H1 H2]. specialize (Hm (view s) (r_cur s) s (conj eq_refl eq_refl)). unfold shut, counted.
  destruct (m s); try done; by destruct Hm as [-> _].
Qed.

Lemma freeproc_shut p : keeps (shut p) (freeproc p).
Proof.
  unfold freeproc. apply keeps_bind; [apply shut_quiet; intros ??; keep | intros q].
  assert (Hu : forall f, (forall q, p_ofile (f q) = p_ofile q) -> keeps (shut p) (upd_proc p f)) by (intros; by apply shut_upd).
  repeat first [apply keeps_bind; [first [by apply Hu | apply shut_quiet; intros ??; keep] | intros ?] | by apply Hu].
Qed.

Lemma freeproc_ok p s : shut p s -> spec (freeproc p) s (fun _ => counted) counted.
Proof. intros Hs. eapply (spec_keeps (shut p)); [apply freeproc_shut | done | |]; firstorder. Qed.

Lemma allocproc_scan_ok n p s :
  0 <= p -> spec (allocproc_scan n p) s (fun o s' => view s' = view s /\ r_cur s' = r_cur s /\
    match o with Some k => p <= k < p + Z.of_nat n /\ (proc_of (view s) k).1 = UNUSED | None => True end) (fun _ => False).
Proof.
  revert p s. induction n as [| n IH]; intros p s Hp; cbn [allocproc_scan]; [done |].
  apply spec_bind, spec_acquire. intros h. apply spec_bind. unfold get_proc, spec at 1, kgets. apply spec_if.
  - intros Hu. apply spec_ret. split_and!; [done | done | lia | lia |]. rewrite view_proc. unfold is_state in Hu. by zbool.
  - intros _. apply spec_bind, spec_release. intros h'. eapply spec_mono; [apply IH; lia | | done].
    intros o s' (E & C & Ho). split_and!; [done | done |]. destruct o; [| done]. destruct Ho. split; [lia | done].
Qed.

(** A new process: in use, with nothing open. *)
Definition fresh (np : Z) s : Prop := shut np s /\ is_proc (view s) np /\ (proc_of (view s) np).1 = USED.

Lemma fresh_quiet {A} np (m : P A) : quiet m -> keeps (fresh np) m.
Proof.
  intros Hm s ([H1 H1'] & H2). specialize (Hm (view s) (r_cur s) s (conj eq_refl eq_refl)). unfold fresh, shut, counted.
  destruct (m s); try done; by destruct Hm as [-> _].
Qed.

Lemma set_used p s :
  shut p s -> is_proc (view s) p -> spec (upd_proc p (set_state USED)) s (fun _ => fresh p) (fun _ => False).
Proof.
  intros [H1 H2] Hp. unfold spec, upd_proc, kmod, fresh, shut, counted. rewrite view_upd.
  change (pview (set_state USED (pat s p))) with (USED, (pview (pat s p)).2). rewrite <- view_proc, proc_put, decide_True by done.
  split_and!; [| done | unfold is_proc, put_proc; cbn; by rewrite length_updZ | done]. apply fd_state; [done | by intros []].
Qed.

Lemma quiet_allocpid v c : keeps (at_ v c) allocpid.
Proof. unfold allocpid. keep. Qed.
Hint Resolve quiet_allocpid : keeps.

Lemma fresh_counted np s : fresh np s -> counted s.
Proof. by intros [[? _] _]. Qed.

Lemma allocproc_ok s :
  counted s -> spec (allocproc forkret_addr) s (fun np s' => counted s' /\ (np = nullp \/ fresh np s')) counted.
Proof.
  intros Hs. unfold allocproc. apply spec_bind. eapply spec_mono; [by apply allocproc_scan_ok | | done].
  intros o s1 (E1 & C1 & Ho). destruct o as [p |].
  2: { apply spec_ret. split; [by eapply counted_of | by left]. }
  destruct Ho as [Hp Hu]. pose proof (fo_nproc _ _ Hs) as Hnp.
  assert (Hp' : is_proc (view s1) p) by (unfold is_proc; rewrite E1, Hnp; unfold NP in Hp; lia).
  assert (H1 : shut p s1) by (unfold shut, counted; rewrite E1; split; [done | apply (fo_idle _ _ Hs); by left]).
  clear s Hs E1 C1 Hp Hu Hnp. rename s1 into s.
  apply spec_bind. apply spec_quiet; [intros ??; keep | | intros; eapply counted_of; [done | apply H1]]. intros pid s2 E2 _.
  apply spec_bind. apply spec_quiet; [intros ??; keep | | intros; eapply counted_of; [| apply H1]; congruence]. intros _ s3 E3 _.
  rewrite E2 in E3. apply spec_bind. eapply spec_mono; [apply set_used; unfold shut, counted; by rewrite E3 | | done].
  intros [] s4 H4.
  assert (Hfail : forall s', fresh p s' -> spec (freeproc p >> zoom (release (plock p)) >> kret nullp) s' (fun np s'' => counted s'' /\ (np = nullp \/ fresh np s'')) counted).
  { intros s' Hs'. apply spec_bind. eapply spec_mono; [apply freeproc_ok, Hs' | | done]. intros [] s5 H5.
    apply spec_bind, spec_release. intros h. apply spec_ret. split; [exact H5 | by left]. }
  assert (Hq : forall A (m : P A) (k : A -> P Z) s0 Q, fresh p s0 -> quiet m -> (forall a s', fresh p s' -> spec (k a) s' Q counted) -> spec (kbind m k) s0 Q counted).
  { intros A m k s0 Q H0 Hm Hk. apply spec_bind. eapply (spec_keeps (fresh p)); [by apply fresh_quiet | done | auto | intros; by eapply fresh_counted]. }
  apply Hq; [done | intros ??; keep | intros tf s5 H5]. apply Hq; [done | intros ??; keep | intros _ s6 H6]. apply spec_if; [auto | intros _].
  apply Hq; [done | intros ??; keep | intros pt s7 H7]. apply Hq; [done | intros ??; keep | intros _ s8 H8]. apply spec_if; [auto | intros _].
  apply Hq; [done | intros ??; keep | intros q s9 H9]. apply Hq; [done | intros ??; keep | intros _ s10 H10].
  apply spec_ret. split; [by eapply fresh_counted | by right].
Qed.

(** [fork] copies the descriptors from number [i] on. *)
Definition copying (np i : Z) s : Prop :=
  counted s /\ is_proc (view s) np /\ (proc_of (view s) np).1 = USED /\ forall j, i <= j -> fd_of (view s) np j = null.

Lemma fork_files_ok n p np i s :
  copying np i s -> 0 <= i -> i + Z.of_nat n <= NOFILE -> spec (fork_files n p np i) s (fun _ => counted) counted.
Proof.
  revert i s. induction n as [| n IH]; intros i s Hs Hi Hn; cbn [fork_files]; [apply spec_ret, Hs |].
  apply spec_bind. unfold get_proc, spec at 1, kgets. apply spec_bind. destruct Hs as (H1 & H2 & H3 & H4).
  assert (Ef : nthZ nullp (p_ofile (pat s p)) i = fd_of (view s) p i) by (by rewrite view_fd). rewrite Ef. set (f := fd_of (view s) p i).
  assert (Hnext : forall s', counted s' -> is_proc (view s') np -> (proc_of (view s') np).1 = USED ->
    (forall j, i + 1 <= j -> fd_of (view s') np j = null) -> spec (fork_files n p np (i + 1)) s' (fun _ => counted) counted).
  { intros s' ????. apply IH; [done | lia | lia]. }
  destruct (negb (f =? nullp)) eqn:Ez; cbn [kwhen]; zbool; [| apply spec_ret, Hnext; try done; intros; apply H4; lia].
  assert (Hf : 0 <= f < NFILE) by (destruct (fo_range _ _ H1 p i) as [E | ?]; [by destruct Ez | done]).
  apply spec_bind. apply (spec_fl (fo_filedup f)). eapply spec_mono; [apply (filedup_ok (pviews s) none f) | | done]; [exact H1 | done |].
  intros f' t1 [-> Ht] s1 E1 C1. rewrite <- E1 in Ht.
  assert (Hp1 : v_procs (view s1) = v_procs (view s)) by (by rewrite E1).
  assert (Ho : own (add none f) np (view s1)).
  { split_and!; [done | unfold is_proc; by rewrite Hp1 | unfold proc_of; rewrite Hp1; fold (proc_of (view s) np); rewrite H3; by intros []]. }
  assert (Hfd : forall j, fd_of (view s1) np j = fd_of (view s) np j) by (intros; unfold fd_of, proc_of; by rewrite Hp1).
  destruct (own_put (add none f) none np (view s1) i f Ho) as [(Hv & Hq & Hst) Hfds]; [lia | by right | |].
  { intros g Hg. rewrite Hfd, H4, null_out by (done || lia). unfold add, none. lia. }
  unfold spec, upd_proc, kmod. apply Hnext; unfold counted; rewrite ?view_upd_fd.
  - exact Hv.
  - exact Hq.
  - unfold put_fd. rewrite proc_put, decide_True by apply Ho. cbn. unfold proc_of. by rewrite Hp1.
  - intros j Hj. rewrite Hfds, (proj2 (Z.eqb_neq j i)), Hfd by lia. apply H4. lia.
Qed.

Lemma counted_state p st s : ~ idle st -> counted s -> counted (set_procs (updZ (r_procs s) p (set_state st (pat s p))) s).
Proof.
  intros Hi Hs. unfold counted. rewrite view_upd. change (pview (set_state st (pat s p))) with (st, (pview (pat s p)).2).
  rewrite <- view_proc. apply fd_state; [done | by intros ?].
Qed.

Lemma keeps_counted {A} (m : P A) : quiet m -> keeps counted m.
Proof.
  intros Hm s Hs. specialize (Hm (view s) (r_cur s) s (conj eq_refl eq_refl)). unfold counted in *.
  destruct (m s); try done; by destruct Hm as [-> _].
Qed.
Lemma keeps_counted_state p st : ~ idle st -> keeps counted (upd_proc p (set_state st)).
Proof. intros Hi. apply keeps_mod. intros s. by apply counted_state. Qed.

(** Sequences of code that moves no reference and of changes between the
    states of a live process. *)
Ltac lives := repeat match goal with
  | |- keeps _ (kret _) => apply keeps_ret
  | |- keeps _ (kpanic _) => apply keeps_panic
  | |- keeps _ kfuel => apply keeps_fuel
  | |- keeps _ (ksleep _) => apply keeps_sleep
  | |- keeps _ (kbind _ _) => apply keeps_bind; [| intros ?]
  | |- keeps _ (kwhen _ _) => apply keeps_when
  | |- keeps _ (if _ then _ else _) => apply keeps_if
  | |- keeps counted (upd_proc _ (set_state _)) => apply keeps_counted_state; by intros []
  | |- keeps counted _ => solve [auto | apply keeps_counted; intros ??; keep]
  end.

Ltac live1 := apply keeps_counted; intros ??; keep.

Lemma fork_ok s : counted s -> spec (fork forkret_addr) s (fun _ => counted) counted.
Proof.
  intros Hs. unfold fork. apply spec_bind. unfold myproc, spec at 1, kgets. generalize (r_cur s). intros p. apply spec_bind.
  eapply spec_mono; [by apply allocproc_ok | | done]. intros np s1 [H1 Hnp]. apply spec_if; [intros _; by apply spec_ret | intros Hn].
  zbool. destruct Hnp as [? | Hnp]; [done |]. clear s Hs H1. rename s1 into s.
  assert (Hq : forall A (m : P A) (k : A -> P Z) s0, fresh np s0 -> quiet m -> (forall a s', fresh np s' -> spec (k a) s' (fun _ => counted) counted) -> spec (kbind m k) s0 (fun _ => counted) counted).
  { intros A m k s0 H0 Hm Hk. apply spec_bind. eapply (spec_keeps (fresh np)); [by apply fresh_quiet | done | auto | intros; by eapply fresh_counted]. }
  do 2 (apply Hq; [done | intros ??; keep | clear dependent s; intros ? s Hnp]).
  apply Hq; [done | intros ??; keep | clear dependent s; intros r s Hnp]. apply spec_if.
  { intros _. apply spec_bind. eapply spec_mono; [apply freeproc_ok, Hnp | | done]. intros [] s5 H5.
    eapply (spec_keeps counted); [lives | done | done | done]. }
  intros _. do 4 (apply Hq; [done | intros ??; keep | clear dependent s; intros ? s Hnp]).
  apply spec_bind. eapply spec_mono; [apply fork_files_ok | | done]; [| lia | done |].
  { destruct Hnp as ((H1 & H2) & H3 & H4). split; [exact H1 |]. split; [exact H3 |]. split; [exact H4 |]. intros j _; apply H2. }
  intros [] s6 H6. eapply (spec_keeps counted); [| exact H6 | done | done].
  apply keeps_bind; [| intros ?]; [apply keeps_counted; intros ??; apply quiet_fl, quietf_fs |]. lives.
Qed.

(** [exit] has closed the descriptors below [fd] of the running process. *)
Definition leaving (p fd : Z) s : Prop :=
  own none p (view s) /\ (proc_of (view s) p).1 = RUNNING /\ r_cur s = p /\ forall j, j < fd -> fd_of (view s) p j = null.
(** Where [exit] may sleep: before it is done, or for good. *)
Definition exited (p : Z) s : Prop := (proc_of (view s) p).1 = ZOMBIE -> counted s.

Lemma leaving_quiet {A} p fd (m : P A) : quiet m -> keeps (leaving p fd) m.
Proof.
  intros Hm s Hs. specialize (Hm (view s) (r_cur s) s (conj eq_refl eq_refl)). unfold leaving in *.
  destruct (m s); try done; by destruct Hm as [-> ->].
Qed.
Lemma leaving_exited p fd s : leaving p fd s -> exited p s.
Proof. intros (_ & H & _) E. congruence. Qed.

Lemma exit_files_refs n p fd s :
  leaving p fd s -> 0 <= fd -> fd + Z.of_nat n = NOFILE ->
  spec (exit_files n p fd) s (fun _ => leaving p NOFILE) (exited p).
Proof.
  revert fd s. induction n as [| n IH]; intros fd s Hs Hfd Hn; cbn [exit_files].
  { apply spec_ret. by replace NOFILE with fd by lia. }
  apply spec_bind. unfold get_proc, spec at 1, kgets. apply spec_bind. destruct Hs as (Ho & Hr & Hc & Hz).
  assert (Ef : nthZ nullp (p_ofile (pat s p)) fd = fd_of (view s) p fd) by (by rewrite view_fd). rewrite Ef.
  destruct (negb (_ =? nullp)) eqn:Ez; cbn [kwhen]; zbool.
  2: { apply spec_ret, IH; [| lia | lia]. split_and!; try done. intros j Hj. destruct (decide (j = fd)) as [-> |]; [done | apply Hz; lia]. }
  set (f := fd_of (view s) p fd) in *. assert (Hf : 0 <= f < NFILE) by (by apply own_fd).
  apply spec_bind. apply (spec_fl (fileclose (p_pid (pat s p)) f)).
  eapply spec_mono; [apply (fileclose_ok (pviews s) (p_pid (pat s p)) (fun g => - one f g) f) | |]; [| done | |].
  { change (fd_ok (add (fun g => - one f g) f) (view s)). eapply fd_ok_ext; [apply Ho |]. intros g _. unfold add, none. lia. }
  2: { intros t1 _ s1 E1 _ Hzz. rewrite E1 in Hzz. unfold proc_of, V in Hzz. cbn in Hzz. unfold proc_of, view, V in Hr. cbn in Hr. congruence. }
  intros _ t1 [H1 _] s1 E1 C1. rewrite <- E1 in H1.
  assert (Hp1 : v_procs (view s1) = v_procs (view s)) by (by rewrite E1).
  assert (Hq : forall j, proc_of (view s1) j = proc_of (view s) j) by (intros; unfold proc_of; by rewrite Hp1).
  assert (Ho1 : own (fun g => - one f g) p (view s1)).
  { split; [done |]. destruct Ho as (_ & Ho1 & Ho2). split; [unfold is_proc; by rewrite Hp1 | by rewrite Hq]. }
  destruct (own_put (fun g => - one f g) none p (view s1) fd null Ho1) as [Ho2 Hfds]; [lia | by left | |].
  { intros g Hg. unfold fd_of. rewrite Hq. fold (fd_of (view s) p fd). fold f. rewrite null_out by done. unfold none. lia. }
  unfold spec, upd_proc, kmod. apply IH; [| lia | lia]. unfold leaving. rewrite view_upd_fd. split; [exact Ho2 |]. split; [| split].
  - unfold put_fd. rewrite proc_put, decide_True by apply Ho1. cbn. by rewrite Hq.
  - cbn. congruence.
  - intros j Hj. rewrite Hfds. case_if; [done |]. zbool. unfold fd_of. rewrite Hq. apply Hz. lia.
Qed.

Lemma leaving_wake p fd q st s :
  q <> p -> ~ idle st -> leaving p fd s -> leaving p fd (set_procs (updZ (r_procs s) q (set_state st (pat s q))) s).
Proof.
  intros Hne Hi ((H1 & H2 & H3) & H4 & H5 & H6). assert (Hc := counted_state q st s Hi H1).
  assert (E : proc_of (view (set_procs (updZ (r_procs s) q (set_state st (pat s q))) s)) p = proc_of (view s) p).
  { rewrite view_upd. unfold proc_of, put_proc. cbn. by apply nthZ_updZ_ne. }
  unfold leaving, own, fd_of. rewrite E. split_and!; try done.
  rewrite view_upd. unfold is_proc, put_proc. cbn. by rewrite length_updZ.
Qed.

Lemma wakeup_leaving n q p fd c s :
  leaving p fd s -> spec (wakeup_loop n q c) s (fun _ => leaving p fd) (fun _ => False).
Proof.
  revert q s. induction n as [| n IH]; intros q s Hs; cbn [wakeup_loop]; [by apply spec_ret |].
  apply spec_bind. unfold myproc, spec at 1, kgets. apply spec_bind. pose proof Hs as (_ & _ & -> & _).
  destruct (negb (q =? p)) eqn:E; cbn [kwhen]; zbool; [| by apply spec_ret, IH].
  apply spec_bind, spec_acquire. intros h. apply spec_bind. unfold get_proc, spec at 1, kgets.
  assert (Hl : forall b, leaving p fd b -> spec (zoom (release (plock q))) b (fun _ s' => spec (wakeup_loop n (q + 1) c) s' (fun _ => leaving p fd) (fun _ => False)) (fun _ => False)).
  { intros b Hb. apply spec_release. intros h'. apply IH. exact Hb. }
  apply spec_bind. destruct (_ && _)%bool; cbn [kwhen].
  - unfold spec at 1, upd_proc, kmod. apply Hl, leaving_wake; [done | by intros [] | exact Hs].
  - apply spec_ret, Hl, Hs.
Qed.

Lemma reparent_leaving n p fd pp s :
  leaving p fd s -> spec (reparent_loop n p pp) s (fun _ => leaving p fd) (fun _ => False).
Proof.
  revert pp s. induction n as [| n IH]; intros pp s Hs; cbn [reparent_loop]; [by apply spec_ret |].
  apply spec_bind. unfold get_proc, spec at 1, kgets. apply spec_bind. destruct (_ =? p); cbn [kwhen]; [| by apply spec_ret, IH].
  apply spec_bind. unfold spec at 1. apply spec_bind.
  eapply (spec_awake (leaving p fd)); [by intros ? | apply leaving_quiet; intros ??; keep | done |].
  intros _ s1 H1. eapply spec_mono; [by apply wakeup_leaving | | done]. intros [] s2 H2. by apply IH.
Qed.

Lemma exit_refs st s :
  running s -> p_state (pat s (r_cur s)) = RUNNING -> counted s ->
  spec (exit (A := unit) sw st) s (fun _ => counted) (exited (r_cur s)).
Proof.
  intros [Hp Hi] Hr Hs. unfold exit. apply spec_bind. unfold myproc, spec at 1, kgets. set (p := r_cur s) in *.
  apply spec_bind. unfold spec at 1. apply spec_if; [done | intros _]. apply spec_bind.
  eapply spec_mono; [apply exit_files_refs | | done]; [| done | done |].
  { split; [split_and!; done |]. split; [by rewrite view_proc |]. split; [done |]. intros j Hj. rewrite view_fd. unfold nthZ. case_if; [done |]. zbool. lia. }
  clearbody p. clear s Hp Hi Hr Hs. intros [] s Hs.
  assert (Hq : forall A (m : P A) (k : A -> P unit) s0, leaving p NOFILE s0 -> quiet m ->
    (forall a s', leaving p NOFILE s' -> spec (k a) s' (fun _ => counted) (exited p)) -> spec (kbind m k) s0 (fun _ => counted) (exited p)).
  { intros A m k s0 H0 Hm Hk. apply spec_bind. eapply (spec_keeps (leaving p NOFILE)); [by apply leaving_quiet | done | auto | intros; by eapply leaving_exited]. }
  do 2 (apply Hq; [exact Hs | intros ??; apply quiet_begin || keep | clear dependent s; intros ? s Hs]).
  apply Hq; [exact Hs | intros ??; apply quiet_fl, quietf_fs | clear dependent s; intros ? s Hs].
  apply Hq; [exact Hs | intros ??; apply quiet_end | clear dependent s; intros ? s Hs].
  do 2 (apply Hq; [exact Hs | intros ??; keep | clear dependent s; intros ? s Hs]).
  apply spec_bind. eapply spec_mono; [by apply reparent_leaving | | done]. clear dependent s. intros [] s Hs.
  apply Hq; [exact Hs | intros ??; keep | clear dependent s; intros ? s Hs].
  apply spec_bind. eapply spec_mono; [by apply wakeup_leaving | | done]. clear dependent s. intros [] s Hs.
  do 2 (apply Hq; [exact Hs | intros ??; keep | clear dependent s; intros ? s Hs]).
  apply spec_bind. unfold spec at 1, upd_proc, kmod. eapply (spec_keeps counted).
  - lives. unfold sched. lives.
  - unfold counted. rewrite view_upd. change (pview (set_state ZOMBIE (pat s p))) with (ZOMBIE, (pview (pat s p)).2).
    rewrite <- view_proc. destruct Hs as ((H1 & H2 & H3) & H4 & H5 & H6). apply fd_state; [done |]. intros _ j.
    destruct (decide (j < NOFILE)); [by apply H6 |]. apply nthZ_ge. pose proof (fo_nfd _ _ H1 p H2) as Hl.
    fold (proc_of (view s) p) in Hl. rewrite Hl. unfold NOFILE in *. lia.
  - done.
  - by intros s' Hs' _.
Qed.

Lemma keeps_wait_refs n p addr pp h : keeps counted (wait_scan n p addr pp h).
Proof.
  revert pp h. induction n as [| n IH]; intros pp h; cbn [wait_scan]; [apply keeps_ret |].
  apply keeps_bind; [live1 | intros qq]. apply keeps_if; [| apply IH]. apply keeps_bind; [live1 | intros _].
  intros s Hs. set (m := kbind _ _). change (spec m s (fun _ => counted) counted). subst m.
  apply spec_bind. unfold get_proc, spec at 1, kgets. destruct (is_state (p_state (pat s pp)) ZOMBIE) eqn:Ez.
  2: { eapply (spec_keeps counted); [| exact Hs | done | done]. apply keeps_bind; [live1 | intros _; apply IH]. }
  assert (Hz : shut pp s).
  { split; [done |]. apply (fo_idle _ _ Hs). right. fold (proc_of (view s) pp). rewrite view_proc. unfold is_state in Ez. by zbool. }
  apply spec_bind. unfold spec at 1. apply spec_bind.
  eapply (spec_keeps (shut pp)); [apply shut_quiet; intros ??; keep | done | | by intros s' []].
  intros r s1 H1. apply spec_if; intros _.
  - eapply (spec_keeps counted); [lives | apply H1 | done | done].
  - apply spec_bind. eapply spec_mono; [by apply freeproc_ok | | done]. intros [] s2 H2.
    eapply (spec_keeps counted); [lives | exact H2 | done | done].
Qed.

Lemma keeps_sched_refs : keeps counted (sched sw).
Proof. unfold sched. lives. Qed.
Lemma keeps_sleep_refs c lk : keeps counted (sleep sw c lk).
Proof. pose proof keeps_sched_refs. unfold sleep. lives. Qed.
Lemma quiet_killed v c p : keeps (at_ v c) (killed p).
Proof. unfold killed. keep. Qed.
Hint Resolve quiet_killed : keeps.

Lemma wait_refs fuel addr : keeps counted (wait sw fuel addr).
Proof.
  unfold wait. apply keeps_bind; [live1 | intros p]. apply keeps_bind; [live1 | intros _].
  induction fuel as [| fuel IH]; cbn [wait_loop]; [apply keeps_fuel |].
  apply keeps_bind; [apply keeps_wait_refs | intros [pid | h]]; [apply keeps_ret |].
  pose proof (keeps_sleep_refs (proc_chan p) wait_lock). lives.
Qed.

Lemma keeps_wakeup_refs n p c : keeps counted (wakeup_loop n p c).
Proof. revert p. induction n as [| n IH]; intros p; cbn [wakeup_loop]; lives. Qed.
Lemma keeps_kill_refs n p pid : keeps counted (kill_loop n p pid).
Proof. revert p. induction n as [| n IH]; intros p; cbn [kill_loop]; lives. Qed.
Lemma keeps_yield_refs : keeps counted (yield sw).
Proof. pose proof keeps_sched_refs. unfold yield. lives. Qed.
Lemma keeps_choose_refs p : keeps counted (choose p).
Proof. unfold choose. lives. intros s Hs. exact Hs. Qed.
Lemma keeps_tail_refs lk : keeps counted (sleep_tail lk).
Proof. unfold sleep_tail. lives. Qed.

Lemma userinit_refs s : counted s -> spec (userinit forkret_addr initcode) s (fun _ => counted) counted.
Proof.
  intros Hs. unfold userinit. apply spec_bind. eapply spec_mono; [by apply allocproc_ok | | done].
  intros np s1 [H1 _]. eapply (spec_keeps counted); [| exact H1 | done | done].
  do 7 (apply keeps_bind; [live1 | intros ?]). apply keeps_bind; [| intros cwd; lives].
  apply keeps_counted. intros ??. apply quiet_fl, quietf_fs.
Qed.

(** ** Histories *)

Inductive fcall := FDup | FRead | FWrite | FClose | FFstat | FLink | FUnlink | FOpen | FMkdir | FMknod | FChdir | FExec | FPipe.

Definition handler (c : fcall) : P Z :=
  match c with
  | FDup => sys_dup de name lit
  | FRead => sys_read de name lit devsw_read
  | FWrite => sys_write de name lit devsw_write
  | FClose => sys_close de name lit
  | FFstat => sys_fstat de name lit stpad
  | FLink => sys_link de name lit path new
  | FUnlink => sys_unlink de name lit path dot dotdot
  | FOpen => sys_open de name lit path dot dotdot
  | FMkdir => sys_mkdir de name lit path dot dotdot
  | FMknod => sys_mknod de name lit path dot dotdot
  | FChdir => sys_chdir de name lit path
  | FExec => sys_exec de name lit elf ph path
  | FPipe => sys_pipe de name lit
  end.

(** The running process, if there is one, is RUNNING. *)
Definition in_process s : Prop := 0 <= r_cur s < NPROC /\ p_state (pat s (r_cur s)) = RUNNING.

(** A step runs a handler, or an operation on processes, until it returns or
    sleeps; [exit] until its last switch; or is any other code, which
    leaves descriptors, process states and the file table alone. *)
Inductive fdstep s s' : Prop :=
| fd_handler c : in_process s -> goes (handler c) s s' -> fdstep s s'
| fd_fork : goes (fork forkret_addr) s s' -> fdstep s s'
| fd_exit st : in_process s -> goes (exit (A := unit) sw st) s s' -> p_state (pat s' (r_cur s)) = ZOMBIE -> fdstep s s'
| fd_wait fuel addr : goes (wait sw fuel addr) s s' -> fdstep s s'
| fd_userinit : goes (userinit forkret_addr initcode) s s' -> fdstep s s'
| fd_kill pid : goes (kill pid) s s' -> fdstep s s'
| fd_wakeup c : goes (wakeup c) s s' -> fdstep s s'
| fd_sleep c lk : goes (sleep sw c lk) s s' -> fdstep s s'
| fd_tail lk : goes (sleep_tail lk) s s' -> fdstep s s'
| fd_yield : goes (yield sw) s s' -> fdstep s s'
| fd_choose p : goes (choose p) s s' -> fdstep s s'
| fd_other :
    map p_state (r_procs s') = map p_state (r_procs s) -> map p_ofile (r_procs s') = map p_ofile (r_procs s) ->
    map f_ref (fl_file (r_fs s')) = map f_ref (fl_file (r_fs s)) ->
    map f_type (fl_file (r_fs s')) = map f_type (fl_file (r_fs s)) -> fdstep s s'.

Lemma goes_spec {A} (m : P A) s s' Z : spec m s (fun _ => Z) Z -> goes m s s' -> Z s'.
Proof. unfold spec. intros H [[a E] | [c E]]; by rewrite E in H. Qed.

Lemma goes_counted {A} (m : P A) s s' : keeps counted m -> counted s -> goes m s s' -> counted s'.
Proof. intros Hm Hs. apply goes_spec. by apply (spec_keeps counted). Qed.

Lemma in_process_own s : in_process s -> counted s -> own none (r_cur s) (view s) /\ running s.
Proof.
  intros [H1 H2] Hs. pose proof (fo_nproc _ _ Hs) as Hn.
  assert (is_proc (view s) (r_cur s)) by (unfold is_proc; rewrite Hn; lia).
  assert (~ idle (proc_of (view s) (r_cur s)).1) by (rewrite view_proc; cbn; rewrite H2; by intros []). done.
Qed.

Lemma handler_ok c s : own none (r_cur s) (view s) -> spec (handler c) s (fun _ => counted) counted.
Proof.
  intros Ho. destruct c; cbn [handler].
  - by apply sys_dup_ok.
  - apply counted_quiet; [intros v c; apply quiet_sys_read | apply Ho].
  - apply counted_quiet; [intros v c; apply quiet_sys_write | apply Ho].
  - by apply sys_close_ok.
  - apply counted_quiet; [intros v c; apply quiet_sys_fstat | apply Ho].
  - apply counted_quiet; [intros v c; apply quiet_sys_link | apply Ho].
  - apply counted_quiet; [intros v c; apply quiet_sys_unlink | apply Ho].
  - by apply sys_open_ok.
  - apply counted_quiet; [intros v c; apply quiet_sys_mkdir | apply Ho].
  - apply counted_quiet; [intros v c; apply quiet_sys_mknod | apply Ho].
  - apply counted_quiet; [intros v c; apply quiet_sys_chdir | apply Ho].
  - apply counted_quiet; [intros v c; apply quiet_sys_exec | apply Ho].
  - by apply sys_pipe_ok.
Qed.

Lemma map_pair {A B C} (f : A -> B) (g : A -> C) l l' :
  map f l' = map f l -> map g l' = map g l -> map (fun x => (f x, g x)) l' = map (fun x => (f x, g x)) l.
Proof.
  revert l'. induction l as [| x l IH]; intros [| x' l'] H1 H2; try done. cbn in *. injection H1 as -> H1. injection H2 as -> H2.
  by rewrite IH.
Qed.

Lemma fdstep_counted s s' : fdstep s s' -> counted s -> counted s'.
Proof.
  intros Hst Hs. destruct Hst as [c Hp Hg | Hg | st Hp Hg Hz | fuel addr Hg | Hg | pid Hg | c Hg | c lk Hg | lk Hg | Hg | p Hg | E1 E2 E3 E4].
  - eapply goes_spec; [apply handler_ok; by apply in_process_own | done].
  - eapply goes_spec; [by apply fork_ok | done].
  - destruct (in_process_own s Hp Hs) as [_ Hr].
    assert (Hx : exited (r_cur s) s').
    { eapply goes_spec; [| exact Hg]. eapply spec_mono; [apply exit_refs; [done | apply Hp | done] | intros [] s'' H _; exact H | done]. }
    apply Hx. rewrite view_proc. exact Hz.
  - eapply goes_counted; [apply wait_refs | done..].
  - eapply goes_spec; [by apply userinit_refs | done].
  - eapply goes_counted; [apply keeps_kill_refs | done..].
  - eapply goes_counted; [apply keeps_wakeup_refs | done..].
  - eapply goes_counted; [apply keeps_sleep_refs | done..].
  - eapply goes_counted; [apply keeps_tail_refs | done..].
  - eapply goes_counted; [apply keeps_yield_refs | done..].
  - eapply goes_counted; [apply keeps_choose_refs | done..].
  - assert (E : view s' = view s); [| by eapply counted_of].
    unfold view, V, pviews, pview, files_of, entry. f_equal; by apply map_pair.
Qed.

(** The tables as the loader leaves them. *)
Definition zero_tables s : Prop :=
  r_procs s = replicate NP proc0 /\ fl_file (r_fs s) = replicate (Z.to_nat NFILE) file0.

Lemma zero_counted s : zero_tables s -> counted s.
Proof.
  intros [H1 H2]. assert (Ep : forall p, proc_of (view s) p = proc_v0).
  { intros p. rewrite view_proc. unfold pat. rewrite H1. unfold nthZ. case_if; [done |]. by rewrite nth_replicate. }
  assert (Ef : forall f, file_of (view s) f = file_v0).
  { intros f. rewrite view_file. unfold fat. rewrite H2. unfold nthZ. case_if; [done |]. by rewrite nth_replicate. }
  assert (Hc : closed (replicate (Z.to_nat NOFILE) null)).
  { intros fd. unfold nthZ. case_if; [done |]. by rewrite nth_replicate. }
  assert (Er : forall n f, 0 <= f < NFILE -> nrefs f (replicate n proc_v0) = 0).
  { intros n f Hf. induction n as [| n IH]; [done |]. cbn [replicate nrefs]. rewrite IH. unfold occ.
    rewrite (proj1 (count_occ_not_In _ _ _)); [done |]. cbn. intros Hin. apply list_elem_of_In, elem_of_replicate in Hin.
    unfold null in Hin. lia. }
  split.
  - unfold view, V, pviews. cbn. by rewrite length_map, H1, length_replicate.
  - intros p _. change (length (proc_of (view s) p).2 = Z.to_nat NOFILE). by rewrite Ep.
  - unfold view, V, files_of. cbn. by rewrite length_map, H2, length_replicate.
  - intros p fd. left. change (nthZ null (proc_of (view s) p).2 fd = null). rewrite Ep. apply Hc.
  - intros f Hf. change ((file_of (view s) f).1 = nrefs f (pviews s) + 0). rewrite Ef. unfold pviews. rewrite H1.
    change (map pview (replicate NP proc0)) with (pview <$> replicate NP proc0). rewrite fmap_replicate.
    change (pview proc0) with proc_v0. by rewrite Er.
  - intros f Hf _. change ((file_of (view s) f).2 = FD_NONE). by rewrite Ef.
  - intros p _. change (closed (proc_of (view s) p).2). rewrite Ep. apply Hc.
Qed.

Lemma nrefs_concat f l : nrefs f (map pview l) = Z.of_nat (count_occ Z.eq_dec (concat (map p_ofile l)) f).
Proof.
  induction l as [| q l IH]; [done |]. cbn [map nrefs concat]. rewrite IH, count_occ_app. unfold occ. cbn. lia.
Qed.

End refs.

(** ** Witness: init opens a pipe *)

From S2P Require Import Log BioProofs LogTxn FsBlocks.
From S2P Require Bio.

#[local] Existing Instance boot_layout.

Definition wit_sys : prs (fls (lst Bio.bst)) :=
  Prs ∅ (replicate NP proc0) nullp 1 nullp true boot_pr 0
    (Fls (Fsys ∅ [] (Lst ∅ [] new_log (b_boot ∅)) wit_sb (replicate (Z.to_nat NINODE) inode0) boot_pm [])
       ∅ (replicate (Z.to_nat NFILE) file0) ∅).

#[local] Instance wit_fo : FileOps (fls (lst Bio.bst)) := file_ops 100 200 300.

(** The trap saves the registers: [a0], the user pointer, is 0. *)
Definition wit_regs : K (prs (fls (lst Bio.bst))) unit := tf_store 0 TF_a0 0.

Definition in_process_b (s : prs (fls (lst Bio.bst))) : bool :=
  (r_cur s =? 0) && is_state (p_state (pat s 0)) RUNNING.

Definition wit_run : K (prs (fls (lst Bio.bst))) Z :=
  userinit 0x80001000 [1; 2; 3] >>
  choose 0 >>
  wit_regs >>
  ok <- kgets in_process_b ;;
  if ok then sys_pipe 100 200 300 else kfuel.

Definition wit_check (o : outcome (prs (fls (lst Bio.bst))) Z) : bool :=
  match o with
  | Ret r s => (r =? 0) && (nthZ null (p_ofile (pat s 0)) 1 =? 1)
  | _ => false
  end.

Lemma wit_run_ok : wit_check (wit_run wit_sys) = true.
Proof. vm_compute. reflexivity. Qed.

