(* ===== verification/Csr.v ===== *)
(** * kernel/riscv.h: the registers of a hart

    The control and status registers the kernel reads and writes, and [tp].
    An accessor is one instruction. *)

From stdpp Require Import functions.
From S2P Require Import Prelude Riscv.

Inductive reg :=
| mhartid | mstatus | mepc | sstatus | sip | sie | mie | sepc | medeleg | mideleg | stvec | mtvec
| pmpcfg0 | pmpaddr0 | satp | mscratch | scause | stval | tp.

#[export] Instance reg_eq_dec : EqDecision reg.
Proof. solve_decision. Defined.

Abbreviation regs := (reg -> Z).

(** kernel/riscv.h *)
Definition MSTATUS_MPP_MASK : Z := Z.shiftl 3 11.
Definition MSTATUS_MPP_S : Z := Z.shiftl 1 11.
Definition MSTATUS_MIE : Z := Z.shiftl 1 3.
Definition SIE_SEIE : Z := Z.shiftl 1 9.
Definition SIE_STIE : Z := Z.shiftl 1 5.
Definition SIE_SSIE : Z := Z.shiftl 1 1.
Definition MIE_MTIE : Z := Z.shiftl 1 7.

Section access.
Context {S : Type} `{Lens S regs}.

Definition csrr (r : reg) : K S Z := kgets (fun s => lget s r).
Definition csrw (r : reg) (x : Z) : K S unit :=
  kmod (fun s => lset (<[r := u64 x]> (lget s : regs)) s).

Definition r_mhartid := csrr mhartid.
Definition r_mstatus := csrr mstatus.
Definition w_mstatus := csrw mstatus.
Definition w_mepc := csrw mepc.
Definition r_sstatus := csrr sstatus.
Definition w_sstatus := csrw sstatus.
Definition r_sip := csrr sip.
Definition w_sip := csrw sip.
Definition r_sie := csrr sie.
Definition w_sie := csrw sie.
Definition r_mie := csrr mie.
Definition w_mie := csrw mie.
Definition w_sepc := csrw sepc.
Definition r_sepc := csrr sepc.
Definition w_medeleg := csrw medeleg.
Definition w_mideleg := csrw mideleg.
Definition w_stvec := csrw stvec.
Definition w_mtvec := csrw mtvec.
Definition w_pmpcfg0 := csrw pmpcfg0.
Definition w_pmpaddr0 := csrw pmpaddr0.
Definition w_satp := csrw satp.
Definition r_satp := csrr satp.
Definition w_mscratch := csrw mscratch.
Definition r_scause := csrr scause.
Definition r_stval := csrr stval.
Definition r_tp := csrr tp.
Definition w_tp := csrw tp.

(** [~x] of a 64-bit constant. *)
Definition not64 (x : Z) : Z := u64 (Z.lnot x).

Definition intr_on : K S unit := x <- r_sstatus ;; w_sstatus (Z.lor x SSTATUS_SIE).
Definition intr_off : K S unit := x <- r_sstatus ;; w_sstatus (Z.land x (not64 SSTATUS_SIE)).
Definition intr_get : K S bool := x <- r_sstatus ;; kret (negb (Z.land x SSTATUS_SIE =? 0)).

(** [cpuid()] of proc.c *)
Definition cpuid : K S Z := x <- r_tp ;; kret (i32 x).
End access.
