(* ===== verification/Trap.v ===== *)
(** * kernel/trap.c and kernel/plic.c: traps

    The state of a hart in the kernel: its registers, the processes with all
    that belongs to them, the disk driver, and the registers of the interrupt
    controller, whose answers to a claim are an input.  The jump to [userret]
    at the end of [usertrapret] is its result, the [satp] passed there.
    While a process sleeps or is interrupted other code runs on the hart, and
    the process may go on on another hart: [others] is what that does to the
    registers. *)

From stdpp Require Import functions.
From S2P Require Import Prelude Riscv Spinlock Sleeplock Mem CString Kalloc Vm Block Uart Console Printf Proc Syscall Sysproc Keeps Csr Virtio.

(** kernel/memlayout.h *)
Definition PLIC_SENABLE (hart : Z) : Z := PLIC + 0x2080 + hart * 0x100.
Definition PLIC_SPRIORITY (hart : Z) : Z := PLIC + 0x201000 + hart * 0x2000.
Definition PLIC_SCLAIM (hart : Z) : Z := PLIC + 0x201004 + hart * 0x2000.

(** Offsets in [struct trapframe]. *)
Definition TF_kernel_satp : Z := 0.
Definition TF_kernel_sp : Z := 8.
Definition TF_kernel_trap : Z := 16.
Definition TF_kernel_hartid : Z := 32.

Record plic := Plic {
  pl_claims : list Z;          (* what the next claims answer, 0 when it is empty *)
  pl_writes : list (Z * Z);    (* the stores, last first *)
}.

Record trs (F : Type) := Trs {
  t_regs : regs;
  t_prs : prs F;
  t_disk : vst;
  t_plic : plic;
}.
Arguments Trs {F}.
Arguments t_regs {F}.
Arguments t_prs {F}.
Arguments t_disk {F}.
Arguments t_plic {F}.

#[export] Instance trs_regs F : Lens (trs F) regs.
Proof. refine {| lget := t_regs; lset x s := Trs x (t_prs s) (t_disk s) (t_plic s) |}; by try intros []. Defined.
#[export] Instance trs_prs F : Lens (trs F) (prs F).
Proof. refine {| lget := t_prs; lset x s := Trs (t_regs s) x (t_disk s) (t_plic s) |}; by try intros []. Defined.
#[export] Instance trs_disk F : Lens (trs F) vst.
Proof. refine {| lget := t_disk; lset x s := Trs (t_regs s) (t_prs s) x (t_plic s) |}; by try intros []. Defined.

Section trap.
Context {F : Type} `{FO : FileOps F} `{L : Layout}.
Variable swtch : K (prs F) unit.
Variable others : regs -> regs.
Variable syscall : K (prs F) unit.                  (* syscall.c *)
Variable procdump : K cst unit.                      (* for ^P on the console *)
Variables kernelvec uservec userret usertrap_addr : Z.
Abbreviation T := (K (trs F)).

(** ** kernel/plic.c *)

Definition plic_store (a x : Z) : T unit :=
  kmod (fun s => Trs (t_regs s) (t_prs s) (t_disk s) (Plic (pl_claims (t_plic s)) ((a, u32 x) :: pl_writes (t_plic s)))).

Definition plicinit : T unit :=
  plic_store (PLIC + UART0_IRQ * 4) 1 >>
  plic_store (PLIC + VIRTIO0_IRQ * 4) 1.

Definition plicinithart : T unit :=
  hart <- cpuid ;;
  plic_store (PLIC_SENABLE hart) (Z.lor (Z.shiftl 1 UART0_IRQ) (Z.shiftl 1 VIRTIO0_IRQ)) >>
  plic_store (PLIC_SPRIORITY hart) 0.

Definition plic_claim : T Z :=
  _ <- cpuid ;;
  s <- kget ;;
  match pl_claims (t_plic s) with
  | [] => kret 0
  | irq :: rest =>
      kmod (fun s => Trs (t_regs s) (t_prs s) (t_disk s) (Plic rest (pl_writes (t_plic s)))) >>
      kret (i32 irq)
  end.

Definition plic_complete (irq : Z) : T unit :=
  hart <- cpuid ;;
  plic_store (PLIC_SCLAIM hart) irq.

(** ** kernel/trap.c *)

Definition trapinit : T unit := zoom (T := prs F) (zoom (initlock tickslock)).
Definition trapinithart : T unit := w_stvec kernelvec.

Definition tprintf (fmt : bytes) (ap : list varg) : T unit := zoom (T := prs F) (zoom (Kernel.printf (Some (fmt ++ [nl])) ap)).

Definition clockintr : K (prs F) unit :=
  zoom (acquire tickslock) >>
  kmod (fun s => Prs (r_held s) (r_procs s) (r_initproc s) (r_nextpid s) (r_cur s) (r_first s) (r_pr s) (u32 (r_ticks s + 1)) (r_fs s)) >>
  wakeup ticks_chan >>
  zoom (release tickslock).

Definition devintr : T Z :=
  c <- r_scause ;;
  if (negb (Z.land c 0x8000000000000000 =? 0) && (Z.land c 0xff =? 9))%bool then
    irq <- plic_claim ;;
    (if irq =? UART0_IRQ then zoom (T := prs F) (zoom (T := Kernel.pst) (zoom (H := Kernel.pst_cons) (uartintr procdump)))
     else if irq =? VIRTIO0_IRQ then zoom virtio_disk_intr
     else if negb (irq =? 0) then tprintf (cstr "unexpected interrupt irq=%d") [VInt irq]
     else kret tt) >>
    kwhen (negb (irq =? 0)) (plic_complete irq) >>
    kret 1
  else if c =? 0x8000000000000001 then
    id <- cpuid ;;
    kwhen (id =? 0) (zoom clockintr) >>
    x <- r_sip ;;
    w_sip (Z.land x (not64 2)) >>
    kret 2
  else kret 0.

(** Other code runs on this hart. *)
Definition interleave : T unit := kmod (fun s => lset (others (lget s)) s).

(** [yield()] *)
Definition tyield : T unit := zoom (yield swtch) >> interleave.

Definition usertrapret : T Z :=
  p <- zoom (T := prs F) myproc ;;
  q <- zoom (T := prs F) (get_proc p) ;;
  intr_off >>
  w_stvec (TRAMPOLINE + (uservec - trampoline)) >>
  x <- r_satp ;;
  zoom (T := prs F) (tf_store p TF_kernel_satp x) >>
  zoom (T := prs F) (tf_store p TF_kernel_sp (p_kstack q + PGSIZE)) >>
  zoom (T := prs F) (tf_store p TF_kernel_trap usertrap_addr) >>
  h <- r_tp ;;
  zoom (T := prs F) (tf_store p TF_kernel_hartid h) >>
  x <- r_sstatus ;;
  let x := Z.land x (not64 SSTATUS_SPP) in
  let x := Z.lor x SSTATUS_SPIE in
  w_sstatus x >>
  epc <- zoom (T := prs F) (tf_load q TF_epc) ;;
  w_sepc epc >>
  kret (MAKE_SATP (p_pagetable q)).

Definition usertrap : T Z :=
  st <- r_sstatus ;;
  if negb (Z.land st SSTATUS_SPP =? 0) then kpanic "usertrap: not from user mode" else
  w_stvec kernelvec >>
  p <- zoom (T := prs F) myproc ;;
  pc <- r_sepc ;;
  zoom (T := prs F) (tf_store p TF_epc pc) >>
  c <- r_scause ;;
  which_dev <-
    (if c =? 8 then
       k <- zoom (T := prs F) (killed p) ;;
       kwhen (negb (k =? 0)) (zoom (T := prs F) (exit swtch (-1))) >>
       q <- zoom (T := prs F) (get_proc p) ;;
       e <- zoom (T := prs F) (tf_load q TF_epc) ;;
       zoom (T := prs F) (tf_store p TF_epc (u64 (e + 4))) >>
       intr_on >>
       zoom syscall >>
       interleave >>
       kret 0
     else
       d <- devintr ;;
       if negb (d =? 0) then kret d else
       q <- zoom (T := prs F) (get_proc p) ;;
       tprintf (cstr "usertrap(): unexpected scause %p pid=%d") [VInt c; VInt (p_pid q)] >>
       e <- r_sepc ;;
       v <- r_stval ;;
       tprintf (cstr "            sepc=%p stval=%p") [VInt e; VInt v] >>
       zoom (T := prs F) (setkilled p) >>
       kret 0) ;;
  k <- zoom (T := prs F) (killed p) ;;
  kwhen (negb (k =? 0)) (zoom (T := prs F) (exit swtch (-1))) >>
  kwhen (which_dev =? 2) tyield >>
  usertrapret.

Definition kerneltrap : T unit :=
  pc <- r_sepc ;;
  st <- r_sstatus ;;
  c <- r_scause ;;
  if Z.land st SSTATUS_SPP =? 0 then kpanic "kerneltrap: not from supervisor mode" else
  i <- intr_get ;;
  if (i : bool) then kpanic "kerneltrap: interrupts enabled" else
  which_dev <- devintr ;;
  if which_dev =? 0 then
    tprintf (cstr "scause %p") [VInt c] >>
    e <- r_sepc ;;
    v <- r_stval ;;
    tprintf (cstr "sepc=%p stval=%p") [VInt e; VInt v] >>
    kpanic "kerneltrap"
  else
  p <- zoom (T := prs F) myproc ;;
  q <- zoom (T := prs F) (get_proc p) ;;
  kwhen ((which_dev =? 2) && negb (p =? nullp) && is_state (p_state q) RUNNING)%bool tyield >>
  w_sepc pc >>
  w_sstatus st.
End trap.

(** ** Back to user mode *)

Section trap_proofs.
Context {F : Type} `{FO : FileOps F} `{L : Layout}.
Variable swtch : K (prs F) unit.
Variable others : regs -> regs.
Variable syscall : K (prs F) unit.
Variable procdump : K cst unit.
Variables kernelvec uservec usertrap_addr : Z.

Definition tmem (s : prs F) : mem := pm_mem (lget s).

(** The process that runs is [p], its trap frame is at [tf], and the user
    program counter saved there is [e]. *)
Definition own (p tf e : Z) (s : prs F) : Prop :=
  r_cur s = p /\ 0 <= p < Z.of_nat (length (r_procs s)) /\ p_trapframe (pat s p) = tf /\ ld64 (tmem s) (tf + TF_epc) = e.

(** What [userret] and the next trap from user space rely on. *)
Record user_ready (s : trs F) (arg : Z) : Prop := {
  ur_stvec : t_regs s stvec = u64 (TRAMPOLINE + (uservec - trampoline));
  ur_user : Z.land (t_regs s sstatus) SSTATUS_SPP = 0;
  ur_masked : Z.land (t_regs s sstatus) SSTATUS_SIE = 0;
  ur_enabled : Z.land (t_regs s sstatus) SSTATUS_SPIE = SSTATUS_SPIE;
  ur_satp : arg = MAKE_SATP (p_pagetable (pat (t_prs s) (r_cur (t_prs s))));
  ur_tf : let q := pat (t_prs s) (r_cur (t_prs s)) in
    let field off := ld64 (tmem (t_prs s)) (p_trapframe q + off) in
    field TF_kernel_satp = u64 (t_regs s satp) /\ field TF_kernel_sp = u64 (p_kstack q + PGSIZE) /\
    field TF_kernel_trap = u64 usertrap_addr /\ field TF_kernel_hartid = u64 (t_regs s tp) /\
    t_regs s sepc = field TF_epc;
}.

Lemma own_locks p tf e (h : locks) s : own p tf e s -> own p tf e (lset h s).
Proof. by intros (? & ? & ? & ?). Qed.
Lemma own_pr p tf e (x : Kernel.pst) s : own p tf e s -> own p tf e (lset x s).
Proof. by intros (? & ? & ? & ?). Qed.

Lemma keeps_own_upd p tf e i f : (forall q, p_trapframe (f q) = p_trapframe q) -> keeps (own p tf e) (upd_proc (F := F) i f).
Proof.
  intros Hf s (H1 & H0 & H2 & H3). cbn. split; [done |]. split; [cbn; by rewrite length_updZ |]. split; [| done]. rewrite <- H2. unfold pat, set_procs. cbn [r_procs].
  destruct (decide (0 <= i < Z.of_nat (length (r_procs s)))); [| by rewrite updZ_out].
  rewrite nthZ_updZ by done. destruct (Z.eqb_spec p i) as [-> |]; [apply Hf | done].
Qed.

Lemma keeps_any_myproc (I : prs F -> Prop) : keeps I myproc.
Proof. apply keeps_gets. Qed.
Lemma keeps_any_get_proc (I : prs F -> Prop) i : keeps I (get_proc i).
Proof. apply keeps_gets. Qed.

#[local] Hint Resolve own_locks own_pr keeps_own_upd keeps_any_myproc keeps_any_get_proc : keeps.
#[local] Hint Extern 5 (keeps (own _ _ _) (zoom _)) => apply keeps_zoom; intros ? ? ? : keeps.

Lemma keeps_own_wakeup p tf e n : forall i chan, keeps (own p tf e) (wakeup_loop (F := F) n i chan).
Proof. induction n as [| n IH]; intros i chan; cbn [wakeup_loop]; auto 20 with keeps. Qed.

Lemma keeps_clockintr p tf e : keeps (own p tf e) clockintr.
Proof.
  unfold clockintr, wakeup. apply keeps_bind; [auto with keeps |]. intros []. apply keeps_bind.
  { apply keeps_mod. by intros s (? & ? & ? & ?). }
  intros []. apply keeps_bind; [apply keeps_own_wakeup |]. auto with keeps.
Qed.

(** The same of the whole state. *)
Abbreviation towns p tf e := (fun s : trs F => own p tf e (t_prs s)).

Lemma keeps_zoom_prs {A} p tf e (m : K (prs F) A) : keeps (own p tf e) m -> keeps (towns p tf e) (zoom m).
Proof. intros Hm s Hs. specialize (Hm (t_prs s) Hs). unfold zoom. cbn. destruct (m (t_prs s)); auto. Qed.
Lemma keeps_csrr p tf e r : keeps (towns p tf e) (csrr r).
Proof. apply keeps_gets. Qed.
Lemma keeps_csrw p tf e r x : keeps (towns p tf e) (csrw r x).
Proof. by apply keeps_mod. Qed.
Lemma keeps_cpuid p tf e : keeps (towns p tf e) cpuid.
Proof. apply keeps_bind; [apply keeps_csrr |]. auto with keeps. Qed.
Lemma keeps_plic_store p tf e a x : keeps (towns p tf e) (plic_store a x).
Proof. by apply keeps_mod. Qed.
Lemma keeps_printf p tf e fmt ap : keeps (towns p tf e) (tprintf fmt ap).
Proof. apply keeps_zoom_prs. auto with keeps. Qed.

Lemma keeps_plic_claim p tf e : keeps (towns p tf e) plic_claim.
Proof.
  apply keeps_bind; [apply keeps_cpuid |]. intros _. apply keeps_bind; [auto with keeps |]. intros s. destruct (pl_claims (t_plic s)); [auto with keeps |].
  apply keeps_bind; [by apply keeps_mod | auto with keeps].
Qed.

Lemma keeps_devintr p tf e : keeps (towns p tf e) (devintr procdump).
Proof.
  unfold devintr. apply keeps_bind; [apply keeps_csrr |]. intros c. apply keeps_if.
  - apply keeps_bind; [apply keeps_plic_claim |]. intros irq. apply keeps_bind.
    + repeat apply keeps_if; [apply keeps_zoom_prs; auto with keeps | by apply keeps_zoom | apply keeps_printf | auto with keeps].
    + intros []. apply keeps_bind; [apply keeps_when | auto with keeps]. apply keeps_bind; [apply keeps_cpuid |]. intros h. apply keeps_plic_store.
  - apply keeps_if; [| auto with keeps]. apply keeps_bind; [apply keeps_cpuid |]. intros id.
    apply keeps_bind; [apply keeps_when, keeps_zoom_prs, keeps_clockintr |]. intros []. apply keeps_bind; [apply keeps_csrr |]. intros x.
    apply keeps_bind; [apply keeps_csrw | auto with keeps].
Qed.

(** *** [usertrapret] *)

Definition stored (a v : Z) (s s' : prs F) : Prop :=
  r_cur s' = r_cur s /\ r_procs s' = r_procs s /\ tmem s' = st64 (tmem s) a v.

Lemma tf_store_ok p off v (s : trs F) :
  wp (zoom (T := prs F) (tf_store p off v)) s (fun _ s' =>
    t_regs s' = t_regs s /\ stored (p_trapframe (pat (t_prs s) p) + off) v (t_prs s) (t_prs s')).
Proof.
  unfold wp, zoom, tf_store, kbind, get_proc, kgets, zoom, set_mem, kmod. cbn. split; [done |]. split_and!; [done | done |].
  unfold tmem. cbn. by rewrite lget_lset.
Qed.

Lemma wp_zoom_gets {A} (g : prs F -> A) (s : trs F) Q : Q (g (t_prs s)) s -> wp (zoom (kgets g)) s Q.
Proof. intros HQ. unfold wp, zoom, kgets. by destruct s. Qed.
Lemma wp_tf_load q off (s : trs F) Q : Q (ld64 (tmem (t_prs s)) (p_trapframe q + off)) s -> wp (zoom (T := prs F) (tf_load q off)) s Q.
Proof. intros HQ. unfold wp, zoom, tf_load, zoom, kgets. rewrite !lset_lget. exact HQ. Qed.
Lemma wp_csrr (s : trs F) r Q : Q (t_regs s r) s -> wp (csrr r) s Q.
Proof. done. Qed.
Lemma wp_csrw (s : trs F) r x Q : Q tt (lset (<[r := u64 x]> (t_regs s)) s) -> wp (csrw r x) s Q.
Proof. done. Qed.

Lemma u64_bit z k : 0 <= k < 64 -> Z.testbit (u64 z) k = Z.testbit z k.
Proof. intros. unfold u64. apply Z.mod_pow2_bits_low. lia. Qed.

(** The status that [usertrapret] leaves. *)
Lemma user_status x :
  let y := u64 (Z.lor (Z.land (u64 (Z.land x (not64 SSTATUS_SIE))) (not64 SSTATUS_SPP)) SSTATUS_SPIE) in
  Z.land y SSTATUS_SPP = 0 /\ Z.land y SSTATUS_SIE = 0 /\ Z.land y SSTATUS_SPIE = SSTATUS_SPIE.
Proof.
  cbv zeta. split_and!.
  - etrans; [apply (land_bit _ 8); lia |]. rewrite u64_bit, Z.lor_spec, Z.land_spec by lia.
    change (Z.testbit (not64 SSTATUS_SPP) 8) with false. by rewrite andb_false_r.
  - etrans; [apply (land_bit _ 1); lia |]. rewrite u64_bit, Z.lor_spec, Z.land_spec, u64_bit, Z.land_spec by lia.
    change (Z.testbit (not64 SSTATUS_SIE) 1) with false. by rewrite andb_false_r.
  - etrans; [apply (land_bit _ 5); lia |]. rewrite u64_bit, Z.lor_spec by lia.
    change (Z.testbit SSTATUS_SPIE 5) with true. by rewrite orb_true_r.
Qed.

Lemma usertrapret_ok s :
  wp (usertrapret uservec usertrap_addr) s (fun a s' =>
    user_ready s' a /\ forall p tf e, own p tf e (t_prs s) -> t_regs s' sepc = e).
Proof.
  unfold usertrapret. apply wp_bind, wp_zoom_gets, wp_bind, wp_zoom_gets. set (p := r_cur (t_prs s)). set (q := pat (t_prs s) p).
  apply wp_bind. unfold intr_off, r_sstatus, w_sstatus, w_stvec, r_satp, r_tp, w_sepc. apply wp_bind, wp_csrr, wp_csrw.
  apply wp_bind, wp_csrw. apply wp_bind, wp_csrr. set (s1 := lset _ _). assert (E1 : t_prs s1 = t_prs s) by done.
  assert (R1 : t_regs s1 = <[stvec := u64 (TRAMPOLINE + (uservec - trampoline))]> (<[sstatus := u64 (Z.land (t_regs s sstatus) (not64 SSTATUS_SIE))]> (t_regs s))) by done.
  clearbody s1. set (a1 := t_regs s1 satp).
  assert (Hp : forall s' : trs F, r_procs (t_prs s') = r_procs (t_prs s) -> pat (t_prs s') p = q) by (intros s' E; unfold pat; by rewrite E).
  apply wp_bind. eapply wp_mono; [apply tf_store_ok |]. intros [] s2 (R2 & C2 & P2 & M2).
  apply wp_bind. eapply wp_mono; [apply tf_store_ok |]. intros [] s3 (R3 & C3 & P3 & M3).
  apply wp_bind. eapply wp_mono; [apply tf_store_ok |]. intros [] s4 (R4 & C4 & P4 & M4).
  apply wp_bind, wp_csrr. apply wp_bind. eapply wp_mono; [apply tf_store_ok |]. intros [] s5 (R5 & C5 & P5 & M5).
  rewrite E1 in C2, P2, M2. change (pat (t_prs s) p) with q in M2. rewrite (Hp s2) in M3 by congruence. rewrite (Hp s3) in M4 by congruence.
  rewrite (Hp s4) in M5 by congruence.
  apply wp_bind, wp_csrr. apply wp_bind, wp_csrw. apply wp_bind, wp_tf_load. apply wp_bind, wp_csrw. apply wp_ret.
  set (tf := p_trapframe q) in *. assert (Rg : t_regs s5 = t_regs s1) by congruence. cbn [t_prs lset lget trs_regs] in *.
  assert (Hm : tmem (t_prs s5) = st64 (st64 (st64 (st64 (tmem (t_prs s)) (tf + TF_kernel_satp) a1) (tf + TF_kernel_sp) (p_kstack q + PGSIZE))
    (tf + TF_kernel_trap) usertrap_addr) (tf + TF_kernel_hartid) (t_regs s4 tp)) by congruence.
  assert (He : ld64 (tmem (t_prs s5)) (tf + TF_epc) = ld64 (tmem (t_prs s)) (tf + TF_epc)).
  { rewrite Hm. unfold TF_epc, TF_kernel_satp, TF_kernel_sp, TF_kernel_trap, TF_kernel_hartid. by rewrite !ld64_st64_ne by lia. }
  split.
  - assert (Ecur : r_cur (t_prs s5) = p) by (unfold p; congruence). assert (Eq : pat (t_prs s5) p = q) by (apply Hp; congruence).
    destruct (user_status (t_regs s sstatus)) as (U1 & U2 & U3).
    assert (Est : t_regs s5 sstatus = u64 (Z.land (t_regs s sstatus) (not64 SSTATUS_SIE))) by (by rewrite Rg, R1).
    split; cbn [t_regs t_prs lset trs_regs]; rewrite ?Ecur, ?Eq; fold tf.
    + rewrite !fn_lookup_insert_ne by done. by rewrite Rg, R1.
    + rewrite fn_lookup_insert_ne, fn_lookup_insert, Est by done. exact U1.
    + rewrite fn_lookup_insert_ne, fn_lookup_insert, Est by done. exact U2.
    + rewrite fn_lookup_insert_ne, fn_lookup_insert, Est by done. exact U3.
    + done.
    + rewrite fn_lookup_insert. rewrite !(fn_lookup_insert_ne _ sepc), !(fn_lookup_insert_ne _ sstatus) by done.
      rewrite He. rewrite Hm. unfold TF_epc, TF_kernel_satp, TF_kernel_sp, TF_kernel_trap, TF_kernel_hartid.
      split_and!.
      * rewrite !ld64_st64_ne, ld64_st64_eq by lia. unfold a1. by rewrite Rg.
      * by rewrite !ld64_st64_ne, ld64_st64_eq by lia.
      * by rewrite !ld64_st64_ne, ld64_st64_eq by lia.
      * rewrite ld64_st64_eq. congruence.
      * apply u64_small, ld64_range.
  - intros p' tf' e (H1 & _ & H2 & H3). cbn [t_regs lset trs_regs]. rewrite fn_lookup_insert, He. subst p'. fold p q in H2. fold q in H2. fold tf in H2. subst tf'.
    rewrite H3. apply u64_small. rewrite <- H3. apply ld64_range.
Qed.

(** *** [usertrap] and [kerneltrap] *)

Definition never {S A} (m : K S A) : Prop := forall s a s', m s <> Ret a s'.

Lemma never_bind {S A B} (m : K S A) (f : A -> K S B) : (forall a, never (f a)) -> never (kbind m f).
Proof. intros Hf s b s'. unfold kbind. destruct (m s); [apply Hf | done..]. Qed.

Lemma exit_never {A} status : never (exit (A := A) (F := F) swtch status).
Proof.
  unfold exit. apply never_bind. intros p. apply never_bind. intros ip. destruct (p =? ip); [by intros ? |].
  repeat (apply never_bind; intros ?). by intros ?.
Qed.

(** [if(c) exit(-1);]: what follows runs when it does not exit. *)
Lemma wlp_exit c s Q : (c = false -> Q tt s) -> wlp (kwhen c (zoom (exit swtch (-1)))) s (Q : unit -> trs F -> Prop).
Proof.
  intros HQ. destruct c; [| by apply HQ]. unfold wlp, kwhen, zoom. pose proof (exit_never (A := unit) (-1) (lget s)) as Hn.
  destruct (exit swtch (-1) (lget s)) as [a s' | | |] eqn:E; [by destruct (Hn a s') | done..].
Qed.

Lemma wlp_keeps {A} (I : trs F -> Prop) (m : K (trs F) A) s (Q : A -> trs F -> Prop) : keeps I m -> I s -> (forall a s', I s' -> Q a s') -> wlp m s Q.
Proof. intros Hk Hs HQ. specialize (Hk s Hs). unfold wlp. destruct (m s); auto. Qed.

Lemma wlp_any {S A} (m : K S A) s (Q : A -> S -> Prop) : (forall a s', Q a s') -> wlp m s Q.
Proof. intros HQ. unfold wlp. by destruct (m s). Qed.

(** The causes [devintr] recognises. *)
Definition dev_cause (c : Z) : bool :=
  ((negb (Z.land c 0x8000000000000000 =? 0) && (Z.land c 0xff =? 9)) || (c =? 0x8000000000000001))%bool.

Lemma devintr_cause (s : trs F) d s' : devintr procdump s = Ret d s' -> d <> 0 -> dev_cause (t_regs s scause) = true.
Proof.
  unfold devintr. unfold r_scause, csrr, kbind at 1, kgets at 1. cbn [lget trs_regs]. intros H Hd. unfold dev_cause.
  destruct (_ && _)%bool; [done |]. cbn [orb]. destruct (_ =? 0x8000000000000001); [done |]. by injection H as <- <-.
Qed.

Lemma killed_ok p (s : trs F) Q :
  (forall s' : trs F, t_regs s' = t_regs s -> r_procs (t_prs s') = r_procs (t_prs s) -> (forall tf e, own p tf e (t_prs s) -> own p tf e (t_prs s')) ->
     Q (p_killed (pat (t_prs s) p)) s') ->
  wlp (zoom (T := prs F) (killed p)) s Q.
Proof.
  intros HQ. unfold killed, wlp, zoom at 1, kbind. unfold zoom at 1. destruct (acquire (plock p) (lget (lget s))) as [[] h | | |]; try done.
  cbn [get_proc kgets]. unfold zoom. destruct (release (plock p) _) as [[] h' | | |]; try done. cbn. apply HQ; [done | done |].
  intros tf e (? & ? & ? & ?). done.
Qed.

(** The context that a process left is the one it goes on in. *)
Hypothesis swtch_own : forall p tf e, keeps (own p tf e) swtch.

Lemma keeps_tyield p tf e : keeps (towns p tf e) (tyield swtch others).
Proof.
  unfold tyield. apply keeps_bind; [| intros []; by apply keeps_mod]. apply keeps_zoom_prs. unfold yield, sched.
  apply keeps_bind; [auto with keeps |]. intros q. apply keeps_bind; [auto with keeps |]. intros []. apply keeps_bind; [auto with keeps |]. intros [].
  apply keeps_bind; [| auto with keeps]. apply keeps_bind; [auto with keeps |]. intros p'. apply keeps_bind; [auto with keeps |]. intros h.
  apply keeps_bind; [auto with keeps |]. intros q'. repeat (apply keeps_if; [auto with keeps |]). apply swtch_own.
Qed.

Lemma wlp_keeps_all {A} p (m : K (trs F) A) s (Q : A -> trs F -> Prop) :
  (forall tf e, keeps (towns p tf e) m) ->
  (forall a s', (forall tf e, own p tf e (t_prs s) -> own p tf e (t_prs s')) -> Q a s') -> wlp m s Q.
Proof.
  intros Hk HQ. unfold wlp. destruct (m s) as [a s' | | |] eqn:E; [| done..]. apply HQ. intros tf e Ho. specialize (Hk tf e s Ho). by rewrite E in Hk.
Qed.

(** From the second check of [killed] on. *)
Lemma usertrap_tail which p (s : trs F) :
  wlp (k <- zoom (T := prs F) (killed p) ;; kwhen (negb (k =? 0)) (zoom (T := prs F) (exit swtch (-1))) >>
       kwhen (which =? 2) (tyield swtch others) >> usertrapret uservec usertrap_addr) s
    (fun a s' => p_killed (pat (t_prs s) p) = 0 /\ user_ready s' a /\ forall tf e, own p tf e (t_prs s) -> t_regs s' sepc = e).
Proof.
  apply wlp_bind, killed_ok. intros s1 _ _ Hk. apply wlp_bind, wlp_exit. intros Ek. zbool.
  apply wlp_bind, (wlp_keeps_all p); [intros; apply keeps_when, keeps_tyield |]. intros [] s2 Ho2.
  apply wp_wlp. eapply wp_mono; [apply usertrapret_ok |]. intros a s3 [Hu He]. split_and!; [done | done |]. intros tf e Ho. by eapply He, Ho2, Hk.
Qed.

Lemma setkilled_ok p tf e (s : trs F) Q :
  own p tf e (t_prs s) -> (forall s' : trs F, own p tf e (t_prs s') -> p_killed (pat (t_prs s') p) = 1 -> Q tt s') ->
  wlp (zoom (T := prs F) (setkilled p)) s Q.
Proof.
  intros (H1 & H2 & H3 & H4) HQ. unfold setkilled, wlp, zoom at 1, kbind. unfold zoom at 1. destruct (acquire (plock p) (lget (lget s))) as [[] h | | |]; try done.
  cbn [upd_proc kmod]. unfold zoom. destruct (release (plock p) _) as [[] h' | | |]; try done. cbn.
  assert (E : nthZ proc0 (updZ (r_procs (t_prs s)) p (set_killed 1 (pat (t_prs s) p))) p = set_killed 1 (pat (t_prs s) p)) by (by apply nthZ_updZ_eq).
  apply HQ; [split; [done |]; split; [cbn; by rewrite length_updZ |]; split; [| done] |]; unfold pat; cbn; fold (pat (t_prs s) p); rewrite E; done.
Qed.

Lemma usertrap_dev p tf e c (s : trs F) :
  own p tf e (t_prs s) -> t_regs s scause = c ->
  wlp (which_dev <- (d <- devintr procdump ;;
       if negb (d =? 0) then kret d else
       q <- zoom (T := prs F) (get_proc p) ;;
       tprintf (cstr "usertrap(): unexpected scause %p pid=%d") [VInt c; VInt (p_pid q)] >>
       e <- r_sepc ;; v <- r_stval ;;
       tprintf (cstr "            sepc=%p stval=%p") [VInt e; VInt v] >>
       zoom (T := prs F) (setkilled p) >> kret 0) ;;
     k <- zoom (T := prs F) (killed p) ;; kwhen (negb (k =? 0)) (zoom (T := prs F) (exit swtch (-1))) >>
     kwhen (which_dev =? 2) (tyield swtch others) >> usertrapret uservec usertrap_addr) s
    (fun a s' => user_ready s' a /\ dev_cause c = true /\ t_regs s' sepc = e).
Proof.
  intros Ho Hc. apply wlp_bind, wlp_bind. unfold wlp at 1. destruct (devintr procdump s) as [d s1 | | |] eqn:E; try done.
  pose proof (keeps_devintr p tf e s Ho) as Ho1. rewrite E in Ho1. destruct (Z.eqb_spec d 0) as [-> | Hd]; cbn [negb].
  - apply wlp_bind, (wlp_keeps (towns p tf e)); [apply keeps_zoom_prs; auto with keeps | done |]. intros q s2 Ho2.
    apply wlp_bind, (wlp_keeps (towns p tf e)); [apply keeps_printf | done |]. intros [] s3 Ho3.
    apply wlp_bind, (wlp_keeps (towns p tf e)); [apply keeps_csrr | done |]. intros x s4 Ho4.
    apply wlp_bind, (wlp_keeps (towns p tf e)); [apply keeps_csrr | done |]. intros y s5 Ho5.
    apply wlp_bind, (wlp_keeps (towns p tf e)); [apply keeps_printf | done |]. intros [] s6 Ho6.
    apply wlp_bind. eapply setkilled_ok; [exact Ho6 |]. intros s7 Ho7 Hk. unfold wlp at 1, kret.
    eapply wlp_mono; [apply usertrap_tail |]. intros a s8 (Hk' & _). by rewrite Hk in Hk'.
  - unfold wlp at 1, kret. eapply wlp_mono; [apply usertrap_tail |]. intros a s2 (_ & Hu & He). split_and!; [done | | by eapply He].
    rewrite <- Hc. by eapply devintr_cause.
Qed.

Lemma u64_idem z : u64 (u64 z) = u64 z.
Proof. unfold u64. by rewrite Z.mod_mod. Qed.

(** The saved program counter. *)
Lemma tf_store_epc p v (s : trs F) Q :
  0 <= p < Z.of_nat (length (r_procs (t_prs s))) -> r_cur (t_prs s) = p ->
  (forall s' : trs F, t_regs s' = t_regs s -> r_procs (t_prs s') = r_procs (t_prs s) ->
     own p (p_trapframe (pat (t_prs s) p)) (u64 v) (t_prs s') -> Q tt s') ->
  wlp (zoom (T := prs F) (tf_store p TF_epc v)) s Q.
Proof.
  intros Hp Hc HQ. apply wp_wlp. eapply wp_mono; [apply tf_store_ok |]. intros [] s' (Hr & H1 & H2 & H3). apply HQ; [done | done |].
  split; [congruence |]. split; [by rewrite H2 |]. split; [unfold pat; by rewrite H2 |]. rewrite H3. apply ld64_st64_eq.
Qed.

Lemma usertrap_ok (s : trs F) :
  let p := r_cur (t_prs s) in let c := t_regs s scause in let pc := t_regs s sepc in
  0 <= p < Z.of_nat (length (r_procs (t_prs s))) ->
  wlp (usertrap swtch others syscall procdump kernelvec uservec usertrap_addr) s (fun a s' =>
    user_ready s' a /\
    (c <> 8 -> dev_cause c = true /\ t_regs s' sepc = u64 pc) /\
    (c = 8 -> (forall tf e, keeps (own p tf e) syscall) -> t_regs s' sepc = u64 (u64 pc + 4))).
Proof.
  intros p c pc Hp. unfold usertrap, r_sstatus, w_stvec, r_sepc, r_scause. apply wlp_bind, wp_wlp, wp_csrr. destruct (negb _); [done |].
  apply wlp_bind, wp_wlp, wp_csrw. set (s0 := lset _ s). apply wlp_bind, wp_wlp, wp_zoom_gets. change (r_cur (t_prs s0)) with p.
  apply wlp_bind, wp_wlp, wp_csrr. change (t_regs s0 sepc) with pc. apply wlp_bind, tf_store_epc; [done | done |].
  intros s1 R1 P1 Ho. apply wlp_bind, wp_wlp, wp_csrr. assert (Ec : t_regs s1 scause = c) by (by rewrite R1). rewrite Ec.
  set (tf := p_trapframe _) in Ho. destruct (Z.eqb_spec c 8) as [E8 | E8].
  - apply wlp_bind, wlp_bind, killed_ok. intros s2 _ _ Hk2. specialize (Hk2 _ _ Ho). apply wlp_bind, wlp_exit. intros _.
    apply wlp_bind, wp_wlp, wp_zoom_gets. apply wlp_bind, wp_wlp, wp_tf_load. destruct Hk2 as (C2 & L2 & T2 & M2). rewrite T2, M2.
    apply wlp_bind, tf_store_epc; [done | done |]. intros s3 _ _ Ho3. rewrite T2 in Ho3. rewrite u64_idem in Ho3.
    apply wlp_bind. unfold intr_on, r_sstatus, w_sstatus. apply wlp_bind, wp_wlp, wp_csrr, wp_wlp, wp_csrw. set (s4 := lset _ s3).
    assert (Ho4 : own p tf (u64 (u64 pc + 4)) (t_prs s4)) by done. clearbody s4. apply wlp_bind. unfold wlp at 1, zoom at 1.
    destruct (syscall (lget s4)) as [[] t5 | | |] eqn:Es; try done. apply wlp_bind. unfold wlp at 1, interleave, kmod. unfold wlp at 1, kret.
    eapply wlp_mono; [apply usertrap_tail |]. intros a s6 (_ & Hu & He). split_and!; [done | done |]. intros _ Hsys. apply (He tf).
    specialize (Hsys tf _ (lget s4) Ho4). by rewrite Es in Hsys.
  - eapply wlp_mono; [by apply (usertrap_dev p tf (u64 pc) c) |]. intros a s2 (Hu & Hd & He). by split_and!.
Qed.

Lemma kerneltrap_ok (s : trs F) :
  wlp (kerneltrap swtch others procdump) s (fun _ s' =>
    t_regs s' sepc = u64 (t_regs s sepc) /\ t_regs s' sstatus = u64 (t_regs s sstatus) /\ dev_cause (t_regs s scause) = true).
Proof.
  unfold kerneltrap, r_sepc, r_sstatus, r_scause. apply wlp_bind, wp_wlp, wp_csrr, wlp_bind, wp_wlp, wp_csrr, wlp_bind, wp_wlp, wp_csrr.
  destruct (Z.land _ _ =? 0); [done |]. apply wlp_bind. unfold intr_get, r_sstatus. apply wlp_bind, wp_wlp, wp_csrr, wp_wlp, wp_ret. destruct (negb _); [done |].
  apply wlp_bind. unfold wlp at 1. destruct (devintr procdump s) as [d s1 | | |] eqn:E; try done. destruct (Z.eqb_spec d 0) as [-> | Hd].
  { repeat (apply wlp_bind, wlp_any; intros ? ?). done. }
  do 3 (apply wlp_bind, wlp_any; intros ? ?). unfold w_sepc, w_sstatus. apply wlp_bind, wp_wlp, wp_csrw, wp_wlp, wp_csrw. cbn [t_regs lset lget trs_regs].
  split_and!; [by rewrite fn_lookup_insert_ne, fn_lookup_insert | by rewrite fn_lookup_insert | by eapply devintr_cause].
Qed.

(** C9: when a trap from user space ends, the hart is ready for user mode:
    interrupts are off until [sret] turns them on, which goes to user mode,
    to the saved program counter, with the process's page table; the next
    trap finds [uservec] and, in the trap frame, the kernel's page table, the
    process's kernel stack, [usertrap] and the number of this hart, which may
    have changed in between.  A system call goes on after its instruction
    (unless it loads another program), a device interrupt where it happened,
    and a process that trapped for any other reason is killed and does not
    come back.  [kerneltrap] only returns from device interrupts, and with
    [sepc] and [sstatus] as they were, whatever other traps do meanwhile. *)
Theorem trap_return (s : trs F) :
  let p := r_cur (t_prs s) in let c := t_regs s scause in let pc := t_regs s sepc in
  0 <= p < Z.of_nat (length (r_procs (t_prs s))) ->
  (forall a s', usertrap swtch others syscall procdump kernelvec uservec usertrap_addr s = Ret a s' ->
     user_ready s' a /\
     (c <> 8 -> dev_cause c = true /\ t_regs s' sepc = u64 pc) /\
     (c = 8 -> (forall tf e, keeps (own p tf e) syscall) -> t_regs s' sepc = u64 (u64 pc + 4))) /\
  (forall s', kerneltrap swtch others procdump s = Ret tt s' ->
     t_regs s' sepc = u64 pc /\ t_regs s' sstatus = u64 (t_regs s sstatus) /\ dev_cause c = true).
Proof.
  intros p c pc Hp. split.
  - intros a s' E. exact (wlp_elim _ _ _ _ _ (usertrap_ok s Hp) E).
  - intros s' E. exact (wlp_elim _ _ _ _ _ (kerneltrap_ok s) E).
Qed.
End trap_proofs.

(** ** Witness: a system call *)

#[local] Instance wit_layout : Layout :=
  {| kend := PHYSTOP - 3 * PGSIZE; etext := KERNBASE + PGSIZE; trampoline := KERNBASE |}.

(** A file layer that is only memory. *)
#[local] Instance wit_files : FileOps pm := {|
  fo_pm := {| lget := id; lset t _ := t; lget_lset _ _ := eq_refl; lset_lget _ := eq_refl; lset_lset _ _ _ := eq_refl |};
  fo_filedup f := kret f; fo_fileclose _ _ := kret tt; fo_begin_op := kret tt; fo_end_op := kret tt;
  fo_idup i := kret i; fo_iput _ _ := kret tt; fo_namei _ := kret 0; fo_fsinit _ := kret tt |}.

Definition wit_prs : prs pm :=
  Prs ∅ [set_state RUNNING (set_trapframe (PHYSTOP - PGSIZE) proc0)] nullp 1 0 false
    (Kernel.Pst (Cst (Ust ∅ [] 0 false (replicate 32 0) 0 0 [] [] [] []) (replicate 128 0) 0 0 0 (Pm ∅ ∅ 0)) false) 0 (Pm ∅ ∅ 0).
(** An [ecall] at 0x1234, in user mode. *)
Definition wit_trs : trs pm :=
  Trs (fun r => match r with scause => 8 | sepc => 0x1234 | tp => 3 | satp => MAKE_SATP 0x80042000 | _ => 0 end) wit_prs
    (Vst ∅ [] [] 0 [] 0 [] [] 0 [] [] ∅) (Plic [] []).

Definition returned {S A} (o : outcome S A) : bool := match o with Ret _ _ => true | _ => false end.

Lemma returned_ret {S A} (o : outcome S A) : returned o = true -> exists a s, o = Ret a s.
Proof. destruct o as [a s | | |]; try done. by exists a, s. Qed.

Lemma trap_return_witness : exists a s',
  usertrap (kret tt) id (kret tt) (kret tt) 0x80002000 0x80003000 0x80004000 wit_trs = Ret a s' /\
  t_regs s' sepc = 0x1238 /\ Z.land (t_regs s' sstatus) SSTATUS_SPP = 0.
Proof.
  assert (H : returned (usertrap (kret tt) id (kret tt) (kret tt) 0x80002000 0x80003000 0x80004000 wit_trs) = true) by (vm_compute; reflexivity).
  apply returned_ret in H as (a & s' & E). exists a, s'. split; [exact E |].
  destruct (trap_return (kret tt) id (kret tt) (kret tt) 0x80002000 0x80003000 0x80004000) with (s := wit_trs) as [Hu _].
  - intros p tf e. apply keeps_ret.
  - vm_compute. split; [discriminate | reflexivity].
  - destruct (Hu a s' E) as (Hr & _ & Hs). split; [| exact (ur_user _ _ _ _ Hr)]. rewrite Hs; [reflexivity | reflexivity |].
    intros tf e. apply keeps_ret.
Defined.
