(* ===== verification/Kvm.v ===== *)
(** * The kernel's address space

    [kvmmake] of kernel/vm.c with [proc_mapstacks] of kernel/proc.c, and
    [kvminit] and [kvminithart]: what the page table maps, exactly, and that
    the pages [kinit] has freed are enough for it. *)

From stdpp Require Import functions.
From S2P Require Import Prelude Riscv Spinlock Mem CString Kalloc Vm VmProofs VmUser Csr.

Section kvm.
Context `{L : Layout}.

(** ** kvminit and kvminithart *)

Record kst := Kst { k_pm : pm; k_regs : regs; kernel_pagetable : Z }.

#[export] Instance kst_pm : Lens kst pm.
Proof.
  refine {| lget := k_pm; lset x s := Kst x (k_regs s) (kernel_pagetable s) |}; by try intros [].
Defined.
#[export] Instance kst_regs : Lens kst regs.
Proof.
  refine {| lget := k_regs; lset x s := Kst (k_pm s) x (kernel_pagetable s) |}; by try intros [].
Defined.

Definition kvminit : K kst unit :=
  p <- zoom kvmmake ;;
  kmod (fun s => Kst (k_pm s) (k_regs s) p).

(** [sfence_vma] has no effect on a hart without a TLB. *)
Definition kvminithart : K kst unit :=
  s <- kget ;;
  w_satp (MAKE_SATP (kernel_pagetable s)).

(** ** What is mapped *)

Definition RW : Z := Z.lor PTE_R PTE_W.
Definition RX : Z := Z.lor PTE_R PTE_X.

(** The stack of process [j], below an unmapped page. *)
Definition stack_map (ps : list Z) (pg : Z) : option Z :=
  let j := (TRAMPOLINE / PGSIZE - 3 - pg) / 2 in
  if decide (pg = KSTACK j / PGSIZE /\ 0 <= j < Z.of_nat (length ps))
  then Some (mk_pte (nthZ 0 ps j) RW) else None.

(** The entry of virtual page [pg], with [ps] the pages of the stacks. *)
Definition kernel_map (ps : list Z) (pg : Z) : option Z :=
  if decide (pg = UART0 / PGSIZE) then Some (mk_pte (pg * PGSIZE) RW)
  else if decide (pg = VIRTIO0 / PGSIZE) then Some (mk_pte (pg * PGSIZE) RW)
  else if decide (PLIC / PGSIZE <= pg < PLIC / PGSIZE + 1024) then Some (mk_pte (pg * PGSIZE) RW)
  else if decide (KERNBASE / PGSIZE <= pg < etext / PGSIZE) then Some (mk_pte (pg * PGSIZE) RX)
  else if decide (etext / PGSIZE <= pg < PHYSTOP / PGSIZE) then Some (mk_pte (pg * PGSIZE) RW)
  else if decide (pg = TRAMPOLINE / PGSIZE) then Some (mk_pte trampoline RX)
  else stack_map ps pg.

(** ** An address space under construction *)

(** The tables map [M]; the pages [ps] have left the free list. *)
Record kspace (root : Z) (s : pm) (l : list Z) (T : gmap Z nat) (ps : list Z) (M : Z -> option Z) : Prop := {
  ks_inv : vm_inv s l root T;
  ks_pages : data_pages l T ps;
  ks_view : forall va, 0 <= va < MAXVA -> leaf (pm_mem s) root va = default 0 (M (va / PGSIZE))
}.

Definition over (c M : Z -> option Z) : Z -> option Z :=
  fun pg => match c pg with Some v => Some v | None => M pg end.

Lemma kspace_ext root s l T ps M M' :
  kspace root s l T ps M -> (forall pg, 0 <= pg < MAXVA / PGSIZE -> M pg = M' pg) -> kspace root s l T ps M'.
Proof.
  intros [H1 H2 H3] E. split; try done. intros va Hva. rewrite H3 by done. f_equal. apply E.
  change (MAXVA / PGSIZE) with (2 ^ 26). change MAXVA with (2 ^ 38) in Hva. unfold PGSIZE. dlia.
Qed.

Lemma kspace_step root s l T ps M s' l' T' c :
  kspace root s l T ps M -> vmstep root s l T s' l' T' c -> kspace root s' l' T' ps (over c M).
Proof.
  intros [H1 [D1 D2 D3 D4] H3] [V1 (l0 & -> & Vt) _ _ _ V6]. split; [done | split; [done | done | |] |].
  - intros p Hp. specialize (D3 p Hp). set_solver.
  - intros p Hp. apply Vt. split; [by apply D4 |]. specialize (D3 p Hp). set_solver.
  - intros va Hva. rewrite V6, H3 by done. unfold over. by destruct (c _).
Qed.

(** [kvmmap] of whole pages, with pages enough for the tables. *)
Lemma kvmmap_ok root s l T ps M va pa n perm :
  let size := n * PGSIZE in
  let cost := 2 * (region (va + size - 1) - region va) + 2 in
  kspace root s l T ps M -> 0 <= va -> va mod PGSIZE = 0 -> 0 < n -> va + size <= MAXVA ->
  0 <= pa -> pa + size + PGSIZE <= 2 ^ 56 -> pa mod PGSIZE = 0 -> 0 <= perm < 1024 ->
  (forall pg, va / PGSIZE <= pg < va / PGSIZE + n -> M pg = None) ->
  cost < Z.of_nat (length l) ->
  exists s' l' T', kvmmap root va pa size perm s = Ret tt s' /\
    kspace root s' l' T' ps (over (map_chg (va / PGSIZE) n pa perm) M) /\
    Z.of_nat (length l) <= Z.of_nat (length l') + cost.
Proof.
  intros size cost Hk Hva Hal Hn HM Hpa Hpa2 Hpal Hperm Hfree Hcost.
  assert (MAXVA = 2 ^ 38) as HMv by reflexivity.
  destruct (mappages_ok s l root T va size pa perm (ks_inv _ _ _ _ _ _ Hk))
    as (r & s' & l' & T' & c & E & V & Hr & Hb & _); try done.
  { subst size. unfold PGSIZE. lia. }
  { intros v Hv. rewrite PGROUNDDOWN_eq in Hv by (unfold PGSIZE in *; lia).
    rewrite (ks_view _ _ _ _ _ _ Hk), Hfree; [done | | ]; subst size; unfold PGSIZE in *; dlia. }
  assert ((va + size - 1) / PGSIZE - va / PGSIZE + 1 = n) as En by (subst size; unfold PGSIZE in *; dlia).
  rewrite En in Hr. fold cost in Hb.
  destruct Hr as [[-> ->] | (-> & _ & ->)]; [| cbn in Hb; lia].
  exists s', l', T'. split_and!; [| by eapply kspace_step | lia].
  unfold kvmmap. by rewrite (kbind_of _ _ _ _ _ E).
Qed.

(** One page of an aligned address needs at most two tables. *)
Lemma region_page va : va mod PGSIZE = 0 -> region (va + 1 * PGSIZE - 1) = region va.
Proof. intros H. rewrite <- (region_down (va + 1 * PGSIZE - 1)). f_equal. unfold PGSIZE in *. dlia. Qed.

(** ** The stacks *)

Lemma kalloc_space root s p l T ps M :
  kspace root s (p :: l) T ps M ->
  exists s1, kalloc s = Ret p s1 /\ (p =? 0) = false /\ page_ok p /\ kspace root s1 l T (ps ++ [p]) M.
Proof.
  intros [[I P D Hl] [D1 D2 D3 D4] H3]. pose proof I as (_ & Hnd & Hok).
  inversion_clear Hnd as [| ? ? Hpl Hnd']. inversion_clear Hok as [| ? ? Hp Hok'].
  assert (T !! p = None) as HT by (apply D; by left).
  destruct (kalloc_some s l p I Hl) as (m1 & E & I1 & Hm1).
  assert (same_outside p (p + PGSIZE) (pm_mem s) m1) as Hout
    by (intros b Hb; by rewrite Hm1, decide_False by lia).
  destruct (pt_frame _ m1 root T p P Hp HT Hout) as (P' & _ & Hlf).
  eexists. split_and!; [exact E | destruct Hp as (? & ? & ? & ?); lia | done |].
  split; cbn [pm_mem].
  - split; cbn [pm_held pm_mem]; try done. intros q Hq. apply D. by right.
  - split; [apply Forall_app_2; [done | by constructor] | | set_solver | set_solver].
    apply NoDup_app. split_and!; [done | | apply NoDup_singleton].
    intros q Hq ->%list_elem_of_singleton. apply (D3 p Hq). left.
  - intros va Hva. rewrite Hlf. by apply H3.
Qed.

Lemma KSTACK_page j : KSTACK j / PGSIZE = 2 ^ 26 - 4 - 2 * j /\ KSTACK j mod PGSIZE = 0.
Proof.
  unfold KSTACK, TRAMPOLINE. change MAXVA with (2 ^ 38). unfold PGSIZE. dlia.
Qed.

Lemma stack_map_nil pg : stack_map [] pg = None.
Proof. unfold stack_map. apply decide_False. cbn [length]. lia. Qed.

Lemma stack_map_snoc ps p pg :
  stack_map (ps ++ [p]) pg =
  over (map_chg (KSTACK (Z.of_nat (length ps)) / PGSIZE) 1 p RW) (stack_map ps) pg.
Proof.
  unfold stack_map, over, map_chg. change (TRAMPOLINE / PGSIZE) with (2 ^ 26 - 1).
  rewrite !(proj1 (KSTACK_page _)), length_app. cbn [length].
  set (j := (2 ^ 26 - 1 - 3 - pg) / 2). assert (0 <= 2 ^ 26 - 1 - 3 - pg - 2 * j < 2) by (subst j; dlia).
  repeat case_decide; try lia; try done.
  - assert (j = Z.of_nat (length ps)) as -> by lia. do 2 f_equal.
    unfold nthZ. rewrite (proj2 (Z.ltb_ge _ _)), Nat2Z.id by lia.
    rewrite app_nth2, Nat.sub_diag by lia. cbn [nth].
    replace (pg - _) with 0 by lia. lia.
  - do 2 f_equal. unfold nthZ. rewrite (proj2 (Z.ltb_ge _ _)) by lia. apply app_nth1. lia.
Qed.

Lemma mapstacks_ok root M n : forall s l T ps,
  Z.of_nat (length ps + n) <= NPROC ->
  (forall i, 0 <= i < NPROC -> M (KSTACK i / PGSIZE) = None) ->
  kspace root s l T ps (over M (stack_map ps)) -> (3 * n < length l)%nat ->
  exists s' l' T' ps', proc_mapstacks_loop n root (Z.of_nat (length ps)) s = Ret tt s' /\
    kspace root s' l' T' ps' (over M (stack_map ps')) /\ (length ps' = length ps + n)%nat.
Proof.
  induction n as [| n IH]; intros s l T ps Hn HM Hk Hl; cbn [proc_mapstacks_loop].
  { exists s, l, T, ps. split_and!; [done | done | lia]. }
  destruct l as [| p l]; [cbn in Hl; lia |]. cbn [length] in Hl.
  destruct (kalloc_space _ _ _ _ _ _ _ Hk) as (s1 & E1 & E0 & Hp & Hk1).
  rewrite (kbind_of _ _ _ _ _ E1), E0. set (i := Z.of_nat (length ps)) in *.
  destruct (KSTACK_page i) as [Hpg Hal]. pose proof Hp as (Hp1 & Hp2 & Hp3 & Hp4).
  unfold NPROC in *. change MAXVA with (2 ^ 38). unfold PHYSTOP, KERNBASE in Hp3.
  destruct (kvmmap_ok root s1 l T (ps ++ [p]) (over M (stack_map ps)) (KSTACK i) p 1 RW)
    as (s2 & l2 & T2 & E2 & Hk2 & Hc); try done; try (unfold PGSIZE in *; dlia).
  { unfold KSTACK, TRAMPOLINE, PGSIZE. change MAXVA with (2 ^ 38). lia. }
  { intros pg Hpg'. assert (pg = KSTACK i / PGSIZE) as -> by lia. unfold over. rewrite HM by lia.
    unfold stack_map. rewrite decide_False; [done |]. rewrite Hpg. change (TRAMPOLINE / PGSIZE) with (2 ^ 26 - 1).
    intros [_ H]. subst i. revert H. generalize (Z.of_nat (length ps)). intros z H. dlia. }
  { rewrite region_page by done. lia. }
  rewrite region_page in Hc by done. rewrite Z.mul_1_l in E2. fold RW. rewrite (kbind_of _ _ _ _ _ E2).
  destruct (IH s2 l2 T2 (ps ++ [p])) as (s' & l' & T' & ps' & E3 & Hk3 & Hlen).
  - rewrite length_app. cbn. lia.
  - done.
  - eapply kspace_ext; [exact Hk2 |]. intros pg _. unfold over at 3. rewrite stack_map_snoc. fold i.
    unfold over. destruct (map_chg _ _ _ _ pg) eqn:Ec; [| done].
    unfold map_chg in Ec. case_decide; [| done]. assert (pg = KSTACK i / PGSIZE) as -> by lia.
    by rewrite HM by lia.
  - lia.
  - exists s', l', T', ps'. rewrite length_app in E3, Hlen. cbn [length] in E3, Hlen. split_and!; [| done | lia].
    replace (i + 1) with (Z.of_nat (length ps + 1)) by lia. exact E3.
Qed.

(** ** kvmmake *)

(** What kernel.ld provides. *)
Definition layout_ok : Prop :=
  etext mod PGSIZE = 0 /\ KERNBASE < etext < PHYSTOP /\
  trampoline mod PGSIZE = 0 /\ 0 <= trampoline < PHYSTOP.

Lemma empty_space s q l :
  kmem_inv s (q :: l) -> kmem_lock ∉ pm_held s ->
  exists s1, kalloc s = Ret q s1 /\
    kspace q (Pm (pm_held s1) (memset (pm_mem s1) q 0 PGSIZE) (freelist s1)) l {[q := 2%nat]} [] (fun _ => None).
Proof.
  intros I Hl. destruct (uvmcreate_ok s q l I Hl) as (s' & E & V & _ & Hlf).
  destruct (kalloc_some s l q I Hl) as (m1 & E1 & _). eexists. split; [exact E1 |].
  unfold uvmcreate in E. rewrite (kbind_of _ _ _ _ _ E1) in E.
  assert (q =? 0 = false) as E0.
  { destruct I as (_ & _ & Hok). inversion_clear Hok as [| ? ? (? & ? & ? & ?) _]. lia. }
  rewrite E0 in E. unfold set_mem, kmod, kbind, kret in E. injection E as <-.
  split; [done | split; [constructor | constructor | set_solver | set_solver] |].
  intros va _. by rewrite Hlf.
Qed.

(** One more mapping, of [n] pages from page [v] on, with [c] pages for its tables. *)
Lemma kvmmap_then v n c root s l T M va pa size perm (k : K pm Z) Q :
  kspace root s l T [] M -> va = v * PGSIZE -> size = n * PGSIZE ->
  0 <= v -> 0 < n -> v + n <= 2 ^ 26 -> 0 <= pa < 2 ^ 40 -> pa mod PGSIZE = 0 -> perm = RW \/ perm = RX ->
  (forall pg, v <= pg < v + n -> M pg = None) ->
  2 * (region (va + size - 1) - region va) + 2 <= c -> c < Z.of_nat (length l) ->
  (forall s' l' T', kspace root s' l' T' [] (over (map_chg v n pa perm) M) ->
     Z.of_nat (length l) <= Z.of_nat (length l') + c -> wp k s' Q) ->
  wp (kvmmap root va pa size perm >> k) s Q.
Proof.
  intros Hk -> -> Hv Hn HM Hpa Hpal Hperm Hfree Hc Hl Hcont.
  assert (v * PGSIZE / PGSIZE = v /\ v * PGSIZE mod PGSIZE = 0) as [Ev Eal] by (unfold PGSIZE; dlia).
  destruct (kvmmap_ok root s l T [] M (v * PGSIZE) pa n perm) as (s' & l' & T' & E & Hk' & Hc'); try done.
  1-4: change MAXVA with (2 ^ 26 * PGSIZE); unfold PGSIZE in *; lia.
  - by destruct Hperm as [-> | ->].
  - by rewrite Ev.
  - lia.
  - rewrite Ev in Hk'. apply wp_bind, (wp_of _ _ _ _ _ E). apply (Hcont s' l' T'); [done | lia].
Qed.

(** The virtual pages of the devices, the kernel and the trampoline. *)
Definition static_map (pg : Z) : option Z :=
  over (map_chg 0x3ffffff 1 trampoline RX)
  (over (map_chg (etext / PGSIZE) (0x88000 - etext / PGSIZE) etext RW)
  (over (map_chg 0x80000 (etext / PGSIZE - 0x80000) KERNBASE RX)
  (over (map_chg 0xc000 1024 PLIC RW)
  (over (map_chg 0x10001 1 VIRTIO0 RW)
  (over (map_chg 0x10000 1 UART0 RW) (fun _ => None)))))) pg.

Lemma static_kernel_map ps pg :
  layout_ok -> over static_map (stack_map ps) pg = kernel_map ps pg.
Proof.
  intros (He1 & He2 & _). unfold kernel_map, static_map, over, map_chg.
  change (UART0 / PGSIZE) with 0x10000. change (VIRTIO0 / PGSIZE) with 0x10001.
  change (PLIC / PGSIZE) with 0xc000. change (KERNBASE / PGSIZE) with 0x80000.
  change (PHYSTOP / PGSIZE) with 0x88000. change (TRAMPOLINE / PGSIZE) with 0x3ffffff.
  assert (0x80000 < etext / PGSIZE < 0x88000 /\ etext = etext / PGSIZE * PGSIZE) as [H1 H2]
    by (unfold PHYSTOP, KERNBASE, PGSIZE in *; dlia).
  repeat case_decide; try lia; do 2 f_equal; unfold UART0, VIRTIO0, PLIC, KERNBASE, PGSIZE in *; lia.
Qed.

(** The tables of the two ranges of RAM. *)
Lemma ram_regions :
  layout_ok -> 0x80000 < etext / PGSIZE < 0x88000 /\ etext = etext / PGSIZE * PGSIZE /\
    region (KERNBASE + (etext - KERNBASE) - 1) - region KERNBASE <= 63 /\
    region (etext + (PHYSTOP - etext) - 1) - region etext <= 63.
Proof.
  intros (He1 & He2 & _). unfold region.
  replace (KERNBASE + (etext - KERNBASE) - 1) with (etext - 1) by lia.
  replace (etext + (PHYSTOP - etext) - 1) with (PHYSTOP - 1) by lia.
  change (KERNBASE / 2 ^ 21) with 1024. change ((PHYSTOP - 1) / 2 ^ 21) with 1087.
  unfold PHYSTOP, KERNBASE, PGSIZE in *.
  assert (etext - 1 < 2 ^ 21 * 1088) by lia. assert (2 ^ 21 * 1024 <= etext) by lia.
  assert ((etext - 1) / 2 ^ 21 < 1088) by (apply Z.div_lt_upper_bound; lia).
  assert (1024 <= etext / 2 ^ 21) by (apply Z.div_le_lower_bound; lia).
  split_and!; try lia; dlia.
Qed.

Lemma static_stack i : layout_ok -> 0 <= i < NPROC -> static_map (KSTACK i / PGSIZE) = None.
Proof.
  intros HL Hi. destruct (ram_regions HL) as (He & _). destruct (KSTACK_page i) as [-> _]. unfold NPROC in Hi.
  unfold static_map, over, map_chg. repeat (rewrite decide_False by lia). reflexivity.
Qed.

(** The side conditions of [kvmmap_then]. *)
Ltac kside :=
  first
  [ by left | by right | eassumption | reflexivity
  | intros pg Hpg; unfold over, map_chg; repeat (rewrite decide_False by lia); reflexivity
  | unfold UART0, VIRTIO0, PLIC, PHYSTOP, KERNBASE, PGSIZE in *; lia
  | match goal with |- 2 * (region _ - region _) + 2 <= _ => vm_compute; done end ].

Lemma kvmmake_ok s l :
  layout_ok -> kmem_inv s l -> kmem_lock ∉ pm_held s -> (468 <= length l)%nat ->
  wp kvmmake s (fun root s' => exists l' T' ps,
    kspace root s' l' T' ps (kernel_map ps) /\ length ps = Z.to_nat NPROC).
Proof.
  intros HL I Hlk Hlen. pose proof (ram_regions HL) as (He & Ee & R1 & R2).
  pose proof HL as (He1 & He2 & Ht1 & Ht2).
  destruct l as [| q l]; [cbn in Hlen; lia |]. cbn [length] in Hlen.
  destruct (empty_space s q l I Hlk) as (s0 & E0 & Hk0). unfold kvmmake.
  apply wp_bind, (wp_of _ _ _ _ _ E0), wp_bind, wp_mod.
  rewrite !u64_small by (unfold PHYSTOP, KERNBASE in *; lia).
  eapply (kvmmap_then 0x10000 1 2); try kside. intros s1 l1 T1 Hk1 C1.
  eapply (kvmmap_then 0x10001 1 2); try kside. intros s2 l2 T2 Hk2 C2.
  eapply (kvmmap_then 0xc000 1024 4); try kside. intros s3 l3 T3 Hk3 C3.
  eapply (kvmmap_then 0x80000 (etext / PGSIZE - 0x80000) 128); try kside. intros s4 l4 T4 Hk4 C4.
  eapply (kvmmap_then (etext / PGSIZE) (0x88000 - etext / PGSIZE) 128); try kside. intros s5 l5 T5 Hk5 C5.
  eapply (kvmmap_then 0x3ffffff 1 2); try kside. intros s6 l6 T6 Hk6 C6.
  destruct (mapstacks_ok q static_map (Z.to_nat NPROC) s6 l6 T6 []) as (s' & l' & T' & ps & E & Hk' & Hps).
  - done.
  - intros i Hi. by apply static_stack.
  - eapply kspace_ext; [exact Hk6 |]. intros pg _.
    change (static_map pg = over static_map (stack_map []) pg). unfold over. rewrite stack_map_nil.
    by destruct (static_map pg).
  - unfold NPROC. lia.
  - change (Z.of_nat (length [])) with 0 in E. unfold proc_mapstacks. apply wp_bind.
    unfold wp at 1. rewrite E. apply wp_ret. exists l', T', ps. split; [| exact Hps].
    eapply kspace_ext; [exact Hk' |]. intros pg _. by apply static_kernel_map.
Qed.

(** ** Turning paging on *)

(** These calls of [main] in kernel/main.c. *)
Definition boot_memory : K kst unit := zoom kinit >> kvminit >> kvminithart.

Lemma MAKE_SATP_small p : page_ok p -> 0 <= MAKE_SATP p < 2 ^ 64.
Proof.
  intros (_ & _ & Hp & H0). unfold MAKE_SATP, SATP_SV39, PHYSTOP, KERNBASE in *.
  rewrite Z.shiftr_div_pow2 by lia.
  assert (0 <= p / 2 ^ 12 < 2 ^ 20) by dlia.
  change (Z.shiftl 8 60) with (2 ^ 63). split; [apply Z.lor_nonneg; lia |].
  apply Z.log2_lt_cancel. rewrite Z.log2_lor by lia. change (Z.log2 (2 ^ 64)) with 64.
  apply Z.max_lub_lt; [done |].
  destruct (decide (p / 2 ^ 12 = 0)) as [-> |]; [done |].
  enough (Z.log2 (p / 2 ^ 12) < 20) by lia. apply Z.log2_lt_pow2; lia.
Qed.

(** C10: kinit, kvminit and kvminithart, with the linker's addresses aligned and at least
    468 pages of memory behind the kernel: they return without a panic, satp has the
    kernel's page table, and this table maps, for every virtual address below
    MAXVA, exactly the device registers, the PLIC, the kernel text (not writable), the
    data and all other RAM (not executable), the trampoline, and one
    stack for each process with an unmapped page below it; the pages of the stacks are
    distinct, not free, and not tables. *)
Theorem kernel_space s :
  layout_ok -> 0 < kend <= PHYSTOP - 468 * PGSIZE -> freelist (k_pm s) = 0 ->
  wp boot_memory s (fun _ s' => exists l T ps,
    kspace (kernel_pagetable s') (k_pm s') l T ps (kernel_map ps) /\ length ps = Z.to_nat NPROC /\
    k_regs s' satp = MAKE_SATP (kernel_pagetable s')).
Proof.
  intros HL Hend Hf. unfold boot_memory, kvminit, kvminithart.
  destruct (kinit_correct (k_pm s)) as (s1 & l1 & E1 & I1 & _ & Hlen & Hlk);
    [unfold PGSIZE in *; lia | done |].
  assert (0 <= kend <= 2 ^ 64 - PGSIZE) as Hk by (unfold PHYSTOP, KERNBASE, PGSIZE in *; lia).
  pose proof (PGROUNDUP_bounds kend Hk) as Hb.
  assert (468 <= length l1)%nat.
  { assert (468 <= (PHYSTOP - PGROUNDUP kend) / PGSIZE); [| lia].
    apply Z.div_le_lower_bound; [done |]. unfold PHYSTOP, KERNBASE, PGSIZE in *. dlia. }
  apply wp_bind, wp_zoom, (wp_of _ _ _ _ _ E1), wp_bind, wp_bind, wp_zoom.
  eapply wp_mono; [by apply (kvmmake_ok _ l1) |].
  intros root s2 (l & T & ps & Hsp & Hps). cbn [lset lget kst_pm].
  apply wp_mod, wp_bind. unfold wp; cbn. exists l, T, ps. split_and!; [done | done |].
  apply u64_small, MAKE_SATP_small.
  pose proof (vi_pt _ _ _ _ (ks_inv _ _ _ _ _ _ Hsp)) as Hpt.
  exact (pt_page _ _ _ Hpt _ _ (pt_root _ _ _ Hpt)).
Qed.
End kvm.

(** A kernel of 1 MB. *)
Definition wit_layout : Layout := {| kend := 0x80100000; etext := 0x80008000; trampoline := 0x80007000 |}.
Definition wit_kst : kst := Kst (Pm ∅ ∅ 0) (fun _ => 0) 0.

Lemma kernel_space_witness :
  exists s' root, boot_memory (L := wit_layout) wit_kst = Ret tt s' /\ k_regs s' satp = MAKE_SATP root.
Proof.
  pose proof (kernel_space (L := wit_layout) wit_kst) as H.
  unfold wp in H. destruct (boot_memory _) as [[] s' | | |].
  - destruct H as (l & T & ps & _ & _ & H); [by vm_compute.. |]. by exists s', (kernel_pagetable s').
  - destruct H; by vm_compute.
  - destruct H; by vm_compute.
  - destruct H; by vm_compute.
Defined.
