(* ===== verification/Start.v ===== *)
(** * kernel/start.c: from machine mode to main

    The registers of a hart, its mode and program counter, and the 64-bit
    words of the CLINT and of [timer_scratch] by address.  [main], [timervec] and
    [timer_scratch] are addresses of the linker. *)

From stdpp Require Import functions.
From S2P Require Import Prelude Riscv Csr.

(** kernel/memlayout.h *)
Definition CLINT : Z := 0x2000000.
Definition CLINT_MTIMECMP (hartid : Z) : Z := CLINT + 0x4000 + 8 * hartid.
Definition CLINT_MTIME : Z := CLINT + 0xBFF8.

Inductive mode := User | Supervisor | Machine.

Record hart := Hart { h_regs : regs; h_words : gmap Z Z; h_mode : mode; h_pc : Z }.

#[export] Instance hart_regs : Lens hart regs.
Proof.
  refine {| lget := h_regs; lset r s := Hart r (h_words s) (h_mode s) (h_pc s) |}; by try intros [].
Defined.

Section start.
Variables main timervec timer_scratch : Z.
Abbreviation M := (K hart).

Definition ldw (a : Z) : M Z := kgets (fun s => default 0 (h_words s !! a)).
Definition stw (a x : Z) : M unit :=
  kmod (fun s => Hart (h_regs s) (<[a := u64 x]> (h_words s)) (h_mode s) (h_pc s)).

(** The hart goes to the mode in the field MPP of mstatus, at mepc. *)
Definition mode_of (x : Z) : mode :=
  match Z.shiftr (Z.land x MSTATUS_MPP_MASK) 11 with 0 => User | 1 => Supervisor | _ => Machine end.
Definition mret : M unit :=
  kmod (fun s => Hart (h_regs s) (h_words s) (mode_of (h_regs s mstatus)) (h_regs s mepc)).

Definition timerinit : M unit :=
  x <- r_mhartid ;;
  let id := i32 x in
  let interval := 1000000 in
  t <- ldw CLINT_MTIME ;;
  stw (CLINT_MTIMECMP id) (t + interval) >>
  let scratch := timer_scratch + id * 40 in
  stw (scratch + 24) (CLINT_MTIMECMP id) >>
  stw (scratch + 32) interval >>
  w_mscratch scratch >>
  w_mtvec timervec >>
  x <- r_mstatus ;; w_mstatus (Z.lor x MSTATUS_MIE) >>
  x <- r_mie ;; w_mie (Z.lor x MIE_MTIE).

Definition start : M unit :=
  x <- r_mstatus ;;
  let x := Z.land x (not64 MSTATUS_MPP_MASK) in
  let x := Z.lor x MSTATUS_MPP_S in
  w_mstatus x >>
  w_mepc main >>
  w_satp 0 >>
  w_medeleg 0xffff >>
  w_mideleg 0xffff >>
  x <- r_sie ;; w_sie (Z.lor (Z.lor (Z.lor x SIE_SEIE) SIE_STIE) SIE_SSIE) >>
  w_pmpaddr0 0x3fffffffffffff >>
  w_pmpcfg0 0xf >>
  timerinit >>
  x <- r_mhartid ;;
  let id := i32 x in
  w_tp id >>
  mret.

Lemma mpp_bits n : 0 <= n -> Z.testbit MSTATUS_MPP_MASK n = bool_decide (n = 11 \/ n = 12).
Proof.
  intros Hn. unfold MSTATUS_MPP_MASK. rewrite Z.shiftl_spec by lia.
  destruct (decide (n < 11)) as [H | H].
  { rewrite Z.testbit_neg_r by lia. symmetry. apply bool_decide_eq_false. lia. }
  destruct (decide (n <= 12)) as [H' | H'].
  { assert (n = 11 \/ n = 12) as [-> | ->] by lia; done. }
  rewrite Z.bits_above_log2; [symmetry; apply bool_decide_eq_false; lia | lia | change (Z.log2 3) with 1; lia].
Qed.

(** The bits of mstatus that [start] sets; the mode is that of the field MPP. *)
Lemma mode_of_start x :
  mode_of (Z.lor (Z.lor (Z.land x (not64 MSTATUS_MPP_MASK)) MSTATUS_MPP_S) MSTATUS_MIE) = Supervisor.
Proof.
  unfold mode_of.
  assert (Z.land (Z.lor (Z.lor (Z.land x (not64 MSTATUS_MPP_MASK)) MSTATUS_MPP_S) MSTATUS_MIE) MSTATUS_MPP_MASK
          = MSTATUS_MPP_S) as ->; [| reflexivity].
  apply Z.bits_inj'. intros n Hn. rewrite Z.land_spec, mpp_bits by done.
  case_bool_decide as E.
  - rewrite andb_true_r, !Z.lor_spec, Z.land_spec.
    destruct E as [-> | ->]; cbn; by rewrite ?andb_false_r, ?orb_true_r.
  - rewrite andb_false_r. unfold MSTATUS_MPP_S. rewrite Z.shiftl_spec by done.
    destruct (decide (n < 11)); [by rewrite Z.testbit_neg_r by lia |].
    symmetry. apply Z.bits_above_log2; [lia | change (Z.log2 1) with 0; lia].
Qed.

Definition reg_ok (x : Z) : Prop := 0 <= x < 2 ^ 64.

Lemma lor_u64 a b : reg_ok a -> reg_ok b -> reg_ok (Z.lor a b).
Proof.
  unfold reg_ok. intros [Ha Ha'] [Hb Hb']. split; [by apply Z.lor_nonneg |].
  destruct (decide (Z.lor a b = 0)) as [-> |]; [done |].
  apply Z.log2_lt_cancel. rewrite Z.log2_lor by done. change (Z.log2 (2 ^ 64)) with 64.
  assert (forall x, 0 <= x < 2 ^ 64 -> Z.log2 x < 64) as Hl.
  { intros y Hy. destruct (decide (y = 0)) as [-> |]; [done |]. apply Z.log2_lt_pow2; lia. }
  apply Z.max_lub_lt; auto.
Qed.

Lemma land_u64 a b : reg_ok a -> 0 <= b -> reg_ok (Z.land a b).
Proof.
  unfold reg_ok. intros [Ha Ha'] Hb. split; [apply Z.land_nonneg; by left |].
  destruct (decide (Z.land a b = 0)) as [-> |]; [done |].
  apply Z.log2_lt_cancel. change (Z.log2 (2 ^ 64)) with 64.
  pose proof (Z.log2_land a b Ha Hb). enough (Z.log2 a < 64) by lia.
  destruct (decide (a = 0)) as [-> |]; [done |]. apply Z.log2_lt_pow2; lia.
Qed.

Lemma bit_of_lor a n : 0 <= n -> Z.testbit (Z.lor a (Z.shiftl 1 n)) n = true.
Proof. intros. by rewrite Z.lor_spec, Z.shiftl_spec, Z.sub_diag, orb_true_r. Qed.

(** One instruction at a time. *)
Lemma wp_csr_read r R W m p Q : Q (R r) (Hart R W m p) -> wp (csrr r) (Hart R W m p) Q.
Proof. done. Qed.
Lemma wp_csr_write r x R W m p Q : Q tt (Hart (<[r := u64 x]> R) W m p) -> wp (csrw r x) (Hart R W m p) Q.
Proof. done. Qed.
Lemma wp_ldw a R W m p Q : Q (default 0 (W !! a)) (Hart R W m p) -> wp (ldw a) (Hart R W m p) Q.
Proof. done. Qed.
Lemma wp_stw a x R W m p Q : Q tt (Hart R (<[a := u64 x]> W) m p) -> wp (stw a x) (Hart R W m p) Q.
Proof. done. Qed.

Ltac hstep :=
  cbv beta zeta;
  lazymatch goal with
  | |- wp (kbind _ _) _ _ => apply wp_bind
  | |- wp (ldw _) _ _ => apply wp_ldw
  | |- wp (stw _ _) _ _ => apply wp_stw
  | |- wp (csrr _) _ _ => apply wp_csr_read
  | |- wp (csrw _ _) _ _ => apply wp_csr_write
  | |- wp mret _ _ => apply wp_mod
  end.

(** What [start] leaves for [main] and for timervec. *)
Record started (s : hart) (id : Z) (s' : hart) : Prop := {
  st_mode : h_mode s' = Supervisor;
  st_pc : h_pc s' = main;
  st_paging : h_regs s' satp = 0;
  st_deleg : h_regs s' medeleg = 0xffff /\ h_regs s' mideleg = 0xffff;
  st_sie : Z.testbit (h_regs s' sie) 9 = true /\ Z.testbit (h_regs s' sie) 5 = true /\
    Z.testbit (h_regs s' sie) 1 = true;
  st_timer : Z.testbit (h_regs s' mstatus) 3 = true /\ Z.testbit (h_regs s' mie) 7 = true /\
    h_regs s' mtvec = timervec;
  st_cpuid : cpuid s' = Ret id s';
  st_words : h_words s' !! CLINT_MTIMECMP id = Some (u64 (default 0 (h_words s !! CLINT_MTIME) + 1000000));
  st_scratch : h_regs s' mscratch = timer_scratch + id * 40 /\
    h_words s' !! (timer_scratch + id * 40 + 24) = Some (CLINT_MTIMECMP id) /\
    h_words s' !! (timer_scratch + id * 40 + 32) = Some 1000000
}.

Lemma start_ok s id :
  h_regs s mhartid = id -> 0 <= id < NCPU -> reg_ok (h_regs s mstatus) -> reg_ok (h_regs s sie) ->
  reg_ok (h_regs s mie) -> reg_ok main -> reg_ok timervec ->
  KERNBASE <= timer_scratch < PHYSTOP ->
  wp start s (fun _ s' => started s id s').
Proof.
  intros Hid Hr H1 H2 H3 H4 H5 H6. unfold NCPU in Hr. unfold PHYSTOP, KERNBASE in H6.
  assert (i32 id = id) as Ei by (apply i32_small; lia).
  destruct s as [R W m p]; cbn [h_regs h_words] in *.
  assert (reg_ok (Z.lor (Z.land (R mstatus) (not64 MSTATUS_MPP_MASK)) MSTATUS_MPP_S)) as B1
    by (apply lor_u64; [apply land_u64; [done | apply u64_range] | done]).
  assert (reg_ok (Z.lor (Z.lor (Z.land (R mstatus) (not64 MSTATUS_MPP_MASK)) MSTATUS_MPP_S) MSTATUS_MIE)) as B2
    by (apply lor_u64; done).
  assert (reg_ok (Z.lor (Z.lor (Z.lor (R sie) SIE_SEIE) SIE_STIE) SIE_SSIE)) as B3
    by (by repeat apply lor_u64).
  assert (reg_ok (Z.lor (R mie) MIE_MTIE)) as B4 by (by apply lor_u64).
  unfold start, timerinit, r_mhartid, r_mstatus, r_sie, r_mie, w_mstatus, w_mepc, w_satp, w_medeleg, w_mideleg,
    w_sie, w_pmpaddr0, w_pmpcfg0, w_mscratch, w_mtvec, w_mie, w_tp.
  repeat hstep. unfold lget, hart_regs; cbn [h_regs h_words h_mode h_pc].
  split; cbn [h_regs h_words h_mode h_pc];
    repeat (rewrite fn_lookup_insert || rewrite fn_lookup_insert_ne by discriminate);
    rewrite ?Hid, ?Ei, ?(u64_small _ B1), ?(u64_small _ B2), ?(u64_small _ B3), ?(u64_small _ B4).
  - apply mode_of_start.
  - by apply u64_small.
  - reflexivity.
  - done.
  - rewrite !Z.lor_spec. split_and!; by rewrite ?orb_true_r.
  - split_and!; [by apply bit_of_lor | by apply bit_of_lor | by apply u64_small].
  - unfold cpuid, r_tp, csrr; kred; unfold lget, hart_regs; cbn [h_regs].
    rewrite fn_lookup_insert, u64_small by lia. by rewrite Ei.
  - unfold CLINT_MTIMECMP, CLINT. rewrite !lookup_insert_ne by lia. by rewrite lookup_insert_eq.
  - unfold CLINT_MTIMECMP, CLINT. split_and!; [apply u64_small; lia | |].
    + rewrite lookup_insert_ne by lia. rewrite lookup_insert_eq, u64_small by lia. done.
    + by rewrite lookup_insert_eq.
Qed.
End start.
