(* ===== verification/Sh.v ===== *)
(** * user/sh.c: the shell

    The parser works on the line in [buf] and builds the command out of
    nodes that [malloc] returns; [parseexec] goes on filling in the node of
    the command while redirections are already wrapped around it.  A [char *]
    is an offset into [buf], a [struct cmd *] the index of a node, NULL is
    [None]; [char **ps] is passed in and returned.  [panic] prints its
    message and exits.  [malloc] does not fail. *)

From S2P Require Import Prelude Riscv Ulib.

(** ** The command *)

Definition MAXARGS : Z := 10.

(** [struct cmd], by its [type]. *)
Inductive node :=
| EXEC (argv eargv : list (option Z))
| REDIR (cmd : option nat) (file efile : Z) (mode fd : Z)
| PIPE (left right : option nat)
| LIST (left right : option nat)
| BACK (cmd : option nat).

Record shst := Shst { sh_buf : bytes; sh_cmds : list node }.

(** [malloc] and the assignments of a constructor. *)
Definition new (x : node) : K shst (option nat) :=
  s <- kget ;;
  kmod (fun s => Shst (sh_buf s) (sh_cmds s ++ [x])) >>
  kret (Some (length (sh_cmds s))).

Definition execcmd : K shst (option nat) :=
  new (EXEC (replicate (Z.to_nat MAXARGS) None) (replicate (Z.to_nat MAXARGS) None)).
Definition redircmd (subcmd : option nat) (file efile mode fd : Z) : K shst (option nat) :=
  new (REDIR subcmd file efile mode fd).
Definition pipecmd (left right : option nat) : K shst (option nat) := new (PIPE left right).
Definition listcmd (left right : option nat) : K shst (option nat) := new (LIST left right).
Definition backcmd (subcmd : option nat) : K shst (option nat) := new (BACK subcmd).

(** ** Tokens *)

Definition whitespace : bytes := [32; 9; 13; 10; 11].
Definition symbols : bytes := cstr "<|>&;()".
Definition ch_a : Z := 97.
Definition ch_plus : Z := 43.
Definition ch_lt : Z := 60.
Definition ch_gt : Z := 62.

(** [strchr] on these constant strings, as a condition. *)
Definition strchr (toks : bytes) (c : Z) : bool := existsb (Z.eqb c) toks.
#[global] Arguments strchr : simpl never.

(** [while(s < es && strchr(whitespace, *s)) s++;] *)
Fixpoint skip_space (n : nat) (buf : bytes) (s es : Z) : Z :=
  match n with
  | O => s
  | S n => if ((s <? es) && strchr whitespace (nthZ 0 buf s))%bool then skip_space n buf (s + 1) es else s
  end.

(** [while(s < es && !strchr(whitespace, *s) && !strchr(symbols, *s)) s++;] *)
Fixpoint skip_word (n : nat) (buf : bytes) (s es : Z) : Z :=
  match n with
  | O => s
  | S n =>
      if ((s <? es) && negb (strchr whitespace (nthZ 0 buf s)) && negb (strchr symbols (nthZ 0 buf s)))%bool
      then skip_word n buf (s + 1) es else s
  end.

(** The token, the ends [q] and [eq] of its text, and the new [*ps]. *)
Definition gettoken (buf : bytes) (s es : Z) : Z * Z * Z * Z :=
  let s := skip_space (Z.to_nat (es - s)) buf s es in
  let q := s in
  let c := nthZ 0 buf s in
  let '(ret, s) :=
    if c =? 0 then (c, s)
    else if strchr (cstr "|();&<") c then (c, s + 1)
    else if c =? ch_gt then
      if nthZ 0 buf (s + 1) =? ch_gt then (ch_plus, s + 2) else (c, s + 1)
    else (ch_a, skip_word (Z.to_nat (es - s)) buf s es) in
  (ret, q, s, skip_space (Z.to_nat (es - s)) buf s es).

Definition peek (buf : bytes) (s es : Z) (toks : bytes) : bool * Z :=
  let s := skip_space (Z.to_nat (es - s)) buf s es in
  let c := nthZ 0 buf s in
  ((negb (c =? 0) && strchr toks c)%bool, s).

(** ** The parser *)

(** [cmd->argv[i] = a; cmd->eargv[i] = e;] *)
Definition set_arg (cmd : option nat) (i : Z) (a e : option Z) : K shst unit :=
  kmod (fun s =>
    match cmd with
    | None => s
    | Some p =>
        match sh_cmds s !! p with
        | Some (EXEC argv eargv) => Shst (sh_buf s) (<[p := EXEC (updZ argv i a) (updZ eargv i e)]> (sh_cmds s))
        | _ => s
        end
    end).

(** Every turn consumes a character. *)
Definition turns (s es : Z) : nat := S (Z.to_nat (es - s)).

Fixpoint redirs_loop (n : nat) (cmd : option nat) (s es : Z) : K shst (option nat * Z) :=
  match n with
  | O => kfuel
  | S n =>
      buf <- kgets sh_buf ;;
      let '(more, s) := peek buf s es (cstr "<>") in
      if negb more then kret (cmd, s) else
      let '(tok, _, _, s) := gettoken buf s es in
      let '(tok2, q, eq, s) := gettoken buf s es in
      if negb (tok2 =? ch_a) then kpanic "missing file for redirection" else
      cmd <- (if tok =? ch_lt then redircmd cmd q eq O_RDONLY 0
              else if tok =? ch_gt then redircmd cmd q eq (Z.lor (Z.lor O_WRONLY O_CREATE) O_TRUNC) 1
              else if tok =? ch_plus then redircmd cmd q eq (Z.lor O_WRONLY O_CREATE) 1
              else kret cmd) ;;
      redirs_loop n cmd s es
  end.

Definition parseredirs (cmd : option nat) (s es : Z) : K shst (option nat * Z) :=
  redirs_loop (turns s es) cmd s es.

(** The loop of [parseexec]: [cmd] is the node, [ret] what is wrapped around it. *)
Fixpoint args_loop (n : nat) (cmd ret : option nat) (argc s es : Z) : K shst (option nat * Z * Z) :=
  match n with
  | O => kfuel
  | S n =>
      buf <- kgets sh_buf ;;
      let '(stop, s) := peek buf s es (cstr "|)&;") in
      if stop then kret (ret, argc, s) else
      let '(tok, q, eq, s) := gettoken buf s es in
      if tok =? 0 then kret (ret, argc, s) else
      if negb (tok =? ch_a) then kpanic "syntax" else
      set_arg cmd argc (Some q) (Some eq) >>
      let argc := argc + 1 in
      if MAXARGS <=? argc then kpanic "too many args" else
      '(ret, s) <- parseredirs ret s es ;;
      args_loop n cmd ret argc s es
  end.

(** [while(peek(ps, es, "&"))] *)
Fixpoint back_loop (n : nat) (cmd : option nat) (s es : Z) : K shst (option nat * Z) :=
  match n with
  | O => kfuel
  | S n =>
      buf <- kgets sh_buf ;;
      let '(more, s) := peek buf s es (cstr "&") in
      if negb more then kret (cmd, s) else
      let '(_, _, _, s) := gettoken buf s es in
      cmd <- backcmd cmd ;;
      back_loop n cmd s es
  end.

(** The functions call each other; [n] bounds the depth. *)
Fixpoint parseline (n : nat) (s es : Z) : K shst (option nat * Z) :=
  match n with
  | O => kfuel
  | S n =>
      '(cmd, s) <- parsepipe n s es ;;
      '(cmd, s) <- back_loop (turns s es) cmd s es ;;
      buf <- kgets sh_buf ;;
      let '(more, s) := peek buf s es (cstr ";") in
      if more then
        let '(_, _, _, s) := gettoken buf s es in
        '(r, s) <- parseline n s es ;;
        cmd <- listcmd cmd r ;;
        kret (cmd, s)
      else kret (cmd, s)
  end
with parsepipe (n : nat) (s es : Z) : K shst (option nat * Z) :=
  match n with
  | O => kfuel
  | S n =>
      '(cmd, s) <- parseexec n s es ;;
      buf <- kgets sh_buf ;;
      let '(more, s) := peek buf s es (cstr "|") in
      if more then
        let '(_, _, _, s) := gettoken buf s es in
        '(r, s) <- parsepipe n s es ;;
        cmd <- pipecmd cmd r ;;
        kret (cmd, s)
      else kret (cmd, s)
  end
with parseexec (n : nat) (s es : Z) : K shst (option nat * Z) :=
  match n with
  | O => kfuel
  | S n =>
      buf <- kgets sh_buf ;;
      let '(block, s) := peek buf s es (cstr "(") in
      if block then parseblock n s es else
      cmd <- execcmd ;;
      '(ret, s) <- parseredirs cmd s es ;;
      '(ret, argc, s) <- args_loop (turns s es) cmd ret 0 s es ;;
      set_arg cmd argc None None >>
      kret (ret, s)
  end
with parseblock (n : nat) (s es : Z) : K shst (option nat * Z) :=
  match n with
  | O => kfuel
  | S n =>
      buf <- kgets sh_buf ;;
      let '(open, s) := peek buf s es (cstr "(") in
      if negb open then kpanic "parseblock" else
      let '(_, _, _, s) := gettoken buf s es in
      '(cmd, s) <- parseline n s es ;;
      buf <- kgets sh_buf ;;
      let '(close, s) := peek buf s es (cstr ")") in
      if negb close then kpanic "syntax - missing )" else
      let '(_, _, _, s) := gettoken buf s es in
      parseredirs cmd s es
  end.

Definition set_byte (i x : Z) : K shst unit := kmod (fun s => Shst (updZ (sh_buf s) i x) (sh_cmds s)).

(** [for(i=0; ecmd->argv[i]; i++) *ecmd->eargv[i] = 0;] *)
Fixpoint nul_args (argv eargv : list (option Z)) : K shst unit :=
  match argv, eargv with
  | Some _ :: argv, Some e :: eargv => set_byte e 0 >> nul_args argv eargv
  | _, _ => kret tt
  end.

(** The node of a command comes after the nodes of its parts: its index
    bounds the depth. *)
Fixpoint nulterminate_at (n : nat) (cmd : option nat) : K shst unit :=
  match n, cmd with
  | _, None => kret tt
  | O, _ => kfuel
  | S n, Some p =>
      s <- kget ;;
      match sh_cmds s !! p with
      | Some (EXEC argv eargv) => nul_args argv eargv
      | Some (REDIR cmd _ efile _ _) => nulterminate_at n cmd >> set_byte efile 0
      | Some (PIPE l r) => nulterminate_at n l >> nulterminate_at n r
      | Some (LIST l r) => nulterminate_at n l >> nulterminate_at n r
      | Some (BACK cmd) => nulterminate_at n cmd
      | None => kret tt
      end
  end.

Definition nulterminate (cmd : option nat) : K shst unit :=
  s <- kget ;; nulterminate_at (length (sh_cmds s)) cmd.

(** A turn of the four functions takes a character. *)
Definition depth (es : Z) : nat := 4 * Z.to_nat es + 4.

(** The message about leftovers is not kept. *)
Definition parsecmd : K shst (option nat) :=
  buf <- kgets sh_buf ;;
  match Ulib.strlen (fun i => nth i buf 0) (S (length buf)) with
  | None => kfuel
  | Some es =>
      '(cmd, s) <- parseline (depth es) 0 es ;;
      let '(_, s) := peek buf s es [] in
      if negb (s =? es) then kpanic "syntax" else
      nulterminate cmd >>
      kret cmd
  end.
