(* ===== verification/ShParse.v ===== *)
(** * The shell parser accepts every spelling of a command line

    A grammar of command lines, their token lists, and the texts that spell
    a token list; [parsecmd] turns each such text into the command of the
    grammar. *)

From S2P Require Import Prelude Riscv Ulib Sh.

(** ** Commands, the grammar, and its spellings *)

(** What the nodes stand for, with the strings of the final buffer. *)
Inductive cmd :=
| Cexec (argv : list bytes)
| Credir (c : cmd) (file : bytes) (mode fd : Z)
| Cpipe (l r : cmd)
| Clist (l r : cmd)
| Cback (c : cmd).

Inductive rkind := RIn | ROut | RApp.
Definition redir : Type := rkind * bytes.

(** line ::= pipe '&'* [';' line]; pipe ::= exec ['|' pipe];
    exec ::= redir* (word redir* )* | '(' line ')' redir* *)
Inductive line :=
| Last (p : pipe) (amps : nat)
| Seq (p : pipe) (amps : nat) (rest : line)
with pipe :=
| One (e : exec)
| Bar (e : exec) (rest : pipe)
with exec :=
| Simple (rs : list redir) (args : list (bytes * list redir))
| Block (l : line) (rs : list redir).

Scheme line_rect2 := Induction for line Sort Prop
  with pipe_rect2 := Induction for pipe Sort Prop
  with exec_rect2 := Induction for exec Sort Prop.
Combined Scheme grammar_ind from line_rect2, pipe_rect2, exec_rect2.

Inductive token :=
| TWord (w : bytes)
| TSym (c : Z)
| TApp.      (* >> *)

Definition ch_bar : Z := 124.
Definition ch_amp : Z := 38.
Definition ch_semi : Z := 59.
Definition ch_open : Z := 40.
Definition ch_close : Z := 41.

Definition rtok (k : rkind) : token := match k with RIn => TSym ch_lt | ROut => TSym ch_gt | RApp => TApp end.
Definition redir_toks (r : redir) : list token := [rtok r.1; TWord r.2].
Definition redirs_toks (rs : list redir) : list token := rs ≫= redir_toks.
Definition args_toks (args : list (bytes * list redir)) : list token :=
  args ≫= (fun a => TWord a.1 :: redirs_toks a.2).

Fixpoint line_toks (l : line) : list token :=
  match l with
  | Last p amps => pipe_toks p ++ replicate amps (TSym ch_amp)
  | Seq p amps l => pipe_toks p ++ replicate amps (TSym ch_amp) ++ TSym ch_semi :: line_toks l
  end
with pipe_toks (p : pipe) : list token :=
  match p with
  | One e => exec_toks e
  | Bar e p => exec_toks e ++ TSym ch_bar :: pipe_toks p
  end
with exec_toks (e : exec) : list token :=
  match e with
  | Simple rs args => redirs_toks rs ++ args_toks args
  | Block l rs => TSym ch_open :: line_toks l ++ TSym ch_close :: redirs_toks rs
  end.

(** The command of a line. *)
Definition rmode (k : rkind) : Z :=
  match k with
  | RIn => O_RDONLY
  | ROut => Z.lor (Z.lor O_WRONLY O_CREATE) O_TRUNC
  | RApp => Z.lor O_WRONLY O_CREATE
  end.
Definition rfd (k : rkind) : Z := match k with RIn => 0 | _ => 1 end.
Definition add_redir (c : cmd) (r : redir) : cmd := Credir c r.2 (rmode r.1) (rfd r.1).

Fixpoint line_cmd (l : line) : cmd :=
  match l with
  | Last p amps => Nat.iter amps Cback (pipe_cmd p)
  | Seq p amps l => Clist (Nat.iter amps Cback (pipe_cmd p)) (line_cmd l)
  end
with pipe_cmd (p : pipe) : cmd :=
  match p with
  | One e => exec_cmd e
  | Bar e p => Cpipe (exec_cmd e) (pipe_cmd p)
  end
with exec_cmd (e : exec) : cmd :=
  match e with
  | Simple rs args => foldl add_redir (Cexec args.*1) (rs ++ (args ≫= snd))
  | Block l rs => foldl add_redir (line_cmd l) rs
  end.

(** At most nine arguments. *)
Fixpoint line_ok (l : line) : Prop :=
  match l with
  | Last p _ => pipe_ok p
  | Seq p _ l => pipe_ok p /\ line_ok l
  end
with pipe_ok (p : pipe) : Prop :=
  match p with
  | One e => exec_ok e
  | Bar e p => exec_ok e /\ pipe_ok p
  end
with exec_ok (e : exec) : Prop :=
  match e with
  | Simple _ args => Z.of_nat (length args) < MAXARGS
  | Block l _ => line_ok l
  end.

(** *** Spellings *)

Definition word_char (c : Z) : bool := (negb (c =? 0) && negb (strchr whitespace c) && negb (strchr symbols c))%bool.
Definition word_ok (w : bytes) : Prop := w <> [] /\ forallb word_char w = true.

Definition tok_bytes (t : token) : bytes :=
  match t with TWord w => w | TSym c => [c] | TApp => [ch_gt; ch_gt] end.
Definition tok_ok (t : token) : Prop :=
  match t with TWord w => word_ok w | TSym c => strchr symbols c = true | TApp => True end.
(** What may follow a token immediately. *)
Definition sep (t : token) (r : bytes) : Prop :=
  match t with
  | TWord _ => word_char (nthZ 0 r 0) = false
  | TSym c => c = ch_gt -> nthZ 0 r 0 <> ch_gt
  | TApp => True
  end.

Fixpoint trim (r : bytes) : bytes :=
  match r with
  | [] => []
  | x :: r' => if strchr whitespace x then trim r' else r
  end.

(** [r] is [ts] with white space before, between and after. *)
Fixpoint spelled (ts : list token) (r : bytes) : Prop :=
  match ts with
  | [] => trim r = []
  | t :: ts => exists rest, trim r = tok_bytes t ++ rest /\ tok_ok t /\ sep t rest /\ spelled ts rest
  end.

(** ** Lexing *)

(** From [s] to [es] the buffer holds [r], and then a NUL. *)
Definition text (buf : bytes) (s es : Z) (r : bytes) : Prop :=
  exists pre post, buf = pre ++ r ++ 0 :: post /\ s = Z.of_nat (length pre) /\
    es = s + Z.of_nat (length r) /\ 0 ∉ r.

Lemma nthZ_app_r {A} (d : A) l1 l2 i : nthZ d (l1 ++ l2) (Z.of_nat (length l1) + Z.of_nat i) = nthZ d l2 (Z.of_nat i).
Proof.
  unfold nthZ. rewrite !(proj2 (Z.ltb_ge _ 0)) by lia. rewrite <- Nat2Z.inj_add, !Nat2Z.id. rewrite app_nth2_plus. done.
Qed.

Lemma text_hd buf s es r : text buf s es r -> nthZ 0 buf s = nthZ 0 r 0.
Proof.
  intros (pre & post & -> & -> & _). rewrite <- (Z.add_0_r (Z.of_nat _)). rewrite (nthZ_app_r 0 pre _ 0). by destruct r.
Qed.

Lemma text_app buf s es a r : text buf s es (a ++ r) -> text buf (s + Z.of_nat (length a)) es r.
Proof.
  intros (pre & post & -> & -> & E & H0). exists (pre ++ a), post. rewrite length_app in *. rewrite <- !app_assoc.
  split_and!; [done | lia | lia | set_solver].
Qed.

Lemma text_es buf s es r : text buf s es r -> Z.to_nat (es - s) = length r /\ (s <? es) = bool_decide (r <> []).
Proof.
  intros (pre & post & _ & -> & -> & _). split; [lia |]. case_bool_decide as H.
  - apply Z.ltb_lt. destruct r; [done | cbn; lia].
  - apply Z.ltb_ge. subst r. cbn. lia.
Qed.

Lemma skip_space_ok buf es r : forall s, text buf s es r -> text buf (skip_space (length r) buf s es) es (trim r).
Proof.
  induction r as [| x r IH]; intros s Ht; cbn [length skip_space trim]; [done |].
  rewrite (proj2 (text_es _ _ _ _ Ht)), (text_hd _ _ _ _ Ht), nthZ_hd. rewrite bool_decide_true by done. cbn [andb].
  destruct (strchr whitespace x); [| done]. apply IH, (text_app _ _ _ [x] r Ht).
Qed.

Lemma skip_word_ok buf es w r : forall s,
  text buf s es (w ++ r) -> forallb word_char w = true -> word_char (nthZ 0 r 0) = false ->
  skip_word (length (w ++ r)) buf s es = s + Z.of_nat (length w).
Proof.
  induction w as [| x w IH]; intros s Ht Hw Hr.
  - cbn [app length] in *. rewrite Z.add_0_r. destruct r as [| x r]; [done |]. cbn [length skip_word].
    rewrite (text_hd _ _ _ _ Ht), nthZ_hd. rewrite nthZ_hd in Hr. unfold word_char in Hr.
    assert (x <> 0) as E%Z.eqb_neq by (destruct Ht as (? & ? & _ & _ & _ & H); set_solver). rewrite E in Hr. cbn [negb andb] in Hr.
    by rewrite <- andb_assoc, Hr, andb_false_r.
  - cbn [app length skip_word]. cbn in Hw. apply andb_true_iff in Hw as [Hx Hw]. unfold word_char in Hx.
    apply andb_true_iff in Hx as [[_ H1]%andb_true_iff H2].
    rewrite (text_hd _ _ _ _ Ht), (proj2 (text_es _ _ _ _ Ht)), bool_decide_true by done. cbn [app]. rewrite nthZ_hd.
    rewrite H1, H2. cbn [andb]. rewrite IH; [cbn; lia | apply (text_app _ _ _ [x] _ Ht) | done | done].
Qed.

(** The text of a word, which ends where no word character is. *)
Definition arg_at (buf : bytes) (qe : Z * Z) (w : bytes) : Prop :=
  exists pre post, buf = pre ++ w ++ post /\ qe.1 = Z.of_nat (length pre) /\ qe.2 = qe.1 + Z.of_nat (length w) /\
    word_ok w /\ post <> [] /\ word_char (nthZ 0 post 0) = false.

Definition tok_code (t : token) : Z := match t with TWord _ => ch_a | TSym c => c | TApp => ch_plus end.

Lemma trim_idem r : trim (trim r) = trim r.
Proof. induction r as [| x r IH]; cbn; [done |]. destruct (strchr whitespace x) eqn:E; [done |]. cbn. by rewrite E. Qed.

Lemma spelled_trim ts r : spelled ts (trim r) <-> spelled ts r.
Proof. destruct ts; cbn; by rewrite trim_idem. Qed.

Lemma word_char_spec c : word_char c = true -> c <> 0 /\ strchr whitespace c = false /\ strchr symbols c = false.
Proof. unfold word_char. intros [[H1 H2]%andb_true_iff H3]%andb_true_iff. zbool. done. Qed.

Lemma strchr_true toks c : strchr toks c = true <-> c ∈ toks.
Proof.
  unfold strchr. rewrite existsb_exists. setoid_rewrite Z.eqb_eq. rewrite list_elem_of_In. naive_solver.
Qed.

Lemma symbols_list : symbols = [60; 124; 62; 38; 59; 40; 41].
Proof. reflexivity. Qed.

Lemma symbols_cases c : strchr symbols c = true -> c = 60 \/ c = 124 \/ c = 62 \/ c = 38 \/ c = 59 \/ c = 40 \/ c = 41.
Proof. rewrite strchr_true, symbols_list, !elem_of_cons, elem_of_nil. tauto. Qed.

(** A word does not begin with one of the symbols. *)
Lemma strchr_sub toks c : toks ⊆ symbols -> strchr symbols c = false -> strchr toks c = false.
Proof. intros Hs H. apply not_true_iff_false. apply not_true_iff_false in H. rewrite strchr_true in *. set_solver. Qed.

Lemma skip_space_text buf s es r :
  text buf s es r -> text buf (skip_space (Z.to_nat (es - s)) buf s es) es (trim r).
Proof. intros Ht. rewrite (proj1 (text_es _ _ _ _ Ht)). by apply skip_space_ok. Qed.

(** The switch of [gettoken], after the white space. *)
Definition gettok1 (buf : bytes) (s es : Z) : Z * Z :=
  let c := nthZ 0 buf s in
  if c =? 0 then (c, s)
  else if strchr (cstr "|();&<") c then (c, s + 1)
  else if c =? ch_gt then
    if nthZ 0 buf (s + 1) =? ch_gt then (ch_plus, s + 2) else (c, s + 1)
  else (ch_a, skip_word (Z.to_nat (es - s)) buf s es).

Lemma gettok1_ok buf s es t rest :
  text buf s es (tok_bytes t ++ rest) -> tok_ok t -> sep t rest ->
  gettok1 buf s es = (tok_code t, s + Z.of_nat (length (tok_bytes t))).
Proof.
  intros Ht Hok Hs. unfold gettok1. rewrite (text_hd _ _ _ _ Ht). destruct t as [w | c |]; cbn [tok_bytes tok_code tok_ok sep] in *.
  - destruct Hok as [Hne Hw]. destruct w as [| x w]; [done |]. cbn [app] in *. rewrite nthZ_hd.
    assert (word_char x = true) as (H0 & H1 & H2)%word_char_spec by (cbn in Hw; by apply andb_true_iff in Hw as [? _]).
    rewrite (proj2 (Z.eqb_neq x 0)) by done.
    assert (strchr (cstr "|();&<") x = false /\ x <> ch_gt) as [-> H3].
    { split; [apply strchr_sub; [by apply (bool_decide_unpack _); vm_compute | done] | by intros ->]. }
    rewrite (proj2 (Z.eqb_neq x ch_gt)) by done. rewrite (proj1 (text_es _ _ _ _ Ht)). f_equal. by apply (skip_word_ok buf es (x :: w) rest s).
  - assert (E : nthZ 0 ([c] ++ rest) 0 = c) by done. rewrite E. pose proof (text_hd _ _ _ _ (text_app _ _ _ [c] rest Ht)) as E1.
    cbn [length] in *. change (Z.of_nat 1) with 1 in *. rewrite E1. apply symbols_cases in Hok. destruct_or! Hok; subst c; try done.
    cbn. by rewrite (proj2 (Z.eqb_neq _ _)) by (by apply Hs).
  - pose proof (text_hd _ _ _ _ (text_app _ _ _ [ch_gt] (ch_gt :: rest) Ht)) as E1. cbn [length] in *. change (Z.of_nat 1) with 1 in *.
    rewrite E1. done.
Qed.

Lemma gettoken_eq buf s es :
  let s1 := skip_space (Z.to_nat (es - s)) buf s es in
  gettoken buf s es = let '(ret, s2) := gettok1 buf s1 es in (ret, s1, s2, skip_space (Z.to_nat (es - s2)) buf s2 es).
Proof. done. Qed.

Lemma text_arg buf s es w rest :
  text buf s es (w ++ rest) -> word_ok w -> word_char (nthZ 0 rest 0) = false -> arg_at buf (s, s + Z.of_nat (length w)) w.
Proof.
  intros (pre & post & E & Es & _ & _) Hw Hr. exists pre, (rest ++ 0 :: post). split_and!; try done.
  - by rewrite E, <- app_assoc.
  - by destruct rest.
  - by destruct rest.
Qed.

(** A token is read, and what is left begins with no white space. *)
Lemma gettoken_ok buf s es r t ts :
  text buf s es r -> spelled (t :: ts) r ->
  exists q e s' r', gettoken buf s es = (tok_code t, q, e, s') /\ text buf s' es r' /\ spelled ts r' /\
    match t with TWord w => arg_at buf (q, e) w | _ => True end.
Proof.
  intros Ht (rest & E & Hok & Hs & Hts). rewrite gettoken_eq. cbv zeta. apply skip_space_text in Ht. rewrite E in Ht.
  set (s1 := skip_space _ _ _ _) in *. rewrite (gettok1_ok _ _ _ _ _ Ht Hok Hs). cbn [fst snd].
  do 4 eexists. split; [done |]. split_and!.
  - apply skip_space_text, text_app, Ht.
  - by rewrite spelled_trim.
  - destruct t; [| done | done]. by eapply text_arg.
Qed.

Lemma gettoken_end buf s es r :
  text buf s es r -> spelled [] r -> exists q e s' r', gettoken buf s es = (0, q, e, s') /\ text buf s' es r' /\ spelled [] r'.
Proof.
  intros Ht E. rewrite gettoken_eq. cbv zeta. apply skip_space_text in Ht. cbn in E. rewrite E in Ht. set (s1 := skip_space _ _ _ _) in *.
  unfold gettok1. rewrite (text_hd _ _ _ _ Ht). cbn. do 4 eexists. split; [done |]. split; [by apply skip_space_text | done].
Qed.

(** The next token begins with one of [toks]. *)
Definition starts (toks : bytes) (ts : list token) : bool :=
  match ts with
  | TSym c :: _ => strchr toks c
  | TApp :: _ => strchr toks ch_gt
  | _ => false
  end.

Lemma peek_ok buf s es r ts toks :
  text buf s es r -> spelled ts r -> toks ⊆ symbols ->
  exists s' r', peek buf s es toks = (starts toks ts, s') /\ text buf s' es r' /\ spelled ts r'.
Proof.
  intros Ht Hts Hsub. unfold peek. apply skip_space_text in Ht. rewrite (text_hd _ _ _ _ Ht). eexists _, (trim r).
  split; [| split; [exact Ht | by apply spelled_trim]]. f_equal. destruct ts as [| t ts]; cbn [spelled starts] in *.
  { by rewrite Hts. }
  destruct Hts as (rest & -> & Hok & _). destruct t as [w | c |]; cbn [tok_bytes tok_ok] in *; try done.
  - destruct Hok as [Hne Hw]. destruct w as [| x w]; [done |]. cbn [app]. rewrite nthZ_hd. cbn in Hw.
    apply andb_true_iff in Hw as [(_ & _ & Hx)%word_char_spec _]. rewrite (strchr_sub toks x) by done. apply andb_false_r.
  - cbn [app]. rewrite nthZ_hd. apply symbols_cases in Hok. by destruct_or! Hok; subst c.
Qed.

(** ** The nodes *)

(** [h'] has all the nodes of [h], except perhaps node [k]. *)
Definition extends_but (k : option nat) (h h' : list node) : Prop :=
  (length h <= length h')%nat /\ forall i x, Some i <> k -> h !! i = Some x -> h' !! i = Some x.
Abbreviation extends := (extends_but None).

#[export] Instance extends_pre k : PreOrder (extends_but k).
Proof. split; [by split |]. intros h1 h2 h3 [L1 H1] [L2 H2]. split; [lia |]. eauto. Qed.

Lemma extends_but_weaken k h h' : extends h h' -> extends_but k h h'.
Proof. intros [Hl He]. split; [done |]. intros i x _. by apply He. Qed.

Lemma extends_new h x : extends h (h ++ [x]).
Proof. split; [rewrite length_app; lia |]. intros i y _ Hi. by apply lookup_app_l_Some. Qed.

Definition pad (l : list Z) : list (option Z) := map Some l ++ replicate (10 - length l) None.

Lemma length_pad l : (length l <= 10)%nat -> length (pad l) = 10%nat.
Proof. intros. unfold pad. rewrite length_app, length_map, length_replicate. lia. Qed.

Lemma pad_set l x : (length l < 10)%nat -> updZ (pad l) (Z.of_nat (length l)) (Some x) = pad (l ++ [x]).
Proof.
  intros Hl. unfold pad, updZ. rewrite (proj2 (Z.ltb_ge _ 0)), Nat2Z.id by lia. rewrite insert_app_r_alt by (rewrite length_map; lia).
  rewrite length_map, Nat.sub_diag, map_app, length_app, <- app_assoc. f_equal. cbn [length map app].
  replace (10 - length l)%nat with (S (10 - (length l + 1)))%nat by lia. done.
Qed.

Lemma pad_none l : (length l < 10)%nat -> updZ (pad l) (Z.of_nat (length l)) None = pad l.
Proof.
  intros Hl. unfold pad, updZ. rewrite (proj2 (Z.ltb_ge _ 0)), Nat2Z.id by lia. rewrite insert_app_r_alt by (rewrite length_map; lia).
  rewrite length_map, Nat.sub_diag. f_equal. by destruct (10 - length l)%nat.
Qed.

Section nodes.
Context (buf : bytes).

Definition exec_node (h : list node) (k : nat) (ws : list bytes) : Prop :=
  exists sp, Forall2 (arg_at buf) sp ws /\ (length ws < 10)%nat /\ h !! k = Some (EXEC (pad sp.*1) (pad sp.*2)).

(** The redirections [rs] are wrapped around node [base], the last one is [i]. *)
Fixpoint wrapped (h : list node) (base : nat) (rs : list redir) (i : nat) : Prop :=
  match rs with
  | [] => base = i
  | r :: rs => exists j q e, h !! j = Some (REDIR (Some base) q e (rmode r.1) (rfd r.1)) /\ (base < j)%nat /\
                 arg_at buf (q, e) r.2 /\ wrapped h j rs i
  end.

(** Node [i] represents [c]. *)
Fixpoint rep (h : list node) (i : nat) (c : cmd) : Prop :=
  match c with
  | Cexec ws => exec_node h i ws
  | Credir c f mode fd => exists j q e, h !! i = Some (REDIR (Some j) q e mode fd) /\ (j < i)%nat /\ arg_at buf (q, e) f /\ rep h j c
  | Cpipe l r => exists j k, h !! i = Some (PIPE (Some j) (Some k)) /\ (j < i)%nat /\ (k < i)%nat /\ rep h j l /\ rep h k r
  | Clist l r => exists j k, h !! i = Some (LIST (Some j) (Some k)) /\ (j < i)%nat /\ (k < i)%nat /\ rep h j l /\ rep h k r
  | Cback c => exists j, h !! i = Some (BACK (Some j)) /\ (j < i)%nat /\ rep h j c
  end.

Lemma rep_extends h h' c : extends h h' -> forall i, rep h i c -> rep h' i c.
Proof.
  intros [_ He]. assert (Hl : forall i x, h !! i = Some x -> h' !! i = Some x) by (intros; by apply He).
  induction c as [ws | c IH f mode fd | l IHl r IHr | l IHl r IHr | c IH]; intros i; cbn [rep]; unfold exec_node; naive_solver.
Qed.

Lemma rep_length h i c : rep h i c -> (i < length h)%nat.
Proof. destruct c; cbn [rep]; unfold exec_node; intros; destruct_and?; destruct_or?; naive_solver eauto using lookup_lt_Some. Qed.

(** [k] is the node of a simple command. *)
Lemma wrapped_extends h h' k av ev base rs i :
  h !! k = Some (EXEC av ev) -> extends_but (Some k) h h' -> wrapped h base rs i -> wrapped h' base rs i.
Proof.
  intros Hk [_ He]. revert base. induction rs as [| r rs IH]; intros base; [done |]. cbn [wrapped].
  intros (j & q & e & Hj & Hlt & Ha & Hw). exists j, q, e. split_and!; [| done | done | by apply IH].
  apply He; [| done]. intros [= ->]. congruence.
Qed.

Lemma wrapped_app h base rs1 i1 rs2 i2 : wrapped h base rs1 i1 -> wrapped h i1 rs2 i2 -> wrapped h base (rs1 ++ rs2) i2.
Proof.
  revert base. induction rs1 as [| r rs1 IH]; intros base; cbn [wrapped app]; [by intros -> |].
  intros (j & q & e & Hj & Hlt & Ha & Hw) H2. exists j, q, e. auto.
Qed.

Lemma wrapped_rep h rs : forall base i c, wrapped h base rs i -> rep h base c -> rep h i (foldl add_redir c rs).
Proof.
  induction rs as [| r rs IH]; intros base i c; cbn [wrapped foldl]; [by intros -> |].
  intros (j & q & e & Hj & Hlt & Ha & Hw) Hr. apply (IH j); [done |]. cbn [rep]. by exists base, q, e.
Qed.

Lemma wrapped_ge h rs : forall base i, wrapped h base rs i -> (base <= i)%nat.
Proof. induction rs as [| r rs IH]; intros base i; cbn [wrapped]; [lia |]. intros (j & q & e & _ & ? & _ & ?%IH). lia. Qed.
End nodes.

(** ** The parser *)

Lemma tok_bytes_length t : tok_ok t -> (1 <= length (tok_bytes t))%nat.
Proof. destruct t as [w | c |]; cbn; [| lia | lia]. intros [Hw _]. destruct w; [done | cbn; lia]. Qed.

Lemma length_trim r : (length (trim r) <= length r)%nat.
Proof. induction r as [| x r IH]; cbn [trim length]; [done |]. destruct (strchr whitespace x); cbn [length]; lia. Qed.

(** A token has at least one character. *)
Lemma spelled_length ts : forall r, spelled ts r -> (length ts <= length r)%nat.
Proof.
  induction ts as [| t ts IH]; intros r; cbn [spelled length]; [lia |]. intros (rest & E & Hok%tok_bytes_length & _ & Hr%IH).
  pose proof (length_trim r). rewrite E, length_app in *. lia.
Qed.

Lemma turns_eq buf s es r : text buf s es r -> turns s es = S (length r).
Proof. intros Ht. unfold turns. by rewrite (proj1 (text_es _ _ _ _ Ht)). Qed.

Lemma wp_new x s Q : Q (Some (length (sh_cmds s))) (Shst (sh_buf s) (sh_cmds s ++ [x])) -> wp (new x) s Q.
Proof. done. Qed.

(** Look at the next token; read a token. *)
Ltac peek_step Ht Hs :=
  lazymatch goal with
  | |- context [peek ?buf ?s ?es ?toks] =>
      let H := fresh in
      assert (H : toks ⊆ symbols) by (apply (bool_decide_unpack _); vm_compute; exact I);
      destruct (peek_ok buf s es _ _ toks Ht Hs H) as (? & ? & -> & Hp1 & Hp2); clear H Ht Hs; rename Hp1 into Ht; rename Hp2 into Hs
  end.
Ltac tok_step Ht Hs q e :=
  lazymatch goal with
  | |- context [gettoken ?buf ?s ?es] =>
      destruct (gettoken_ok buf s es _ _ _ Ht Hs) as (q & e & ? & ? & -> & Hp1 & Hp2 & ?); clear Ht Hs; rename Hp1 into Ht; rename Hp2 into Hs
  end.

Section parser.
Context (buf : bytes) (es : Z).

(** The state at the end of a parsing function that has read up to [ts]. *)
Definition rest_at (ts : list token) (h : list node) (s : Z) (st : shst) : Prop :=
  st = Shst buf h /\ exists r, text buf s es r /\ spelled ts r.

Lemma redirs_ok rs : forall n h s r base ts,
  (length rs < n)%nat -> (base < length h)%nat -> text buf s es r -> spelled (redirs_toks rs ++ ts) r -> starts (cstr "<>") ts = false ->
  wp (redirs_loop n (Some base) s es) (Shst buf h) (fun x st =>
    exists i h', x.1 = Some i /\ rest_at ts h' x.2 st /\ extends h h' /\ wrapped buf h' base rs i /\ (i < length h')%nat).
Proof.
  induction rs as [| [k w] rs IH]; intros [| n] h s r base ts Hn Hb Ht Hs Hst; cbn [length] in Hn; try lia;
    cbn [redirs_loop]; apply wp_bind; unfold wp at 1, kgets; cbn [sh_buf].
  - change (redirs_toks [] ++ ts) with ts in Hs. peek_step Ht Hs. rewrite Hst. apply wp_ret. exists base, h. cbn. split_and!; try done.
    split; [done |]. by eexists.
  - change (redirs_toks ((k, w) :: rs) ++ ts) with (rtok k :: TWord w :: redirs_toks rs ++ ts) in Hs. peek_step Ht Hs.
    assert (starts (cstr "<>") (rtok k :: TWord w :: redirs_toks rs ++ ts) = true) as -> by (by destruct k).
    cbn [negb]. tok_step Ht Hs q0 e0. tok_step Ht Hs q e. cbn [tok_code]. rewrite Z.eqb_refl. cbn [negb]. apply wp_bind.
    match goal with |- wp ?m _ _ => assert (m = redircmd (Some base) q e (rmode k) (rfd k)) as -> by (by destruct k) end.
    apply wp_new. cbn [sh_buf sh_cmds]. set (h1 := h ++ [_]). eapply wp_mono.
    + eapply (IH n h1 _ _ (length h)); [lia | unfold h1; rewrite length_app; cbn; lia | exact Ht | exact Hs | done].
    + intros x5 st (i & h' & E1 & Hl & He & Hw & Hi). exists i, h'. split_and!; try done.
      * etrans; [apply extends_new | exact He].
      * cbn [wrapped]. exists (length h), q, e. split_and!; try done. apply He; [done |]. unfold h1. by rewrite list_lookup_middle.
Qed.

Lemma parseredirs_ok rs h s r base ts :
  (base < length h)%nat -> text buf s es r -> spelled (redirs_toks rs ++ ts) r -> starts (cstr "<>") ts = false ->
  wp (parseredirs (Some base) s es) (Shst buf h) (fun x st =>
    exists i h', x.1 = Some i /\ rest_at ts h' x.2 st /\ extends h h' /\ wrapped buf h' base rs i /\ (i < length h')%nat).
Proof.
  intros Hb Ht Hs Hst. unfold parseredirs. rewrite (turns_eq _ _ _ _ Ht). eapply redirs_ok; try done.
  apply spelled_length in Hs. rewrite length_app in Hs. enough (length rs <= length (redirs_toks rs))%nat by lia.
  clear. induction rs as [| [k w] rs IH]; [done |].
  change (redirs_toks ((k, w) :: rs)) with (rtok k :: TWord w :: redirs_toks rs). cbn [length]. lia.
Qed.

(** What may follow a simple command. *)
Definition exec_follow (ts : list token) : Prop := ts = [] \/ starts (cstr "|)&;") ts = true.

Lemma exec_follow_starts ts : exec_follow ts -> starts (cstr "<>") ts = false.
Proof.
  intros [-> | H]; [done |]. destruct ts as [| [w | c |] ts]; [done | done | | done]. cbn in *. rewrite strchr_true in H.
  assert (c = 124 \/ c = 41 \/ c = 38 \/ c = 59) as Hc by (change (cstr "|)&;") with [124; 41; 38; 59] in H; rewrite !elem_of_cons, elem_of_nil in H; tauto).
  by destruct_or! Hc; subst c.
Qed.

Lemma args_toks_starts args ts : exec_follow ts -> starts (cstr "<>") (args_toks args ++ ts) = false.
Proof. destruct args as [| a args]; [apply exec_follow_starts | done]. Qed.

Lemma set_arg_exec k h av ev i a e :
  h !! k = Some (EXEC av ev) ->
  set_arg (Some k) i a e (Shst buf h) = Ret tt (Shst buf (<[k := EXEC (updZ av i a) (updZ ev i e)]> h)).
Proof. intros E. unfold set_arg, kmod. cbn. by rewrite E. Qed.

Lemma extends_insert k h x : (k < length h)%nat -> extends_but (Some k) h (<[k := x]> h).
Proof. intros Hk. split; [by rewrite length_insert |]. intros i y Hi Hy. rewrite list_lookup_insert_ne; [done | congruence]. Qed.

(** The node [k] has the arguments [ws], inside the redirections [rs]. *)
Definition args_post (k : nat) (h : list node) (ts : list token) (ws : list bytes) (rs : list redir) (x : option nat * Z * Z) (st : shst) : Prop :=
  exists i h' sp, x.1.1 = Some i /\ x.1.2 = Z.of_nat (length sp) /\ rest_at ts h' x.2 st /\ extends_but (Some k) h h' /\
    h' !! k = Some (EXEC (pad sp.*1) (pad sp.*2)) /\ Forall2 (arg_at buf) sp ws /\ wrapped buf h' k rs i.

Lemma args_ok args : forall n h s r k ret rs sp ws ts,
  (length args < n)%nat -> text buf s es r -> spelled (args_toks args ++ ts) r -> exec_follow ts ->
  h !! k = Some (EXEC (pad sp.*1) (pad sp.*2)) -> Forall2 (arg_at buf) sp ws -> (length ws + length args < 10)%nat ->
  wrapped buf h k rs ret -> (ret < length h)%nat ->
  wp (args_loop n (Some k) (Some ret) (Z.of_nat (length sp)) s es) (Shst buf h) (args_post k h ts (ws ++ args.*1) (rs ++ (args ≫= snd))).
Proof.
  induction args as [| [w ars] args IH]; intros [| n] h s r k ret rs sp ws ts Hn Ht Hs Hf Hk Hsp Hlen Hw Hret; cbn [length] in *; try lia;
    cbn [args_loop]; apply wp_bind; unfold wp at 1, kgets; cbn [sh_buf].
  - change (args_toks [] ++ ts) with ts in Hs.
    assert (Hend : forall s' r', text buf s' es r' -> spelled ts r' ->
      args_post k h ts ws rs (Some ret, Z.of_nat (length sp), s') (Shst buf h)).
    { intros s' r' Ht' Hs'. exists ret, h, sp. split_and!; try done. split; [done |]. by eexists. }
    cbn [fmap list_fmap mbind list_bind]. rewrite !app_nil_r.
    peek_step Ht Hs. destruct Hf as [-> | ->]; [| by apply (Hend _ _ Ht)].
    cbn [starts]. destruct (gettoken_end _ _ _ _ Ht Hs) as (? & ? & ? & ? & -> & Ht' & Hs'). by apply (Hend _ _ Ht').
  - change (args_toks ((w, ars) :: args) ++ ts) with (TWord w :: (redirs_toks ars ++ args_toks args) ++ ts) in Hs. rewrite <- app_assoc in Hs.
    peek_step Ht Hs. cbn [starts]. tok_step Ht Hs q e. cbn [tok_code]. change (ch_a =? 0) with false. rewrite Z.eqb_refl. cbn [negb].
    pose proof (Forall2_length _ _ _ Hsp) as El. apply wp_bind. eapply wp_of; [by apply set_arg_exec |].
    rewrite (proj2 (Z.leb_gt MAXARGS _)) by (unfold MAXARGS; lia).
    replace (Z.of_nat (length sp)) with (Z.of_nat (length sp.*1)) at 1 by (by rewrite length_fmap).
    replace (Z.of_nat (length sp)) with (Z.of_nat (length sp.*2)) at 1 by (by rewrite length_fmap).
    rewrite !pad_set by (rewrite length_fmap; lia). set (h1 := <[k := _]> h).
    assert (Hk1 : h1 !! k = Some (EXEC (pad (sp ++ [(q, e)]).*1) (pad (sp ++ [(q, e)]).*2))).
    { unfold h1. rewrite list_lookup_insert_eq by (by eapply lookup_lt_Some). by rewrite !fmap_app. }
    assert (He1 : extends_but (Some k) h h1) by (apply extends_insert; by eapply lookup_lt_Some).
    apply wp_bind. eapply wp_mono; [eapply (parseredirs_ok ars h1); [| exact Ht | exact Hs | by apply args_toks_starts] |].
    { unfold h1. by rewrite length_insert. }
    intros [x5 s'] st (i & h2 & E & [-> (r2 & Ht2 & Hs2)] & He2 & Hw2 & Hi). cbn [fst snd] in *. subst x5.
    replace (Z.of_nat (length sp) + 1) with (Z.of_nat (length (sp ++ [(q, e)]))) by (rewrite length_app; cbn; lia).
    eapply wp_mono; [apply (IH n h2 s' r2 k i (rs ++ ars) (sp ++ [(q, e)]) (ws ++ [w]) ts); try done |].
    + lia.
    + by apply He2.
    + apply Forall2_app; [done |]. by constructor.
    + rewrite length_app. cbn. lia.
    + eapply wrapped_app; [| exact Hw2]. eapply wrapped_extends; [exact Hk1 | by apply extends_but_weaken |].
      exact (wrapped_extends buf h h1 k _ _ _ _ _ Hk He1 Hw).
    + intros [[x6 x7] s3] st3 (i3 & h3 & sp3 & H1 & H2 & H3 & H4 & H5 & H6 & H7).
      rewrite <- !app_assoc in *. exists i3, h3, sp3. split_and!; try done. etrans; [exact He1 |]. etrans; [by apply extends_but_weaken | done].
Qed.

(** The result of a parsing function that has read the text of [c]. *)
Definition built (h : list node) (c : cmd) (ts : list token) (x : option nat * Z) (st : shst) : Prop :=
  exists i h', x.1 = Some i /\ rest_at ts h' x.2 st /\ extends h h' /\ rep buf h' i c.

Lemma back_ok amps : forall n h s r i c ts,
  (amps < n)%nat -> rep buf h i c -> text buf s es r -> spelled (replicate amps (TSym ch_amp) ++ ts) r -> starts (cstr "&") ts = false ->
  wp (back_loop n (Some i) s es) (Shst buf h) (built h (Nat.iter amps Cback c) ts).
Proof.
  induction amps as [| amps IH]; intros [| n] h s r i c ts Hn Hr Ht Hs Hst; try lia; cbn [back_loop replicate app] in *;
    apply wp_bind; unfold wp at 1, kgets; cbn [sh_buf].
  - peek_step Ht Hs. rewrite Hst. apply wp_ret. exists i, h. split_and!; try done. split; [done |]. by eexists.
  - peek_step Ht Hs. change (starts (cstr "&") (TSym ch_amp :: _)) with true. cbn [negb]. tok_step Ht Hs q e. apply wp_bind, wp_new.
    cbn [sh_buf sh_cmds]. eapply wp_mono; [eapply (IH n _ _ _ (length h) (Cback c)); [lia | | exact Ht | exact Hs | done] |].
    + exists i. split_and!; [by rewrite list_lookup_middle | by eapply rep_length | by eapply rep_extends, Hr; apply extends_new].
    + intros x3 st (j & h' & H1 & H2 & H3 & H4). exists j, h'. split_and!; try done.
      * etrans; [apply extends_new | done].
      * by rewrite Nat.iter_succ_r.
Qed.

(** What may follow a pipeline, and a line. *)
Definition pipe_follow (ts : list token) : Prop := ts = [] \/ starts (cstr ")&;") ts = true.
Definition line_follow (ts : list token) : Prop := ts = [] \/ starts (cstr ")") ts = true.

Lemma follow_starts toks ts t :
  ts = [] \/ starts toks ts = true -> forallb (fun c => negb (strchr t c)) toks = true -> starts t ts = false.
Proof.
  intros [-> | H] Hd; [done |]. rewrite forallb_forall in Hd. setoid_rewrite <- list_elem_of_In in Hd. setoid_rewrite negb_true_iff in Hd.
  destruct ts as [| [w | c |] ts]; [done | done | |]; cbn in *; rewrite strchr_true in H; by apply Hd.
Qed.

Lemma follow_mono toks toks' ts : ts = [] \/ starts toks ts = true -> toks ⊆ toks' -> ts = [] \/ starts toks' ts = true.
Proof.
  intros [-> | H] Hs; [by left | right]. destruct ts as [| [w | c |] ts]; [done | done | |]; cbn in *; rewrite strchr_true in *; set_solver.
Qed.

(** The depth of the calls. *)
Fixpoint line_depth (l : line) : nat :=
  match l with Last p _ => S (pipe_depth p) | Seq p _ l => S (Nat.max (pipe_depth p) (line_depth l)) end
with pipe_depth (p : pipe) : nat :=
  match p with One e => S (exec_depth e) | Bar e p => S (Nat.max (exec_depth e) (pipe_depth p)) end
with exec_depth (e : exec) : nat :=
  match e with Simple _ _ => 1%nat | Block l _ => S (S (line_depth l)) end.

Lemma depth_bound :
  (forall l, (line_depth l <= 4 * length (line_toks l) + 3)%nat) /\
  (forall p, (pipe_depth p <= 4 * length (pipe_toks p) + 2)%nat) /\
  (forall e, (exec_depth e <= 4 * length (exec_toks e) + 1)%nat).
Proof.
  apply grammar_ind; intros; cbn [line_depth pipe_depth exec_depth line_toks pipe_toks exec_toks length]; repeat (rewrite length_app; cbn [length]); lia.
Qed.

(** [f] reads the tokens [tk] as [c] when what follows is in [follow]. *)
Definition reads (f : Z -> Z -> K shst (option nat * Z)) (tk : list token) (c : cmd) (follow : list token -> Prop) : Prop :=
  forall h s r ts, text buf s es r -> spelled (tk ++ ts) r -> follow ts -> wp (f s es) (Shst buf h) (built h c ts).

Lemma simple_ok n rs args :
  exec_ok (Simple rs args) -> reads (parseexec (S n)) (exec_toks (Simple rs args)) (exec_cmd (Simple rs args)) exec_follow.
Proof.
  intros Hok h s r ts Ht Hs Hf. cbn [exec_ok exec_toks exec_cmd parseexec] in *. rewrite <- app_assoc in Hs. unfold MAXARGS in Hok.
  apply wp_bind. unfold wp at 1, kgets. cbn [sh_buf]. peek_step Ht Hs.
  assert (starts (cstr "(") (redirs_toks rs ++ args_toks args ++ ts) = false) as ->.
  { destruct rs as [| [[] w] rs]; [| done..]. destruct args as [| a args]; [| done]. by eapply follow_starts. }
  apply wp_bind, wp_new. cbn [sh_buf sh_cmds]. set (k := length h). set (h1 := h ++ [_]).
  assert (Hk : h1 !! k = Some (EXEC (pad []) (pad []))) by (unfold h1, k; by rewrite list_lookup_middle).
  apply wp_bind. eapply wp_mono; [eapply (parseredirs_ok rs h1); [by eapply lookup_lt_Some | exact Ht | exact Hs | by apply args_toks_starts] |].
  intros [x1' s1] st (i & h2 & E & [-> (r2 & Ht2 & Hs2)] & He2 & Hw2 & Hi). cbn [fst snd] in *. subst x1'.
  rewrite (turns_eq _ _ _ _ Ht2). apply wp_bind. eapply wp_mono.
  { apply (args_ok args _ h2 s1 r2 k i rs [] [] ts); try done; [| by apply He2 | cbn; lia].
    apply spelled_length in Hs2. rewrite length_app in Hs2. enough (length args <= length (args_toks args))%nat by lia.
    clear. induction args as [| [w ars] args IH]; [done |].
    change (args_toks ((w, ars) :: args)) with (TWord w :: redirs_toks ars ++ args_toks args). cbn [length]. rewrite length_app. lia. }
  intros [[x1' x2'] s2] st (j & h3 & sp & E1 & E2 & [-> Hl] & He3 & Hk3 & Hsp & Hw3). cbn [fst snd app] in *. subst x1' x2'.
  pose proof (Forall2_length _ _ _ Hsp) as El. rewrite length_fmap in El.
  apply wp_bind. eapply wp_of; [by apply set_arg_exec |].
  replace (Z.of_nat (length sp)) with (Z.of_nat (length sp.*1)) at 1 by (by rewrite length_fmap).
  replace (Z.of_nat (length sp)) with (Z.of_nat (length sp.*2)) at 1 by (by rewrite length_fmap).
  rewrite !pad_none by (rewrite length_fmap; lia). rewrite list_insert_id by done. apply wp_ret. exists j, h3. split_and!; [done | done | |].
  - split; [destruct He2, He3; unfold h1 in *; rewrite length_app in *; lia |]. intros m x3 _ Hm. apply He3.
    + apply lookup_lt_Some in Hm. intros [= ->]. unfold k in Hm. lia.
    + apply He2; [done |]. by apply (extends_new h).
  - eapply wrapped_rep; [exact Hw3 |]. exists sp. split_and!; [done | rewrite length_fmap; lia | done].
Qed.

Lemma block_ok n l rs :
  reads (parseline n) (line_toks l) (line_cmd l) line_follow ->
  reads (parseexec (S (S n))) (exec_toks (Block l rs)) (exec_cmd (Block l rs)) exec_follow.
Proof.
  intros IH h s r ts Ht Hs Hf. cbn [exec_toks exec_cmd parseexec parseblock app] in *. rewrite <- app_assoc in Hs. cbn [app] in Hs.
  apply wp_bind. unfold wp at 1, kgets. cbn [sh_buf]. peek_step Ht Hs. change (starts (cstr "(") (TSym ch_open :: _)) with true. cbn iota.
  apply wp_bind. unfold wp at 1, kgets. cbn [sh_buf]. peek_step Ht Hs. change (starts (cstr "(") (TSym ch_open :: _)) with true. cbn [negb].
  tok_step Ht Hs q e. apply wp_bind. eapply wp_mono; [eapply IH; [exact Ht | exact Hs | by right] |].
  intros [x5 s1] st (i & h1 & E & [-> (r1 & Ht1 & Hs1)] & He & Hr). cbn [fst snd] in *. subst x5.
  apply wp_bind. unfold wp at 1, kgets. cbn [sh_buf]. peek_step Ht1 Hs1. change (starts (cstr ")") (TSym ch_close :: _)) with true. cbn [negb].
  tok_step Ht1 Hs1 q1 e1. eapply wp_mono; [eapply (parseredirs_ok rs h1 _ _ i); [by eapply rep_length | exact Ht1 | exact Hs1 | by apply exec_follow_starts] |].
  intros y st (j & h2 & E2 & Hl & He2 & Hw & _). exists j, h2. split_and!; [done | done | by etrans |].
  eapply wrapped_rep; [exact Hw |]. by eapply rep_extends.
Qed.

(** Two commands read one after the other, and the node for them. *)
Lemma built_pair h h1 h2 i j x c1 c2 c ts s r :
  rep buf h1 i c1 -> extends h h1 -> extends h1 h2 -> rep buf h2 j c2 -> text buf s es r -> spelled ts r ->
  (forall h', rep buf h' i c1 -> rep buf h' j c2 -> (i < length h2)%nat -> (j < length h2)%nat -> h' !! length h2 = Some x -> rep buf h' (length h2) c) ->
  built h c ts (Some (length h2), s) (Shst buf (h2 ++ [x])).
Proof.
  intros H1 E1 E2 H2 Ht Hs Hc. exists (length h2), (h2 ++ [x]). split_and!; [done | split; [done | by eexists] | |].
  - etrans; [exact E1 |]. etrans; [exact E2 | apply extends_new].
  - apply Hc; [| | | by eapply rep_length | by rewrite list_lookup_middle].
    + eapply rep_extends, H1. etrans; [exact E2 | apply extends_new].
    + eapply rep_extends, H2. apply extends_new.
    + apply rep_length in H1. destruct E2. lia.
Qed.

Lemma one_ok n e : reads (parseexec n) (exec_toks e) (exec_cmd e) exec_follow -> reads (parsepipe (S n)) (pipe_toks (One e)) (pipe_cmd (One e)) pipe_follow.
Proof.
  intros IH h s r ts Ht Hs Hf. cbn [pipe_toks pipe_cmd parsepipe] in *. apply wp_bind.
  eapply wp_mono; [eapply IH; [exact Ht | exact Hs | eapply follow_mono; [exact Hf | apply (bool_decide_unpack _); vm_compute; exact I]] |].
  intros [y s1] st (i & h1 & E & [-> (r1 & Ht1 & Hs1)] & He & Hr). cbn [fst snd] in *. subst y.
  apply wp_bind. unfold wp at 1, kgets. cbn [sh_buf]. peek_step Ht1 Hs1. rewrite (follow_starts _ ts (cstr "|") Hf) by done. apply wp_ret.
  exists i, h1. split_and!; try done. split; [done |]. by eexists.
Qed.

Lemma bar_ok n e p :
  reads (parseexec n) (exec_toks e) (exec_cmd e) exec_follow -> reads (parsepipe n) (pipe_toks p) (pipe_cmd p) pipe_follow ->
  reads (parsepipe (S n)) (pipe_toks (Bar e p)) (pipe_cmd (Bar e p)) pipe_follow.
Proof.
  intros IHe IHp h s r ts Ht Hs Hf. cbn [pipe_toks pipe_cmd parsepipe] in *. rewrite <- app_assoc in Hs. cbn [app] in Hs. apply wp_bind.
  eapply wp_mono; [eapply IHe; [exact Ht | exact Hs | by right] |].
  intros [y s1] st (i & h1 & E & [-> (r1 & Ht1 & Hs1)] & He & Hr). cbn [fst snd] in *. subst y.
  apply wp_bind. unfold wp at 1, kgets. cbn [sh_buf]. peek_step Ht1 Hs1. change (starts (cstr "|") (TSym ch_bar :: _)) with true. cbn iota.
  tok_step Ht1 Hs1 q0 e0. apply wp_bind. eapply wp_mono; [eapply IHp; [exact Ht1 | exact Hs1 | exact Hf] |].
  intros [y s2] st (j & h2 & E & [-> (r2 & Ht2 & Hs2)] & He2 & Hr2). cbn [fst snd] in *. subst y. apply wp_bind, wp_new. apply wp_ret. cbn [sh_buf sh_cmds].
  eapply built_pair; [exact Hr | done | done | exact Hr2 | exact Ht2 | done |]. intros h' ? ? ? ? ?. by exists i, j.
Qed.

(** A pipeline and the [&]s after it. *)
Lemma backs_ok n p amps h s r ts (f : option nat -> Z -> K shst (option nat * Z)) Q :
  reads (parsepipe n) (pipe_toks p) (pipe_cmd p) pipe_follow -> text buf s es r -> spelled (pipe_toks p ++ replicate amps (TSym ch_amp) ++ ts) r ->
  (ts = [] \/ starts (cstr ");") ts = true) ->
  (forall i s1 h1 r1, rep buf h1 i (Nat.iter amps Cback (pipe_cmd p)) -> extends h h1 -> text buf s1 es r1 -> spelled ts r1 ->
     wp (f (Some i) s1) (Shst buf h1) Q) ->
  wp ('(cmd, s) <- parsepipe n s es ;; '(cmd, s) <- back_loop (turns s es) cmd s es ;; f cmd s) (Shst buf h) Q.
Proof.
  intros IH Ht Hs Hf HQ. apply wp_bind. eapply wp_mono; [eapply IH; [exact Ht | exact Hs |] |].
  { destruct amps; [| by right]. eapply follow_mono; [exact Hf | apply (bool_decide_unpack _); vm_compute; exact I]. }
  intros [y s1] st (i & h1 & E & [-> (r1 & Ht1 & Hs1)] & He & Hr). cbn [fst snd] in *. subst y. apply wp_bind. rewrite (turns_eq _ _ _ _ Ht1).
  eapply wp_mono; [eapply (back_ok amps _ h1 _ _ i); [| exact Hr | exact Ht1 | exact Hs1 | by apply (follow_starts _ _ _ Hf)] |].
  { apply spelled_length in Hs1. rewrite length_app, length_replicate in Hs1. lia. }
  intros [y s2] st (j & h2 & E & [-> (r2 & Ht2 & Hs2)] & He2 & Hr2). cbn [fst snd] in *. subst y. eapply HQ; [exact Hr2 | by etrans | exact Ht2 | done].
Qed.

Lemma last_ok n p amps :
  reads (parsepipe n) (pipe_toks p) (pipe_cmd p) pipe_follow ->
  reads (parseline (S n)) (line_toks (Last p amps)) (line_cmd (Last p amps)) line_follow.
Proof.
  intros IH h s r ts Ht Hs Hf. cbn [line_toks line_cmd parseline] in *. rewrite <- app_assoc in Hs.
  eapply (backs_ok n p amps h s r ts); [done | exact Ht | exact Hs | eapply follow_mono; [exact Hf | apply (bool_decide_unpack _); vm_compute; exact I] |].
  intros i s1 h1 r1 Hr He Ht1 Hs1. apply wp_bind. unfold wp at 1, kgets. cbn [sh_buf]. peek_step Ht1 Hs1.
  rewrite (follow_starts _ ts (cstr ";") Hf) by done. apply wp_ret. exists i, h1. split_and!; try done. split; [done |]. by eexists.
Qed.

Lemma seq_ok n p amps l :
  reads (parsepipe n) (pipe_toks p) (pipe_cmd p) pipe_follow -> reads (parseline n) (line_toks l) (line_cmd l) line_follow ->
  reads (parseline (S n)) (line_toks (Seq p amps l)) (line_cmd (Seq p amps l)) line_follow.
Proof.
  intros IHp IHl h s r ts Ht Hs Hf. cbn [line_toks line_cmd parseline] in *. rewrite <- !app_assoc in Hs. cbn [app] in Hs.
  eapply (backs_ok n p amps h s r); [done | exact Ht | exact Hs | by right |].
  intros i s1 h1 r1 Hr He Ht1 Hs1. apply wp_bind. unfold wp at 1, kgets. cbn [sh_buf]. peek_step Ht1 Hs1.
  change (starts (cstr ";") (TSym ch_semi :: _)) with true. cbn iota. tok_step Ht1 Hs1 q0 e0.
  apply wp_bind. eapply wp_mono; [eapply IHl; [exact Ht1 | exact Hs1 | exact Hf] |].
  intros [y s2] st (j & h2 & E & [-> (r2 & Ht2 & Hs2)] & He2 & Hr2). cbn [fst snd] in *. subst y. apply wp_bind, wp_new. apply wp_ret. cbn [sh_buf sh_cmds].
  eapply built_pair; [exact Hr | done | done | exact Hr2 | exact Ht2 | done |]. intros h' ? ? ? ? ?. by exists i, j.
Qed.

Lemma parser_ok :
  (forall l n, line_ok l -> (line_depth l <= n)%nat -> reads (parseline n) (line_toks l) (line_cmd l) line_follow) /\
  (forall p n, pipe_ok p -> (pipe_depth p <= n)%nat -> reads (parsepipe n) (pipe_toks p) (pipe_cmd p) pipe_follow) /\
  (forall e n, exec_ok e -> (exec_depth e <= n)%nat -> reads (parseexec n) (exec_toks e) (exec_cmd e) exec_follow).
Proof.
  apply grammar_ind.
  - intros p IH amps [| n] Hok Hn; cbn [line_depth line_ok] in *; [lia |]. apply last_ok, IH; [done | lia].
  - intros p IHp amps l IHl [| n] Hok Hn; cbn [line_depth line_ok] in *; [lia |]. destruct Hok. apply seq_ok; [apply IHp | apply IHl]; (done || lia).
  - intros e IH [| n] Hok Hn; cbn [pipe_depth pipe_ok] in *; [lia |]. apply one_ok, IH; [done | lia].
  - intros e IHe p IHp [| n] Hok Hn; cbn [pipe_depth pipe_ok] in *; [lia |]. destruct Hok. apply bar_ok; [apply IHe | apply IHp]; (done || lia).
  - intros rs args [| n] Hok Hn; cbn [exec_depth] in *; [lia |]. by apply simple_ok.
  - intros l IH rs [| [| n]] Hok Hn; cbn [exec_depth] in *; try lia. apply block_ok, IH; [done | lia].
Qed.
End parser.
