(* ===== verification/ShCmd.v ===== *)
(** * The shell: from a line to its command

    The strings of the parsed command are cut out of the line by
    [nulterminate]; [decode] reads the finished command back from the nodes
    and the buffer. *)

From S2P Require Import Prelude Riscv Ulib Sh ShParse.

(** The C string at the front of a list of bytes. *)
Fixpoint upto0 (l : bytes) : bytes :=
  match l with
  | [] => []
  | x :: l => if x =? 0 then [] else x :: upto0 l
  end.
Definition str (b : bytes) (q : Z) : bytes := upto0 (drop (Z.to_nat q) b).

(** [argv], up to its NULL. *)
Fixpoint args_of (b : bytes) (argv : list (option Z)) : list bytes :=
  match argv with
  | Some q :: argv => str b q :: args_of b argv
  | _ => []
  end.

Fixpoint decode (n : nat) (st : shst) (p : option nat) : option cmd :=
  match n, p with
  | S n, Some i =>
      match sh_cmds st !! i with
      | Some (EXEC argv _) => Some (Cexec (args_of (sh_buf st) argv))
      | Some (REDIR c f _ mode fd) => c ← decode n st c; Some (Credir c (str (sh_buf st) f) mode fd)
      | Some (PIPE l r) => l ← decode n st l; r ← decode n st r; Some (Cpipe l r)
      | Some (LIST l r) => l ← decode n st l; r ← decode n st r; Some (Clist l r)
      | Some (BACK c) => c ← decode n st c; Some (Cback c)
      | None => None
      end
  | _, _ => None
  end.

(** ** [nulterminate] *)

Lemma upto0_spec w : forall l,
  (forall i, (i < length w)%nat -> nth i l 0 = nth i w 0) -> 0 ∉ w -> (length w < length l)%nat -> nth (length w) l 0 = 0 -> upto0 l = w.
Proof.
  induction w as [| x w IH]; intros [| y l] He H0 Hl Hz; cbn [length upto0] in *; try lia.
  - cbn in Hz. by rewrite Hz.
  - assert (y = x) as -> by (apply (He 0%nat); lia). rewrite (proj2 (Z.eqb_neq x 0)) by set_solver. f_equal.
    apply IH; [| set_solver | lia | done]. intros i Hi. apply (He (S i)). lia.
Qed.

Lemma nth_drop_add (l : bytes) n i : nth i (drop n l) 0 = nth (n + i) l 0.
Proof. by rewrite !nth_lookup, lookup_drop. Qed.

Section cut.
Context (buf : bytes).

(** [b] is [buf] with some characters that are in no word set to NUL. *)
Definition cut (b : bytes) : Prop :=
  length b = length buf /\ forall i, nth i b 0 = nth i buf 0 \/ nth i b 0 = 0 /\ word_char (nth i buf 0) = false.

(** More may be cut later. *)
Definition later (b b' : bytes) : Prop := cut b' /\ forall i, nth i b 0 = 0 -> nth i b' 0 = 0.

Lemma later_trans b1 b2 b3 : later b1 b2 -> later b2 b3 -> later b1 b3.
Proof. intros [_ H1] [H2 H3]. split; auto. Qed.

Lemma word_ok_no_nul w : word_ok w -> 0 ∉ w.
Proof.
  intros [_ Hw] Hin. rewrite forallb_forall in Hw. apply list_elem_of_In, Hw in Hin. done.
Qed.

Lemma arg_end q e w : arg_at buf (q, e) w -> (Z.to_nat e < length buf)%nat /\ 0 <= e /\ word_char (nth (Z.to_nat e) buf 0) = false.
Proof.
  intros (pre & post & -> & Eq & Ee & Hw & Hne & Hc). cbn [fst snd] in *. subst q e. rewrite !length_app. destruct post as [| x post]; [done |].
  replace (Z.to_nat (Z.of_nat (length pre) + Z.of_nat (length w))) with (length pre + length w)%nat by lia. split_and!; [cbn; lia | lia |].
  rewrite app_nth2_plus, <- (Nat.add_0_r (length w)), app_nth2_plus. exact Hc.
Qed.

(** A word that ends in a NUL. *)
Lemma str_ok q e w b : arg_at buf (q, e) w -> cut b -> nth (Z.to_nat e) b 0 = 0 -> str b q = w.
Proof.
  intros Ha [Hl Hc] Hz. pose proof (arg_end _ _ _ Ha) as (He & _). destruct Ha as (pre & post & E & Eq & Ee & Hw & Hne & _). cbn [fst snd] in *. subst q e.
  replace (Z.to_nat (Z.of_nat (length pre) + Z.of_nat (length w))) with (length pre + length w)%nat in * by lia.
  unfold str. rewrite Nat2Z.id. apply upto0_spec.
  - intros i Hi. rewrite nth_drop_add. destruct (Hc (length pre + i)%nat) as [-> | [_ Hn]].
    + by rewrite E, app_nth2_plus, app_nth1.
    + rewrite E, app_nth2_plus, app_nth1 in Hn by done. destruct Hw as [_ Hw]. rewrite forallb_forall in Hw. rewrite Hw in Hn; [done |]. by apply nth_In.
  - by apply word_ok_no_nul.
  - rewrite length_drop. lia.
  - by rewrite nth_drop_add.
Qed.

Lemma later_cut q e w b : arg_at buf (q, e) w -> cut b -> later b (updZ b e 0) /\ nth (Z.to_nat e) (updZ b e 0) 0 = 0.
Proof.
  intros (Hl & H0 & Hc)%arg_end [Hlen Hb]. unfold updZ, bytes in *. rewrite (proj2 (Z.ltb_ge e 0)) by lia.
  assert (Hn : forall i, nth i (<[Z.to_nat e := 0]> b) 0 = if decide (i = Z.to_nat e) then 0 else nth i b 0).
  { intros i. rewrite !nth_lookup. destruct (decide (i = Z.to_nat e)) as [-> | Hne].
    - rewrite list_lookup_insert_eq by lia. done.
    - by rewrite list_lookup_insert_ne by congruence. }
  split; [| rewrite Hn; by case_decide]. split.
  - split; [by rewrite length_insert |]. intros i. rewrite Hn. case_decide; [subst; by right | apply Hb].
  - intros i Hi. rewrite Hn. by case_decide.
Qed.

(** [st] decodes to [c] at [i], whatever else is cut. *)
Definition settled (n i : nat) (h : list node) (b : bytes) (c : cmd) : Prop :=
  forall b', later b b' -> decode n (Shst b' h) (Some i) = Some c.

Lemma settled_later n i h b b' c : settled n i h b c -> later b b' -> settled n i h b' c.
Proof. intros Hs Hl b'' Hl'. apply Hs. by eapply later_trans. Qed.

Definition nul_post (n i : nat) (h : list node) (b : bytes) (c : cmd) (st : shst) : Prop :=
  exists b', st = Shst b' h /\ later b b' /\ settled n i h b' c.

Lemma later_refl b : cut b -> later b b.
Proof. by split. Qed.

Lemma args_of_pad b l : args_of b (pad l) = map (str b) l.
Proof.
  unfold pad. rewrite <- (app_nil_r (map (str b) l)). generalize (10 - length l)%nat as k. induction l as [| x l IH]; intros k; cbn; [by destruct k |].
  by rewrite IH.
Qed.

Lemma nul_args_ok h sp ws : Forall2 (arg_at buf) sp ws -> forall b k1 k2, cut b ->
  wp (nul_args (map Some sp.*1 ++ replicate k1 None) (map Some sp.*2 ++ replicate k2 None)) (Shst b h) (fun _ st =>
    exists b', st = Shst b' h /\ later b b' /\ forall b'', later b' b'' -> map (str b'') sp.*1 = ws).
Proof.
  induction 1 as [| [q e] w sp ws Ha _ IH]; intros b k1 k2 Hb; cbn [map fmap list_fmap app nul_args].
  - assert (wp (kret tt) (Shst b h) (fun _ st => exists b', st = Shst b' h /\ later b b' /\ forall b'', later b' b'' -> map (str b'') [] = [])).
    { exists b. split_and!; [done | by apply later_refl | done]. }
    by destruct k1.
  - apply wp_bind, wp_mod. cbn [fst snd sh_buf sh_cmds]. destruct (later_cut _ _ _ _ Ha Hb) as [Hl Hz].
    eapply wp_mono; [apply IH, Hl |]. intros [] st (b' & -> & Hl' & Hs). exists b'. split_and!; [done | by eapply later_trans |].
    intros b'' Hl''. f_equal; [| by apply Hs]. eapply str_ok; [exact Ha | apply Hl'' |]. apply Hl'', Hl', Hz.
Qed.

Lemma nulterminate_ok h c : forall n i b,
  rep buf h i c -> (i < n)%nat -> cut b -> wp (nulterminate_at n (Some i)) (Shst b h) (fun _ => nul_post n i h b c).
Proof.
  induction c as [ws | c IH f mode fd | l IHl r IHr | l IHl r IHr | c IH]; intros [| n] i b Hr Hn Hb; try lia; cbn [rep] in Hr;
    cbn [nulterminate_at]; apply wp_bind; unfold wp at 1, kget; cbn [sh_cmds].
  - destruct Hr as (sp & Hsp & Hlen & Hi). rewrite Hi. unfold pad. rewrite !length_fmap. eapply wp_mono; [by apply (nul_args_ok h sp ws)|].
    intros [] st (b' & -> & Hl & Hs). exists b'. split_and!; [done | done |]. intros b'' Hl'. cbn [decode sh_cmds sh_buf]. rewrite Hi, args_of_pad. by rewrite Hs.
  - destruct Hr as (j & q & e & Hi & Hj & Ha & Hr). rewrite Hi. apply wp_bind. eapply wp_mono; [apply IH; [done | lia | done] |].
    intros [] st (b1 & -> & Hl1 & Hs1). apply wp_mod. cbn [sh_buf sh_cmds]. destruct (later_cut _ _ _ _ Ha (proj1 Hl1)) as [Hl2 Hz].
    eexists. split_and!; [done | by eapply later_trans |]. intros b' Hl. cbn [decode sh_cmds sh_buf]. rewrite Hi.
    rewrite (settled_later _ _ _ _ _ _ Hs1 Hl2 b' Hl). cbn. do 2 f_equal. eapply str_ok; [exact Ha | apply Hl | by apply Hl].
  - destruct Hr as (j & k & Hi & Hj & Hk & Hl & Hr). rewrite Hi. apply wp_bind. eapply wp_mono; [apply IHl; [done | lia | done] |].
    intros [] st (b1 & -> & Hl1 & Hs1). eapply wp_mono; [apply IHr; [done | lia | apply Hl1] |]. intros [] st (b2 & -> & Hl2 & Hs2).
    exists b2. split_and!; [done | by eapply later_trans |]. intros b' Hb'. cbn [decode sh_cmds sh_buf]. rewrite Hi.
    by rewrite (settled_later _ _ _ _ _ _ Hs1 Hl2 b' Hb'), (Hs2 b' Hb').
  - destruct Hr as (j & k & Hi & Hj & Hk & Hl & Hr). rewrite Hi. apply wp_bind. eapply wp_mono; [apply IHl; [done | lia | done] |].
    intros [] st (b1 & -> & Hl1 & Hs1). eapply wp_mono; [apply IHr; [done | lia | apply Hl1] |]. intros [] st (b2 & -> & Hl2 & Hs2).
    exists b2. split_and!; [done | by eapply later_trans |]. intros b' Hb'. cbn [decode sh_cmds sh_buf]. rewrite Hi.
    by rewrite (settled_later _ _ _ _ _ _ Hs1 Hl2 b' Hb'), (Hs2 b' Hb').
  - destruct Hr as (j & Hi & Hj & Hr). rewrite Hi. eapply wp_mono; [apply IH; [done | lia | done] |].
    intros [] st (b1 & -> & Hl1 & Hs1). exists b1. split_and!; [done | done |]. intros b' Hb'. cbn [decode sh_cmds sh_buf]. rewrite Hi.
    by rewrite (Hs1 b' Hb').
Qed.
End cut.

(** ** [parsecmd] *)

Lemma strlen_text post r : forall pre n,
  0 ∉ r -> (length r < n)%nat -> Z.of_nat (length pre + length r) < 2 ^ 32 ->
  Ulib.strlen_loop (fun j => nth j (pre ++ r ++ 0 :: post) 0) (length pre) n = Some (Z.of_nat (length pre + length r)).
Proof.
  induction r as [| x r IH]; intros pre [| n] H0 Hn Hu; cbn [length] in *; try lia; cbn [Ulib.strlen_loop];
    rewrite <- (Nat.add_0_r (length pre)) at 1; rewrite app_nth2_plus; cbn [app nth].
  - cbn [negb Z.eqb]. rewrite u32_small by lia. f_equal. lia.
  - rewrite (proj2 (Z.eqb_neq x 0)) by set_solver. cbn [negb]. specialize (IH (pre ++ [x]) n).
    rewrite length_app in IH. cbn [length] in IH. rewrite <- app_assoc in IH. cbn [app] in IH.
    replace (S (length pre)) with (length pre + 1)%nat by lia. rewrite IH; [f_equal; lia | set_solver | lia | lia].
Qed.

(** The text of a line is parsed into the command of the line. *)
Lemma parsecmd_ok l text0 post :
  line_ok l -> spelled (line_toks l) text0 -> 0 ∉ text0 -> Z.of_nat (length text0) < 2 ^ 32 ->
  wp parsecmd (Shst (text0 ++ 0 :: post) []) (fun p st => decode (length (sh_cmds st)) st p = Some (line_cmd l)).
Proof.
  intros Hok Hs H0 Hu. set (buf := text0 ++ 0 :: post). unfold parsecmd. apply wp_bind. unfold wp at 1, kgets. cbn [sh_buf].
  unfold Ulib.strlen, buf at 1. rewrite (strlen_text post text0 []) by (try done; unfold buf; rewrite ?length_app; cbn; lia).
  cbn [length Nat.add]. set (es := Z.of_nat (length text0)).
  assert (Ht : text buf 0 es text0) by (by exists [], post). rewrite <- (app_nil_r (line_toks l)) in Hs. apply wp_bind.
  eapply wp_mono; [eapply (proj1 (parser_ok buf es) l); [done | | exact Ht | exact Hs | by left] |].
  { unfold depth, es. rewrite Nat2Z.id. pose proof (proj1 depth_bound l). apply spelled_length in Hs. rewrite app_nil_r in Hs. lia. }
  intros [y s] st (i & h & E & [-> (r & Htr & Hsr)] & _ & Hr). cbn [fst snd] in *. subst y.
  assert (Hpk : peek buf s es [] = (false, es)).
  { unfold peek. apply skip_space_text in Htr. cbn in Hsr. rewrite Hsr in Htr. rewrite andb_false_r. f_equal.
    destruct Htr as (? & ? & _ & _ & E & _). cbn in E. lia. }
  rewrite Hpk, Z.eqb_refl. cbn [negb]. apply wp_bind. unfold nulterminate. apply wp_bind. unfold wp at 1, kget. cbn [sh_cmds].
  eapply wp_mono; [eapply (nulterminate_ok buf h _ _ _ buf Hr); [by eapply rep_length | split; [done | by left]] |].
  intros [] st (b' & -> & Hl & Hst). apply wp_ret. cbn [sh_cmds]. apply Hst. by apply later_refl, Hl.
Qed.
