(* ===== verification/ShTotal.v ===== *)
(** * The shell parser on any line

    On every line the parser stops, and when it returns the line is a
    spelling of a line of the grammar; with [parsecmd_ok] that makes the
    lines it accepts exactly the spellings. *)

From S2P Require Import Prelude Riscv Ulib Sh ShParse ShCmd.

(** ** Every text is a list of tokens *)

Fixpoint word_of (r : bytes) : bytes :=
  match r with
  | x :: r => if word_char x then x :: word_of r else []
  | [] => []
  end.

Lemma word_of_split r : exists rest, r = word_of r ++ rest /\ forallb word_char (word_of r) = true /\ word_char (nthZ 0 rest 0) = false.
Proof.
  induction r as [| x r (rest & E & Hw & Hr)]; [by exists [] |]. cbn [word_of]. destruct (word_char x) eqn:Ex.
  - exists rest. cbn [app forallb]. rewrite Ex, Hw. split_and!; [by f_equal | done | done].
  - by exists (x :: r).
Qed.

(** The first token of a text that begins with no white space. *)
Lemma first_token x r :
  x <> 0 -> strchr whitespace x = false -> exists t rest, x :: r = tok_bytes t ++ rest /\ tok_ok t /\ sep t rest.
Proof.
  intros H0 Hws. destruct (strchr symbols x) eqn:Hs.
  - destruct (decide (x = ch_gt /\ nthZ 0 r 0 = ch_gt)) as [[-> Hr] | Hn].
    + destruct r as [| y r]; [done |]. rewrite nthZ_hd in Hr. subst y. by exists TApp, r.
    + exists (TSym x), r. split_and!; [done | done |]. cbn. tauto.
  - assert (Hx : word_char x = true) by (unfold word_char; rewrite (proj2 (Z.eqb_neq x 0)), Hws, Hs by done; done).
    destruct (word_of_split (x :: r)) as (rest & E & Hw & Hr). exists (TWord (word_of (x :: r))), rest. split_and!; [done | | done].
    split; [cbn [word_of]; by rewrite Hx | done].
Qed.

Lemma trim_no_nul r : 0 ∉ r -> 0 ∉ trim r.
Proof. induction r as [| x r IH]; cbn [trim]; [done |]. destruct (strchr whitespace x); set_solver. Qed.

Lemma trim_hd r x r' : trim r = x :: r' -> strchr whitespace x = false.
Proof. induction r as [| y r IH]; cbn [trim]; [done |]. destruct (strchr whitespace y) eqn:E; [auto | by intros [= <- <-]]. Qed.

Lemma lex n : forall r, (length r <= n)%nat -> 0 ∉ r -> exists ts, spelled ts r.
Proof.
  induction n as [| n IH]; intros r Hn H0; destruct (trim r) as [| x r'] eqn:E; try (by exists []);
    pose proof (length_trim r) as Hl; rewrite E in Hl; cbn [length] in Hl; [lia |].
  pose proof (trim_no_nul _ H0) as H0'. rewrite E in H0'.
  destruct (first_token x r') as (t & rest & Et & Hok & Hs); [set_solver | by eapply trim_hd |].
  destruct (IH rest) as [ts Hts].
  - apply tok_bytes_length in Hok. apply (f_equal length) in Et. rewrite length_app in Et. cbn in Et. lia.
  - rewrite Et in H0'. set_solver.
  - exists (t :: ts), rest. by rewrite E.
Qed.

(** ** The parser stops *)

(** It returns with [Q], or [panic]s. *)
Definition may {A} (m : K shst A) (s : shst) (Q : A -> shst -> Prop) : Prop :=
  match m s with Ret a s' => Q a s' | Panic _ => True | _ => False end.

Lemma may_bind {A B} (m : K shst A) (f : A -> K shst B) s Q : may m s (fun a s' => may (f a) s' Q) -> may (kbind m f) s Q.
Proof. unfold may, kbind. by destruct (m s). Qed.
Lemma may_mono {A} (m : K shst A) s (Q Q' : A -> shst -> Prop) : may m s Q -> (forall a s', Q a s' -> Q' a s') -> may m s Q'.
Proof. unfold may. destruct (m s); auto. Qed.
Lemma may_ret {A} (a : A) s (Q : A -> shst -> Prop) : Q a s -> may (kret a) s Q.
Proof. done. Qed.
Lemma may_buf {B} (f : bytes -> K shst B) st Q : may (f (sh_buf st)) st Q -> may (kbind (kgets sh_buf) f) st Q.
Proof. done. Qed.
Lemma may_panic {A} e s (Q : A -> shst -> Prop) : may (kpanic e) s Q.
Proof. done. Qed.

Section total.
Context (buf : bytes) (es : Z).

(** The next tokens. *)
Definition next (ts : list token) (s : Z) : Prop := exists r, text buf s es r /\ spelled ts r.

Lemma peek_next ts s toks :
  next ts s -> toks ⊆ symbols -> exists s', peek buf s es toks = (starts toks ts, s') /\ next ts s'.
Proof. intros (r & Ht & Hs) Hsub. destruct (peek_ok _ _ _ _ _ toks Ht Hs Hsub) as (s' & r' & -> & ? & ?). exists s'. split; [done |]. by exists r'. Qed.

Definition code_of (ts : list token) : Z := match ts with [] => 0 | t :: _ => tok_code t end.

Lemma gettoken_next ts s : next ts s -> exists q e s', gettoken buf s es = (code_of ts, q, e, s') /\ next (tail ts) s'.
Proof.
  intros (r & Ht & Hs). destruct ts as [| t ts].
  - destruct (gettoken_end _ _ _ _ Ht Hs) as (q & e & s' & r' & -> & ? & ?). exists q, e, s'. split; [done |]. by exists r'.
  - destruct (gettoken_ok _ _ _ _ _ _ Ht Hs) as (q & e & s' & r' & -> & ? & ? & _). exists q, e, s'. split; [done |]. by exists r'.
Qed.

Lemma next_tok_ok t ts s : next (t :: ts) s -> tok_ok t.
Proof. intros (r & _ & rest & _ & Hok & _). done. Qed.

(** Only a word has the code of one. *)
Lemma code_word t : tok_ok t -> tok_code t = ch_a -> exists w, t = TWord w.
Proof. destruct t as [w | c |]; intros Hok E; [by exists w | | done]. cbn in *. subst c. done. Qed.

Lemma code_nonzero t : tok_ok t -> tok_code t <> 0.
Proof. destruct t as [w | c |]; intros Hok E; [done | | done]. cbn in *. subst c. done. Qed.

Lemma turns_next ts s : next ts s -> (length ts < turns s es)%nat.
Proof. intros (r & Ht & Hs%spelled_length). rewrite (turns_eq _ _ _ _ Ht). lia. Qed.

Ltac peek_next H :=
  lazymatch goal with
  | |- context [peek ?b ?s ?e ?toks] =>
      let Hsub := fresh in
      assert (Hsub : toks ⊆ symbols) by (apply (bool_decide_unpack _); vm_compute; exact I);
      destruct (peek_next _ s toks H Hsub) as (? & -> & Hp); clear Hsub H; rename Hp into H
  end.
Ltac tok_next H :=
  lazymatch goal with
  | |- context [gettoken ?b ?s ?e] => destruct (gettoken_next _ s H) as (? & ? & ? & -> & Hp); clear H; rename Hp into H
  end.

(** The parsing function has read the tokens [tk], and [P] holds. *)
Definition ate (ts : list token) (s : Z) (st : shst) (tk : list token) : Prop :=
  sh_buf st = buf /\ exists ts', ts = tk ++ ts' /\ next ts' s.

Lemma new_may x st Q : (forall p st', sh_buf st' = sh_buf st -> Q p st') -> may (new x) st Q.
Proof. intros HQ. by apply HQ. Qed.

Lemma starts_redir ts : starts (cstr "<>") ts = true -> exists k ts', ts = rtok k :: ts'.
Proof.
  destruct ts as [| [w | c |] ts]; cbn; try done; [| by exists RApp, ts]. rewrite strchr_true. change (cstr "<>") with [ch_lt; ch_gt].
  rewrite !elem_of_cons, elem_of_nil. intros [-> | [-> | []]]; [by exists RIn, ts | by exists ROut, ts].
Qed.

Lemma redirs_may n : forall ts s st cmd,
  (length ts < n)%nat -> sh_buf st = buf -> next ts s ->
  may (redirs_loop n cmd s es) st (fun x st' => exists rs, ate ts x.2 st' (redirs_toks rs)).
Proof.
  induction n as [| n IH]; intros ts s st cmd Hn Hb Hs; [lia |]. cbn [redirs_loop]. apply may_buf. rewrite Hb. peek_next Hs.
  destruct (starts (cstr "<>") ts) eqn:Est; cbn [negb]; [| apply may_ret; exists []; split; [done | by exists ts]].
  apply starts_redir in Est as (k & ts1 & ->). tok_next Hs. cbn [tail] in Hs. pose proof Hs as Hs0. tok_next Hs.
  destruct (Z.eqb_spec (code_of ts1) ch_a) as [E |]; cbn [negb]; [| apply may_panic].
  destruct ts1 as [| t1 ts1]; [done |]. destruct (code_word t1 (next_tok_ok _ _ _ Hs0) E) as [w ->].
  apply may_bind. match goal with |- may ?m _ _ => assert (Hm : forall Q, (forall p st', sh_buf st' = buf -> Q p st') -> may m st Q) end.
  { intros Q HQ. destruct k; apply new_may; intros p st' E'; apply HQ; congruence. }
  apply Hm. intros p st' Hb'. cbn [length tail] in *. eapply may_mono; [apply (IH ts1); [lia | done | done] |].
  intros y st2 (rs & Hb2 & ts' & -> & Hn2). exists ((k, w) :: rs). split; [done |]. by exists ts'.
Qed.

Lemma set_arg_buf cmd i a e st Q : (forall st', sh_buf st' = sh_buf st -> Q tt st') -> may (set_arg cmd i a e) st Q.
Proof. intros HQ. unfold may, set_arg, kmod. apply HQ. destruct cmd as [p |]; [| done]. by destruct (sh_cmds st !! p) as [[] |]. Qed.

Lemma args_may n : forall ts s st cmd ret argc,
  (length ts < n)%nat -> sh_buf st = buf -> next ts s -> 0 <= argc < MAXARGS ->
  may (args_loop n cmd ret argc s es) st (fun x st' =>
    exists args, ate ts x.2 st' (args_toks args) /\ argc + Z.of_nat (length args) < MAXARGS).
Proof.
  induction n as [| n IH]; intros ts s st cmd ret argc Hn Hb Hs Ha; [lia |]. cbn [args_loop]. apply may_buf. rewrite Hb. peek_next Hs.
  destruct (starts (cstr "|)&;") ts); [apply may_ret; exists []; split; [split; [done | by exists ts] | cbn; lia] |].
  pose proof Hs as Hs0. tok_next Hs. destruct (Z.eqb_spec (code_of ts) 0) as [E0 | E0].
  { apply may_ret. exists []. split; [split; [done |] | cbn; lia]. exists ts. split; [done |].
    destruct ts as [| t ts]; [done |]. by destruct (code_nonzero t (next_tok_ok _ _ _ Hs0)). }
  destruct (Z.eqb_spec (code_of ts) ch_a) as [E |]; cbn [negb]; [| apply may_panic].
  destruct ts as [| t ts]; [done |]. destruct (code_word t (next_tok_ok _ _ _ Hs0) E) as [w ->]. apply may_bind, set_arg_buf. intros st1 Hb1.
  destruct (MAXARGS <=? argc + 1) eqn:Em; [apply may_panic |]. zbool. apply may_bind. cbn [tail length] in *.
  eapply may_mono; [apply (redirs_may _ ts); [by apply turns_next | congruence | done] |].
  intros [p s1] st2 (rs & Hb2 & ts2 & -> & Hn2). cbn [snd] in *. rewrite length_app in Hn.
  eapply may_mono; [apply (IH ts2); [lia | done | done | lia] |].
  intros y st3 (args & (Hb3 & ts3 & -> & Hn3) & Hlen). exists ((w, rs) :: args). split; [| cbn [length]; lia]. split; [done |]. exists ts3. split; [| done].
  change (args_toks ((w, rs) :: args)) with (TWord w :: redirs_toks rs ++ args_toks args). cbn [app]. by rewrite <- app_assoc.
Qed.

Lemma back_may n : forall ts s st cmd,
  (length ts < n)%nat -> sh_buf st = buf -> next ts s ->
  may (back_loop n cmd s es) st (fun x st' => exists amps, ate ts x.2 st' (replicate amps (TSym ch_amp))).
Proof.
  induction n as [| n IH]; intros ts s st cmd Hn Hb Hs; [lia |]. cbn [back_loop]. apply may_buf. rewrite Hb. peek_next Hs.
  destruct (starts (cstr "&") ts) eqn:Est; cbn [negb]; [| apply may_ret; exists 0%nat; split; [done | by exists ts]].
  assert (exists ts1, ts = TSym ch_amp :: ts1) as [ts1 ->].
  { destruct ts as [| [w | c |] ts]; cbn in Est; try done. rewrite strchr_true in Est. apply list_elem_of_singleton in Est. subst c. by exists ts. }
  tok_next Hs. apply may_bind, new_may. intros p st1 Hb1. cbn [tail length] in *.
  eapply may_mono; [apply (IH ts1); [lia | congruence | done] |].
  intros y st2 (amps & Hb2 & ts2 & -> & Hn2). exists (S amps). split; [done |]. by exists ts2.
Qed.

(** [f] reads what [G] describes, when it returns; [k] more than the depth. *)
Definition eats (f : Z -> Z -> K shst (option nat * Z)) (n : nat) (k : nat) (G : list token -> Prop) : Prop :=
  forall ts s st, (4 * length ts + k <= n)%nat -> sh_buf st = buf -> next ts s ->
  may (f s es) st (fun x st' => exists tk, G tk /\ ate ts x.2 st' tk).

Definition is_line (tk : list token) : Prop := exists l, line_ok l /\ tk = line_toks l.
Definition is_pipe (tk : list token) : Prop := exists p, pipe_ok p /\ tk = pipe_toks p.
Definition is_exec (tk : list token) : Prop := exists e, exec_ok e /\ tk = exec_toks e.

Lemma starts_sym c ts : starts [c] ts = true -> c <> ch_gt -> exists ts', ts = TSym c :: ts'.
Proof.
  destruct ts as [| [w | d |] ts]; cbn; try done; rewrite strchr_true, list_elem_of_singleton; [intros -> _; by exists ts | by intros <-].
Qed.

Lemma exec_may n : (forall m, n = S m -> eats (parseline m) m 3 is_line) -> eats (parseexec (S n)) (S n) 1 is_exec.
Proof.
  intros IH ts s st Hn Hb Hs. cbn [parseexec]. apply may_buf. rewrite Hb. peek_next Hs. destruct (starts (cstr "(") ts) eqn:Est.
  - apply (starts_sym ch_open) in Est as (ts1 & ->); [| done]. cbn [length] in Hn. destruct n as [| n]; [lia |]. cbn [parseblock].
    apply may_buf. rewrite Hb. peek_next Hs. change (starts (cstr "(") (TSym ch_open :: ts1)) with true. cbn [negb]. tok_next Hs. cbn [tail] in Hs.
    apply may_bind. eapply may_mono; [apply (IH n eq_refl ts1); [lia | done | done] |].
    intros [p s1] st1 (tk & (l & Hl & ->) & Hb1 & ts2 & -> & Hs1). cbn [snd] in *. apply may_buf. rewrite Hb1. peek_next Hs1.
    destruct (starts (cstr ")") ts2) eqn:Est; cbn [negb]; [| apply may_panic]. apply (starts_sym ch_close) in Est as (ts3 & ->); [| done].
    tok_next Hs1. cbn [tail] in Hs1. eapply may_mono; [apply (redirs_may _ ts3); [by apply turns_next | done | done] |].
    intros [q s2] st2 (rs & Hb2 & ts4 & -> & Hs2). exists (exec_toks (Block l rs)). split; [by exists (Block l rs) |]. split; [done |]. exists ts4.
    split; [| done]. cbn [exec_toks app]. by rewrite <- !app_assoc.
  - apply may_bind, new_may. intros p st1 Hb1. apply may_bind. eapply may_mono; [apply (redirs_may _ ts); [by apply turns_next | congruence | done] |].
    intros [q s1] st2 (rs & Hb2 & ts2 & -> & Hs2). cbn [snd] in *. apply may_bind.
    eapply may_mono; [apply (args_may _ ts2); [by apply turns_next | done | done | done] |].
    intros [[q1 a1] s2] st3 (args & (Hb3 & ts3 & -> & Hs3) & Hlen). apply may_bind, set_arg_buf. intros st4 Hb4. apply may_ret.
    exists (exec_toks (Simple rs args)). split; [by exists (Simple rs args) |]. split; [congruence |]. exists ts3. cbn [exec_toks]. by rewrite <- app_assoc.
Qed.

Lemma pipe_may n : eats (parseexec n) n 1 is_exec -> eats (parsepipe n) n 2 is_pipe -> eats (parsepipe (S n)) (S n) 2 is_pipe.
Proof.
  intros IHe IHp ts s st Hn Hb Hs. cbn [parsepipe]. apply may_bind. eapply may_mono; [apply (IHe ts); [lia | done | done] |].
  intros [p s1] st1 (tk & (e & He & ->) & Hb1 & ts1 & -> & Hs1). cbn [snd] in *. apply may_buf. rewrite Hb1. peek_next Hs1.
  destruct (starts (cstr "|") ts1) eqn:Est.
  - apply (starts_sym ch_bar) in Est as (ts2 & ->); [| done]. tok_next Hs1. cbn [tail] in Hs1. rewrite length_app in Hn. cbn [length] in Hn.
    apply may_bind. eapply may_mono; [apply (IHp ts2); [lia | done | done] |].
    intros [q s2] st2 (tk & (r & Hr & ->) & Hb2 & ts3 & -> & Hs2). apply may_bind, new_may. intros p3 st3 Hb3. apply may_ret.
    exists (pipe_toks (Bar e r)). split; [by exists (Bar e r) |]. split; [congruence |]. exists ts3. cbn [pipe_toks]. by rewrite <- app_assoc.
  - apply may_ret. exists (pipe_toks (One e)). split; [by exists (One e) |]. split; [done |]. by exists ts1.
Qed.

Lemma line_may n : eats (parsepipe n) n 2 is_pipe -> eats (parseline n) n 3 is_line -> eats (parseline (S n)) (S n) 3 is_line.
Proof.
  intros IHp IHl ts s st Hn Hb Hs. cbn [parseline]. apply may_bind. eapply may_mono; [apply (IHp ts); [lia | done | done] |].
  intros [p s1] st1 (tk & (e & He & ->) & Hb1 & ts1 & -> & Hs1). cbn [snd] in *. rewrite length_app in Hn. apply may_bind.
  eapply may_mono; [apply (back_may _ ts1); [by apply turns_next | done | done] |].
  intros [q s2] st2 (amps & Hb2 & ts2 & -> & Hs2). cbn [snd] in *. rewrite length_app in Hn. apply may_buf. rewrite Hb2. peek_next Hs2.
  destruct (starts (cstr ";") ts2) eqn:Est.
  - apply (starts_sym ch_semi) in Est as (ts3 & ->); [| done]. tok_next Hs2. cbn [tail length] in *.
    apply may_bind. eapply may_mono; [apply (IHl ts3); [lia | done | done] |].
    intros [q3 s3] st3 (tk & (l & Hl & ->) & Hb3 & ts4 & -> & Hs3). apply may_bind, new_may. intros p4 st4 Hb4. apply may_ret.
    exists (line_toks (Seq e amps l)). split; [by exists (Seq e amps l) |]. split; [congruence |]. exists ts4. cbn [line_toks].
    by rewrite <- !app_assoc.
  - apply may_ret. exists (line_toks (Last e amps)). split; [by exists (Last e amps) |]. split; [done |]. exists ts2. cbn [line_toks].
    by rewrite <- app_assoc.
Qed.

Lemma parse_may n : eats (parseline n) n 3 is_line /\ eats (parsepipe n) n 2 is_pipe /\ eats (parseexec n) n 1 is_exec.
Proof.
  induction n as [n IH] using lt_wf_ind. destruct n as [| n].
  { split_and!; intros ts s st Hn; lia. }
  destruct (IH n) as (IHl & IHp & IHe); [lia |]. split_and!.
  - by apply line_may.
  - by apply pipe_may.
  - apply exec_may. intros m ->. apply (IH m). lia.
Qed.
End total.

(** ** The lines [parsecmd] accepts *)

Lemma spelled_end ts r : spelled ts r -> trim r = [] -> ts = [].
Proof.
  destruct ts as [| t ts]; [done |]. intros (rest & -> & Hok%tok_bytes_length & _) E. apply (f_equal length) in E. rewrite length_app in E. cbn in E. lia.
Qed.

Lemma parsecmd_may text0 post :
  0 ∉ text0 -> Z.of_nat (length text0) < 2 ^ 32 ->
  (exists l, line_ok l /\ spelled (line_toks l) text0) \/ exists msg, parsecmd (Shst (text0 ++ 0 :: post) []) = Panic msg.
Proof.
  intros H0 Hu. destruct (lex _ text0 (le_n _) H0) as [ts Hts]. set (buf := text0 ++ 0 :: post). set (es := Z.of_nat (length text0)).
  assert (Hn : next buf es ts 0) by (exists text0; split; [by exists [], post | done]).
  pose proof (proj1 (parse_may buf es (depth es)) ts 0 (Shst buf [])) as Hp. unfold may in Hp.
  unfold parsecmd, kbind, kgets. cbn [sh_buf]. unfold Ulib.strlen, buf at 1.
  rewrite (strlen_text post text0 []) by (try done; unfold buf; rewrite ?length_app; cbn; lia). cbn [length Nat.add]. fold es.
  destruct (parseline (depth es) 0 es (Shst buf [])) as [[p s] st | e | c st |].
  - destruct Hp as (tk & (l & Hl & ->) & _ & ts' & -> & (r & Ht & Hs)); [| done | done |].
    { unfold depth, es. rewrite Nat2Z.id. apply spelled_length in Hts. lia. }
    unfold peek. destruct (negb (skip_space (Z.to_nat (es - s)) buf s es =? es)) eqn:E; [right; by eexists |]. left. zbool.
    cbn [snd] in Ht. apply skip_space_text in Ht. rewrite E in Ht. pose proof (proj2 (text_es _ _ _ _ Ht)) as Hlt. rewrite Z.ltb_irrefl in Hlt. symmetry in Hlt.
    zbool. apply dec_stable in Hlt. apply spelled_end in Hs as ->; [| done]. rewrite app_nil_r in Hts. by exists l.
  - right. by eexists.
  - destruct Hp; [| done | done]. unfold depth, es. rewrite Nat2Z.id. apply spelled_length in Hts. lia.
  - destruct Hp; [| done | done]. unfold depth, es. rewrite Nat2Z.id. apply spelled_length in Hts. lia.
Qed.

(** C4: on any line of text [parsecmd] returns or panics, and it returns
    exactly on the spellings (white space anywhere between the tokens) of the
    lines of the grammar: pipelines of simple commands with at most nine
    arguments and of blocks in parentheses, with redirections, [&] and [;].
    What it returns is then the command of that line: the nodes form the tree
    the grammar gives, with the redirections around a simple command in the
    order they were written, and after [nulterminate] the string at each
    pointer is the word that was written there. *)
Theorem parsecmd_correct text0 post :
  0 ∉ text0 -> Z.of_nat (length text0) < 2 ^ 32 ->
  (forall l, line_ok l -> spelled (line_toks l) text0 ->
     exists p st, parsecmd (Shst (text0 ++ 0 :: post) []) = Ret p st /\ decode (length (sh_cmds st)) st p = Some (line_cmd l)) /\
  ((exists tk, is_line tk /\ spelled tk text0) \/
   exists msg, parsecmd (Shst (text0 ++ 0 :: post) []) = Panic msg).
Proof.
  intros H0 Hu. split.
  - intros l Hok Hs. by apply wp_inv, parsecmd_ok.
  - destruct (parsecmd_may text0 post H0 Hu) as [(l & Hok & Hs) | Hp]; [left | by right].
    exists (line_toks l). split; [by exists l | done].
Qed.

(** [ls -l>out|(wc ;ps & )>> log] *)
Definition wit_text : bytes := cstr "ls -l>out|(wc ;ps & )>> log " ++ [10].
Definition wit_line : line :=
  Last (Bar (Simple [] [(cstr "ls", []); (cstr "-l", [(ROut, cstr "out")])])
         (One (Block (Seq (One (Simple [] [(cstr "wc", [])])) 0 (Last (One (Simple [] [(cstr "ps", [])])) 1)) [(RApp, cstr "log")]))) 0.

Lemma wit_spelled : spelled (line_toks wit_line) wit_text.
Proof. by repeat (eexists; split; [vm_compute; reflexivity | split; [done | split; [done |]]]). Qed.

Lemma parsecmd_correct_witness : exists p st,
  parsecmd (Shst (wit_text ++ [0]) []) = Ret p st /\ decode (length (sh_cmds st)) st p = Some (line_cmd wit_line).
Proof.
  apply (parsecmd_correct wit_text []).
  - apply (bool_decide_unpack _). vm_compute. exact I.
  - vm_compute. reflexivity.
  - vm_compute. by repeat split.
  - exact wit_spelled.
Defined.
