(* ===== verification/ShRun.v ===== *)
(** * user/sh.c: running a command

    The shell talks to the kernel by system calls: [runcmd] and [main] are
    the trees of the calls they make, with a branch for each result the code
    distinguishes.  The theorem is about the file descriptors with which the
    programs of a command are started. *)

From S2P Require Import Prelude Riscv Ulib Sh ShParse ShCmd.

Inductive prog :=
| Exit (status : Z)
| Exec (path : bytes) (argv : list bytes) (k : prog)     (* [k] when it fails *)
| Open (file : bytes) (mode : Z) (k : Z -> prog)
| Close (fd : Z) (k : prog)
| Dup (fd : Z) (k : prog)
| PipeCall (k : option (Z * Z) -> prog)                  (* [None]: -1 *)
| Fork (k : Z -> prog)
| Wait (k : prog)
| Write (fd : Z) (msg : bytes) (k : prog)
| Chdir (dir : bytes) (k : Z -> prog)
| Gets (max : Z) (k : bytes -> prog)                     (* the string in the buffer after [gets] *)
| Cut.                                                   (* the bound of a loop *)

Definition panic (s : bytes) : prog := Write 2 (s ++ [10]) (Exit 1).

Definition fork1 (k : Z -> prog) : prog :=
  Fork (fun pid => if pid =? -1 then panic (cstr "fork") else k pid).

(** Every branch of the switch that falls out of it goes on to [exit(0)]. *)
Fixpoint runcmd (c : cmd) : prog :=
  match c with
  | Cexec [] => Exit 1
  | Cexec ((a0 :: _) as argv) =>
      Exec a0 argv (Write 2 (cstr "exec " ++ a0 ++ cstr " failed" ++ [10]) (Exit 0))
  | Credir c file mode fd =>
      Close fd (Open file mode (fun r =>
        if r <? 0 then Write 2 (cstr "open " ++ file ++ cstr " failed" ++ [10]) (Exit 1)
        else runcmd c))
  | Clist l r => fork1 (fun pid => if pid =? 0 then runcmd l else Wait (runcmd r))
  | Cpipe l r =>
      PipeCall (fun p =>
        match p with
        | None => panic (cstr "pipe")
        | Some (p0, p1) =>
            fork1 (fun pid =>
              if pid =? 0 then Close 1 (Dup p1 (Close p0 (Close p1 (runcmd l))))
              else fork1 (fun pid =>
                if pid =? 0 then Close 0 (Dup p0 (Close p0 (Close p1 (runcmd r))))
                else Close p0 (Close p1 (Wait (Wait (Exit 0))))))
        end)
  | Cback c => fork1 (fun pid => if pid =? 0 then runcmd c else Exit 0)
  end.

(** [runcmd(parsecmd(buf))]; a null command exits with 1. *)
Definition run_line (buf : bytes) : prog :=
  match parsecmd (Shst buf []) with
  | Ret p st => match decode (length (sh_cmds st)) st p with Some c => runcmd c | None => Exit 1 end
  | Panic msg => panic (cstr msg)
  | _ => Cut
  end.

Definition LINE : Z := 100.   (* sizeof(buf) *)

(** [None]: the end of the input. *)
Definition getcmd (k : option bytes -> prog) : prog :=
  Write 2 (cstr "$ ") (Gets LINE (fun buf => k (if nthZ 0 buf 0 =? 0 then None else Some buf))).

(** [while((fd = open("console", O_RDWR)) >= 0)] *)
Fixpoint open_console (n : nat) (k : prog) : prog :=
  match n with
  | O => Cut
  | S n => Open (cstr "console") O_RDWR (fun fd =>
      if fd <? 0 then k else if 3 <=? fd then Close fd k else open_console n k)
  end.

(** [n] lines; the buffer holds the string and NULs after it. *)
Fixpoint main_loop (n : nat) : prog :=
  match n with
  | O => Cut
  | S n =>
      getcmd (fun line =>
        match line with
        | None => Exit 0
        | Some buf =>
            if ((nthZ 0 buf 0 =? 99) && (nthZ 0 buf 1 =? 100) && (nthZ 0 buf 2 =? 32))%bool then
              let dir := removelast (drop 3 buf) in   (* buf[strlen(buf)-1] = 0 *)
              Chdir dir (fun r =>
                if r <? 0 then Write 2 (cstr "cannot cd " ++ dir ++ [10]) (main_loop n) else main_loop n)
            else
              fork1 (fun pid =>
                if pid =? 0 then run_line (buf ++ replicate (Z.to_nat LINE - length buf) 0) else Wait (main_loop n))
        end)
  end.

(** [open] returns 0, 1 and 2 at most before it returns 3. *)
Definition main (n : nat) : prog := open_console 4 (main_loop n).

(** ** File descriptors *)

Inductive fobj :=
| OFile (file : bytes) (mode : Z)
| ORead (pipe : nat)
| OWrite (pipe : nat)
| OOther (x : nat).

#[export] Instance fobj_eq_dec : EqDecision fobj.
Proof. solve_decision. Defined.

Abbreviation ftab := (gmap Z fobj).

(** The kernel gives out the lowest free descriptor. *)
Definition lowest (F : ftab) (fd : Z) : Prop := 0 <= fd /\ F !! fd = None /\ forall i, 0 <= i < fd -> is_Some (F !! i).

Definition fresh_pipe (F : ftab) (p : nat) : Prop := forall i, F !! i <> Some (ORead p) /\ F !! i <> Some (OWrite p).

(** A process of [m] that begins with table [F] calls [exec] on [argv] with
    table [F']; the calls it makes before succeed. *)
Inductive execs : prog -> ftab -> list bytes -> ftab -> Prop :=
| ex_exec path argv k F : execs (Exec path argv k) F argv F
| ex_open file mode k F fd argv F' :
    lowest F fd -> execs (k fd) (<[fd := OFile file mode]> F) argv F' -> execs (Open file mode k) F argv F'
| ex_close fd k F argv F' : execs k (delete fd F) argv F' -> execs (Close fd k) F argv F'
| ex_dup fd o k F fd' argv F' :
    F !! fd = Some o -> lowest F fd' -> execs k (<[fd' := o]> F) argv F' -> execs (Dup fd k) F argv F'
| ex_pipe k F p0 p1 p argv F' :
    fresh_pipe F p -> lowest F p0 -> lowest (<[p0 := ORead p]> F) p1 ->
    execs (k (Some (p0, p1))) (<[p1 := OWrite p]> (<[p0 := ORead p]> F)) argv F' -> execs (PipeCall k) F argv F'
| ex_child k F argv F' : execs (k 0) F argv F' -> execs (Fork k) F argv F'
| ex_parent k F pid argv F' : 0 < pid -> execs (k pid) F argv F' -> execs (Fork k) F argv F'
| ex_wait k F argv F' : execs k F argv F' -> execs (Wait k) F argv F'
| ex_write fd msg k F argv F' : execs k F argv F' -> execs (Write fd msg k) F argv F'.

(** What a command should start, and with which descriptors. *)
Fixpoint starts_with (c : cmd) (F : ftab) (argv : list bytes) (F' : ftab) : Prop :=
  match c with
  | Cexec ws => ws <> [] /\ argv = ws /\ F' = F
  | Credir c file mode fd => starts_with c (<[fd := OFile file mode]> F) argv F'
  | Cpipe l r => exists p, fresh_pipe F p /\
      (starts_with l (<[1 := OWrite p]> F) argv F' \/ starts_with r (<[0 := ORead p]> F) argv F')
  | Clist l r => starts_with l F argv F' \/ starts_with r F argv F'
  | Cback c => starts_with c F argv F'
  end.

(** Standard input and output are open. *)
Definition std (F : ftab) : Prop := is_Some (F !! 0) /\ is_Some (F !! 1).

(** The parser redirects descriptors 0 and 1. *)
Fixpoint redirs01 (c : cmd) : Prop :=
  match c with
  | Cexec _ => True
  | Credir c _ _ fd => (fd = 0 \/ fd = 1) /\ redirs01 c
  | Cpipe l r | Clist l r => redirs01 l /\ redirs01 r
  | Cback c => redirs01 c
  end.

Lemma redirs01_fold c rs : redirs01 c -> redirs01 (foldl add_redir c rs).
Proof. revert c. induction rs as [| [k w] rs IH]; intros c Hc; [done |]. apply IH. split; [| done]. destruct k; cbn; auto. Qed.

Lemma redirs01_backs n c : redirs01 c -> redirs01 (Nat.iter n Cback c).
Proof. by induction n. Qed.

Lemma line_redirs01 : (forall l, redirs01 (line_cmd l)) /\ (forall p, redirs01 (pipe_cmd p)) /\ (forall e, redirs01 (exec_cmd e)).
Proof.
  apply grammar_ind; intros; cbn [line_cmd pipe_cmd exec_cmd redirs01]; try split; auto using redirs01_fold, redirs01_backs.
  by apply redirs01_fold.
Qed.

Lemma lowest_unique F a b : lowest F a -> lowest F b -> a = b.
Proof.
  intros (A1 & A2 & A3) (B1 & B2 & B3). destruct (Z.lt_trichotomy a b) as [Hlt | [-> | Hlt]]; [| done |].
  - destruct (B3 a ltac:(lia)) as [? E]. congruence.
  - destruct (A3 b ltac:(lia)) as [? E]. congruence.
Qed.

Lemma dom_bound (F : ftab) : exists n : nat, forall i, Z.of_nat n <= i -> F !! i = None.
Proof.
  induction F as [| i x F _ IH] using map_ind; [by exists 0%nat |]. destruct IH as [n IH]. exists (Nat.max n (S (Z.to_nat i))). intros j Hj.
  rewrite lookup_insert_ne by lia. apply IH. lia.
Qed.

Lemma lowest_exists F : exists fd, lowest F fd.
Proof.
  destruct (dom_bound F) as [n Hn]. destruct (dec_inh_nat_subset_has_unique_least_element (fun k => F !! Z.of_nat k = None)) as (k & [Hk Hmin] & _).
  - intros k. destruct (F !! Z.of_nat k); [by right | by left].
  - exists n. by apply Hn.
  - exists (Z.of_nat k). split_and!; [lia | done |]. intros i Hi. destruct (F !! i) eqn:E; [done |]. specialize (Hmin (Z.to_nat i)).
    rewrite Z2Nat.id in Hmin by lia. specialize (Hmin E). lia.
Qed.

Lemma lowest_std F fd : std F -> lowest F fd -> 2 <= fd.
Proof.
  intros [[? H0] [? H1]] (Hge & Hn & _). destruct (decide (fd = 0)) as [-> |]; [congruence |]. destruct (decide (fd = 1)) as [-> |]; [congruence | lia].
Qed.

(** After [close(fd)] the next descriptor is [fd]. *)
Lemma lowest_delete F fd : std F -> fd = 0 \/ fd = 1 -> lowest (delete fd F) fd.
Proof.
  intros [H0 H1] Hfd. split_and!; [lia | by rewrite lookup_delete_eq |]. intros i Hi. assert (i = 0 /\ fd = 1) as [-> ->] by lia.
  by rewrite lookup_delete_ne.
Qed.

Lemma std_insert F fd o : std F -> std (<[fd := o]> F).
Proof. intros [H0 H1]. split; apply lookup_insert_is_Some'; by right. Qed.

(** [fork1] starts both branches. *)
Lemma execs_fork1 k F argv F' :
  execs (fork1 k) F argv F' <-> execs (k 0) F argv F' \/ exists pid, 0 < pid /\ execs (k pid) F argv F'.
Proof.
  unfold fork1. split.
  - intros H. inversion H; subst; [by left | right]. exists pid. split; [done |]. by rewrite (proj2 (Z.eqb_neq pid (-1))) in * by lia.
  - intros [H | (pid & Hp & H)]; [by apply ex_child |]. apply (ex_parent _ _ pid); [done |]. by rewrite (proj2 (Z.eqb_neq pid (-1))) by lia.
Qed.

Lemma execs_close fd k F argv F' : execs (Close fd k) F argv F' <-> execs k (delete fd F) argv F'.
Proof. split; [intros H; by inversion H | apply ex_close]. Qed.

Lemma execs_wait k F argv F' : execs (Wait k) F argv F' <-> execs k F argv F'.
Proof. split; [intros H; by inversion H | apply ex_wait]. Qed.

Lemma execs_exit n F argv F' : ~ execs (Exit n) F argv F'.
Proof. intros H. by inversion H. Qed.

Lemma execs_dup fd k F argv F' o fd' :
  F !! fd = Some o -> lowest F fd' -> execs (Dup fd k) F argv F' <-> execs k (<[fd' := o]> F) argv F'.
Proof.
  intros Ho Hl. split; [| by eapply ex_dup]. intros H.
  inversion H as [| | | ? o0 ? ? fd0 ? ? Ho0 Hl0 Hk | | | | |]; subst. rewrite (lowest_unique _ _ _ Hl Hl0). congruence.
Qed.

Lemma execs_open file mode k F argv F' fd :
  lowest F fd -> execs (Open file mode k) F argv F' <-> execs (k fd) (<[fd := OFile file mode]> F) argv F'.
Proof.
  intros Hl. split; [| by apply ex_open]. intros H.
  inversion H as [| ? ? ? ? fd0 ? ? Hl0 Hk | | | | | | |]; subst. by rewrite (lowest_unique _ _ _ Hl Hl0).
Qed.

(** The descriptors of the two sides of a pipe. *)
Section pipe_ends.
Context (F : ftab) (p0 p1 : Z) (p : nat).
Hypothesis Hstd : std F.
Hypothesis H0 : lowest F p0.
Hypothesis H1 : lowest (<[p0 := ORead p]> F) p1.
Let G : ftab := <[p1 := OWrite p]> (<[p0 := ORead p]> F).

Lemma pipe_ends_ge : 2 <= p0 /\ 2 <= p1 /\ p0 <> p1 /\ F !! p0 = None /\ F !! p1 = None.
Proof.
  pose proof (lowest_std _ _ Hstd H0). pose proof (lowest_std _ _ (std_insert _ _ _ Hstd) H1). destruct H0 as (_ & N0 & _), H1 as (_ & N1 & _).
  apply lookup_insert_None in N1 as [N1 Hne]. done.
Qed.

(** [close(fd); dup(p[.]); close(p[0]); close(p[1]);] leaves [F] with the
    end of the pipe at [fd]. *)
Lemma redirected fd o pe : fd = 0 \/ fd = 1 -> G !! pe = Some o -> pe <> fd ->
  delete fd G !! pe = Some o /\ lowest (delete fd G) fd /\ delete p1 (delete p0 (<[fd := o]> (delete fd G))) = <[fd := o]> F.
Proof.
  intros Hfd Ho Hne. destruct pipe_ends_ge as (? & ? & ? & N0 & N1). split_and!.
  - by rewrite lookup_delete_ne by congruence.
  - apply lowest_delete; [| done]. by repeat apply std_insert.
  - rewrite insert_delete_eq. apply map_eq. intros i. unfold G.
    destruct (decide (i = p1)) as [-> |]; [rewrite lookup_delete_eq, lookup_insert_ne by lia; done |]. rewrite lookup_delete_ne by done.
    destruct (decide (i = p0)) as [-> |]; [rewrite lookup_delete_eq, lookup_insert_ne by lia; done |]. rewrite lookup_delete_ne by done.
    destruct (decide (i = fd)) as [-> |]; [by rewrite !lookup_insert_eq |]. by rewrite !lookup_insert_ne by done.
Qed.
End pipe_ends.

Lemma execs_pipe_side F p0 p1 p fd o pe k argv F' :
  std F -> lowest F p0 -> lowest (<[p0 := ORead p]> F) p1 -> fd = 0 \/ fd = 1 ->
  (pe = p0 /\ o = ORead p) \/ (pe = p1 /\ o = OWrite p) ->
  execs (Close fd (Dup pe (Close p0 (Close p1 k)))) (<[p1 := OWrite p]> (<[p0 := ORead p]> F)) argv F' <-> execs k (<[fd := o]> F) argv F'.
Proof.
  intros Hs H0 H1 Hfd Hpe. destruct (pipe_ends_ge F p0 p1 p Hs H0 H1) as (? & ? & ? & _). rewrite execs_close.
  destruct (redirected F p0 p1 p Hs H0 H1 fd o pe Hfd) as (E1 & E2 & E3).
  - destruct Hpe as [[-> ->] | [-> ->]]; [rewrite lookup_insert_ne by done |]; by rewrite lookup_insert_eq.
  - destruct Hpe as [[-> _] | [-> _]]; lia.
  - by rewrite (execs_dup _ _ _ _ _ _ _ E1 E2), !execs_close, E3.
Qed.

Lemma execs_pipe l r F argv F' :
  std F ->
  execs (runcmd (Cpipe l r)) F argv F' <->
  exists p, fresh_pipe F p /\ (execs (runcmd l) (<[1 := OWrite p]> F) argv F' \/ execs (runcmd r) (<[0 := ORead p]> F) argv F').
Proof.
  intros Hs. cbn [runcmd]. split.
  - intros H. inversion H as [| | | | ? ? p0 p1 p ? ? Hf H0 H1 Hk | | | |]; subst. exists p. split; [done |]. apply execs_fork1 in Hk as [Hk | (pid & Hp & Hk)].
    + left. by apply (execs_pipe_side F p0 p1 p 1 (OWrite p) p1) in Hk; auto.
    + rewrite (proj2 (Z.eqb_neq pid 0)) in Hk by lia. apply execs_fork1 in Hk as [Hk | (pid' & Hp' & Hk)].
      * right. by apply (execs_pipe_side F p0 p1 p 0 (ORead p) p0) in Hk; auto.
      * rewrite (proj2 (Z.eqb_neq pid' 0)) in Hk by lia. rewrite !execs_close, !execs_wait in Hk. by apply execs_exit in Hk.
  - intros (p & Hf & Hk). destruct (lowest_exists F) as [p0 H0]. destruct (lowest_exists (<[p0 := ORead p]> F)) as [p1 H1].
    apply (ex_pipe _ _ p0 p1 p); try done. apply execs_fork1. destruct Hk as [Hk | Hk]; [left | right; exists 1; split; [done |]; apply execs_fork1; left].
    + by apply (execs_pipe_side F p0 p1 p 1 (OWrite p) p1); [| | | right | right |].
    + by apply (execs_pipe_side F p0 p1 p 0 (ORead p) p0); [| | | left | left |].
Qed.

(** C5: [runcmd] starts exactly the programs of the command, each with
    exactly the descriptors the command says: a redirection replaces
    descriptor 0 or 1 by the file, the left side of a pipe has its writing
    end as 1, the right side its reading end as 0, and neither side keeps
    another descriptor of the pipe, on which a reader could wait for ever;
    everything else is inherited.  Standard input and output are open when
    [runcmd] is called, which the loop at the beginning of [main] is for. *)
Theorem runcmd_descriptors c F argv F' :
  std F -> redirs01 c -> execs (runcmd c) F argv F' <-> starts_with c F argv F'.
Proof.
  revert F. induction c as [ws | c IH file mode fd | l IHl r IHr | l IHl r IHr | c IH]; intros F Hs Hc; cbn [redirs01] in Hc.
  - cbn. destruct ws as [| w ws]; [split; [intros H; by inversion H | by intros []] |]. split.
    + intros H. by inversion H.
    + intros (_ & -> & ->). apply ex_exec.
  - destruct Hc as [Hfd Hc]. cbn [runcmd starts_with]. rewrite execs_close, (execs_open _ _ _ _ _ _ fd) by (by apply lowest_delete).
    rewrite (proj2 (Z.ltb_ge fd 0)) by lia. rewrite insert_delete_eq. apply IH; [by apply std_insert | done].
  - rewrite execs_pipe by done. cbn [starts_with]. destruct Hc. apply exist_proper. intros p. by rewrite IHl, IHr by (try apply std_insert; done).
  - cbn [runcmd starts_with]. rewrite execs_fork1. destruct Hc as [Hl Hr]. rewrite IHl by done. rewrite <- (IHr F Hs) by done. f_equiv. split.
    + intros (pid & Hp & H). rewrite (proj2 (Z.eqb_neq pid 0)) in H by lia. by apply execs_wait.
    + intros H. exists 1. split; [done |]. by apply ex_wait.
  - cbn [runcmd starts_with]. rewrite execs_fork1. rewrite (IH F Hs Hc). split; [| by left]. intros [H | (pid & Hp & H)]; [done |].
    rewrite (proj2 (Z.eqb_neq pid 0)) in H by lia. by apply execs_exit in H.
Qed.

Lemma runcmd_descriptors_witness :
  execs (runcmd (Cpipe (Cexec [cstr "ls"]) (Credir (Cexec [cstr "wc"]) (cstr "out") O_WRONLY 1))) {[ 0 := OOther 0; 1 := OOther 1 ]}
    [cstr "wc"] (<[1 := OFile (cstr "out") O_WRONLY]> (<[0 := ORead 0]> {[ 0 := OOther 0; 1 := OOther 1 ]})).
Proof.
  apply runcmd_descriptors.
  - split; by eexists.
  - split; [exact I | split; [by right | exact I]].
  - exists 0%nat. split; [| right; split_and!; done]. intros i.
    destruct (decide (i = 0)) as [-> |]; [done |]. destruct (decide (i = 1)) as [-> |]; [done |]. rewrite lookup_insert_ne, lookup_singleton_ne by congruence. done.
Defined.
