(* ===== verification/Umalloc.v ===== *)
(** * user/umalloc.c: the memory allocator of user programs

    State: the headers that lie in the heap (and [base]), [freep], and the
    end of the heap.  Addresses are in bytes, sizes in units of
    [sizeof(Header)].  [sbrk] is the system call: it fails when the kernel
    has no memory left, otherwise it moves the end of the heap and returns
    the old one. *)

From S2P Require Import Prelude.

Definition HDR : Z := 16.   (* sizeof(Header) *)

Record header := Hd { s_ptr : Z; s_size : Z }.
Definition header0 : header := Hd 0 0.

Record mst := Mst { m_hd : gmap Z header; freep : Z; m_brk : Z }.

Section umalloc.
Variable base : Z.                       (* &base *)
Variable sbrk_fails : Z -> Z -> bool.    (* at this end of the heap, for this size *)
Abbreviation M := (K mst).

Definition hd_at (s : mst) (p : Z) : header := default header0 (m_hd s !! p).
Definition ptr (s : mst) (p : Z) : Z := s_ptr (hd_at s p).
Definition size (s : mst) (p : Z) : Z := s_size (hd_at s p).

Definition set_ptr (p x : Z) : M unit :=
  kmod (fun s => Mst (<[p := Hd x (size s p)]> (m_hd s)) (freep s) (m_brk s)).
Definition set_size (p n : Z) : M unit :=
  kmod (fun s => Mst (<[p := Hd (ptr s p) (u32 n)]> (m_hd s)) (freep s) (m_brk s)).
Definition set_freep (p : Z) : M unit := kmod (fun s => Mst (m_hd s) p (m_brk s)).

(** [char *sbrk(int)]: the argument is converted. *)
Definition sbrk (n : Z) : M Z :=
  s <- kget ;;
  let n := i32 n in
  if sbrk_fails (m_brk s) n then kret (-1) else
  kmod (fun s => Mst (m_hd s) (freep s) (m_brk s + n)) >>
  kret (m_brk s).

(** The loop of [free]: the free block after which [bp] belongs. *)
Fixpoint find_loop (n : nat) (bp p : Z) : M Z :=
  match n with
  | O => kfuel
  | S n =>
      s <- kget ;;
      if ((p <? bp) && (bp <? ptr s p))%bool then kret p
      else if ((ptr s p <=? p) && ((p <? bp) || (bp <? ptr s p)))%bool then kret p
      else find_loop n bp (ptr s p)
  end.

(** A free list has at most as many blocks as there are headers. *)
Definition turns (s : mst) : nat := S (stdpp.base.size (m_hd s)).

Definition free (ap : Z) : M unit :=
  let bp := ap - HDR in
  s <- kget ;;
  p <- find_loop (turns s) bp (freep s) ;;
  s <- kget ;;
  let nx := ptr s p in
  (if bp + size s bp * HDR =? nx
   then set_size bp (size s bp + size s nx) >>
        set_ptr bp (ptr s nx)
   else set_ptr bp nx) >>
  s <- kget ;;
  (if p + size s p * HDR =? bp
   then set_size p (size s p + size s bp) >>
        set_ptr p (ptr s bp)
   else set_ptr p bp) >>
  set_freep p.

(** 0 when the kernel has no more memory. *)
Definition morecore (nu : Z) : M Z :=
  let nu := if nu <? 4096 then 4096 else nu in
  p <- sbrk (nu * HDR) ;;
  if p =? -1 then kret 0 else
  set_size p nu >>
  free (p + HDR) >>
  s <- kget ;;
  kret (freep s).

Fixpoint malloc_loop (n : nat) (nunits prevp p : Z) : M Z :=
  match n with
  | O => kfuel
  | S n =>
      s <- kget ;;
      if nunits <=? size s p then
        q <- (if size s p =? nunits then set_ptr prevp (ptr s p) >> kret p
              else
                set_size p (size s p - nunits) >>
                s <- kget ;;
                let q := p + size s p * HDR in
                set_size q nunits >>
                kret q) ;;
        set_freep prevp >>
        kret (q + HDR)
      else if p =? freep s then
        p <- morecore nunits ;;
        if p =? 0 then kret 0 else
        s <- kget ;;
        malloc_loop n nunits p (ptr s p)
      else malloc_loop n nunits p (ptr s p)
  end.

(** Once around the list, and once more after [morecore]. *)
Definition malloc (nbytes : Z) : M Z :=
  let nunits := u32 ((nbytes + HDR - 1) / HDR + 1) in
  s <- kget ;;
  kwhen (freep s =? 0) (set_ptr base base >> set_freep base >> set_size base 0) >>
  s <- kget ;;
  malloc_loop (turns s + turns s + 3) nunits (freep s) (ptr s (freep s)).
End umalloc.
