(* ===== verification/UmallocHeap.v ===== *)
(** * The heap of a user program, as a sequence of blocks

    The specification of user/umalloc.c: the heap is cut into blocks without
    gaps, each either allocated or free.  [alloc] cuts the end of a free
    block off, [release] frees a block and joins it with free neighbours
    ([tidy]). *)

From stdpp Require Import sorting.
From S2P Require Import Prelude Umalloc.

(** Sizes are in units, the header included. *)
Record tile := Tile { t_live : bool; t_size : Z }.
Abbreviation heap := (list tile).

Fixpoint total (h : heap) : Z :=
  match h with [] => 0 | t :: h => t_size t + total h end.

(** The addresses of the free blocks of a heap that begins at [a]. *)
Fixpoint frees (a : Z) (h : heap) : list Z :=
  match h with
  | [] => []
  | t :: h =>
      if t_live t then frees (a + t_size t * HDR) h
      else a :: frees (a + t_size t * HDR) h
  end.

(** Joins neighbours that are free. *)
Definition glue (t : tile) (h : heap) : heap :=
  match t, h with
  | Tile false m, Tile false n :: h' => Tile false (m + n) :: h'
  | _, _ => t :: h
  end.
Definition tidy (h : heap) : heap := foldr glue [] h.

Fixpoint spaced (h : heap) : Prop :=
  match h with
  | [] => True
  | t :: h' =>
      match h' with
      | [] => True
      | t' :: _ => t_live t = true \/ t_live t' = true
      end /\ spaced h'
  end.

Definition sizes_ok (h : heap) : Prop := Forall (fun t => 0 < t_size t) h.

(** The block of [n] units at address [a] of a heap that begins at [a0]. *)
Definition live_at (a0 a n : Z) (h : heap) : Prop :=
  exists h1 h2, h = h1 ++ Tile true n :: h2 /\ a = a0 + total h1 * HDR.

Definition fits (n : Z) (t : tile) : Prop := t_live t = false /\ n <= t_size t.

Definition carve (m n : Z) : heap :=
  if m =? n then [Tile true n] else [Tile false (m - n); Tile true n].

Definition alloc (a0 n a : Z) (h h' : heap) : Prop :=
  exists h1 m h2, h = h1 ++ Tile false m :: h2 /\ n <= m /\
    h' = h1 ++ carve m n ++ h2 /\ a = a0 + (total h1 + (m - n)) * HDR.

Definition release (a0 a : Z) (h h' : heap) : Prop :=
  exists h1 n h2, h = h1 ++ Tile true n :: h2 /\ a = a0 + total h1 * HDR /\
    h' = tidy (h1 ++ Tile false n :: h2).

Lemma total_app h1 h2 : total (h1 ++ h2) = total h1 + total h2.
Proof. induction h1 as [|t h1 IH]; cbn [total app]; lia. Qed.

Lemma total_pos h : sizes_ok h -> 0 <= total h.
Proof. induction 1; cbn [total]; lia. Qed.

Lemma frees_app a h1 h2 :
  frees a (h1 ++ h2) = frees a h1 ++ frees (a + total h1 * HDR) h2.
Proof.
  revert a; induction h1 as [|[b n] h1 IH]; intros a; cbn [frees total app t_live t_size].
  - f_equal; lia.
  - replace (a + (n + total h1) * HDR) with (a + n * HDR + total h1 * HDR) by lia.
    destruct b; rewrite IH; reflexivity.
Qed.

Lemma frees_bounds a h x : sizes_ok h -> x ∈ frees a h -> a <= x < a + total h * HDR.
Proof.
  intros Hs; revert a; induction Hs as [|[b n] h Hn Hs IH];
    intros a; cbn [frees total t_live t_size] in *; [by intros ?%elem_of_nil|].
  pose proof (total_pos _ Hs); unfold HDR in *.
  destruct b; [intros Hx%IH; lia|].
  intros [->|Hx%IH]%elem_of_cons; lia.
Qed.

Lemma frees_sorted a h : sizes_ok h -> StronglySorted Z.lt (frees a h).
Proof.
  intros Hs; revert a; induction Hs as [|[b n] h Hn Hs IH];
    intros a; cbn [frees t_live t_size] in *; [constructor|].
  destruct b; [auto|]; constructor; [auto|].
  apply Forall_forall; intros x Hx%frees_bounds; [unfold HDR in *; lia|done].
Qed.

Lemma tidy_cons t h : tidy (t :: h) = glue t (tidy h).
Proof. reflexivity. Qed.

Lemma glue_live n h : glue (Tile true n) h = Tile true n :: h.
Proof. reflexivity. Qed.

Lemma glue_before_live t n h : glue t (Tile true n :: h) = t :: Tile true n :: h.
Proof. by destruct t as [[] m]. Qed.

Lemma glue_nil t : glue t [] = [t].
Proof. by destruct t as [[] m]. Qed.

Lemma tidy_spaced h : spaced (tidy h).
Proof.
  induction h as [|t h IH]; [done|]; rewrite tidy_cons.
  destruct t as [[] m], (tidy h) as [|[[] n] g]; cbn in *; naive_solver.
Qed.

Lemma spaced_tidy h : spaced h -> tidy h = h.
Proof.
  induction h as [|t h IH]; [done|]; intros [Ht Hh]; rewrite tidy_cons, (IH Hh).
  destruct t as [[] m], h as [|[[] n] g]; cbn in *; naive_solver.
Qed.

Lemma spaced_app h1 t h2 :
  spaced (h1 ++ t :: h2) <-> spaced (h1 ++ [t]) /\ spaced (t :: h2).
Proof.
  induction h1 as [|x h1 IH]; [cbn; naive_solver|].
  destruct h1 as [|y h1]; cbn in *; naive_solver.
Qed.

Lemma spaced_snoc_live h n : spaced h -> spaced (h ++ [Tile true n]).
Proof.
  induction h as [|t h IH]; [done|]; intros [Ht Hh].
  split; [destruct h; cbn; naive_solver|auto].
Qed.

Lemma spaced_snoc_inv h t : spaced (h ++ [t]) -> spaced h.
Proof.
  induction h as [|x h IH]; [done|]; intros [Ht Hh].
  split; [destruct h; cbn in *; naive_solver|auto].
Qed.

Lemma spaced_resize h m n : spaced (h ++ [Tile false m]) -> spaced (h ++ [Tile false n]).
Proof. induction h as [|t [|u h] IH]; cbn in *; naive_solver. Qed.

(** Two free neighbours may be joined first. *)
Lemma tidy_merge h1 m n h2 :
  tidy (h1 ++ Tile false m :: Tile false n :: h2) = tidy (h1 ++ Tile false (m + n) :: h2).
Proof.
  unfold tidy; rewrite !foldr_app; f_equal; cbn [foldr].
  destruct (foldr glue [] h2) as [|[[] k] g]; cbn; try reflexivity.
  by rewrite Z.add_assoc.
Qed.

Lemma total_tidy h : total (tidy h) = total h.
Proof.
  induction h as [|t h IH]; [done|]; rewrite tidy_cons; cbn [total]; rewrite <- IH.
  destruct t as [[] m], (tidy h) as [|[[] n] g]; cbn; lia.
Qed.

Lemma sizes_ok_tidy h : sizes_ok h -> sizes_ok (tidy h).
Proof.
  induction 1 as [|t h Ht _ IH]; [constructor|]; rewrite tidy_cons.
  destruct t as [[] m], (tidy h) as [|[[] n] g]; cbn in *; repeat constructor;
    try done; inversion IH; subst; cbn in *; try done; lia.
Qed.

(** Blocks that are allocated do not overlap. *)
Lemma live_before p n q p' m q' k :
  sizes_ok (p ++ Tile true n :: q) ->
  p = p' ++ k -> Tile true m :: q' = k ++ Tile true n :: q ->
  total p = total p' /\ n = m \/ total p' + m <= total p.
Proof.
  intros Hs -> E; destruct k as [|t k]; cbn [app] in E; simplify_eq.
  - left; by rewrite app_nil_r.
  - right; rewrite total_app; cbn [total t_size].
    rewrite <- app_assoc in Hs; apply Forall_app in Hs as [_ Hs].
    apply Forall_app in Hs as [Hs _]; inversion Hs; subst.
    assert (0 <= total k) by (by apply total_pos); lia.
Qed.

Lemma live_disjoint a0 h a n b m :
  sizes_ok h -> live_at a0 a n h -> live_at a0 b m h ->
  a = b /\ n = m \/ a + n * HDR <= b \/ b + m * HDR <= a.
Proof.
  intros Hs (p & q & -> & ->) (p' & q' & E & ->); unfold HDR.
  destruct (app_eq_inv _ _ _ _ E) as [(k & E1 & E2)|(k & E1 & E2)].
  - destruct (live_before p n q p' m q' k Hs E1 E2); lia.
  - rewrite E in Hs; destruct (live_before p' m q' p n q k Hs E1 E2); lia.
Qed.
