(* ===== verification/UmallocProofs.v ===== *)
(** * user/umalloc.c implements the heap of blocks

    The free list is a ring from [base] through the free blocks in the order
    of their addresses, [freep] anywhere on it ([heap_ok]).  [free], [morecore] and
    [malloc] keep it and do what [UmallocHeap] says, the loops end. *)

From stdpp Require Import sorting.
From S2P Require Import Prelude Umalloc UmallocHeap.

(** ** Rings of headers *)

(** Each header of [l] points to the next, the last one to [z]. *)
Fixpoint link (s : mst) (l : list Z) (z : Z) : Prop :=
  match l with
  | [] => True
  | a :: l' => ptr s a = hd z l' /\ link s l' z
  end.

(** Every block from [a] on has a header with its size. *)
Fixpoint sized (s : mst) (a : Z) (h : heap) : Prop :=
  match h with
  | [] => True
  | t :: h' =>
      is_Some (m_hd s !! a) /\ size s a = t_size t /\ sized s (a + t_size t * HDR) h'
  end.

Lemma link_app s l1 l2 z : link s (l1 ++ l2) z <-> link s l1 (hd z l2) /\ link s l2 z.
Proof.
  induction l1 as [|a l1 IH]; cbn [link app]; [naive_solver|].
  replace (hd z (l1 ++ l2)) with (hd (hd z l2) l1) by (by destruct l1).
  rewrite IH; naive_solver.
Qed.

Lemma link_frame s s' l z :
  (forall x, x ∈ l -> ptr s' x = ptr s x) -> link s l z -> link s' l z.
Proof.
  induction l as [|a l IH]; [done|]; intros Hf [H1 H2]; split.
  - rewrite Hf; [done|left].
  - apply IH; [|done]; intros x Hx; apply Hf; by right.
Qed.

(** A ring may be entered anywhere. *)
Lemma link_rotate s b l A f B :
  link s (b :: l) b -> b :: l = A ++ f :: B -> link s (f :: B ++ A) f.
Proof.
  intros Hl E; rewrite E in Hl; apply link_app in Hl as [HA HB].
  destruct A as [|a A]; cbn [app] in E; simplify_eq.
  - by rewrite app_nil_r.
  - change (f :: B ++ a :: A) with ((f :: B) ++ a :: A); apply link_app; by split.
Qed.

Lemma link_ptrs s a l z : link s (a :: l) z -> map (ptr s) (a :: l) = l ++ [z].
Proof.
  revert a; induction l as [|b l IH]; intros a [H1 H2]; cbn [map hd app] in *.
  - by rewrite H1.
  - rewrite H1; f_equal; by apply IH.
Qed.

(** On a ring no two headers point to the same. *)
Lemma link_inj s b l x y :
  NoDup (b :: l) -> link s (b :: l) b -> x ∈ b :: l -> y ∈ b :: l ->
  ptr s x = ptr s y -> x = y.
Proof.
  intros Hnd Hl%link_ptrs [i Hi]%list_elem_of_lookup_1 [j Hj]%list_elem_of_lookup_1 E.
  assert (NoDup (ptr s <$> b :: l)) as Hn.
  { change (NoDup (map (ptr s) (b :: l))); rewrite Hl.
    by rewrite <- Permutation_cons_append. }
  assert (i = j) as ->; [|congruence].
  apply (NoDup_lookup _ i j (ptr s x) Hn); rewrite list_lookup_fmap.
  - by rewrite Hi.
  - by rewrite Hj, E.
Qed.

Lemma sized_app s a h1 h2 :
  sized s a (h1 ++ h2) <-> sized s a h1 /\ sized s (a + total h1 * HDR) h2.
Proof.
  revert a; induction h1 as [|t h1 IH]; intros a; cbn [sized total app].
  - replace (a + 0 * HDR) with a by lia; naive_solver.
  - rewrite IH.
    replace (a + (t_size t + total h1) * HDR) with (a + t_size t * HDR + total h1 * HDR) by lia.
    naive_solver.
Qed.

Lemma sized_frame s s' a h :
  sizes_ok h ->
  (forall x, a <= x < a + total h * HDR ->
     size s' x = size s x /\ (is_Some (m_hd s !! x) -> is_Some (m_hd s' !! x))) ->
  sized s a h -> sized s' a h.
Proof.
  intros Hs; revert a; induction Hs as [|t h Ht Hs IH]; intros a Hf; [done|].
  intros (H1 & H2 & H3); pose proof (total_pos _ Hs); cbn [total] in Hf; unfold HDR in *.
  destruct (Hf a) as [E1 E2]; [lia|].
  split_and!; [auto|congruence|].
  apply IH; [|done]; intros x Hx; apply Hf; unfold HDR in *; lia.
Qed.

Lemma sized_frees s a h x : sized s a h -> x ∈ frees a h -> is_Some (m_hd s !! x).
Proof.
  revert a; induction h as [|[b n] h IH]; intros a; cbn [sized frees t_live t_size].
  - intros _ H%elem_of_nil; done.
  - intros (H1 & _ & H3); destruct b; [by apply IH|].
    intros [->|Hx]%elem_of_cons; [done|by apply (IH _ H3)].
Qed.

Lemma sized_end s a h x :
  sizes_ok h -> sized s a h -> x ∈ frees a h -> x + size s x * HDR <= a + total h * HDR.
Proof.
  intros Hs; revert a; induction Hs as [|[b n] h Hn Hs IH];
    intros a; cbn [sized frees total t_live t_size] in *; [by intros _ ?%elem_of_nil|].
  intros (_ & H2 & H3); pose proof (total_pos _ Hs).
  destruct b; [intros Hx; specialize (IH _ H3 Hx); lia|].
  intros [->|Hx]%elem_of_cons; [unfold HDR in *; lia|specialize (IH _ H3 Hx); lia].
Qed.

Lemma sized_pos s a h x :
  sizes_ok h -> sized s a h -> x ∈ frees a h -> 0 < size s x.
Proof.
  intros Hs; revert a; induction Hs as [|[b n] h Hn Hs IH];
    intros a; cbn [sized frees t_live t_size] in *; [by intros _ ?%elem_of_nil|].
  intros (_ & H2 & H3); destruct b; [by apply IH|].
  intros [->|Hx]%elem_of_cons; [lia|by apply (IH _ H3)].
Qed.

(** A ring has at most as many headers as there are. *)
Lemma NoDup_length_size (m : gmap Z header) l :
  NoDup l -> (forall x, x ∈ l -> is_Some (m !! x)) -> (length l <= stdpp.base.size m)%nat.
Proof.
  intros Hn Hl; rewrite <- size_dom, <- (size_list_to_set (C := gset Z) l Hn).
  apply subseteq_size; intros x Hx%elem_of_list_to_set.
  apply elem_of_dom; auto.
Qed.

Lemma link_next s l z a :
  link s l z -> StronglySorted Z.lt l -> a ∈ l ->
  ptr s a = z \/ a < ptr s a /\ ptr s a ∈ l.
Proof.
  induction l as [|b l IH]; [by intros _ _ ?%elem_of_nil|].
  intros [H1 H2] [Hb Hs]%StronglySorted_cons [->|Ha]%elem_of_cons.
  - rewrite H1; destruct l as [|c l]; [by left|right; cbn [hd]].
    rewrite Forall_cons in Hb; split; [lia|right; left].
  - destruct (IH H2 Hs Ha) as [?|[??]]; [by left|right; split; [done|by right]].
Qed.

Section heap.
Variables base heap0 : Z.
Hypothesis base_pos : 0 < base.
Hypothesis base_low : base + HDR <= heap0.

Definition ring (h : heap) : list Z := base :: frees heap0 h.

Record heap_ok (s : mst) (h : heap) : Prop := {
  hk_sizes : sizes_ok h;
  hk_spaced : spaced h;
  hk_brk : m_brk s = heap0 + total h * HDR;
  hk_total : total h < 2 ^ 32;
  hk_sized : sized s heap0 h;
  hk_link : link s (ring h) base;
  hk_freep : freep s ∈ ring h;
  hk_base : size s base = 0 /\ is_Some (m_hd s !! base)
}.

Lemma ring_sorted h : sizes_ok h -> StronglySorted Z.lt (ring h).
Proof.
  intros Hs; apply StronglySorted_cons; split; [|by apply frees_sorted].
  apply Forall_forall; intros x Hx%frees_bounds; [unfold HDR in *; lia|done].
Qed.

Lemma ring_NoDup h : sizes_ok h -> NoDup (ring h).
Proof.
  intros Hs%ring_sorted; induction Hs as [|x l Hs IH Hx]; constructor; [|done].
  intros Hin; rewrite Forall_forall in Hx; specialize (Hx _ Hin); lia.
Qed.

Lemma ring_turns s h : heap_ok s h -> (length (ring h) < turns s)%nat.
Proof.
  intros Hk; apply Nat.lt_succ_r, NoDup_length_size; [by apply ring_NoDup, Hk|].
  intros x [->|Hx]%elem_of_cons; [apply Hk|].
  eapply sized_frees; [apply Hk|done].
Qed.

(** ** The loop of free *)

Definition stops (bp p nx : Z) : bool :=
  ((p <? bp) && (bp <? nx) || (nx <=? p) && ((p <? bp) || (bp <? nx)))%bool.

Lemma stops_spec bp p nx :
  stops bp p nx = true <-> p < bp < nx \/ nx <= p /\ (p < bp \/ bp < nx).
Proof.
  unfold stops; destruct (Z.ltb_spec p bp), (Z.ltb_spec bp nx), (Z.leb_spec nx p);
    cbn; split; intros; try done; lia.
Qed.

Lemma find_step n bp p s :
  find_loop (S n) bp p s =
  if stops bp p (ptr s p) then Ret p s else find_loop n bp (ptr s p) s.
Proof.
  cbn [find_loop]; kred; unfold stops.
  destruct ((p <? bp) && (bp <? ptr s p))%bool; [done|]; cbn [orb].
  by destruct ((ptr s p <=? p) && _)%bool.
Qed.

Lemma find_skip bp l z n s :
  link s l z -> (forall a, a ∈ l -> stops bp a (ptr s a) = false) ->
  find_loop (length l + n) bp (hd z l) s = find_loop n bp z s.
Proof.
  revert n; induction l as [|a l IH]; intros n; [done|].
  intros [H1 H2] Hs; cbn [length Nat.add hd]; rewrite find_step, Hs, H1; [|left].
  apply IH; [done|]; intros x Hx; apply Hs; by right.
Qed.

(** From anywhere on the ring the loop gets to the header before [bp]. *)
Lemma find_ring bp P p Q f s n :
  link s (P ++ p :: Q) base -> StronglySorted Z.lt (P ++ p :: Q) ->
  hd p P = base -> base <= p < bp -> Forall (Z.lt bp) Q ->
  f ∈ P ++ p :: Q -> (length (P ++ p :: Q) < n)%nat ->
  find_loop n bp f s = Ret p s.
Proof.
  intros Hl Hs Hb Hp HQ Hf Hn.
  apply link_app in Hl as [HP [Hnx HQl]]; cbn [hd] in HP.
  apply StronglySorted_app in Hs as (HPp & HsP & [_ HsQ]%StronglySorted_cons).
  assert (Hlt : forall a, a ∈ P -> a < p) by (intros a Ha; apply HPp; [done|left]).
  assert (SP : forall a, a ∈ P -> stops bp a (ptr s a) = false).
  { intros a Ha; pose proof (Hlt a Ha).
    apply not_true_is_false; rewrite stops_spec.
    destruct (link_next _ _ _ _ HP HsP Ha) as [->|[? Hx]]; [|apply Hlt in Hx]; lia. }
  assert (SQ : forall a, a ∈ Q -> stops bp a (ptr s a) = false).
  { rewrite Forall_forall in HQ.
    intros a Ha; pose proof (HQ a Ha).
    apply not_true_is_false; rewrite stops_spec.
    destruct (link_next _ _ _ _ HQl HsQ Ha) as [->|[? Hx]]; [|apply HQ in Hx]; lia. }
  assert (Sp : stops bp p (ptr s p) = true).
  { rewrite Hnx, stops_spec; destruct Q as [|q Q]; cbn [hd];
      [|rewrite Forall_cons in HQ]; lia. }
  rewrite length_app in Hn; cbn [length] in Hn.
  assert (Fp : forall k, (0 < k)%nat -> find_loop k bp p s = Ret p s).
  { intros [|k] Hk; [lia|]; by rewrite find_step, Sp. }
  apply elem_of_app in Hf as [Hf|[->|Hf]%elem_of_cons]; [|apply Fp; lia|].
  - apply list_elem_of_split in Hf as (A & B & ->); rewrite length_app in Hn.
    cbn [length] in Hn; apply link_app in HP as [_ HP].
    replace n with (length (f :: B) + (n - S (length B)))%nat by (cbn [length]; lia).
    change f with (hd p (f :: B)) at 2; rewrite find_skip; [apply Fp; lia|done|].
    intros a Ha; apply SP; set_solver.
  - apply list_elem_of_split in Hf as (A & B & ->); rewrite length_app in Hn.
    cbn [length] in Hn; apply link_app in HQl as [_ HQl].
    replace n with (length (f :: B) + (length P + (n - S (length B) - length P)))%nat
      by (cbn [length]; lia).
    change f with (hd base (f :: B)) at 2; rewrite find_skip; [|done|].
    + rewrite <- Hb, find_skip; [apply Fp; lia|done|done].
    + intros a Ha; apply SQ; set_solver.
Qed.

Lemma sizes_ok_mid h1 t h2 :
  sizes_ok (h1 ++ t :: h2) <-> sizes_ok h1 /\ 0 < t_size t /\ sizes_ok h2.
Proof. unfold sizes_ok; rewrite Forall_app, Forall_cons; naive_solver. Qed.

Lemma ring_app h1 h2 : ring (h1 ++ h2) = ring h1 ++ frees (heap0 + total h1 * HDR) h2.
Proof. unfold ring; by rewrite frees_app. Qed.

Lemma ring_last h : exists P p, ring h = P ++ [p].
Proof.
  destruct (exists_last (l := ring h)) as (P & p & ->); [done|eauto].
Qed.

Lemma ring_below h x : sizes_ok h -> x ∈ ring h -> base <= x < heap0 + total h * HDR.
Proof.
  intros Hs; pose proof (total_pos _ Hs); unfold HDR in *.
  intros [->|Hx%frees_bounds]%elem_of_cons; unfold HDR in *; lia || done.
Qed.

Lemma find_ok s h1 n h2 P p :
  heap_ok s (h1 ++ Tile true n :: h2) -> ring h1 = P ++ [p] ->
  find_loop (turns s) (heap0 + total h1 * HDR) (freep s) s = Ret p s.
Proof.
  intros Hk E; pose proof (hk_sizes _ _ Hk) as [H1 [Hn H2]]%sizes_ok_mid.
  pose proof (ring_turns _ _ Hk) as Ht; pose proof (ring_sorted _ (hk_sizes _ _ Hk)) as Hs.
  destruct Hk as [_ _ _ _ _ Hl Hf _].
  rewrite ring_app, E, <- app_assoc in *; cbn [frees t_live t_size app] in *.
  eapply find_ring; [exact Hl|exact Hs| | | |exact Hf|exact Ht].
  - destruct P; cbn in E; by injection E as <-.
  - apply ring_below; [done|]; rewrite E; set_solver.
  - apply Forall_forall; intros x Hx%frees_bounds; [unfold HDR in *; lia|done].
Qed.

(** ** What free does to the headers *)

Lemma hd_ptr_eq m p h f b : ptr (Mst (<[p := h]> m) f b) p = s_ptr h.
Proof. unfold ptr, hd_at; cbn [m_hd]; by rewrite lookup_insert_eq. Qed.
Lemma hd_size_eq m p h f b : size (Mst (<[p := h]> m) f b) p = s_size h.
Proof. unfold size, hd_at; cbn [m_hd]; by rewrite lookup_insert_eq. Qed.
Lemma hd_ptr_ne m p q h f b f' b' :
  p <> q -> ptr (Mst (<[q := h]> m) f b) p = ptr (Mst m f' b') p.
Proof. intros; unfold ptr, hd_at; cbn [m_hd]; by rewrite lookup_insert_ne. Qed.
Lemma hd_size_ne m p q h f b f' b' :
  p <> q -> size (Mst (<[q := h]> m) f b) p = size (Mst m f' b') p.
Proof. intros; unfold size, hd_at; cbn [m_hd]; by rewrite lookup_insert_ne. Qed.

Definition after_right (s : mst) (bp n nx : Z) : header :=
  if bp + n * HDR =? nx then Hd (ptr s nx) (n + size s nx) else Hd nx n.
Definition after_left (s : mst) (p bp : Z) (b : header) : header :=
  if p + size s p * HDR =? bp then Hd (s_ptr b) (size s p + s_size b) else Hd bp (size s p).

(** Both halves of [free] write one header. *)
Lemma join_run (c : bool) q a b k s :
  (if c then set_size q k >> set_ptr q a else set_ptr q b) s =
  Ret tt (Mst (<[q := if c then Hd a (u32 k) else Hd b (size s q)]> (m_hd s)) (freep s) (m_brk s)).
Proof.
  destruct c; [|done]; unfold set_size, set_ptr; kred; cbn [m_hd freep m_brk].
  by rewrite hd_size_eq, insert_insert_eq.
Qed.

Lemma free_headers s bp p :
  find_loop (turns s) bp (freep s) s = Ret p s ->
  let b := after_right s bp (size s bp) (ptr s p) in
  let a := after_left s p bp b in
  p <> bp -> 0 <= s_size b < 2 ^ 32 -> 0 <= s_size a < 2 ^ 32 ->
  free (bp + HDR) s = Ret tt (Mst (<[p := a]> (<[bp := b]> (m_hd s))) p (m_brk s)).
Proof.
  intros Hf b a Hp Hb Ha; unfold free; replace (bp + HDR - HDR) with bp by lia.
  rewrite (kbind_of kget _ s s s eq_refl), (kbind_of _ _ _ _ _ Hf).
  rewrite (kbind_of kget _ s s s eq_refl), (kbind_of _ _ _ _ _ (join_run _ _ _ _ _ _)).
  rewrite (kbind_of kget _ _ _ _ eq_refl), (kbind_of _ _ _ _ _ (join_run _ _ _ _ _ _)).
  unfold set_freep, kmod; cbn [m_hd freep m_brk]; do 2 f_equal.
  subst b a; unfold after_left, after_right in *.
  rewrite !(hd_size_ne _ p bp _ _ _ (freep s) (m_brk s) Hp), hd_size_eq, hd_ptr_eq.
  destruct s as [m f k]; cbn [m_hd freep m_brk] in *.
  set (s := Mst m f k) in *.
  destruct (bp + _ =? _), (p + _ =? _); cbn [s_size s_ptr] in *;
    rewrite ?(u32_small (size s bp + _)) by lia; by rewrite ?u32_small by lia.
Qed.

(** The first test of [free] holds exactly when the next block is free. *)
Lemma right_part s bp n h2 :
  base < bp -> 0 < n -> sizes_ok h2 -> spaced h2 -> sized s (bp + n * HDR) h2 ->
  link s (frees (bp + n * HDR) h2) base ->
  exists n' h2',
    0 < n' /\ n' + total h2' = n + total h2 /\ sizes_ok h2' /\ spaced (Tile false n' :: h2') /\
    (forall h1, tidy (h1 ++ Tile false n :: h2) = tidy (h1 ++ Tile false n' :: h2')) /\
    sized s (bp + n' * HDR) h2' /\ link s (frees (bp + n' * HDR) h2') base /\
    after_right s bp n (hd base (frees (bp + n * HDR) h2)) =
      Hd (hd base (frees (bp + n' * HDR) h2')) n'.
Proof.
  intros Hbp Hn Hs Hsp Hz Hl; unfold after_right.
  destruct h2 as [|[[] m] h2]; cbn [frees sized t_live t_size hd link] in *.
  - exists n, []; unfold HDR in *; cbn; case_if; zbool; [lia|].
    split_and!; try done.
  - inversion Hs as [|? ? Hm Hs']; subst; cbn [t_size] in Hm.
    exists n, (Tile true m :: h2); cbn [frees sized t_live t_size spaced].
    case_if; zbool.
    + exfalso; destruct (frees (bp + n * HDR + m * HDR) h2) as [|x l] eqn:El; cbn [hd] in *.
      * unfold HDR in *; lia.
      * assert (x ∈ frees (bp + n * HDR + m * HDR) h2) as Hx%frees_bounds
          by (rewrite El; left); [unfold HDR in *; lia|done].
    + destruct Hsp; naive_solver.
  - inversion Hs as [|? ? Hm Hs']; subst; cbn [t_size] in Hm.
    rewrite Z.eqb_refl; exists (n + m), h2.
    replace (bp + (n + m) * HDR) with (bp + n * HDR + m * HDR) by lia.
    destruct Hz as (_ & Hz & Hz'), Hl as [Hl Hl'].
    split_and!; try done; [lia|cbn [total t_size]; lia|apply Hsp..|intros; apply tidy_merge|].
    by rewrite Hl, Hz.
Qed.

(** The second one exactly when the block before is. *)
Lemma left_part s h1 P p :
  let bp := heap0 + total h1 * HDR in
  sizes_ok h1 -> sized s heap0 h1 -> ring h1 = P ++ [p] -> size s base = 0 ->
  ((p + size s p * HDR =? bp) = false /\ (h1 = [] \/ exists g k, h1 = g ++ [Tile true k])) \/
  exists g k, h1 = g ++ [Tile false k] /\ P = ring g /\ p = heap0 + total g * HDR /\
    size s p = k /\ (p + size s p * HDR =? bp) = true.
Proof.
  intros bp Hs Hz E Hb; subst bp.
  destruct h1 as [|[[] k] g _] using rev_ind.
  - left; split; [|by left]; destruct P as [|? [|]]; cbn in E; simplify_eq.
    injection E as <-; rewrite Hb; apply Z.eqb_neq; cbn [total]; unfold HDR in *; lia.
  - left; split; [|by right; eauto].
    apply Z.eqb_neq; apply sizes_ok_mid in Hs as (Hs & Hk & _); cbn [t_size] in Hk.
    rewrite total_app; cbn [total t_size].
    apply sized_app in Hz as [Hz _].
    assert (p + size s p * HDR <= heap0 + total g * HDR); [|unfold HDR in *; lia].
    rewrite ring_app in E; cbn [frees t_live] in E; rewrite app_nil_r in E.
    assert (p ∈ ring g) as [->|Hp]%elem_of_cons by (rewrite E; set_solver).
    + rewrite Hb; pose proof (total_pos _ Hs); unfold HDR in *; lia.
    + by apply sized_end.
  - right; exists g, k; rewrite ring_app in E; cbn [frees t_live] in E.
    apply app_inj_tail in E as [<- <-].
    apply sized_app in Hz as [_ Hz]; cbn [sized t_size] in Hz.
    destruct Hz as (_ & Hz & _); split_and!; try done.
    rewrite total_app; cbn [total t_size]; apply Z.eqb_eq; rewrite Hz; lia.
Qed.

Lemma ring_size s h x :
  sizes_ok h -> sized s heap0 h -> size s base = 0 -> x ∈ ring h -> 0 <= size s x <= total h.
Proof.
  intros Hs Hz Hb [->|Hx]%elem_of_cons; [rewrite Hb; pose proof (total_pos _ Hs); lia|].
  pose proof (sized_end _ _ _ _ Hs Hz Hx); pose proof (sized_pos _ _ _ _ Hs Hz Hx).
  apply frees_bounds in Hx; [unfold HDR in *; lia|done].
Qed.

(** ** A heap with one block changed *)

Lemma size_frame s s' x : m_hd s' !! x = m_hd s !! x -> size s' x = size s x.
Proof. unfold size, hd_at; by intros ->. Qed.
Lemma ptr_frame s s' x : m_hd s' !! x = m_hd s !! x -> ptr s' x = ptr s x.
Proof. unfold ptr, hd_at; by intros ->. Qed.
Lemma size_lookup s x h : m_hd s !! x = Some h -> size s x = s_size h.
Proof. unfold size, hd_at; by intros ->. Qed.
Lemma ptr_lookup s x h : m_hd s !! x = Some h -> ptr s x = s_ptr h.
Proof. unfold ptr, hd_at; by intros ->. Qed.

(** The sizes of the blocks before and after the changed one stay. *)
Definition same_outside (s s' : mst) (q e : Z) : Prop :=
  forall x, x < q \/ e <= x ->
    size s' x = size s x /\ (is_Some (m_hd s !! x) -> is_Some (m_hd s' !! x)).

Lemma heap_ok_build s s' h g1 m g2 :
  let q := heap0 + total g1 * HDR in
  heap_ok s h -> sizes_ok (g1 ++ Tile false m :: g2) -> spaced (g1 ++ Tile false m :: g2) ->
  total (g1 ++ Tile false m :: g2) = total h -> m_brk s' = m_brk s ->
  sized s heap0 g1 -> sized s (q + m * HDR) g2 ->
  same_outside s s' q (q + m * HDR) -> is_Some (m_hd s' !! q) -> size s' q = m ->
  link s' (ring g1 ++ q :: frees (q + m * HDR) g2) base ->
  freep s' ∈ ring g1 ++ q :: frees (q + m * HDR) g2 ->
  heap_ok s' (g1 ++ Tile false m :: g2).
Proof.
  intros q Hk Hs Hsp Ht Hbrk Hz1 Hz2 Hout Hq Hqm Hl Hf.
  pose proof Hs as (Hs1 & Hm & Hs2)%sizes_ok_mid; cbn [t_size] in Hm.
  assert (Er : ring (g1 ++ Tile false m :: g2) = ring g1 ++ q :: frees (q + m * HDR) g2)
    by (by rewrite ring_app).
  assert (base < q) by (pose proof (total_pos _ Hs1); subst q; unfold HDR in *; lia).
  destruct Hk as [_ _ Hk1 Hk2 _ _ _ [Hk3 Hk4]]; split; rewrite ?Er; try done.
  - congruence.
  - by rewrite Ht.
  - apply sized_app; cbn [sized t_size]; fold q; split_and!; try done.
    + apply (sized_frame s); [done| |done]; intros x Hx; apply Hout; left; subst q; lia.
    + apply (sized_frame s); [done| |done]; intros x Hx; apply Hout; right; lia.
  - destruct (Hout base) as [E1 E2]; [by left|]; split; [congruence|auto].
Qed.

(** [free] between its search and its writes: the blocks [h1] before [bp], [p] the
    last free header before it, and [n'], [h2'] what the first join leaves. *)
Record gap (s : mst) (h h1 : heap) (P : list Z) (p n' : Z) (h2' : heap) : Prop := {
  gap_heap : heap_ok s h;
  gap_total : total h = total h1 + (n' + total h2');
  gap_ring : ring h1 = P ++ [p];
  gap_link : link s P p;
  gap_sized : sized s heap0 h1;
  gap_sizes : sizes_ok h1;
  gap_spaced : spaced h1;
  gap_n : 0 < n';
  gap_sized' : sized s (heap0 + total h1 * HDR + n' * HDR) h2';
  gap_sizes' : sizes_ok h2';
  gap_spaced' : spaced (Tile false n' :: h2');
  gap_link' : link s (frees (heap0 + total h1 * HDR + n' * HDR) h2') base
}.

Lemma free_gap s h1 n h2 :
  let bp := heap0 + total h1 * HDR in
  heap_ok s (h1 ++ Tile true n :: h2) ->
  exists P p n' h2',
    gap s (h1 ++ Tile true n :: h2) h1 P p n' h2' /\
    find_loop (turns s) bp (freep s) s = Ret p s /\
    tidy (h1 ++ Tile false n :: h2) = tidy (h1 ++ Tile false n' :: h2') /\
    after_right s bp (size s bp) (ptr s p) = Hd (hd base (frees (bp + n' * HDR) h2')) n'.
Proof.
  intros bp Hk; destruct (ring_last h1) as (P & p & Ep).
  pose proof (hk_sizes _ _ Hk) as (Hs1 & Hn & Hs2)%sizes_ok_mid; cbn [t_size] in Hn.
  pose proof (hk_spaced _ _ Hk) as [Hsp1%spaced_snoc_inv [_ Hsp2]]%spaced_app.
  pose proof (hk_sized _ _ Hk) as [Hz1 (Hzb & Hzn & Hz2)]%sized_app; cbn [t_size] in Hzn, Hz2.
  pose proof (hk_link _ _ Hk) as Hl.
  rewrite ring_app, Ep, <- app_assoc in Hl; cbn [frees t_live t_size app] in Hl.
  apply link_app in Hl as [HlP [Hlp HlQ]]; cbn [hd] in HlP.
  assert (base < bp) by (pose proof (total_pos _ Hs1); subst bp; unfold HDR in *; lia).
  destruct (right_part s bp n h2) as (n' & h2' & Hn' & Ht' & Hs2' & Hsp2' & Htidy & Hz2' & Hl2' & Eb);
    try done.
  exists P, p, n', h2'; split_and!; [split|by apply (find_ok s h1 n h2 P p)|auto|]; try done.
  - rewrite total_app; cbn [total t_size]; lia.
  - fold bp in Hzn, Hlp; by rewrite Hlp, Hzn.
Qed.

Lemma gap_below s h h1 P p n' h2' x :
  gap s h h1 P p n' h2' -> x ∈ P ++ [p] -> base <= x < heap0 + total h1 * HDR.
Proof. intros Hg Hx; apply ring_below; [apply Hg|]; by rewrite (gap_ring _ _ _ _ _ _ _ Hg). Qed.

Lemma gap_P s h h1 P p n' h2' x : gap s h h1 P p n' h2' -> x ∈ P -> x < p.
Proof.
  intros Hg Hx; pose proof (ring_sorted _ (gap_sizes _ _ _ _ _ _ _ Hg)) as Hs.
  rewrite (gap_ring _ _ _ _ _ _ _ Hg) in Hs; apply StronglySorted_app in Hs as [Hs _].
  apply Hs; set_solver.
Qed.

Lemma gap_Q s h h1 P p n' h2' x :
  gap s h h1 P p n' h2' -> x ∈ frees (heap0 + total h1 * HDR + n' * HDR) h2' ->
  heap0 + total h1 * HDR + n' * HDR <= x.
Proof. intros Hg Hx%frees_bounds; [lia|apply Hg]. Qed.

Section gap.
Variables (s : mst) (h h1 : heap) (P : list Z) (p n' : Z) (h2' : heap).
Hypothesis G : gap s h h1 P p n' h2'.
Let bp := heap0 + total h1 * HDR.
Let Q := frees (bp + n' * HDR) h2'.
Variable a : header.
Let s' := Mst (<[p := a]> (<[bp := Hd (hd base Q) n']> (m_hd s))) p (m_brk s).

Lemma gap_p : base <= p < bp.
Proof. apply (gap_below _ _ _ _ _ _ _ _ G); set_solver. Qed.

Lemma gap_at_p : m_hd s' !! p = Some a.
Proof. cbn; by rewrite lookup_insert_eq. Qed.

Lemma gap_at_bp : m_hd s' !! bp = Some (Hd (hd base Q) n').
Proof. pose proof gap_p; cbn; rewrite lookup_insert_ne by lia; by rewrite lookup_insert_eq. Qed.

Lemma gap_other x : x <> p -> x <> bp -> m_hd s' !! x = m_hd s !! x.
Proof. intros; cbn; by rewrite !lookup_insert_ne. Qed.

Lemma gap_links : link s' P p /\ link s' Q base.
Proof.
  pose proof gap_p; pose proof (gap_n _ _ _ _ _ _ _ G).
  split; (eapply link_frame; [|apply G]); intros x Hx; apply ptr_frame, gap_other.
  - apply (gap_P _ _ _ _ _ _ _ _ G) in Hx; lia.
  - apply (gap_P _ _ _ _ _ _ _ _ G) in Hx; lia.
  - apply (gap_Q _ _ _ _ _ _ _ _ G) in Hx; unfold HDR in *; lia.
  - apply (gap_Q _ _ _ _ _ _ _ _ G) in Hx; unfold HDR in *; lia.
Qed.

(** The block before is allocated. *)
Lemma gap_apart :
  a = Hd bp (size s p) -> h1 = [] \/ (exists g k, h1 = g ++ [Tile true k]) ->
  heap_ok s' (h1 ++ Tile false n' :: h2').
Proof.
  intros Ea Hh1; pose proof gap_p as Hp; destruct gap_links as [HlP HlQ].
  pose proof (gap_n _ _ _ _ _ _ _ G).
  apply (heap_ok_build s s' h); fold bp; try apply G; try done.
  - apply sizes_ok_mid; split_and!; apply G.
  - destruct Hh1 as [->|(g & k & E)]; [apply G|].
    pose proof (gap_spaced _ _ _ _ _ _ _ G) as Hsp; rewrite E in Hsp |- *.
    rewrite <- app_assoc; apply spaced_app; split; [done|].
    cbn [app]; split; [by left|apply G].
  - rewrite total_app; cbn [total t_size]; symmetry; apply G.
  - intros x Hx; destruct (decide (x = p)) as [->|].
    + rewrite (size_lookup _ _ _ gap_at_p), gap_at_p, Ea; eauto.
    + assert (x <> bp) by (unfold HDR in *; lia).
      rewrite gap_other by done; split; [by apply size_frame, gap_other|done].
  - by rewrite gap_at_bp.
  - by rewrite (size_lookup _ _ _ gap_at_bp).
  - fold Q; rewrite (gap_ring _ _ _ _ _ _ _ G), <- app_assoc; apply link_app; cbn [app link hd].
    rewrite (ptr_lookup _ _ _ gap_at_p), (ptr_lookup _ _ _ gap_at_bp), Ea; done.
  - cbn [freep s']; rewrite (gap_ring _ _ _ _ _ _ _ G); set_solver.
Qed.

(** The block before is free. *)
Lemma gap_joined g k :
  h1 = g ++ [Tile false k] -> P = ring g -> p = heap0 + total g * HDR -> size s p = k ->
  a = Hd (hd base Q) (k + n') ->
  heap_ok s' (g ++ Tile false (k + n') :: h2').
Proof.
  intros E EP Epp Hk Ea; pose proof gap_p as Hp; destruct gap_links as [HlP HlQ].
  pose proof (gap_n _ _ _ _ _ _ _ G); pose proof (gap_sizes _ _ _ _ _ _ _ G) as Hs1.
  rewrite E in Hs1; apply sizes_ok_mid in Hs1 as (Hsg & Hk0 & _); cbn [t_size] in Hk0.
  assert (Ebp : bp = p + k * HDR)
    by (subst bp; rewrite E, total_app; cbn [total t_size]; lia).
  assert (Eend : p + (k + n') * HDR = bp + n' * HDR) by lia.
  apply (heap_ok_build s s' h); rewrite <- ?Epp, ?Eend; fold Q; try apply G; try done.
  - apply sizes_ok_mid; split_and!; [done|cbn; lia|apply G].
  - apply spaced_app; split; [|apply G].
    apply (spaced_resize g k); rewrite <- E; apply G.
  - rewrite (gap_total _ _ _ _ _ _ _ G), E, !total_app; cbn [total t_size]; lia.
  - pose proof (gap_sized _ _ _ _ _ _ _ G) as Hz; rewrite E in Hz; by apply sized_app in Hz as [? _].
  - intros x Hx; assert (x <> p /\ x <> bp) as [? ?] by (unfold HDR in *; lia).
    rewrite gap_other by done; split; [by apply size_frame, gap_other|done].
  - by rewrite gap_at_p.
  - by rewrite (size_lookup _ _ _ gap_at_p), Ea.
  - rewrite <- EP; apply link_app; cbn [link hd].
    rewrite (ptr_lookup _ _ _ gap_at_p), Ea; done.
  - cbn [freep s']; set_solver.
Qed.
End gap.

Lemma free_ok s h1 n h2 :
  heap_ok s (h1 ++ Tile true n :: h2) ->
  exists s', free (heap0 + total h1 * HDR + HDR) s = Ret tt s' /\
    heap_ok s' (tidy (h1 ++ Tile false n :: h2)).
Proof.
  intros Hk; destruct (free_gap s h1 n h2 Hk) as (P & p & n' & h2' & G & Hfind & -> & Eb).
  pose proof (gap_p _ _ _ _ _ _ _ G); pose proof (gap_n _ _ _ _ _ _ _ G).
  pose proof (hk_total _ _ Hk) as Ht; rewrite (gap_total _ _ _ _ _ _ _ G) in Ht.
  pose proof (total_pos _ (gap_sizes _ _ _ _ _ _ _ G)).
  pose proof (total_pos _ (gap_sizes' _ _ _ _ _ _ _ G)).
  set (bp := heap0 + total h1 * HDR) in *.
  assert (0 <= size s p <= total h1) as Hsz.
  { apply ring_size; try apply G; rewrite (gap_ring _ _ _ _ _ _ _ G); set_solver. }
  assert (Hfree := free_headers s bp p Hfind); rewrite Eb in Hfree; cbn [s_size] in Hfree.
  destruct (left_part s h1 P p) as [[El Hh1]|(g & k & E & EP & Epp & Hk' & El)];
    try apply G; unfold after_left in Hfree; fold bp in El;
    rewrite El in Hfree; cbn [s_size s_ptr] in Hfree;
    (eexists; split; [apply Hfree; lia|]).
  - rewrite spaced_tidy; [by eapply gap_apart|].
    eapply hk_spaced, gap_apart; [exact G|reflexivity|done].
  - rewrite E, <- app_assoc; cbn [app]; rewrite tidy_merge, Hk'.
    rewrite spaced_tidy; [by eapply gap_joined|].
    by eapply hk_spaced, gap_joined.
Qed.

(** ** Growing the heap *)

Variable sbrk_fails : Z -> Z -> bool.
(** The kernel has less memory than this. *)
Hypothesis sbrk_max : forall b n, sbrk_fails b n = false -> b + n <= 2 ^ 36.

Lemma heap_grown s h k :
  heap_ok s h -> 0 < k -> m_brk s + k * HDR <= 2 ^ 36 ->
  heap_ok (Mst (<[m_brk s := Hd (ptr s (m_brk s)) k]> (m_hd s)) (freep s) (m_brk s + k * HDR))
    (h ++ [Tile true k]).
Proof.
  intros Hk Hk0 Hmax; pose proof (hk_sizes _ _ Hk) as Hs; pose proof (hk_brk _ _ Hk) as Hb.
  set (s' := Mst _ _ _).
  assert (Hother : forall x, x < m_brk s -> m_hd s' !! x = m_hd s !! x)
    by (intros; cbn; rewrite lookup_insert_ne by lia; done).
  assert (Er : ring (h ++ [Tile true k]) = ring h) by (rewrite ring_app; by apply app_nil_r).
  split; rewrite ?Er, ?total_app; cbn [total t_size].
  - apply sizes_ok_mid; split_and!; [done|done|constructor].
  - apply spaced_snoc_live, Hk.
  - cbn; lia.
  - unfold HDR in *; lia.
  - apply sized_app; cbn [sized t_size]; rewrite <- Hb; split_and!; try done.
    + eapply sized_frame; [done| |apply Hk]; intros x Hx.
      rewrite Hother by lia; split; [apply size_frame, Hother; lia|done].
    + cbn; by rewrite lookup_insert_eq.
    + apply hd_size_eq.
  - eapply link_frame; [|apply Hk]; intros x Hx%ring_below; [|done].
    apply ptr_frame, Hother; lia.
  - apply Hk.
  - assert (base < m_brk s) by (pose proof (total_pos _ Hs); unfold HDR in *; lia).
    rewrite Hother by done; split; [rewrite (size_frame s) by auto|]; apply Hk.
Qed.

Definition chunk (n : Z) : Z := Z.max 4096 n.

Lemma morecore_ok s h n :
  heap_ok s h -> chunk n * HDR < 2 ^ 31 ->
  if sbrk_fails (m_brk s) (chunk n * HDR)
  then morecore sbrk_fails n s = Ret 0 s
  else exists s', morecore sbrk_fails n s = Ret (freep s') s' /\
         heap_ok s' (tidy (h ++ [Tile false (chunk n)])).
Proof.
  intros Hk Hn; unfold morecore, sbrk.
  replace (if n <? 4096 then 4096 else n) with (chunk n) by (unfold chunk; case_if; zbool; lia).
  assert (4096 <= chunk n) by (unfold chunk; lia).
  pose proof (hk_brk _ _ Hk) as Hb; pose proof (total_pos _ (hk_sizes _ _ Hk)).
  kred; rewrite i32_small by (unfold HDR in *; lia).
  destruct (sbrk_fails (m_brk s) (chunk n * HDR)) eqn:E; [done|].
  apply sbrk_max in E; case_if; zbool; [unfold HDR in *; lia|].
  pose proof (heap_grown s h (chunk n) Hk) as Hg; cbn [m_hd freep m_brk] in *.
  destruct (free_ok _ _ _ _ (Hg ltac:(lia) E)) as (s' & Hf & Hk').
  exists s'; split; [|done]; unfold set_size, kmod; cbn [m_hd freep m_brk].
  rewrite u32_small by (unfold HDR in *; lia).
  unfold ptr, hd_at in *; cbn [m_hd] in *; rewrite <- Hb in Hf; by rewrite Hf.
Qed.
End heap.
