(* ===== verification/UmallocRefine.v ===== *)
(** * malloc, and the allocator as a whole

    [malloc] looks at every free block once before it asks the kernel for
    memory, and then finds one.  [allocator_refines] is the contract of user/umalloc.c
    for a program that allocates, frees what it has allocated, and writes
    into its blocks. *)

From stdpp Require Import sorting.
From S2P Require Import Prelude Umalloc UmallocHeap UmallocProofs.

Lemma frees_split a h x :
  x ∈ frees a h -> exists h1 m h2, h = h1 ++ Tile false m :: h2 /\ x = a + total h1 * HDR.
Proof.
  revert a; induction h as [|[b n] h IH]; intros a; cbn [frees t_live t_size];
    [by intros ?%elem_of_nil|].
  assert (Hrec : x ∈ frees (a + n * HDR) h ->
    exists h1 m h2, Tile b n :: h = h1 ++ Tile false m :: h2 /\ x = a + total h1 * HDR).
  { intros (h1 & m & h2 & -> & ->)%IH; exists (Tile b n :: h1), m, h2; cbn; split; [done|lia]. }
  destruct b; [done|]; intros [->|Hx]%elem_of_cons; [|auto].
  exists [], n, h; cbn; split; [done|lia].
Qed.

Lemma sized_fits s a h n :
  sized s a h -> Exists (fits n) h -> exists x, x ∈ frees a h /\ n <= size s x.
Proof.
  revert a; induction h as [|[b m] h IH]; intros a; cbn [sized frees t_live t_size];
    [by intros _ ?%Exists_nil|].
  intros (_ & H2 & H3) [[H4 H5]|(x & Hx & ?)%(IH _ H3)]%Exists_cons; cbn in *; simplify_eq/=.
  - exists a; split; [left|lia].
  - exists x; split; [|done]; destruct b; [done|by right].
Qed.

Lemma sized_flag s a h1 b b' n h2 :
  sized s a (h1 ++ Tile b n :: h2) -> sized s a (h1 ++ Tile b' n :: h2).
Proof. by rewrite !sized_app. Qed.

Lemma spaced_live h1 t h2 n : spaced (h1 ++ t :: h2) -> spaced (h1 ++ Tile true n :: h2).
Proof.
  intros [H1 [_ H2]]%spaced_app; apply spaced_app; split.
  - by apply spaced_snoc_live, (spaced_snoc_inv _ t).
  - split; [destruct h2; [done|by left]|done].
Qed.

Lemma tidy_fits h k :
  sizes_ok h -> Exists (fits k) (tidy (h ++ [Tile false k])).
Proof.
  induction 1 as [|[b m] h Hm _ IH]; cbn [app]; [by constructor|]; rewrite tidy_cons; cbn in Hm.
  destruct (tidy (h ++ [Tile false k])) as [|[[] n] g]; destruct b; cbn [glue];
    try (by right); try by apply Exists_nil in IH.
  apply Exists_cons in IH as [[_ IH]|IH]; [left; split; cbn in *; [done|lia]|by right].
Qed.

Section alloc.
Variables base heap0 : Z.
Hypothesis base_pos : 0 < base.
Hypothesis base_low : base + HDR <= heap0.
Variable sbrk_fails : Z -> Z -> bool.
Hypothesis sbrk_max : forall b n, sbrk_fails b n = false -> b + n <= 2 ^ 36.
Abbreviation ring := (ring base heap0).
Abbreviation heap_ok := (heap_ok base heap0).

(** ** Taking a block *)

Lemma take_exact s h1 n h2 P y :
  heap_ok s (h1 ++ Tile false n :: h2) -> ring h1 = P ++ [y] ->
  let p := heap0 + total h1 * HDR in
  heap_ok (Mst (<[y := Hd (ptr s p) (size s y)]> (m_hd s)) y (m_brk s))
    (h1 ++ Tile true n :: h2).
Proof.
  intros Hk Ey p; set (s' := Mst _ _ _).
  assert (Hsz : forall x, size s' x = size s x /\ (is_Some (m_hd s !! x) -> is_Some (m_hd s' !! x))).
  { intros x; destruct (decide (x = y)) as [->|].
    - subst s'; rewrite hd_size_eq; cbn; rewrite lookup_insert_eq; eauto.
    - subst s'; unfold size, hd_at; cbn; by rewrite lookup_insert_ne. }
  pose proof (hk_sizes _ _ _ _ Hk) as Hs; pose proof (ring_NoDup base heap0 base_low _ Hs) as Hnd.
  pose proof (hk_link _ _ _ _ Hk) as Hl.
  assert (Er : ring (h1 ++ Tile true n :: h2) = P ++ y :: frees (p + n * HDR) h2)
    by (by rewrite ring_app, Ey, <- app_assoc).
  rewrite ring_app, Ey, <- app_assoc in Hl, Hnd; cbn [frees t_live t_size app] in Hl, Hnd; fold p in Hl, Hnd.
  apply link_app in Hl as (HlP & Hly & Hlp & HlQ); apply NoDup_app in Hnd as (_ & Hnd & Hnd').
  destruct Hk as [Hk1 Hk2 Hk3 Hk4 Hk5 _ _ [Hk6 Hk7]]; split; rewrite ?Er.
  - by apply sizes_ok_mid in Hs; apply sizes_ok_mid.
  - by eapply spaced_live.
  - rewrite total_app in *; cbn in *; lia.
  - rewrite total_app in *; cbn in *; lia.
  - by apply (sized_flag _ _ _ false), (sized_frame s).
  - apply link_app; cbn [link hd]; split_and!.
    + eapply link_frame; [|exact HlP]; intros x Hx; apply ptr_frame; cbn.
      rewrite lookup_insert_ne; [done|]; intros ->; apply (Hnd x Hx); left.
    + subst s'; by rewrite hd_ptr_eq.
    + eapply link_frame; [|exact HlQ]; intros x Hx; apply ptr_frame; cbn.
      rewrite lookup_insert_ne; [done|]; intros ->; apply NoDup_cons in Hnd' as [Hnd' _].
      apply Hnd'; by right.
  - set_solver.
  - destruct (Hsz base) as [E1 E2]; split; [congruence|auto].
Qed.

(** What is written inside a block touches no header in use. *)
Lemma heap_inside s h1 t h2 x v :
  let p := heap0 + total h1 * HDR in
  heap_ok s (h1 ++ t :: h2) -> p < x < p + t_size t * HDR ->
  heap_ok (Mst (<[x := v]> (m_hd s)) (freep s) (m_brk s)) (h1 ++ t :: h2).
Proof.
  intros p Hk Hx; set (s' := Mst _ _ _).
  assert (Hother : forall y, y <> x -> m_hd s' !! y = m_hd s !! y)
    by (intros; cbn; by rewrite lookup_insert_ne).
  assert (Hfr : forall y, y <> x -> size s' y = size s y /\
                  (is_Some (m_hd s !! y) -> is_Some (m_hd s' !! y))).
  { intros y Hy; rewrite Hother by lia; split; [by apply size_frame, Hother|done]. }
  pose proof (hk_sizes _ _ _ _ Hk) as (Hs1 & Ht & Hs2)%sizes_ok_mid.
  assert (base < p) by (pose proof (total_pos _ Hs1); subst p; unfold HDR in *; lia).
  destruct Hk as [Hk1 Hk2 Hk3 Hk4 Hk5 Hk6 Hk7 [Hk8 Hk9]]; split; try done.
  - apply sized_app in Hk5 as [Hz1 (Hz2 & Hz3 & Hz4)]; fold p in Hz2, Hz3, Hz4.
    destruct (Hfr p) as [E1 E2]; [lia|].
    apply sized_app; cbn [sized]; fold p; split_and!; [|auto|congruence|].
    + eapply sized_frame; [done| |exact Hz1]; intros y Hy; apply Hfr; lia.
    + eapply sized_frame; [done| |exact Hz4]; intros y Hy; apply Hfr; lia.
  - eapply link_frame; [|exact Hk6]; intros y Hy; apply ptr_frame, Hother.
    rewrite ring_app in Hy; cbn [frees] in Hy; fold p in Hy.
    assert (y < p \/ y = p \/ p + t_size t * HDR <= y); [|lia].
    apply elem_of_app in Hy as [Hy%(ring_below base heap0 base_low)|Hy]; [lia|done|].
    destruct (t_live t); [|apply elem_of_cons in Hy as [->|Hy]; [lia|]];
      apply frees_bounds in Hy; try done; lia.
  - destruct (Hfr base) as [E1 E2]; [lia|]; split; [congruence|auto].
Qed.

Lemma take_split s h1 m n h2 y :
  heap_ok s (h1 ++ Tile false m :: h2) -> 0 < n < m -> y ∈ ring (h1 ++ Tile false m :: h2) ->
  let p := heap0 + total h1 * HDR in
  let q := p + (m - n) * HDR in
  heap_ok (Mst (<[q := Hd (ptr s q) n]> (<[p := Hd (ptr s p) (m - n)]> (m_hd s))) y (m_brk s))
    (h1 ++ Tile false (m - n) :: Tile true n :: h2).
Proof.
  intros Hk Hn Hy p q; assert (Hpq : p < q) by (subst q; unfold HDR; lia).
  assert (Ee : q + n * HDR = p + m * HDR) by (subst q; lia).
  pose proof (hk_sizes _ _ _ _ Hk) as (Hs1 & _ & Hs2)%sizes_ok_mid.
  pose proof (hk_spaced _ _ _ _ Hk) as [Hsp1 Hsp2]%spaced_app.
  apply (heap_inside _ _ _ _ q (Hd (ptr s q) n)) in Hk; [|fold p; cbn [t_size]; unfold HDR in *; lia].
  rewrite insert_insert_ne by lia.
  set (s1 := Mst _ _ _) in Hk; set (s' := Mst _ _ _).
  assert (Hq : m_hd s1 !! q = Some (Hd (ptr s q) n)) by (cbn; by rewrite lookup_insert_eq).
  pose proof (hk_sized _ _ _ _ Hk) as [Hz1 (_ & _ & Hz2)]%sized_app; fold p in Hz2.
  pose proof (hk_link _ _ _ _ Hk) as Hl.
  assert (Er : ring h1 ++ p :: frees q (Tile true n :: h2) = ring (h1 ++ Tile false m :: h2)).
  { rewrite ring_app; cbn [frees t_live t_size]; fold p; by rewrite Ee. }
  assert (Hptr : forall x, ptr s' x = ptr s1 x).
  { intros x; destruct (decide (x = p)) as [->|]; [subst s'; rewrite hd_ptr_eq|].
    - cbn; unfold ptr at 2, hd_at; cbn; by rewrite lookup_insert_ne by lia.
    - apply ptr_frame; cbn; by rewrite lookup_insert_ne. }
  apply (heap_ok_build base heap0 base_low s1 s' _ _ _ _ Hk); fold p q; rewrite ?Er; try done.
  - apply sizes_ok_mid; cbn; split_and!; [done|lia|constructor; [cbn; lia|done]].
  - apply spaced_app; split; [by apply (spaced_resize _ m)|].
    cbn in *; destruct h2; naive_solver.
  - rewrite !total_app; cbn; lia.
  - cbn [sized t_size]; rewrite Hq, (size_lookup _ _ _ Hq), Ee; done.
  - intros x Hx; assert (E : m_hd s' !! x = m_hd s1 !! x)
      by (cbn; rewrite lookup_insert_ne by lia; done).
    rewrite E; split; [by apply size_frame|done].
  - cbn; by rewrite lookup_insert_eq.
  - apply hd_size_eq.
  - apply (link_frame s1); [intros; apply Hptr|done].
Qed.

(** One turn of the loop at a block that is large enough. *)
Lemma take_ok s h n prevp p k :
  heap_ok s h -> p ∈ ring h -> prevp ∈ ring h -> ptr s prevp = p -> 0 < n <= size s p ->
  exists v s' h', malloc_loop sbrk_fails (S k) n prevp p s = Ret v s' /\
    heap_ok s' h' /\ alloc heap0 n (v - HDR) h h'.
Proof.
  intros Hk Hp Hy Hpy Hn; pose proof (hk_base _ _ _ _ Hk) as [Hb _].
  pose proof (hk_total _ _ _ _ Hk) as Ht; pose proof (hk_sizes _ _ _ _ Hk) as Hs.
  apply elem_of_cons in Hp as [->|(h1 & m & h2 & -> & Ep)%frees_split]; [lia|].
  pose proof (hk_sized _ _ _ _ Hk) as [_ (_ & Hm & _)]%sized_app; cbn [t_size] in Hm.
  rewrite <- Ep in Hm; rewrite Hm in Hn; rewrite total_app in Ht; cbn [total t_size] in Ht.
  apply sizes_ok_mid in Hs as (Hs1 & _ & Hs2); pose proof (total_pos _ Hs1); pose proof (total_pos _ Hs2).
  cbn [malloc_loop]; kred; rewrite Hm, (proj2 (Z.leb_le n m)) by lia.
  destruct (Z.eqb_spec m n) as [->|Hne]; unfold set_ptr, set_size, set_freep; kred;
    cbn [m_hd freep m_brk].
  - destruct (ring_last base heap0 h1) as (P & y & Ey).
    assert (prevp = y) as ->.
    { apply (link_inj s base (frees heap0 (h1 ++ Tile false n :: h2))); try done.
      - apply (ring_NoDup base heap0 base_low), Hk.
      - apply Hk.
      - change (y ∈ ring (h1 ++ Tile false n :: h2)); rewrite ring_app, Ey; set_solver.
      - pose proof (hk_link _ _ _ _ Hk) as Hl; rewrite ring_app, Ey, <- app_assoc in Hl.
        apply link_app in Hl as [_ [Hl _]]; rewrite Hl, Hpy; exact Ep. }
    do 2 eexists; exists (h1 ++ Tile true n :: h2); split_and!; [done| |].
    + rewrite Ep; by apply (take_exact _ _ _ _ P).
    + exists h1, n, h2; unfold carve; rewrite Z.eqb_refl; split_and!; try done; lia.
  - rewrite hd_size_eq; cbn [s_size]; rewrite !u32_small by lia.
    do 2 eexists; exists (h1 ++ Tile false (m - n) :: Tile true n :: h2); split_and!; [done| |].
    + rewrite (hd_ptr_ne _ _ p _ _ _ (freep s) (m_brk s)) by (unfold HDR; lia).
      destruct s; rewrite Ep in *; apply take_split; try done; lia.
    + exists h1, m, h2; unfold carve; rewrite (proj2 (Z.eqb_neq m n)) by done.
      split_and!; try done; lia.
Qed.

(** ** The loop *)

Lemma last_shift (a d : Z) l : List.last (a :: l) d = List.last l a.
Proof.
  revert a d; induction l as [|b l IH]; intros a d; [done|].
  change (List.last (b :: l) d = List.last (b :: l) a); by rewrite !IH.
Qed.

Lemma scan_skip l z n prevp k s :
  link s l z -> (forall a, a ∈ l -> size s a < n /\ a <> freep s) ->
  malloc_loop sbrk_fails (length l + k) n prevp (hd z l) s =
  malloc_loop sbrk_fails k n (List.last l prevp) z s.
Proof.
  revert prevp; induction l as [|a l IH]; intros prevp; [done|].
  intros [H1 H2] Hs; destruct (Hs a) as [Ha1 Ha2]; [left|].
  cbn [length Nat.add hd malloc_loop]; kred.
  rewrite (proj2 (Z.leb_gt n (size s a))), (proj2 (Z.eqb_neq a (freep s))), H1 by done.
  rewrite IH; [|done|intros x Hx; apply Hs; by right].
  by rewrite last_shift.
Qed.

Lemma first_fit s n l :
  (forall a, a ∈ l -> size s a < n) \/
  exists l1 p l2, l = l1 ++ p :: l2 /\ (forall a, a ∈ l1 -> size s a < n) /\ n <= size s p.
Proof.
  induction l as [|a l IH]; [left; intros ? ?%elem_of_nil; done|].
  destruct (Z.le_gt_cases n (size s a)) as [Ha|Ha].
  - right; exists [], a, l; split_and!; [done|intros ? ?%elem_of_nil; done|done].
  - destruct IH as [IH|(l1 & p & l2 & -> & H1 & H2)].
    + left; intros x [->|Hx]%elem_of_cons; auto.
    + right; exists (a :: l1), p, l2; split_and!; try done.
      intros x [->|Hx]%elem_of_cons; auto.
Qed.

Lemma last_elem (d : Z) l : List.last l d ∈ d :: l.
Proof.
  destruct (exists_last (l := d :: l)) as (l' & x & E); [done|].
  rewrite <- (last_shift d d), E, List.last_last; set_solver.
Qed.

Lemma link_last s f l z : link s (f :: l) z -> ptr s (List.last l f) = z.
Proof.
  revert f; induction l as [|a l IH]; intros f [H1 H2]; [done|].
  rewrite last_shift; by apply IH.
Qed.

(** Once around the ring, from [freep] to [freep]. *)
Lemma scan_ok s h n k :
  heap_ok s h -> 0 < n ->
  (exists v s' h',
     malloc_loop sbrk_fails (length (ring h) + k) n (freep s) (ptr s (freep s)) s = Ret v s' /\
     heap_ok s' h' /\ alloc heap0 n (v - HDR) h h') \/
  (forall a, a ∈ ring h -> size s a < n) /\
  exists prevp,
    malloc_loop sbrk_fails (length (ring h) + k) n (freep s) (ptr s (freep s)) s =
    malloc_loop sbrk_fails (S k) n prevp (freep s) s.
Proof.
  intros Hk Hn; pose proof (hk_freep _ _ _ _ Hk) as Hf.
  apply list_elem_of_split in Hf as (A & B & E); set (f := freep s) in *.
  pose proof (link_rotate _ _ _ _ _ _ (hk_link _ _ _ _ Hk) E) as [Hl1 Hl2].
  pose proof (ring_NoDup base heap0 base_low _ (hk_sizes _ _ _ _ Hk)) as Hnd.
  assert (HnC : f ∉ B ++ A).
  { rewrite E in Hnd; apply NoDup_app in Hnd as (_ & H1 & [H2 _]%NoDup_cons).
    intros [Hx|Hx]%elem_of_app; [done|]; apply (H1 f Hx); left. }
  assert (Hin : forall x, x ∈ f :: B ++ A <-> x ∈ ring h) by (rewrite E; set_solver).
  assert (Hlen : length (ring h) = S (length (B ++ A)))
    by (rewrite E, !length_app; cbn; lia).
  rewrite Hlen, Hl1; set (C := B ++ A) in *.
  destruct (first_fit s n C) as [Hsm|(l1 & p & l2 & EC & Hsm & Hp)].
  - replace (S (length C) + k)%nat with (length C + S k)%nat by lia.
    rewrite scan_skip; [|done|intros a Ha; split; [auto|intros ->; done]].
    destruct (Z.le_gt_cases n (size s f)) as [Hp|Hp].
    + left; apply take_ok; try done; [apply Hin; left|apply Hin, last_elem|].
      by apply link_last.
    + right; split; [|eauto]; intros a [->|Ha]%Hin%elem_of_cons; auto.
  - left; rewrite EC, length_app; cbn [length].
    replace (S (length l1 + S (length l2)) + k)%nat with (length l1 + S (S (length l2 + k)))%nat by lia.
    replace (hd f (l1 ++ p :: l2)) with (hd p l1) by (by destruct l1).
    rewrite EC in Hl1, Hl2, HnC; apply link_app in Hl2 as [Hl2 _].
    rewrite scan_skip; [|done|intros a Ha; split; [auto|intros ->; apply HnC; set_solver]].
    apply take_ok; try done; [apply Hin; rewrite EC; set_solver|apply Hin|].
    + pose proof (last_elem f l1); rewrite EC; set_solver.
    + apply link_last; split; [by destruct l1|done].
Qed.

(** ** malloc *)

Definition units (nbytes : Z) : Z := (nbytes + HDR - 1) / HDR + 1.

(** A program begins with an empty heap and [freep] 0. *)
Definition msim (s : mst) (h : heap) : Prop :=
  freep s = 0 /\ h = [] /\ m_brk s = heap0 \/ heap_ok s h.

(** A block of [h] is used if one is large enough.  Otherwise the kernel is
    asked for memory; if it has none, nothing changes. *)
Definition malloc_spec (brk n : Z) (h : heap) (v : Z) (h' : heap) : Prop :=
  alloc heap0 n (v - HDR) h h' \/
  Forall (fun t => ~ fits n t) h /\
  if sbrk_fails brk (chunk n * HDR) then v = 0 /\ h' = h
  else alloc heap0 n (v - HDR) (tidy (h ++ [Tile false (chunk n)])) h'.

Lemma no_fit s h n :
  heap_ok s h -> (forall a, a ∈ ring h -> size s a < n) -> Forall (fun t => ~ fits n t) h.
Proof.
  intros Hk Ha; apply Forall_Exists_neg; intros He.
  destruct (sized_fits _ _ _ _ (hk_sized _ _ _ _ Hk) He) as (x & Hx & Hn).
  assert (size s x < n) by (apply Ha; by right); lia.
Qed.

Lemma frees_length a b h : length (frees a h) = length (frees b h).
Proof.
  revert a b; induction h as [|[[] n] h IH]; intros a b; cbn [frees t_live t_size length];
    [done|apply IH|by f_equal; apply IH].
Qed.

Lemma frees_tidy a h : (length (frees a (tidy h)) <= length (frees a h))%nat.
Proof.
  revert a; induction h as [|[[] m] h IH]; intros a; [done| |]; rewrite tidy_cons;
    cbn [frees t_live t_size length].
  - apply IH.
  - specialize (IH (a + m * HDR)); destruct (tidy h) as [|[[] n] g];
      cbn [glue frees t_live t_size length] in *; [lia|lia|].
    rewrite (frees_length _ (a + m * HDR + n * HDR)); lia.
Qed.

Lemma loop_ok s h n k :
  heap_ok s h -> 0 < n -> chunk n * HDR < 2 ^ 31 ->
  (length (ring (tidy (h ++ [Tile false (chunk n)]))) <= k)%nat ->
  exists v s' h',
    malloc_loop sbrk_fails (length (ring h) + k) n (freep s) (ptr s (freep s)) s = Ret v s' /\
    heap_ok s' h' /\ malloc_spec (m_brk s) n h v h'.
Proof.
  intros Hk Hn Hmax Hfuel.
  destruct (scan_ok s h n k Hk Hn) as [(v & s' & h' & Hr & Hk' & Ha)|(Hsm & prevp & ->)].
  - exists v, s', h'; split_and!; [done|done|by left].
  - pose proof (morecore_ok base heap0 base_pos base_low sbrk_fails sbrk_max s h n Hk Hmax) as Hm.
    pose proof (no_fit _ _ _ Hk Hsm) as Hno; unfold malloc_spec.
    cbn [malloc_loop]; kred.
    rewrite (proj2 (Z.leb_gt n _)), Z.eqb_refl by (apply Hsm, Hk).
    destruct (sbrk_fails (m_brk s) (chunk n * HDR)).
    + exists 0, s, h; rewrite Hm; split_and!; try done; right; done.
    + destruct Hm as (s1 & -> & Hk1); set (h1 := tidy _) in *.
      assert (freep s1 <> 0) as Hf.
      { pose proof (hk_freep _ _ _ _ Hk1) as Hf%(ring_below base heap0 base_low); [lia|apply Hk1]. }
      rewrite (proj2 (Z.eqb_neq _ _) Hf).
      replace k with (length (ring h1) + (k - length (ring h1)))%nat by lia.
      destruct (scan_ok s1 h1 n (k - length (ring h1)) Hk1 Hn)
        as [(v & s' & h' & Hr & Hk' & Ha)|(Hsm1 & _)].
      * exists v, s', h'; split_and!; [done|done|by right].
      * exfalso; pose proof (no_fit _ _ _ Hk1 Hsm1) as Hno1.
        pose proof (tidy_fits h (chunk n) (hk_sizes _ _ _ _ Hk)) as He.
        apply Forall_Exists_neg in Hno1; apply Hno1; fold h1 in He.
        eapply Exists_impl; [exact He|]; intros x [Hx1 Hx2]; split; [done|unfold chunk in *; lia].
Qed.

Lemma heap_init m :
  heap_ok (Mst (<[base := Hd base 0]> m) base heap0) [].
Proof.
  split; cbn [total frees spaced sized]; try done; try (cbn; lia).
  - constructor.
  - split; [|done]; apply hd_ptr_eq.
  - left.
  - split; [apply hd_size_eq|cbn; by rewrite lookup_insert_eq].
Qed.

Lemma init_run s :
  (set_ptr base base >> set_freep base >> set_size base 0) s =
  Ret tt (Mst (<[base := Hd base 0]> (m_hd s)) base (m_brk s)).
Proof.
  unfold set_ptr, set_freep, set_size; kred; cbn [m_hd freep m_brk].
  by rewrite hd_ptr_eq, insert_insert_eq.
Qed.

Lemma malloc_ok s h nbytes :
  msim s h -> 0 <= nbytes <= 2 ^ 31 - 32 ->
  exists v s' h', malloc base sbrk_fails nbytes s = Ret v s' /\
    heap_ok s' h' /\ malloc_spec (m_brk s) (units nbytes) h v h'.
Proof.
  intros Hsim Hn.
  assert (0 < units nbytes /\ units nbytes * HDR <= nbytes + 31) as [Hu1 Hu2]
    by (unfold units, HDR; dlia).
  assert (chunk (units nbytes) * HDR < 2 ^ 31) by (unfold chunk, HDR in *; lia).
  assert (Hrun : forall s1, heap_ok s1 h -> m_brk s1 = m_brk s ->
    exists v s' h', malloc_loop sbrk_fails (turns s1 + turns s1 + 3) (units nbytes) (freep s1)
        (ptr s1 (freep s1)) s1 = Ret v s' /\
      heap_ok s' h' /\ malloc_spec (m_brk s) (units nbytes) h v h').
  { intros s1 Hk <-; pose proof (ring_turns base heap0 base_low _ _ Hk) as Ht.
    replace (turns s1 + turns s1 + 3)%nat
      with (length (ring h) + (turns s1 + turns s1 + 3 - length (ring h)))%nat by lia.
    apply loop_ok; try done; unfold UmallocProofs.ring in *; cbn [length] in *.
    pose proof (frees_tidy heap0 (h ++ [Tile false (chunk (units nbytes))])) as Hl.
    rewrite (frees_app heap0 h), length_app in Hl; cbn [frees t_live length] in Hl; lia. }
  unfold malloc; fold (units nbytes); rewrite u32_small by (unfold HDR in *; lia).
  rewrite (kbind_of kget _ s s s eq_refl).
  destruct Hsim as [(Hf & -> & Hb)|Hk].
  - rewrite Hf, Z.eqb_refl; cbn [kwhen]; rewrite (kbind_of _ _ _ _ _ (init_run s)), Hb.
    rewrite Hb in Hrun; exact (Hrun (Mst _ _ _) (heap_init _) eq_refl).
  - assert (freep s <> 0) as Hf.
    { pose proof (hk_freep _ _ _ _ Hk) as Hf%(ring_below base heap0 base_low); [lia|apply Hk]. }
    rewrite (proj2 (Z.eqb_neq _ _) Hf); by apply Hrun.
Qed.

(** ** The allocator *)

(** What a program does with its heap; [Store] writes 16 bytes of a block. *)
Inductive op := Malloc (nbytes : Z) | Free (ap : Z) | Store (x : Z) (v : header).

Definition run_op (o : op) : K mst Z :=
  match o with
  | Malloc nbytes => malloc base sbrk_fails nbytes
  | Free ap => free ap >> kret 0
  | Store x v => kmod (fun s => Mst (<[x := v]> (m_hd s)) (freep s) (m_brk s)) >> kret 0
  end.

(** A program frees what it has allocated, and writes to its blocks only. *)
Definition op_ok (h : heap) (o : op) : Prop :=
  match o with
  | Malloc nbytes => 0 <= nbytes <= 2 ^ 31 - 32
  | Free ap => exists n, live_at heap0 (ap - HDR) n h
  | Store x _ => exists a n, live_at heap0 a n h /\ a + HDR <= x < a + n * HDR
  end.

Definition op_spec (brk : Z) (o : op) (h : heap) (v : Z) (h' : heap) : Prop :=
  match o with
  | Malloc nbytes => malloc_spec brk (units nbytes) h v h'
  | Free ap => release heap0 (ap - HDR) h h'
  | Store _ _ => h' = h
  end.

(** C6: user/umalloc.c implements the heap of blocks: from a state that stands for a
    heap [h], an operation of the program returns (the loops of [malloc] and [free] end) in a
    state that stands for the heap the specification gives: [malloc] allocates a
    block of [h], only if none is large enough a block of memory of the kernel, and
    returns 0 only if there is none of either; [free] frees the block and joins it
    with its free neighbours; the blocks of the resulting heap do not overlap. *)
Theorem allocator_refines s h o :
  msim s h -> op_ok h o ->
  exists v s' h', run_op o s = Ret v s' /\ msim s' h' /\ op_spec (m_brk s) o h v h' /\
    forall a n b m, live_at heap0 a n h' -> live_at heap0 b m h' ->
      a = b /\ n = m \/ a + n * HDR <= b \/ b + m * HDR <= a.
Proof.
  intros Hsim Ho.
  enough (exists v s' h', run_op o s = Ret v s' /\ msim s' h' /\ op_spec (m_brk s) o h v h')
    as (v & s' & h' & H1 & H2 & H3).
  { exists v, s', h'; split_and!; try done; intros a n b m; apply live_disjoint.
    destruct H2 as [(_ & -> & _)|H2]; [constructor|apply H2]. }
  destruct o as [nbytes|ap|x w]; cbn [run_op op_ok op_spec] in *.
  - destruct (malloc_ok s h nbytes Hsim Ho) as (v & s' & h' & H1 & H2 & H3).
    exists v, s', h'; split_and!; [done|by right|done].
  - destruct Ho as (n & h1 & h2 & -> & Ea), Hsim as [(_ & E & _)|Hk]; [by destruct h1|].
    destruct (free_ok base heap0 base_pos base_low s h1 n h2 Hk) as (s' & Hf & Hk').
    replace (heap0 + total h1 * HDR + HDR) with ap in Hf by lia.
    exists 0, s'; eexists; split_and!; [unfold kbind; by rewrite Hf|by right|].
    exists h1, n, h2; done.
  - destruct Ho as (a & n & (h1 & h2 & -> & ->) & Hx), Hsim as [(_ & E & _)|Hk]; [by destruct h1|].
    exists 0; do 2 eexists; split_and!; [done| |done].
    right; apply heap_inside; [done|]; cbn [t_size]; unfold HDR in *; lia.
Qed.
End alloc.

(** A program with its [base] at 2048 and its heap at 4096, on a machine with 128 MB. *)
Definition s0 : mst := Mst ∅ 0 4096.
Definition small (b n : Z) : bool := 2 ^ 27 <? b + n.

Lemma allocator_refines_witness :
  exists v s' h', run_op 2048 small (Malloc 100) s0 = Ret v s' /\ msim 2048 4096 s' h' /\
    op_spec 4096 small 4096 (Malloc 100) [] v h' /\
    forall a n b m, live_at 4096 a n h' -> live_at 4096 b m h' ->
      a = b /\ n = m \/ a + n * HDR <= b \/ b + m * HDR <= a.
Proof.
  apply (allocator_refines 2048 4096); unfold HDR.
  - lia.
  - lia.
  - unfold small; intros b n H%Z.ltb_ge; lia.
  - by left.
  - cbn; lia.
Defined.

(** The argument of [sbrk] is an [int]: of 4 GB asked for, one header is
    allocated, and [malloc] returns it as a block of 4 GB. *)
Lemma malloc_truncates :
  exists s', malloc 2048 small (2 ^ 32 - 1) s0 = Ret (4096 + HDR) s' /\
    size s' 4096 = 2 ^ 28 + 1 /\ m_brk s' = 4096 + HDR.
Proof. eexists; vm_compute; done. Qed.
