(* ===== verification/UserProg.v ===== *)
(** * User programs as processes

    A user program is the tree of the system calls it makes, with a branch
    for each result.  The processes of a program share the pipes of the
    kernel and run in any order: a step lets one of them make its next call,
    unless that call has to wait.  Descriptors are given out lowest first,
    process ids and pipes by counters. *)

From S2P Require Import Prelude Pipe Printf.

Inductive prog :=
| Exit
| PipeCall (k : Z -> Z -> prog)
| Fork (k : Z -> prog)
| Read (fd n : Z) (k : bytes -> prog)
| Write (fd : Z) (b : bytes) (k : prog)
| Close (fd : Z) (k : prog)
| Wait (k : prog)
| Getpid (k : Z -> prog)
| Cut.                                    (* the bound of a loop: never runs *)

Inductive fobj := Console | PR (pipe : Z) | PW (pipe : Z).

#[export] Instance fobj_eq_dec : EqDecision fobj.
Proof. solve_decision. Defined.

Abbreviation ftab := (gmap Z fobj).

(** [None]: the process has called [exit] and nobody has waited for it. *)
Record proc := Pr { prg : option prog; fds : ftab; parent : Z }.

(** The pipes, by their contents, and what the console shows. *)
Record env := E { pipes : gmap Z bytes; nextpipe : Z; out : bytes }.

Record world := W { procs : gmap Z proc; w_env : env; nextpid : Z }.

(** [fdalloc] *)
Fixpoint lowest_from (n : nat) (F : ftab) (fd : Z) : Z :=
  match n with
  | O => fd
  | S n => match F !! fd with None => fd | Some _ => lowest_from n F (fd + 1) end
  end.
Definition lowest (F : ftab) : Z := lowest_from 16 F 0.

Definition holds (o : fobj) (F : ftab) : bool := negb (bool_decide (map_Forall (fun _ x => x <> o) F)).

(** A call of process [i] that concerns its descriptors only; [open o]: some process
    has [o] open.  [None]: the call has to wait (or is an error no program below makes). *)
Definition local (i : Z) (open : fobj -> bool) (m : prog) (F : ftab) (e : env) : option (prog * ftab * env) :=
  match m with
  | PipeCall k =>
      let id := nextpipe e in
      let p0 := lowest F in
      let F1 := <[p0 := PR id]> F in
      let p1 := lowest F1 in
      Some (k p0 p1, <[p1 := PW id]> F1, E (<[id := []]> (pipes e)) (id + 1) (out e))
  | Read fd n k =>
      match F !! fd with
      | Some (PR id) =>
          let buf := default [] (pipes e !! id) in
          match buf with
          | [] => if open (PW id) then None else Some (k [], F, e)
          | _ => Some (k (take (Z.to_nat n) buf), F,
                       E (<[id := drop (Z.to_nat n) buf]> (pipes e)) (nextpipe e) (out e))
          end
      | _ => None
      end
  | Write fd b k =>
      match F !! fd with
      | Some Console => Some (k, F, E (pipes e) (nextpipe e) (out e ++ b))
      | Some (PW id) =>
          if negb (open (PR id)) then Some (k, F, e) else
          let buf := default [] (pipes e !! id) in
          let room := (Z.to_nat PIPESIZE - length buf)%nat in
          let e' := E (<[id := buf ++ take room b]> (pipes e)) (nextpipe e) (out e) in
          match room, drop room b with
          | _, [] => Some (k, F, e')
          | O, _ => None
          | _, rest => Some (Write fd rest k, F, e')
          end
      | _ => Some (k, F, e)
      end
  | Close fd k => Some (k, delete fd F, e)
  | Getpid k => Some (k i, F, e)
  | _ => None
  end.

Definition opened (w : world) (o : fobj) : bool :=
  negb (bool_decide (map_Forall (fun _ p => holds o (fds p) = false) (procs w))).

Definition children (i : Z) (w : world) : list (Z * proc) :=
  filter (fun jp => parent jp.2 = i) (map_to_list (procs w)).
Definition zombies (i : Z) (w : world) : list (Z * proc) :=
  filter (fun jp => prg jp.2 = None) (children i w).

(** The children of a process that exits are given to init. *)
Definition reparent (i : Z) (p : proc) : proc :=
  if parent p =? i then Pr (prg p) (fds p) 1 else p.

(** Process [i] makes its next call. *)
Definition step (i : Z) (w : world) : option world :=
  match procs w !! i with
  | Some (Pr (Some m) F par) =>
      match m with
      | Fork k =>
          let j := nextpid w in
          Some (W (<[j := Pr (Some (k 0)) F i]> (<[i := Pr (Some (k j)) F par]> (procs w)))
                  (w_env w) (j + 1))
      | Wait k =>
          match zombies i w, children i w with
          | (j, _) :: _, _ => Some (W (<[i := Pr (Some k) F par]> (delete j (procs w))) (w_env w) (nextpid w))
          | [], [] => Some (W (<[i := Pr (Some k) F par]> (procs w)) (w_env w) (nextpid w))
          | [], _ => None
          end
      | Exit => Some (W (<[i := Pr None ∅ par]> (reparent i <$> procs w)) (w_env w) (nextpid w))
      | _ =>
          match local i (opened w) m F (w_env w) with
          | Some (m', F', e') => Some (W (<[i := Pr (Some m') F' par]> (procs w)) e' (nextpid w))
          | None => None
          end
      end
  | _ => None
  end.

Definition steps (w w' : world) : Prop := exists i, step i w = Some w'.

(** A program started by the shell. *)
Definition stdio : ftab := <[0 := Console]> (<[1 := Console]> {[2 := Console]}).
Definition start (m : prog) : world := W {[3 := Pr (Some m) stdio 2]} (E ∅ 0 []) 4.

(** The functions of user/printf.c write one character at a time. *)
Definition print (m : K User.out unit) (k : prog) : prog :=
  match m [] with
  | Ret _ o => foldr (fun fc k => Write fc.1 [fc.2] k) k o
  | _ => Cut
  end.
