(* ===== verification/UserSeq.v ===== *)
(** * Programs whose processes run one after the other

    A program that forks a child and waits for it, holding no end of a pipe the child
    could wait for, behaves the same under every schedule.  [sstep] runs
    only the youngest process; [seq_schedules] says that every execution
    of the processes follows it, cannot get stuck, and ends. *)

From stdpp Require Import functions.
From S2P Require Import Prelude UserProg.

Definition is_pw (o : fobj) : bool := match o with PW _ => true | _ => false end.
Definition no_writers (F : ftab) : bool := bool_decide (map_Forall (fun _ o => is_pw o = false) F).

(** A process that waits for its child: its id, what it does then, its descriptors then. *)
Definition frame : Type := Z * prog * ftab.

Record seqst := Q {
  q_frames : list frame; q_pid : Z; q_prog : prog; q_fds : ftab; q_env : env; q_next : Z
}.

Definition sstep (q : seqst) : option seqst :=
  let 'Q fr i m F e j := q in
  let loc :=
    match local i (fun o => holds o F) m F e with
    | Some (m', F', e') => Some (Q fr i m' F' e' j)
    | None => None
    end in
  match m with
  | Fork k =>
      match k j with
      | Close fd (Wait k') =>
          if no_writers F then Some (Q ((i, k', delete fd F) :: fr) j (k 0) F e (j + 1)) else None
      | _ => None
      end
  | Exit => match fr with (i', k', F') :: fr => Some (Q fr i' k' F' e j) | [] => None end
  | Wait _ | Cut => None
  | Write fd b k =>
      match F !! fd with
      | Some (PW id) => if holds (PR id) F then loc else None
      | _ => loc
      end
  | _ => loc
  end.

Definition final (q : seqst) : Prop := q_prog q = Exit /\ q_frames q = [].

Definition pid_of (f : frame) : Z := f.1.1.
Definition top (fr : list frame) : Z := match fr with [] => 2 | f :: _ => pid_of f end.

(** The waiting processes of a world; the number counts those that have yet to
    close a descriptor. *)
Inductive frames_ok (P : gmap Z proc) : list frame -> nat -> Prop :=
| fo_nil : frames_ok P [] 0
| fo_wait i k F fr c :
    P !! i = Some (Pr (Some (Wait k)) F (top fr)) -> no_writers F = true ->
    frames_ok P fr c -> frames_ok P ((i, k, F) :: fr) c
| fo_close i k F fd fr c :
    P !! i = Some (Pr (Some (Close fd (Wait k))) F (top fr)) -> no_writers F = true ->
    frames_ok P fr c -> frames_ok P ((i, k, delete fd F) :: fr) (S c).

(** The processes of a world are [l], all different, and ids are given out upwards. *)
Record pids_ok (w : world) (l : list Z) : Prop := {
  pk_dom : forall i p, procs w !! i = Some p -> i ∈ l;
  pk_nodup : NoDup l;
  pk_range : Forall (fun i => 2 < i < nextpid w) l
}.

Inductive follows (w : world) (q : seqst) : nat -> Prop :=
| fw_run c :
    procs w !! q_pid q = Some (Pr (Some (q_prog q)) (q_fds q) (top (q_frames q))) ->
    frames_ok (procs w) (q_frames q) c ->
    pids_ok w (q_pid q :: map pid_of (q_frames q)) ->
    w_env w = q_env q -> nextpid w = q_next q ->
    follows w q c
| fw_ret z c :        (* its child [z] has called exit *)
    procs w !! z = Some (Pr None ∅ (q_pid q)) ->
    frames_ok (procs w) ((q_pid q, q_prog q, q_fds q) :: q_frames q) c ->
    pids_ok w (z :: q_pid q :: map pid_of (q_frames q)) ->
    w_env w = q_env q -> nextpid w = q_next q ->
    follows w q (S c).

Definition done (w : world) (o : bytes) : Prop :=
  (forall i p, procs w !! i = Some p -> prg p = None) /\ out (w_env w) = o.

(** ** Descriptors of waiting processes *)

Lemma holds_spec o F : holds o F = true <-> exists fd, F !! fd = Some o.
Proof.
  unfold holds; rewrite negb_true_iff, bool_decide_eq_false; split.
  - intros H%map_not_Forall; [|apply _].
    destruct H as (fd & x & Hx & Hn); exists fd; rewrite Hx; f_equal; by apply dec_stable.
  - intros [fd Hfd] H; by apply (H fd o).
Qed.

Lemma no_writers_holds id F : no_writers F = true -> holds (PW id) F = false.
Proof.
  intros Hn%bool_decide_eq_true; apply not_true_is_false; rewrite holds_spec.
  intros [fd Hfd]; by apply (Hn fd) in Hfd.
Qed.

Lemma opened_spec w o : opened w o = true <-> exists i p, procs w !! i = Some p /\ holds o (fds p) = true.
Proof.
  unfold opened; rewrite negb_true_iff, bool_decide_eq_false; split.
  - intros (i & p & Hp & Hn)%map_not_Forall; [|apply _].
    exists i, p; split; [done|]; by apply not_false_iff_true.
  - intros (i & p & Hp & Ho) H; apply (H i p) in Hp; congruence.
Qed.

Lemma frames_no_writer P fr c i p id :
  frames_ok P fr c -> P !! i = Some p -> i ∈ map pid_of fr -> holds (PW id) (fds p) = false.
Proof.
  induction 1 as [|j k F fr c Hj Hn _ IH|j k F fd fr c Hj Hn _ IH]; intros Hp;
    [by intros ?%elem_of_nil|..]; intros [->|Hi]%elem_of_cons; auto;
    cbn in Hp; rewrite Hj in Hp; injection Hp as <-; by apply no_writers_holds.
Qed.

(** A waiting process has a child. *)
Lemma frames_child P fr c i :
  frames_ok P fr c -> (exists j p, P !! j = Some p /\ parent p = top fr) ->
  i ∈ map pid_of fr -> exists j p, P !! j = Some p /\ parent p = i.
Proof.
  induction 1 as [|j k F fr c Hj Hn _ IH|j k F fd fr c Hj Hn _ IH]; intros Hc;
    [by intros ?%elem_of_nil|..]; intros [->|Hi]%elem_of_cons; try done;
    apply IH; try done; by eexists _, _.
Qed.

Lemma top_in fr : top fr = 2 \/ top fr ∈ map pid_of fr.
Proof. destruct fr; [by left|right; left]. Qed.

Lemma frames_parent P fr c i p :
  frames_ok P fr c -> P !! i = Some p -> i ∈ map pid_of fr ->
  parent p = 2 \/ parent p ∈ map pid_of fr.
Proof.
  induction 1 as [|j k F fr c Hj Hn _ IH|j k F fd fr c Hj Hn _ IH]; intros Hp;
    [by intros ?%elem_of_nil|..]; intros [->|Hi]%elem_of_cons;
    try (destruct (IH Hp Hi); [by left|right; by right]);
    cbn in Hp; rewrite Hj in Hp; injection Hp as <-;
    (destruct (top_in fr); [by left|right; by right]).
Qed.

Lemma frames_frame P P' fr c :
  frames_ok P fr c -> (forall i, i ∈ map pid_of fr -> P' !! i = P !! i) -> frames_ok P' fr c.
Proof.
  induction 1; intros Hf; constructor; try done; try (rewrite Hf; [done|left]);
    apply IHframes_ok; intros; apply Hf; by right.
Qed.

(** ** Steps of waiting processes *)

Lemma elem_of_children i w j p : (j, p) ∈ children i w <-> procs w !! j = Some p /\ parent p = i.
Proof.
  unfold children; rewrite list_elem_of_filter, elem_of_map_to_list; cbn; naive_solver.
Qed.

Lemma elem_of_zombies i w j p :
  (j, p) ∈ zombies i w <-> procs w !! j = Some p /\ parent p = i /\ prg p = None.
Proof. unfold zombies; rewrite list_elem_of_filter, elem_of_children; cbn; naive_solver. Qed.

Definition no_zombie_of (i : Z) (w : world) : Prop :=
  forall j p, procs w !! j = Some p -> parent p = i -> prg p <> None.

(** A process that waits for a child that runs makes no step. *)
Lemma wait_blocks i w k F par :
  procs w !! i = Some (Pr (Some (Wait k)) F par) -> no_zombie_of i w ->
  (exists j p, procs w !! j = Some p /\ parent p = i) -> step i w = None.
Proof.
  intros Hi Hz (j & p & Hj & Hp); unfold step; rewrite Hi.
  destruct (zombies i w) as [|[z pz] l] eqn:Ez.
  - destruct (children i w) as [|x l] eqn:Ec; [|done].
    assert ((j, p) ∈ children i w) as H by (by apply elem_of_children).
    rewrite Ec in H; by apply elem_of_nil in H.
  - assert ((z, pz) ∈ zombies i w) as H by (rewrite Ez; left).
    apply elem_of_zombies in H as (H1 & H2 & H3); by apply (Hz z pz) in H1.
Qed.

Lemma close_steps i w fd k F par :
  procs w !! i = Some (Pr (Some (Close fd k)) F par) ->
  step i w = Some (W (<[i := Pr (Some k) (delete fd F) par]> (procs w)) (w_env w) (nextpid w)).
Proof. intros Hi; unfold step; by rewrite Hi. Qed.

Lemma no_writers_delete fd F : no_writers F = true -> no_writers (delete fd F) = true.
Proof.
  intros Hn%bool_decide_eq_true; apply bool_decide_eq_true.
  intros x o [_ Ho]%lookup_delete_Some; by apply (Hn x o).
Qed.

(** Any other one closes its descriptor. *)
Lemma frame_step w fr c i w' :
  frames_ok (procs w) fr c -> NoDup (map pid_of fr) -> i ∈ map pid_of fr ->
  (exists j p, procs w !! j = Some p /\ parent p = top fr) -> no_zombie_of i w ->
  step i w = Some w' ->
  exists c' p', c = S c' /\ frames_ok (procs w') fr c' /\
    w' = W (<[i := p']> (procs w)) (w_env w) (nextpid w).
Proof.
  intros Hf Hnd Hi Hc Hz Hs; induction Hf as [|j k F fr c Hj Hn Hf IH|j k F fd fr c Hj Hn Hf IH];
    [by apply elem_of_nil in Hi|..]; apply NoDup_cons in Hnd as [Hj' Hnd]; cbn in Hj';
    apply elem_of_cons in Hi as [->|Hi].
  - cbn in Hz, Hs, Hc; by rewrite (wait_blocks j w k F (top fr)) in Hs.
  - destruct (IH Hnd Hi) as (c' & p' & -> & Hf' & ->); [by eexists _, _|].
    exists c', p'; split_and!; try done; constructor; try done; cbn.
    rewrite lookup_insert_ne; [done|by intros ->].
  - cbn in Hs |- *; rewrite (close_steps _ _ _ _ _ _ Hj) in Hs; injection Hs as <-.
    exists c; eexists; split_and!; [done| |done]; constructor; [..|].
    + cbn; by rewrite lookup_insert_eq.
    + by apply no_writers_delete.
    + eapply frames_frame; [exact Hf|]; intros x Hx; cbn.
      rewrite lookup_insert_ne; [done|by intros ->].
  - destruct (IH Hnd Hi) as (c' & p' & -> & Hf' & ->); [by eexists _, _|].
    exists (S c'), p'; split_and!; try done; apply fo_close; try done; cbn.
    rewrite lookup_insert_ne; [done|by intros ->].
Qed.

(** ** Steps of the youngest process *)

Lemma local_open i open open' m F e :
  (forall id, open (PW id) = open' (PW id)) ->
  (forall fd b k id, m = Write fd b k -> F !! fd = Some (PW id) -> open (PR id) = open' (PR id)) ->
  local i open m F e = local i open' m F e.
Proof.
  intros H1 H2; destruct m; cbn [local]; try done.
  - destruct (F !! fd) as [[|id|id]|]; try done; by rewrite H1.
  - destruct (F !! fd) as [[|id|id]|] eqn:E; try done; by rewrite (H2 fd b m id).
Qed.

Section leaf.
Variables (w : world) (fr : list frame) (i : Z) (m : prog) (F : ftab) (e : env) (j : Z) (c : nat).
Hypothesis Hi : procs w !! i = Some (Pr (Some m) F (top fr)).
Hypothesis Hfr : frames_ok (procs w) fr c.
Hypothesis Hpk : pids_ok w (i :: map pid_of fr).
Hypothesis He : w_env w = e.
Hypothesis Hj : nextpid w = j.

Lemma leaf_writer id : opened w (PW id) = holds (PW id) F.
Proof.
  destruct (holds (PW id) F) eqn:E.
  - apply opened_spec; eexists _, _; split; [exact Hi|done].
  - apply not_true_is_false; rewrite opened_spec; intros (k & p & Hk & Ho).
    pose proof (pk_dom _ _ Hpk _ _ Hk) as [->|Hin]%elem_of_cons.
    + rewrite Hi in Hk; injection Hk as <-; cbn in Ho; congruence.
    + by rewrite (frames_no_writer _ _ _ _ _ _ Hfr Hk Hin) in Ho.
Qed.

Lemma leaf_reader id : holds (PR id) F = true -> opened w (PR id) = true.
Proof. intros; apply opened_spec; eexists _, _; split; [exact Hi|done]. Qed.

Lemma leaf_not_frame x : x ∈ map pid_of fr -> x <> i.
Proof. intros Hx ->; by pose proof (pk_nodup _ _ Hpk) as [? _]%NoDup_cons. Qed.

Lemma leaf_update m' F' e' :
  follows (W (<[i := Pr (Some m') F' (top fr)]> (procs w)) e' j) (Q fr i m' F' e' j) c.
Proof.
  apply fw_run; cbn; try done.
  - by rewrite lookup_insert_eq.
  - eapply frames_frame; [exact Hfr|]; intros x Hx%leaf_not_frame; by rewrite lookup_insert_ne.
  - destruct Hpk as [H1 H2 H3]; split; cbn; rewrite <- ?Hj; try done.
    intros x p [[<- _]|[_ Hx]]%lookup_insert_Some; [left|by apply (H1 x p)].
Qed.

(** A call on the descriptors is the same in the world. *)
Lemma leaf_local q' :
  (forall fd b k id, m = Write fd b k -> F !! fd = Some (PW id) -> holds (PR id) F = true) ->
  match local i (fun o => holds o F) m F e with
  | Some (m', F', e') => Some (Q fr i m' F' e' j)
  | None => None
  end = Some q' ->
  exists w', match local i (opened w) m F (w_env w) with
    | Some (m', F', e') => Some (W (<[i := Pr (Some m') F' (top fr)]> (procs w)) e' (nextpid w))
    | None => None
    end = Some w' /\ follows w' q' c.
Proof.
  intros Hw Hq; rewrite He, (local_open i (opened w) (fun o => holds o F)).
  - destruct (local _ _ m F e) as [[[m' F'] e']|]; [|done]; injection Hq as <-.
    eexists; split; [done|]; rewrite Hj; apply leaf_update.
  - apply leaf_writer.
  - intros fd b k id Em Hfd; rewrite (Hw fd b k id Em Hfd); by apply leaf_reader, (Hw fd b k).
Qed.

Lemma leaf_fork k fd k' :
  m = Fork k -> k j = Close fd (Wait k') -> no_writers F = true ->
  follows (W (<[j := Pr (Some (k 0)) F i]> (<[i := Pr (Some (k j)) F (top fr)]> (procs w))) e (j + 1))
    (Q ((i, k', delete fd F) :: fr) j (k 0) F e (j + 1)) (S c).
Proof.
  intros Em Ek Hn; pose proof (pk_range _ _ Hpk) as Hr; rewrite Forall_forall, Hj in Hr.
  assert (j <> i) by (assert (i < j) by (apply Hr; left); lia).
  apply fw_run; cbn; try done.
  - by rewrite lookup_insert_eq.
  - constructor; [|done|].
    + rewrite lookup_insert_ne by done; by rewrite lookup_insert_eq, Ek.
    + eapply frames_frame; [exact Hfr|]; intros x Hx.
      assert (x < j) by (apply Hr; by right); apply leaf_not_frame in Hx.
      by rewrite !lookup_insert_ne by lia.
  - destruct Hpk as [H1 H2 H3]; split; cbn.
    + intros x p [[<- _]|[_ [[<- _]|[_ Hx]]%lookup_insert_Some]]%lookup_insert_Some;
        [left|right; left|right; by apply (H1 x p)].
    + constructor; [|done]; intros Hx; specialize (Hr _ Hx); lia.
    + constructor; [split; [|lia]|].
      * assert (2 < i < j) by (apply Hr; left); lia.
      * apply Forall_forall; intros x Hx; specialize (Hr _ Hx); lia.
Qed.

(** It has no children. *)
Lemma leaf_childless x p : procs w !! x = Some p -> parent p <> i.
Proof.
  intros Hx E; pose proof (pk_range _ _ Hpk) as Hr; rewrite Forall_forall in Hr.
  assert (2 < i < nextpid w) by (apply Hr; left).
  assert (parent p = 2 \/ parent p ∈ map pid_of fr) as [|Hin%leaf_not_frame]; [|lia|done].
  pose proof (pk_dom _ _ Hpk _ _ Hx) as [->|Hin]%elem_of_cons.
  - rewrite Hi in Hx; injection Hx as <-; apply top_in.
  - by apply (frames_parent _ _ _ _ _ Hfr Hx).
Qed.

Lemma leaf_exit : m = Exit ->
  step i w = Some (W (<[i := Pr None ∅ (top fr)]> (procs w)) e j).
Proof.
  intros Em; unfold step; rewrite Hi, Em, He, Hj; do 3 f_equal.
  apply map_eq; intros x; rewrite lookup_fmap.
  destruct (procs w !! x) as [p|] eqn:Hx; [|done]; cbn; f_equal; unfold reparent.
  by rewrite (proj2 (Z.eqb_neq _ _) (leaf_childless x p Hx)).
Qed.

Lemma leaf_return i' k' F' fr' :
  fr = (i', k', F') :: fr' ->
  follows (W (<[i := Pr None ∅ (top fr)]> (procs w)) e j) (Q fr' i' k' F' e j) (S c).
Proof.
  intros Efr; apply (fw_ret _ _ i); cbn [procs w_env nextpid q_frames q_pid q_prog q_fds q_env q_next];
    try done.
  - by rewrite lookup_insert_eq, Efr.
  - rewrite <- Efr; eapply frames_frame; [exact Hfr|]; intros x Hx%leaf_not_frame.
    by rewrite lookup_insert_ne.
  - rewrite Efr in Hpk; destruct Hpk as [H1 H2 H3]; split; cbn; rewrite <- ?Hj; try done.
    intros x p [[<- _]|[_ Hx]]%lookup_insert_Some; [left|by apply (H1 x p)].
Qed.
End leaf.

(** Whatever [sstep] does, the youngest process does. *)
Lemma leaf_step w q q' c :
  procs w !! q_pid q = Some (Pr (Some (q_prog q)) (q_fds q) (top (q_frames q))) ->
  frames_ok (procs w) (q_frames q) c ->
  pids_ok w (q_pid q :: map pid_of (q_frames q)) ->
  w_env w = q_env q -> nextpid w = q_next q ->
  sstep q = Some q' ->
  exists w' c', step (q_pid q) w = Some w' /\ follows w' q' c' /\ (c' <= S c)%nat.
Proof.
  intros Hi Hfr Hpk He Hj Hq; destruct q as [fr i m F e j]; cbn in *.
  assert (Hloc := leaf_local w fr i m F e j c Hi Hfr Hpk He Hj q').
  destruct m as [|k|k|fd n k|fd b k|fd k|k|k|]; try done.
  - destruct fr as [|[[i' k'] F'] fr]; [done|]; injection Hq as <-.
    eexists _, (S c); split_and!; [by eapply leaf_exit| |lia].
    by eapply leaf_return.
  - destruct Hloc as (w' & E & Hf); [done|done|].
    exists w', c; split_and!; [unfold step; by rewrite Hi|done|lia].
  - destruct (k j) as [| | | | |fd k1| | |] eqn:Ek; try done; destruct k1; try done.
    destruct (no_writers F) eqn:Hn; [|done]; injection Hq as <-.
    eexists _, (S c); split_and!; [unfold step; rewrite Hi; done| |lia].
    rewrite He, Hj; by eapply leaf_fork.
  - destruct Hloc as (w' & E & Hf); [done|done|].
    exists w', c; split_and!; [unfold step; by rewrite Hi|done|lia].
  - destruct Hloc as (w' & E & Hf).
    + intros ? ? ? id [= <- <- <-] Hfd; rewrite Hfd in Hq; by destruct (holds (PR id) F).
    + destruct (F !! fd) as [[| |id]|]; try done; by destruct (holds (PR id) F).
    + exists w', c; split_and!; [unfold step; by rewrite Hi|done|lia].
  - destruct Hloc as (w' & E & Hf); [done|done|].
    exists w', c; split_and!; [unfold step; by rewrite Hi|done|lia].
  - destruct Hloc as (w' & E & Hf); [done|done|].
    exists w', c; split_and!; [unfold step; by rewrite Hi|done|lia].
Qed.

(** ** Every schedule *)

Lemma pids_update w l i p e : pids_ok w l -> i ∈ l -> pids_ok (W (<[i := p]> (procs w)) e (nextpid w)) l.
Proof.
  intros [H1 H2 H3] Hi; split; cbn; try done.
  intros x y [[<- _]|[_ Hx]]%lookup_insert_Some; [done|by apply (H1 x y)].
Qed.

Lemma frames_running P fr c i p :
  frames_ok P fr c -> P !! i = Some p -> i ∈ map pid_of fr -> prg p <> None.
Proof.
  induction 1 as [|j k F fr c Hj Hn _ IH|j k F fd fr c Hj Hn _ IH]; intros Hp;
    [by intros ?%elem_of_nil|..]; intros [->|Hi]%elem_of_cons; auto;
    cbn in Hp; rewrite Hj in Hp; by injection Hp as <-.
Qed.

(** The process whose child has exited takes it off, closing its descriptor first. *)
Lemma wait_returns w z i k F fr c :
  procs w !! z = Some (Pr None ∅ i) ->
  frames_ok (procs w) ((i, k, F) :: fr) c ->
  pids_ok w (z :: i :: map pid_of fr) ->
  exists w', step i w = Some w' /\
    forall q, q = Q fr i k F (w_env w) (nextpid w) -> follows w' q c.
Proof.
  intros Hz Hf Hpk; pose proof (pk_nodup _ _ Hpk) as [Hz' [Hi' Hnd]%NoDup_cons]%NoDup_cons.
  assert (z <> i) as Hzi by (intros ->; apply Hz'; left).
  assert (Hkeep : forall P, (forall x, x <> z -> x <> i -> P !! x = procs w !! x) ->
            forall c, frames_ok (procs w) fr c -> frames_ok P fr c).
  { intros P HP c' Hc'; eapply frames_frame; [exact Hc'|]; intros x Hx; apply HP; intros ->;
      [apply Hz'; by right|by apply Hi']. }
  inversion Hf as [|? ? ? ? ? Hi Hn Hfr|? ? F0 fd ? c0 Hi Hn Hfr]; subst.
  - destruct (zombies i w) as [|[y py] l] eqn:Ez.
    { assert ((z, Pr None ∅ i) ∈ zombies i w) as H by (by apply elem_of_zombies).
      rewrite Ez in H; by apply elem_of_nil in H. }
    assert ((y, py) ∈ zombies i w) as (Hy & _ & Hy')%elem_of_zombies by (rewrite Ez; left).
    assert (y = z) as ->.
    { pose proof (pk_dom _ _ Hpk _ _ Hy) as [?|Hin]%elem_of_cons; [done|].
      exfalso; by apply (frames_running _ _ _ _ _ Hf Hy). }
    eexists; split; [unfold step; rewrite Hi, Ez; done|]; intros q ->.
    apply fw_run; cbn; try done.
    + by rewrite lookup_insert_eq.
    + apply Hkeep; [|done]; intros x H1 H2; rewrite lookup_insert_ne by done; by rewrite lookup_delete_ne.
    + destruct Hpk as [H1 H2 H3]; apply NoDup_cons in H2 as [_ H2]; apply Forall_cons in H3 as [_ H3].
      split; cbn; try done.
      intros x p [[<- _]|[_ [Hx1 Hx]%lookup_delete_Some]]%lookup_insert_Some; [left|].
      apply H1 in Hx as [->|Hx]%elem_of_cons; [done|by apply Hx].
  - eexists; split; [by apply close_steps|]; intros q ->.
    eapply (fw_ret _ _ z); cbn; try done.
    + by rewrite lookup_insert_ne.
    + apply fo_wait; [by rewrite lookup_insert_eq|by apply no_writers_delete|].
      apply Hkeep; [|done]; intros x H1 H2; by rewrite lookup_insert_ne.
    + apply pids_update; [done|]; right; left.
Qed.

Definition alive (q : seqst) : Prop := is_Some (sstep q) \/ final q.

(** The world can make a step as long as [sstep] can. *)
Lemma follows_progress w q c : follows w q c -> alive q -> exists w', steps w w'.
Proof.
  intros [c' Hi Hf Hpk He Hj|z c' Hz Hf Hpk He Hj] Ha.
  - destruct Ha as [[q' Hq]|[Em Efr]].
    + destruct (leaf_step w q q' c') as (w' & c1 & Hs & _); try done; by exists w', (q_pid q).
    + eexists; exists (q_pid q); eapply leaf_exit; by rewrite ?Em in *.
  - destruct (wait_returns _ _ _ _ _ _ _ Hz Hf Hpk) as (w' & Hs & _); by exists w', (q_pid q).
Qed.

Lemma step_runs i w w' : step i w = Some w' -> exists m F par, procs w !! i = Some (Pr (Some m) F par).
Proof. unfold step; destruct (procs w !! i) as [[[m|] F par]|]; naive_solver. Qed.

(** What a step of the world is for [sstep]: one of its steps, nothing, or the end. *)
Definition after (w' : world) (q : seqst) (c : nat) : Prop :=
  (exists q' c', sstep q = Some q' /\ follows w' q' c' /\ (c' <= S c)%nat) \/
  (exists c', c = S c' /\ follows w' q c') \/
  final q /\ done w' (out (q_env q)).

Lemma run_step w q c i w' :
  procs w !! q_pid q = Some (Pr (Some (q_prog q)) (q_fds q) (top (q_frames q))) ->
  frames_ok (procs w) (q_frames q) c -> pids_ok w (q_pid q :: map pid_of (q_frames q)) ->
  w_env w = q_env q -> nextpid w = q_next q -> alive q -> step i w = Some w' -> after w' q c.
Proof.
  intros Hi Hf Hpk He Hj Ha Hs; destruct (step_runs _ _ _ Hs) as (m & F & par & Hp).
  pose proof (pk_dom _ _ Hpk _ _ Hp) as [->|Hin]%elem_of_cons.
  - destruct Ha as [[q' Hq]|[Em Efr]].
    + left; destruct (leaf_step w q q' c) as (w1 & c1 & Hs1 & ?); try done.
      rewrite Hs in Hs1; injection Hs1 as <-; eauto.
    + right; right; split; [done|].
      erewrite leaf_exit in Hs by eauto.
      injection Hs as <-; split; cbn; [|done].
      intros x y [[<- <-]|[Hne Hx]]%lookup_insert_Some; [done|].
      rewrite Efr in Hpk; apply (pk_dom _ _ Hpk) in Hx as [->|?%elem_of_nil]%elem_of_cons; done.
  - right; left.
    destruct (frame_step w (q_frames q) c i w') as (c' & p' & -> & Hf' & ->); try done.
    + by pose proof (pk_nodup _ _ Hpk) as [_ ?]%NoDup_cons.
    + eexists _, _; split; [exact Hi|done].
    + intros x y Hx _; pose proof (pk_dom _ _ Hpk _ _ Hx) as [->|Hin']%elem_of_cons.
      * rewrite Hi in Hx; by injection Hx as <-.
      * by apply (frames_running _ _ _ _ _ Hf Hx).
    + exists c'; split; [done|]; apply fw_run; cbn; try done.
      * rewrite lookup_insert_ne; [done|]; by apply (leaf_not_frame w (q_frames q) (q_pid q)).
      * apply pids_update; [done|by right].
Qed.

Lemma ret_step w q z c i w' :
  procs w !! z = Some (Pr None ∅ (q_pid q)) ->
  frames_ok (procs w) ((q_pid q, q_prog q, q_fds q) :: q_frames q) c ->
  pids_ok w (z :: q_pid q :: map pid_of (q_frames q)) ->
  w_env w = q_env q -> nextpid w = q_next q -> step i w = Some w' -> after w' q (S c).
Proof.
  intros Hz Hf Hpk He Hj Hs; right; left; destruct (step_runs _ _ _ Hs) as (m & F & par & Hp).
  pose proof (pk_nodup _ _ Hpk) as [Hz' Hnd]%NoDup_cons.
  pose proof (pk_dom _ _ Hpk _ _ Hp) as [->|[->|Hin]%elem_of_cons]%elem_of_cons; [congruence|..].
  - destruct (wait_returns _ _ _ _ _ _ _ Hz Hf Hpk) as (w1 & Hs1 & Hf1).
    rewrite Hs in Hs1; injection Hs1 as <-; exists c; split; [done|].
    apply Hf1; rewrite He, Hj; by destruct q.
  - apply NoDup_cons in Hnd as Hnd'; destruct Hnd' as [Hi' _].
    destruct (frame_step w ((q_pid q, q_prog q, q_fds q) :: q_frames q) c i w')
      as (c' & p' & -> & Hf' & ->); try done.
    + by right.
    + eexists _, _; split; [exact Hz|done].
    + intros x y Hx Hy; pose proof (pk_dom _ _ Hpk _ _ Hx) as [->|Hin']%elem_of_cons.
      * rewrite Hz in Hx; injection Hx as <-; cbn in Hy; by subst i.
      * by apply (frames_running _ _ _ _ _ Hf Hx).
    + exists (S c'); split; [done|]; apply (fw_ret _ _ z); cbn; try done.
      * rewrite lookup_insert_ne; [done|]; intros ->; apply Hz'; by right.
      * apply pids_update; [done|by right; right].
Qed.

Lemma follows_step w q c i w' : follows w q c -> alive q -> step i w = Some w' -> after w' q c.
Proof. intros [] ? ?; [by eapply run_step|by eapply ret_step]. Qed.

(** [n] steps of [sstep] that end in [qf]. *)
Fixpoint sruns (n : nat) (q : seqst) : option seqst :=
  match n with O => Some q | S n => match sstep q with Some q => sruns n q | None => None end end.

Definition qstart (m : prog) : seqst := Q [] 3 m stdio (E ∅ 0 []) 4.

Lemma start_follows m : follows (start m) (qstart m) 0.
Proof.
  apply fw_run; cbn; try done; [constructor|].
  split; cbn.
  - intros i p [<- _]%lookup_singleton_Some; left.
  - apply NoDup_singleton.
  - repeat constructor; lia.
Qed.

Lemma sruns_S n q : sruns (S n) q = match sruns n q with Some q' => sstep q' | None => None end.
Proof.
  revert q; induction n as [|n IH]; intros q; [cbn; by destruct (sstep q)|].
  cbn [sruns] in *; destruct (sstep q); [apply IH|done].
Qed.

Lemma sruns_prefix a b q qf : sruns (a + b) q = Some qf -> is_Some (sruns a q).
Proof.
  revert q; induction a as [|a IH]; intros q; cbn [sruns Nat.add]; [eauto|].
  destruct (sstep q); [apply IH|done].
Qed.

Section schedules.
Variables (m : prog) (n : nat) (qf : seqst).
Hypothesis Hrun : sruns n (qstart m) = Some qf.
Hypothesis Hfin : final qf.

Lemma sruns_more k : (k < n)%nat -> is_Some (sruns (S k) (qstart m)).
Proof.
  intros Hk; replace n with (S k + (n - S k))%nat in Hrun by lia.
  by eapply sruns_prefix.
Qed.

Lemma sruns_alive k q : (k <= n)%nat -> sruns k (qstart m) = Some q -> alive q.
Proof.
  intros Hk Hq; destruct (decide (k = n)) as [->|]; [right; congruence|].
  left; assert (is_Some (sruns (S k) (qstart m))) as Hs by (apply sruns_more; lia).
  by rewrite sruns_S, Hq in Hs.
Qed.

Lemma final_stops q : final q -> sstep q = None.
Proof. destruct q; intros [E1 E2]; cbn in *; by subst. Qed.

(** Where an execution is after [t] steps. *)
Lemma seq_reach t w :
  nsteps steps t (start m) w ->
  (exists k q c, (k <= n)%nat /\ sruns k (qstart m) = Some q /\ follows w q c /\ (t + c <= 2 * k)%nat) \/
  (done w (out (q_env qf)) /\ (t <= 2 * n + 1)%nat).
Proof.
  revert w; induction t as [|t IH]; intros w Ht.
  - inversion Ht; subst; left; exists 0%nat, (qstart m), 0%nat; split_and!; [lia|done|apply start_follows|lia].
  - replace (S t) with (t + 1)%nat in Ht by lia.
    apply nsteps_add_inv in Ht as (w1 & Ht & [i Hs]%nsteps_once_inv).
    destruct (IH w1 Ht) as [(k & q & c & Hk & Hq & Hf & Hc)|[[Hd _] _]].
    + destruct (follows_step _ _ _ _ _ Hf (sruns_alive k q Hk Hq) Hs)
        as [(q' & c' & Hq' & Hf' & Hc')|[(c' & -> & Hf')|[Hfq Hd]]].
      * left; exists (S k), q', c'; split_and!; [|by rewrite sruns_S, Hq|done|lia].
        destruct (decide (k = n)) as [->|]; [|lia].
        rewrite Hrun in Hq; injection Hq as <-; by rewrite final_stops in Hq'.
      * left; exists k, q, c'; split_and!; try done; lia.
      * right; split; [|lia]; assert (k = n) as ->; [|congruence].
        destruct (decide (k = n)) as [|Hne]; [done|exfalso].
        destruct (sruns_more k) as [q' Hq']; [lia|].
        by rewrite sruns_S, Hq, final_stops in Hq'.
    + destruct (step_runs _ _ _ Hs) as (m' & F & par & Hp); by apply Hd in Hp.
Qed.

(** Every execution has at most [2 * n + 1] steps, and as long as processes are left
    one of them can make a step. *)
Lemma seq_schedules t w :
  nsteps steps t (start m) w ->
  (t <= 2 * n + 1)%nat /\ ((exists w', steps w w') \/ done w (out (q_env qf))).
Proof.
  intros [(k & q & c & Hk & Hq & Hf & Hc)|[Hd Ht]]%seq_reach.
  - split; [lia|left]; eapply follows_progress; [exact Hf|by eapply sruns_alive].
  - split; [done|by right].
Qed.
End schedules.

(** Run one process at a time, the program ends after [n] steps and has printed [o]. *)
Definition prints (n : nat) (m : prog) (o : bytes) : Prop :=
  match sruns n (qstart m) with
  | Some q => q_prog q = Exit /\ q_frames q = [] /\ out (q_env q) = o
  | None => False
  end.

Lemma prints_schedules n m o t w :
  prints n m o -> nsteps steps t (start m) w ->
  (t <= 2 * n + 1)%nat /\ ((exists w', steps w w') \/ done w o).
Proof.
  unfold prints; destruct (sruns n (qstart m)) as [q|] eqn:E; [|done].
  intros (H1 & H2 & <-); apply (seq_schedules m n q E); by split.
Qed.
