(* ===== verification/Primes.v ===== *)
(** * user/primes.c: a prime sieve out of processes and pipes *)

From S2P Require Import Prelude Pipe Printf UserProg UserSeq.

(** An [int] in memory. *)
Definition int_bytes (x : Z) : bytes := [u8 x; u8 (x / 2 ^ 8); u8 (x / 2 ^ 16); u8 (x / 2 ^ 24)].
Definition int_of (b : bytes) : Z :=
  i32 (nthZ 0 b 0 + nthZ 0 b 1 * 2 ^ 8 + nthZ 0 b 2 * 2 ^ 16 + nthZ 0 b 3 * 2 ^ 24).

(** [read(fd, &x, sizeof(int))]: [None] at the end of the file.  A part of an
    [int] would leave the rest of [x] as it was. *)
Definition read_int (fd : Z) (k : option Z -> prog) : prog :=
  Read fd 4 (fun b =>
    if (length b =? 0)%nat then k None
    else if (length b =? 4)%nat then k (Some (int_of b)) else Cut).

(** 34 numbers: a bound for the loop and for the depth of the recursion. *)
Definition LIMIT : nat := 35.

(** [while(read(...) != 0) if (tmp % cur != 0) write(...)] *)
Fixpoint filter_loop (n : nat) (p0 p1 cur : Z) (k : prog) : prog :=
  match n with
  | O => Cut
  | S n => read_int p0 (fun x =>
      match x with
      | None => k
      | Some tmp =>
          if negb (Z.rem tmp cur =? 0) then Write p1 (int_bytes tmp) (filter_loop n p0 p1 cur k)
          else filter_loop n p0 p1 cur k
      end)
  end.

(** [k]: what the caller does after [readleft]; the child that finds the
    pipe empty returns, too. *)
Fixpoint readleft (n : nat) (p0 : Z) (k : prog) : prog :=
  match n with
  | O => Cut
  | S n => Fork (fun pid =>
      if pid =? 0 then
        read_int p0 (fun x =>
          match x with
          | None => k
          | Some cur =>
              print (User.printf (cstr "prime %d" ++ [10]) [VInt cur])
              (PipeCall (fun q0 q1 =>
                 filter_loop LIMIT p0 q1 cur
                 (Close p0 (Close q1
                 (readleft n q0 (Close q0 Exit))))))
          end)
      else Close p0 (Wait k))
  end.

(** [for (int i = 2; i <= 35; i++) write(p[1], &i, sizeof(int));] *)
Fixpoint write_loop (n : nat) (i p1 : Z) (k : prog) : prog :=
  match n with
  | O => Cut
  | S n => if i <=? 35 then Write p1 (int_bytes i) (write_loop n (i + 1) p1 k) else k
  end.

Definition main : prog :=
  PipeCall (fun p0 p1 =>
    write_loop LIMIT 2 p1
    (Close p1
    (readleft LIMIT p0 Exit))).

(** ** The primes *)

Definition is_prime (p : Z) : bool :=
  forallb (fun d => negb (p mod d =? 0)) (seqZ 2 (p - 2)).

Definition primes_upto (n : Z) : list Z := List.filter is_prime (seqZ 2 (n - 1)).

Definition line (p : Z) : bytes :=
  cstr "prime " ++ (if p <? 10 then [48 + p] else [48 + p / 10; 48 + p mod 10]) ++ [10].

Definition text : bytes := concat (map line (primes_upto 35)).

Lemma primes_run : prints 374 main text.
Proof. vm_compute; done. Qed.

(** C7: however the processes of primes.c are scheduled, they never wait for each other in
    vain: after any number of steps some process can make the next one, or all
    have exited and the primes up to 35 have been printed, one per line, in order; an
    execution has at most 749 steps. *)
Theorem primes_correct t w :
  nsteps steps t (start main) w ->
  (t <= 749)%nat /\ ((exists w', steps w w') \/ done w text).
Proof. exact (prints_schedules 374 main text t w primes_run). Qed.

(** The first two calls: pipe, and the first number. *)
Lemma primes_correct_witness :
  exists w, nsteps steps 2 (start main) w /\ ((exists w', steps w w') \/ done w text).
Proof.
  assert (exists w, nsteps steps 2 (start main) w) as [w Hw].
  { eexists; eapply nsteps_l; [by exists 3|]; eapply nsteps_l; [by exists 3|constructor]. }
  exists w; split; [exact Hw|exact (proj2 (primes_correct 2 w Hw))].
Defined.
