(* ===== verification/Pingpong.v ===== *)
(** * user/pingpong.c: a byte there and back

    Here both processes run at the same time; [explore] follows every
    schedule. *)

From stdpp Require Import functions.
From S2P Require Import Prelude Pipe Printf UserProg UserSeq.

Definition main : prog :=
  PipeCall (fun p1_0 p1_1 =>
  PipeCall (fun p2_0 p2_1 =>
  Fork (fun pid =>
    if pid =? 0 then
      Close p2_1 (Close p1_0
      (Read p2_0 1 (fun _ =>
      Getpid (fun me =>
      print (User.printf (cstr "%d: received ping" ++ [10]) [VInt me])
      (Write p1_1 (cstr "o")
      (Close p2_0 (Close p1_1 Exit)))))))
    else
      Close p1_1 (Close p2_0
      (Write p2_1 (cstr "i")
      (Read p1_0 1 (fun _ =>
      Getpid (fun me =>
      print (User.printf (cstr "%d: received pong" ++ [10]) [VInt me])
      (Close p1_0 (Close p2_1 Exit)))))))))).

(** The worlds one step further. *)
Definition nexts (w : world) : list world := omap (fun i => step i w) (map fst (map_to_list (procs w))).

(** Every execution from [w] ends within [n] steps, in a world that satisfies [P]. *)
Fixpoint explore (n : nat) (P : world -> bool) (w : world) : bool :=
  match nexts w, n with
  | [], _ => P w
  | _, O => false
  | l, S n => forallb (explore n P) l
  end.

Lemma elem_of_nexts w w' : w' ∈ nexts w <-> steps w w'.
Proof.
  unfold nexts, steps; rewrite list_elem_of_omap; split.
  - intros (i & _ & Hi); eauto.
  - intros [i Hi]; exists i; split; [|done].
    destruct (step_runs _ _ _ Hi) as (m & F & par & Hp).
    apply list_elem_of_fmap; eexists (_, _); split; [|by apply elem_of_map_to_list]; done.
Qed.

Lemma explore_sound n P : forall w t w', explore n P w = true -> nsteps steps t w w' ->
  (t <= n)%nat /\ ((exists w'', steps w' w'') \/ P w' = true).
Proof.
  induction n as [|n IH]; intros w t w' He Ht; cbn [explore] in He;
    destruct (nexts w) as [|x l] eqn:E; try done.
  1, 2: inversion Ht as [|? ? y ? Hs]; subst; [split; [lia|by right]|];
    apply elem_of_nexts in Hs; rewrite E in Hs; by apply elem_of_nil in Hs.
  inversion Ht as [|t' ? y ? Hs Ht']; subst.
  - split; [lia|left]; exists x; apply elem_of_nexts; rewrite E; left.
  - apply elem_of_nexts in Hs; rewrite E in Hs.
    rewrite forallb_forall in He; apply list_elem_of_In, He in Hs.
    destruct (IH _ _ _ Hs Ht'); split; [lia|done].
Qed.

Definition text : bytes := cstr "4: received ping" ++ [10] ++ cstr "3: received pong" ++ [10].

Definition donep (o : bytes) (w : world) : bool :=
  (forallb (fun ip => match prg ip.2 with None => true | _ => false end) (map_to_list (procs w))
   && bool_decide (out (w_env w) = o))%bool.

Lemma donep_done o w : donep o w = true -> done w o.
Proof.
  intros [H1 H2%bool_decide_eq_true]%andb_true_iff; split; [|done].
  intros i p Hp%elem_of_map_to_list; rewrite forallb_forall in H1.
  apply list_elem_of_In, H1 in Hp; cbn in Hp; by destruct (prg p).
Qed.

Lemma pingpong_explored : explore 60 (donep text) (start main) = true.
Proof. vm_compute; reflexivity. Qed.

(** Under every schedule both processes exit, and the child's line comes first. *)
Theorem pingpong_correct t w :
  nsteps steps t (start main) w ->
  (t <= 60)%nat /\ ((exists w', steps w w') \/ done w text).
Proof.
  intros Ht; destruct (explore_sound 60 (donep text) _ t w pingpong_explored Ht) as [H1 H2].
  split; [done|]; destruct H2; [by left|right; by apply donep_done].
Qed.
