(* ===== verification/Find.v ===== *)
(** * user/find.c: the files with a name below a directory

    A string is its bytes up to the NUL.  The file system, which does not change
    meanwhile, is a parameter: what a path names, and the entries of a
    directory.  [n] counts the descriptors that are open: a process has NOFILE, and
    each level of the recursion holds one. *)

From S2P Require Import Prelude Riscv Fs Printf.

Definition nl : bytes := [10].
Definition slash : Z := 47.

Record dirent := De { inum : Z; name : bytes }.   (* 14 bytes *)
Record inode := In { type : Z; entries : list dirent }.

Section find.
Variable fs : bytes -> option inode.
Variable target : bytes.
Abbreviation M := (K User.out).

(** [open] and [fstat]; [None]: -1.  [stat] opens the file, too. *)
Definition open (n : Z) (path : bytes) : option inode := if n <? NOFILE then fs path else None.

(** The bytes before the first NUL. *)
Fixpoint until_nul (b : bytes) : bytes :=
  match b with [] => [] | c :: b => if c =? 0 then [] else c :: until_nul b end.

(** [while (p1 >= path && *p1 != '/') p1--; filename = ++p1;] *)
Fixpoint filename_loop (path : bytes) (p1 : nat) : nat :=
  match p1 with
  | O => O
  | S p => if nthZ 0 path (Z.of_nat p) =? slash then p1 else filename_loop path p
  end.
Definition filename (path : bytes) : bytes := drop (filename_loop path (length path)) path.

Definition println (fmt path : bytes) : M unit := User.printf (fmt ++ nl) [VStr (Some path)].

(** The loop over a directory; [p] is the path in [buf] with its slash, [rec]
    is [find] itself. *)
Fixpoint read_loop (rec : bytes -> M unit) (n : Z) (p : bytes) (l : list dirent) : M unit :=
  match l with
  | [] => kret tt
  | de :: l =>
      if inum de =? 0 then read_loop rec n p l else
      let nm := until_nul (take (Z.to_nat DIRSIZ) (name de)) in
      if (bool_decide (nm = cstr ".") || bool_decide (nm = cstr ".."))%bool then read_loop rec n p l else
      let buf := p ++ nm in
      match open n buf with
      | None => println (cstr "find: cannot stat %s") buf >> read_loop rec n p l
      | Some _ =>
          kwhen (bool_decide (nm = target)) (println (cstr "%s") buf) >>
          rec buf >>
          read_loop rec n p l
      end
  end.

(** [fuel]: NOFILE calls are open at once at most. *)
Fixpoint find (fuel : nat) (n : Z) (path : bytes) : M unit :=
  match fuel with
  | O => kfuel
  | S fuel =>
      match open n path with
      | None => User.fprintf 2 (cstr "find: cannot open %s" ++ nl) [VStr (Some path)]
      | Some st =>
          if type st =? T_FILE then
            kwhen (bool_decide (filename path = target)) (println (cstr "%s") path)
          else if type st =? T_DIR then
            if 512 <? Z.of_nat (length path) + 1 + DIRSIZ + 1 then
              User.printf (cstr "find: path too long" ++ nl) []
            else read_loop (find fuel (n + 1)) (n + 1) (path ++ [slash]) (entries st)
          else kret tt
      end
  end.

End find.

Definition main (fs : bytes -> option inode) (argv : list bytes) : K User.out unit :=
  match argv with
  | [_; path; target] => find fs target (Z.to_nat NOFILE) 3 path
  | _ => User.fprintf 2 (cstr "find: arguments needed" ++ nl) []
  end.

(** ** The tree below a path *)

Inductive tree := TFile | TDev | TDir (l : list (bytes * tree)).

Definition dirent_name (de : dirent) : option bytes :=
  let nm := until_nul (take (Z.to_nat DIRSIZ) (name de)) in
  if ((inum de =? 0) || bool_decide (nm = cstr ".") || bool_decide (nm = cstr ".."))%bool
  then None else Some nm.

Definition child (path nm : bytes) : bytes := (path ++ [slash]) ++ nm.

(** What the file system has at [path] is [t]. *)
Fixpoint shows (fs : bytes -> option inode) (path : bytes) (t : tree) : Prop :=
  match t with
  | TFile => exists e, fs path = Some (In T_FILE e)
  | TDev => exists ty e, fs path = Some (In ty e) /\ ty <> T_FILE /\ ty <> T_DIR
  | TDir l =>
      (exists e, fs path = Some (In T_DIR e) /\ omap dirent_name e = map fst l) /\
      (fix all (l : list (bytes * tree)) : Prop :=
         match l with
         | [] => True
         | (nm, c) :: l => shows fs (child path nm) c /\ all l
         end) l
  end.

(** Everything below [path], in the order of the directories: path, name, and what it is. *)
Fixpoint listing (path : bytes) (t : tree) : list (bytes * bytes * tree) :=
  match t with
  | TDir l =>
      (fix go (l : list (bytes * tree)) : list (bytes * bytes * tree) :=
         match l with
         | [] => []
         | (nm, c) :: l => (child path nm, nm, c) :: listing (child path nm) c ++ go l
         end) l
  | _ => []
  end.

(** The lines for an entry: a file is printed by the loop over its directory and
    again by the call of [find] for it. *)
Definition hit (target : bytes) (x : bytes * bytes * tree) : list bytes :=
  let '(path, nm, c) := x in
  if decide (nm = target) then match c with TFile => [path; path] | _ => [path] end else [].

(** Names have no slash, paths fit in [buf], and the
    descriptors suffice. *)
Definition path_ok (b : bytes) : Prop := Forall (fun c => 0 < c < 256) b.
Definition name_ok (b : bytes) : Prop := path_ok b /\ slash ∉ b.

Fixpoint fits (n : Z) (path : bytes) (t : tree) : Prop :=
  n < NOFILE /\
  match t with
  | TDir l =>
      Z.of_nat (length path) + 1 + DIRSIZ + 1 <= 512 /\
      (l <> [] -> n + 1 < NOFILE) /\
      (fix all (l : list (bytes * tree)) : Prop :=
         match l with
         | [] => True
         | (nm, c) :: l => (name_ok nm /\ fits (n + 1) (child path nm) c) /\ all l
         end) l
  | _ => True
  end.

(** ** What is printed *)

Definition shown (l : list bytes) : User.out := map (pair 1) (concat (map (fun p => p ++ nl) l)).

Lemma shown_app l1 l2 : shown (l1 ++ l2) = shown l1 ++ shown l2.
Proof. unfold shown; by rewrite map_app, concat_app, map_app. Qed.

Lemma emit_str_run s o :
  path_ok s -> emit_str (User.putc 1) s o = Ret tt (o ++ map (pair 1) s).
Proof.
  intros Hs; revert o; induction Hs as [|c s Hc _ IH]; intros o; cbn [emit_str map].
  - by rewrite app_nil_r.
  - rewrite (proj2 (Z.eqb_neq c 0)) by lia; unfold User.putc at 1; kred.
    rewrite u8_small by lia; rewrite IH; by rewrite <- app_assoc.
Qed.

Lemma println_run s o : path_ok s -> println (cstr "%s") s o = Ret tt (o ++ shown [s]).
Proof.
  intros Hs; transitivity (kbind (kbind (emit_str (User.putc 1) s) (fun _ => kret []))
    (fun ap => User.vprintf_loop 1 nl 0 ap) o); [reflexivity|].
  unfold kbind; rewrite emit_str_run by done.
  change (Ret tt ((o ++ map (pair 1) s) ++ map (pair 1) nl) = Ret tt (o ++ shown [s])).
  unfold shown; cbn [map concat]; by rewrite app_nil_r, map_app, app_assoc.
Qed.

Lemma nthZ_nth (d : Z) l n : nthZ d l (Z.of_nat n) = nth n l d.
Proof. unfold nthZ; rewrite (proj2 (Z.ltb_ge _ _)), Nat2Z.id by lia; done. Qed.

Lemma filename_loop_no p nm k :
  slash ∉ nm -> (k <= length nm)%nat ->
  filename_loop (p ++ [slash] ++ nm) (length p + S k) = S (length p).
Proof.
  intros Hs; induction k as [|k IH]; intros Hk.
  - replace (length p + 1)%nat with (S (length p)) by lia; cbn [filename_loop].
    rewrite nthZ_nth, app_nth2 by lia.
    by rewrite Nat.sub_diag.
  - replace (length p + S (S k))%nat with (S (length p + S k)) by lia; cbn [filename_loop].
    rewrite nthZ_nth, app_nth2 by lia.
    replace (length p + S k - length p)%nat with (S k) by lia; cbn [nth app].
    rewrite (proj2 (Z.eqb_neq _ _)); [apply IH; lia|].
    intros E; apply Hs; rewrite <- E; apply list_elem_of_In, nth_In; lia.
Qed.

Lemma filename_child path nm : slash ∉ nm -> filename (child path nm) = nm.
Proof.
  intros Hs; unfold filename, child; rewrite <- app_assoc.
  replace (length (path ++ [slash] ++ nm)) with (length path + S (length nm))%nat
    by (rewrite !length_app; cbn; lia).
  rewrite filename_loop_no by done.
  replace (S (length path)) with (length (path ++ [slash])) by (rewrite length_app; cbn; lia).
  rewrite app_assoc; apply drop_app_length.
Qed.

Lemma shows_dir fs path l :
  shows fs path (TDir l) <->
  (exists e, fs path = Some (In T_DIR e) /\ omap dirent_name e = map fst l) /\
  Forall (fun x => shows fs (child path x.1) x.2) l.
Proof.
  cbn [shows]; apply and_iff_compat_l; induction l as [|[nm c] l IH]; [naive_solver|].
  rewrite Forall_cons, IH; done.
Qed.

Lemma fits_dir n path l :
  fits n path (TDir l) <->
  n < NOFILE /\ Z.of_nat (length path) + 1 + DIRSIZ + 1 <= 512 /\ (l <> [] -> n + 1 < NOFILE) /\
  Forall (fun x => name_ok x.1 /\ fits (n + 1) (child path x.1) x.2) l.
Proof.
  cbn [fits]; do 3 apply and_iff_compat_l; induction l as [|[nm c] l IH]; [naive_solver|].
  rewrite Forall_cons, IH; done.
Qed.

Lemma listing_dir path l :
  listing path (TDir l) =
  concat (map (fun x => (child path x.1, x.1, x.2) :: listing (child path x.1) x.2) l).
Proof. cbn [listing]; induction l as [|[nm c] l IH]; [done|]; cbn; by rewrite IH. Qed.

Lemma fits_open n path t : fits n path t -> n < NOFILE.
Proof. destruct t; intros [? _]; done. Qed.

Section run.
Variable fs : bytes -> option inode.
Variable target : bytes.

Definition hits (path : bytes) (t : tree) : list bytes := concat (map (hit target) (listing path t)).

(** What the call of [find] for [path] prints for [path] itself. *)
Definition self (path : bytes) (t : tree) : list bytes :=
  match t with TFile => if decide (filename path = target) then [path] else [] | _ => [] end.

Lemma hit_self path nm c :
  slash ∉ nm ->
  hit target (child path nm, nm, c) =
  (if decide (nm = target) then [child path nm] else []) ++ self (child path nm) c.
Proof.
  intros Hs; unfold hit, self; rewrite filename_child by done.
  destruct (decide (nm = target)), c; done.
Qed.

Lemma loop_run rec n path : path_ok path ->
  forall e l o,
  n < NOFILE \/ l = [] ->
  omap dirent_name e = map fst l ->
  Forall (fun x => name_ok x.1 /\ is_Some (fs (child path x.1)) /\
    forall o, rec (child path x.1) o = Ret tt (o ++ shown (self (child path x.1) x.2 ++ hits (child path x.1) x.2))) l ->
  read_loop fs target rec n (path ++ [slash]) e o = Ret tt (o ++ shown (hits path (TDir l))).
Proof.
  intros Hp; induction e as [|de e IH]; intros l o Hn He Hl.
  - destruct l; [|done]; cbn; by rewrite app_nil_r.
  - cbn [omap list_omap] in He; cbn [read_loop]; unfold dirent_name in He.
    set (nm := until_nul (take (Z.to_nat DIRSIZ) (name de))) in *.
    destruct (inum de =? 0); cbn [orb] in He; [by apply IH|].
    destruct (bool_decide (nm = cstr ".") || bool_decide (nm = cstr ".."))%bool; [by apply IH|].
    destruct l as [|[nm' c] l]; cbn [map fst] in He; [done|]; injection He as <- He.
    apply Forall_cons in Hl as [([Hnm1 Hnm2] & [st Hst] & Hrec) Hl]; cbn [fst snd] in *.
    destruct Hn as [Hn|]; [|done].
    unfold open; rewrite (proj2 (Z.ltb_lt n NOFILE) Hn); fold (child path nm); rewrite Hst.
    assert (path_ok (child path nm)) as Hok.
    { unfold child, path_ok; rewrite !Forall_app; split_and!; try done; repeat constructor; lia. }
    assert (E : hits path (TDir ((nm, c) :: l)) =
      ((if decide (nm = target) then [child path nm] else []) ++
       (self (child path nm) c ++ hits (child path nm) c)) ++ hits path (TDir l)).
    { unfold hits; rewrite !listing_dir; cbn [map concat fst snd].
      rewrite map_app, concat_app; cbn [map concat]; by rewrite hit_self, <- !app_assoc. }
    rewrite E; clear E; unfold kbind, kwhen.
    destruct (decide (nm = target)) as [Ht|Ht].
    + rewrite bool_decide_eq_true_2, println_run, Hrec, (IH l) by auto.
      by rewrite !shown_app, !app_assoc.
    + rewrite bool_decide_eq_false_2 by done; unfold kret; rewrite Hrec, (IH l) by auto.
      by rewrite !shown_app, !app_assoc, app_nil_r.
Qed.

Lemma find_run fuel : forall n path t o,
  shows fs path t -> fits n path t -> path_ok path -> NOFILE - n < Z.of_nat fuel ->
  find fs target fuel n path o = Ret tt (o ++ shown (self path t ++ hits path t)).
Proof.
  induction fuel as [|fuel IH]; intros n path t o Hsh Hf Hp Hfuel;
    pose proof (fits_open _ _ _ Hf) as Hn; [lia|].
  cbn [find]; unfold open; rewrite (proj2 (Z.ltb_lt n NOFILE) Hn).
  destruct t as [| |l].
  - destruct Hsh as [e ->]; cbn [type self]; change (T_FILE =? T_FILE) with true; cbv iota.
    unfold hits; cbn [listing map concat]; rewrite app_nil_r; unfold kwhen.
    destruct (decide (filename path = target)) as [Ht|Ht].
    + rewrite bool_decide_eq_true_2 by done; by apply println_run.
    + rewrite bool_decide_eq_false_2 by done; cbn; by rewrite app_nil_r.
  - destruct Hsh as (ty & e & -> & H1 & H2); cbn [type].
    rewrite (proj2 (Z.eqb_neq _ _) H1), (proj2 (Z.eqb_neq _ _) H2); cbn; by rewrite app_nil_r.
  - apply shows_dir in Hsh as [(e & -> & He) Hsh]; apply fits_dir in Hf as (_ & Hlen & Hne & Hf).
    cbn [type entries]; change (T_DIR =? T_FILE) with false; change (T_DIR =? T_DIR) with true; cbv iota.
    rewrite (proj2 (Z.ltb_ge _ _) Hlen); cbn [self app].
    apply loop_run; try done.
    + destruct l; [by right|left; by apply Hne].
    + apply Forall_forall; intros [nm c] Hin; rewrite Forall_forall in Hsh, Hf.
      destruct (Hf _ Hin) as [Hnm Hfc]; specialize (Hsh _ Hin); cbn [fst snd] in *.
      split_and!; [done| |].
      * destruct c; cbn [shows] in Hsh; naive_solver.
      * intros o'; apply IH; try done; [|lia].
        destruct Hnm; unfold child, path_ok; rewrite !Forall_app; split_and!; try done.
        repeat constructor; lia.
Qed.
End run.

(** C40: for a directory [path] of a file system with names without slashes, paths that
    fit the buffer of 512 bytes and directories not nested deeper than the descriptors of
    a process allow, find returns and prints exactly the paths of the
    entries below it whose name is [target], in the order of the directories: a directory or
    device once, a file twice (by the loop that finds the entry and again by the
    call for the file). *)
Theorem find_correct fs cmd path target l :
  shows fs path (TDir l) -> fits 3 path (TDir l) -> path_ok path ->
  main fs [cmd; path; target] [] = Ret tt (shown (concat (map (hit target) (listing path (TDir l))))).
Proof. intros Hs Hf Hp; apply (find_run fs target (Z.to_nat NOFILE) 3 path _ [] Hs Hf Hp); lia. Qed.

(** /a is a directory with a file x, and /x is a file. *)
Definition pad (b : bytes) : bytes := b ++ replicate (14 - length b) 0.
Definition wit_fs (p : bytes) : option inode :=
  if decide (p = cstr "/") then
    Some (In T_DIR [De 1 (pad (cstr ".")); De 1 (pad (cstr "..")); De 2 (pad (cstr "a")); De 0 (pad (cstr "x"));
                    De 3 (pad (cstr "x"))])
  else if decide (p = cstr "//a") then
    Some (In T_DIR [De 2 (pad (cstr ".")); De 1 (pad (cstr "..")); De 4 (pad (cstr "x"))])
  else if decide (p = cstr "//a/x") then Some (In T_FILE [])
  else if decide (p = cstr "//x") then Some (In T_FILE [])
  else None.
Definition wit_tree : list (bytes * tree) := [(cstr "a", TDir [(cstr "x", TFile)]); (cstr "x", TFile)].

Lemma find_correct_witness :
  main wit_fs [cstr "find"; cstr "/"; cstr "x"] [] =
  Ret tt (shown [cstr "//a/x"; cstr "//a/x"; cstr "//x"; cstr "//x"]).
Proof.
  apply (find_correct wit_fs (cstr "find") (cstr "/") (cstr "x") wit_tree).
  - cbn; repeat split; try (eexists; repeat split; vm_compute; reflexivity).
  - cbn; unfold NOFILE, DIRSIZ, name_ok, path_ok; repeat split; try lia; try (cbn; lia);
      repeat constructor; try (vm_compute; set_solver).
  - repeat constructor.
Defined.
